(* ===== verification/_CoqProject ===== *)
-Q . S2P
Prelude.v
Format.v
Layout.v
MemWriter.v
DirSection.v
Driver.v
DumpPlan.v
Slots.v
Ensures.v
DumpStages.v
RustStr.v
Text.v
Errors.v
Os.v
MemReader.v
ModuleReader.v
ElfLayout.v
ModuleReaderSpec.v
MapsReader.v
MapsReaderSpec.v
Auxv.v
Arch.v
Contexts.v
ThreadInfo.v
CpuInfo.v
X86_64.v
X86_32.v
ArmCpuInfo.v
ArmArch.v
UnitTests.v
PtraceDumper.v
Android.v
StackSpec.v
SanitizeSpec.v
SuspendSpec.v
Config.v
Streams.v
ThreadListStream.v
MappingsStream.v
DsoDebug.v
DsoSpec.v
MinidumpWriter.v
StreamSpec.v
DumpSpec.v
DumpLife.v
ModuleListSpec.v
StreamContents.v
SectionSpec.v
MemoryBlocks.v
MemoryList.v
ThreadListSpec.v
DumpContents.v
AnyDestination.v
DumpTarget.v
AndroidDump.v
Mach.v
TaskDumper.v
MacConfig.v
MacCpus.v
MacStreams.v
MacModules.v
MacWriter.v
MacSpec.v
MacImages.v
MacContents.v
MacStreamSpec.v
MacModuleSpec.v
MacDump.v
WindowsWriter.v
