(* ===== verification/Prelude.v ===== *)
(** * minidump-writer: a verification library

    The crate minidump-writer as definitions that run, with the theorems that
    make it correct: the Linux writer (src/src/linux/), the macOS writer
    (src/src/mac/), the Windows writer (src/src/windows/) and what they share
    (src/src/mem_writer.rs, src/src/dir_section.rs).  The program looks at
    another process, its threads, modules and memory, and writes a minidump: a
    header, a directory and the streams the directory points to.

    ** The program and its parts

    On Linux [MinidumpWriter::dump] creates a [PtraceDumper] (which stops the
    process, enumerates its threads and mappings and reads its auxiliary vector),
    attaches to the threads, and calls [generate_dump].  That lays out header and
    directory in a growing [Buffer] and runs the stream writers in a fixed order;
    after each of them [DirSection::write_to_file] patches the new directory
    entry into the destination and appends what the buffer gained.  On every exit
    the dumper is dropped, which detaches from the threads and continues the
    process.  The streams read the process through [MemReader], the modules of
    the process through [ModuleReader], and the registers through the code of the
    target architecture.

    On macOS [MinidumpWriter::dump] runs seven or eight stream writers over a
    [TaskDumper], which asks the Mach kernel for memory, regions, threads and
    loaded images; buffer and directory are the same.  On Windows the system
    writes the dump itself: the writer captures a thread, opens the process and
    calls [MiniDumpWriteDump].

    ** Files

    Shared:
    - Prelude: this header, the target (pointer width, build profile, whether it
      is Android), machine integers, results with panics ([res]), the state monad [ST], byte lists.
    - RustStr: the string, path, UTF-8 and number functions of the Rust library
      that the sources call.
    - MemWriter: src/src/mem_writer.rs.  DirSection: src/src/dir_section.rs.
    - Driver: how a writer, its directory and its buffer are threaded through a
      dump.  DumpPlan: the rules for reasoning about a dump that is flushed
      stream by stream, over a plan of its streams ([StreamPlan]), of which
      DumpSpec and MacSpec give the Linux and the macOS instance.
    - Slots: bytes that stay where they were written, and loops that fill the
      slots of an array.  Ensures: runs that return as long as the buffer stays
      small.  DumpStages: how the contents of the streams, and the success of their
      writers, add up to those of the dump, on Linux and on macOS.  Text: what decoding gives to the string writer.

    Interfaces (classes) for code that is not in the repository:
    - Format, Contexts: the records of minidump-common and their serialization by
      scroll ([Pod], [Format]; laws [PodOk], [FormatOk]).  Layout is an instance.
    - Os: file system, memory access and clock; [Procfs] and [Kernel] in
      PtraceDumper, the latter over an explicit kernel state with the contract
      [KernelOk] in SuspendSpec.
    - [LateInit] in PtraceDumper: what the last step of the initialisation does on
      the system of the build; instances for Linux (nothing) and, in Android, for
      the build at hand.
    - [Goblin] in ModuleReader, with the instance of ElfLayout; [AndroidElf] in
      Android; [Destination] in DirSection (Write + Seek), with the contract
      [DestinationOk] for the calls that succeed and [DestinationFails] in
      AnyDestination for those that fail; instances are an in-memory file and a
      disk that runs full.
    - [Mach] in Mach: the kernel calls of macOS, with the contract [MachOk] in
      TaskDumper; [Windows] in WindowsWriter, over an explicit state of the
      system, with the contract [WindowsOk].
    - Arch: what one processor provides on Linux; instances in X86_64, X86_32 and
      ArmArch (both ARM variants).  [MacCpu] in MacConfig: the same for macOS;
      instances in MacCpus.

    Linux:
    - Errors: the enums of src/src/linux/errors.rs and the mapping records.
    - MemReader, ModuleReader (+ ModuleReaderSpec), MapsReader
      (+ MapsReaderSpec), Auxv, DsoDebug: the files of those names in
      src/src/linux/.
    - PtraceDumper: src/src/linux/ptrace_dumper.rs, with its theory in SuspendSpec
      (stopping, attaching, detaching), StackSpec (finding mappings and stacks)
      and SanitizeSpec (the stack sanitizer, the order of the modules).
    - Android: src/src/linux/android.rs.
    - ThreadInfo, X86_64, X86_32, ArmArch: src/src/linux/thread_info.rs,
      thread_info/ and crash_context/.  CpuInfo, ArmCpuInfo: dumper_cpu_info.rs,
      dumper_cpu_info/x86_mips.rs and dumper_cpu_info/arm.rs.
    - Config: the fields and setters of [MinidumpWriter].
    - Streams, ThreadListStream, MappingsStream: src/src/linux/sections/.
    - MinidumpWriter: [generate_dump] and [dump].
    - The theory of the streams: StreamSpec (where they lie), ThreadListSpec,
      ModuleListSpec, DsoSpec, StreamContents and SectionSpec (what they contain
      and when their writers succeed), MemoryBlocks and MemoryList.
    - The theory of a whole dump: DumpSpec (a destination that accepts every call,
      for every outcome of the stream writers), AnyDestination (a destination that
      may fail), DumpLife (calls of kill(2), tracing, the returned bytes),
      DumpContents (what a dump says, and when it succeeds), DumpTarget (the same for [dump], from stopping
      the process to letting it go), AndroidDump (the same for Android, where the
      mappings of packed libraries are moved in between).
    - UnitTests: the unit tests of maps_reader.rs, module_reader.rs and
      dumper_cpu_info/arm.rs, run on the model ([unit_tests_pass]).

    macOS and Windows:
    - Mach: src/src/mac/mach.rs.  TaskDumper: src/src/mac/task_dumper.rs.
    - MacConfig: the writer and its thread list (src/src/mac/minidump_writer.rs,
      src/src/mac/errors.rs).  MacCpus: what depends on the processor.
    - MacStreams, MacModules: src/src/mac/streams/.  MacWriter: [dump].
    - MacSpec (the dump on disk), MacImages and MacContents (the order of the
      modules, stacks, exceptions, times), MacStreamSpec and MacModuleSpec (what
      each stream contains and when its writer succeeds), MacDump (the same for a
      whole dump): the theory.
    - WindowsWriter: src/src/windows/.

    A Rust function [f] of a component is the definition [f] of its file; where
    two share a name the type or the system is put in front ([DirSection_new],
    [pm_read], [x86_create_impl]); a loop of a function is a definition of its
    own, named after what it does.

    ** State, errors, integers

    A method on [&mut self] is a function in [ST S E]: from a state to a result
    and the state after it, on errors too, so that what a failed call has left
    behind is visible.  [res E A] has three outcomes: [Ok], [Err] and [Panic]
    (an explicit panic, a failed slice or index, an overflow in a build that
    checks, a read outside an allocation).  Integers are [Z] at their width:
    [wrap] and [swrap] are [as] casts, [add_u] and [sub_u] panic or wrap with
    the build profile, and every theorem that does not fix the profile holds for
    both.  Offsets into vectors are [nat].  Memory is little-endian.

    ** What is shown

    - The dump on disk (DumpSpec, MacSpec, DirSection): on a destination on which
      every call succeeds, for every outcome of the stream writers, failures and
      panics included, the destination holds its earlier bytes, a complete header
      and a directory whose entries, in the fixed order, have the right type and
      lie inside the dump; a successful run wrote the whole buffer.  On macOS this
      asks for a build that checks overflow or a task whose threads can be listed.
    - Any destination (AnyDestination): whichever call on the destination fails,
      what stood before the dump is untouched, and the run is that on the file
      shown by the destination up to the first failure, which is reported unless
      it belongs to the last, optional flush.
    - What a dump says (DumpContents, over ThreadListSpec, ModuleListSpec, DsoSpec,
      StreamContents and SectionSpec; MacDump, over MacStreamSpec and
      MacModuleSpec): in every dump that returns (on macOS: of a task whose threads
      can be listed, the handler thread unknown or one of them), each stream
      describes its part of the process, at the place the directory gives, and the streams agree with
      each other: the exception points to the registers of the blamed thread,
      every stack is in the memory list.
    - Success (DumpContents, DumpTarget, AndroidDump, MacDump): the conditions
      [orderly] and [mac_orderly] on the process (registers, stacks, names,
      modules, loaded objects, files) under which neither an error nor a panic is
      possible in any build, and with it the dump from end to end; on Android the
      modules keep their ends however far their starts are moved.
    - The life cycle (DumpLife, SuspendSpec): whatever happens, kill(2) is called
      exactly twice, with SIGSTOP and then with SIGCONT for the target (the calls
      may fail); dropping the dumper detaches from every thread it kept, and none
      of them stays traced unless a detach fails for a thread that is still there;
      a successful dump returns the bytes it wrote.  On Windows every handle is
      closed, a suspended thread is resumed unless that call fails, and the dump
      has the registers of the thread that was named (WindowsWriter).
    - The buffer (MemWriter): each write changes exactly its slot, arrays are laid
      out as reported, strings read back.
    - Contents on Linux (MemoryBlocks, MemoryList, CpuInfo, ArmCpuInfo, X86_64,
      X86_32, ArmArch, ThreadInfo): the recorded memory blocks and the list of
      them, the processor description and the register contexts.
    - Contents on macOS (MacContents, MacImages, MacCpus, MacConfig): stacks,
      exception, module records and their order, processor features, times.
    - The dumper's questions (MapsReaderSpec, StackSpec, SanitizeSpec, Android):
      modules partition the mapped addresses, the stack block is that of the
      first page that may be a stack, inside one module, the sanitizer equals its plain specification, relocated mappings
      keep their ends.
    - Reading (MemReader, ModuleReaderSpec, Auxv, TaskDumper, Mach): every way of
      reading gives the memory of the process; module parsing never panics in
      release builds on arbitrary bytes; auxv decoding does not depend on
      fragmentation; load commands read back as they were laid out.
    - Deviations found on the way are theorems as well, among them the guard-page
      walk that wraps around, the version parser that cuts a character in two,
      the thread names written to the wrong slots, the limited stack that ends
      below the stack pointer (a panic when it is sanitized), the list of loaded
      objects that is followed around a cycle, the blocks a second dump repeats,
      the packed Android library that is lost when it cannot be read where it was
      moved, the thread that stays traced when PTRACE_CONT fails, the tag word of
      the extended registers, the small negative integers that the sanitizer
      overwrites, the flush whose error is dropped, the ARM processor description that recognises no line of /proc/cpuinfo, the load
      commands that are read out of bounds and the thread count that underflows.

    ** Bounds and fuel

    Loops the source bounds itself are structural, or run on a fuel computed from
    their input with a lemma that it is enough (stack scan, UTF-8 decoding,
    dynamic section, auxv pairs, guard pages: a mebibyte of pages, load commands:
    their count).  Loops that follow the outside world without a bound (waiting
    for a thread or the stop of the process, the link map of the process, the
    abutting stack regions of a macOS thread) take [fuel] as an argument; running
    out is [Panic], the outcome of every run that does not return (the walk over
    the link map, [link_walk], also tells where it was stopped), and the
    theorems about whole dumps quantify over the fuel and speak about that
    outcome too; for the stack regions MacContents shows that enough fuel exists.
    Theorems about locations assume a dump below 4 GiB, the limit of the format's
    32-bit offsets.

    ** Assumptions

    While the process is stopped the answers of the system do not change: [Os],
    [Procfs] and [Mach] are functions.  Copies of C structures out of process
    memory are taken to be aligned, as the sources assert.  Logging is left out.

    ** Not modelled

    src/src/linux/thread_info/mips.rs, which no build compiles; the declarations
    of src/src/windows/ffi.rs the writer does not use; module declarations and
    re-exports; the test programs, and the unit test of
    src/src/mac/streams/module_list.rs, which compares with the running system. *)
From Stdlib Require Import ZArith Lia.
From stdpp Require Export base list list_numbers numbers option sets.
From coqutil Require Export Byte Word.LittleEndianList.

(** ** Target: pointer width, build profile and system

    [pointer_width] is Rust's [target_pointer_width] and [overflow_checks] the
    codegen option of the same name: with it, an arithmetic overflow panics
    (debug builds), without it, it wraps (release builds).  [target_android] is
    the condition target_os = android.  Every theorem that does not fix them holds
    for all combinations. *)
Inductive width := W32 | W64.

Class Target := {
  pointer_width : width;
  overflow_checks : bool;
  target_android : bool;
}.

Definition size_of_usize `{Target} : nat :=
  match pointer_width with W32 => 4 | W64 => 8 end.

Definition usize_bits `{Target} : Z :=
  match pointer_width with W32 => 32 | W64 => 64 end.

Definition usize_max `{Target} : Z := (2 ^ usize_bits - 1)%Z.

(** [x as uN]: truncation to [bits] bits. *)
Definition wrap (bits x : Z) : Z := (x mod 2 ^ bits)%Z.

(** [x as iN]: reinterpretation of the low [bits] bits as two's complement. *)
Definition swrap (bits x : Z) : Z :=
  let w := wrap bits x in
  if (w <? 2 ^ (bits - 1))%Z then w else (w - 2 ^ bits)%Z.

Definition in_bits (bits x : Z) : Prop := (0 <= x < 2 ^ bits)%Z.

#[export] Instance in_bits_dec bits x : Decision (in_bits bits x).
Proof. unfold in_bits. apply _. Defined.

#[export] Instance byte_eq_dec : EqDecision byte.
Proof. intros x y. destruct (Byte.byte_eq_dec x y); [left|right]; done. Defined.

#[export] Instance byte_inhabited : Inhabited byte := populate Byte.x00.

#[export] Instance width_eq_dec : EqDecision width.
Proof. solve_decision. Defined.

(** ** Outcomes

    [Ok] and [Err] are the two constructors of Rust's [Result]; [Panic] is an
    unwinding panic (index out of range, [unwrap] on [None], an overflow
    caught by [overflow_checks]), which no caller in this program catches. *)
Inductive res (E A : Type) :=
  | Ok (a : A)
  | Err (e : E)
  | Panic.
Arguments Ok {E A} a.
Arguments Err {E A} e.
Arguments Panic {E A}.

#[export] Instance res_ret E : MRet (res E) := fun A a => Ok a.

#[export] Instance res_bind E : MBind (res E) := fun A B f m =>
  match m with Ok a => f a | Err e => Err e | Panic => Panic end.

#[export] Instance res_fmap E : FMap (res E) := fun A B f m =>
  match m with Ok a => Ok (f a) | Err e => Err e | Panic => Panic end.

(** [Result::map_err], and the [From] conversion of the [?] operator. *)
Definition map_err {E E' A} (f : E -> E') (m : res E A) : res E' A :=
  match m with Ok a => Ok a | Err e => Err (f e) | Panic => Panic end.

(** [Option::ok_or] *)
Definition ok_or {E A} (o : option A) (e : E) : res E A :=
  match o with Some a => Ok a | None => Err e end.

(** [Option::unwrap], and an index out of range. *)
Definition or_panic {E A} (o : option A) : res E A :=
  match o with Some a => Ok a | None => Panic end.

(** [Result::ok] followed by a use of the option: a panic stays a panic. *)
Definition res_ok {E E' A} (m : res E A) : res E' (option A) :=
  match m with Ok a => Ok (Some a) | Err _ => Ok None | Panic => Panic end.

(** [Result::or_else] with a continuation that reads the error. *)
Definition or_else {E E' A} (m : res E A) (f : E -> res E' A) : res E' A :=
  match m with Ok a => Ok a | Err e => f e | Panic => Panic end.

(** [std::io::Error]: the errno of a failed system call, or an error the
    library makes up itself. *)
Inductive IoError :=
  | OsError (errno : Z)
  | WriteZero
  | UnexpectedEof
  | IoOther.

Definition raw_os_error (e : IoError) : option Z :=
  match e with OsError n => Some n | _ => None end.

(** [nix::Error], by its errno. *)
Definition Errno := Z.
Definition ESRCH : Errno := 3%Z.
Definition EINTR : Errno := 4%Z.
Definition E2BIG : Errno := 7%Z.
Definition ENOMEM : Errno := 12%Z.
Definition EACCES : Errno := 13%Z.
Definition EINVAL : Errno := 22%Z.
Definition EOVERFLOW : Errno := 75%Z.
Definition UnknownErrno : Errno := 0%Z.

(** A process or thread id ([i32]). *)
Definition Pid := Z.

(** An error value of another crate (goblin, procfs-core, the integer
    conversions); the sources only carry it. *)
Inductive ForeignError := mkForeignError (id : Z).

(** Code that mutates a place of type [S] and may fail.  The state is
    returned in every case: a mutation made before an early return stays. *)
Definition ST (St E A : Type) : Type := St -> res E A * St.

#[export] Instance ST_ret St E : MRet (ST St E) := fun A a s => (Ok a, s).

#[export] Instance ST_bind St E : MBind (ST St E) := fun A B f m s =>
  match m s with
  | (Ok a, s') => f a s'
  | (Err e, s') => (Err e, s')
  | (Panic, s') => (Panic, s')
  end.

Definition st_get {St E} : ST St E St := fun s => (Ok s, s).
Definition st_put {St E} (s : St) : ST St E unit := fun _ => (Ok tt, s).
Definition st_modify {St E} (f : St -> St) : ST St E unit := fun s => (Ok tt, f s).

(** A fallible computation that does not touch the state. *)
Definition st_lift {St E A} (m : res E A) : ST St E A := fun s => (m, s).

Definition st_map_err {St E E' A} (f : E -> E') (m : ST St E A) : ST St E' A :=
  fun s => let '(r, s') := m s in (map_err f r, s').

(** Run [m] on a part of the state, given by a getter and a setter. *)
Definition st_zoom {St T E A} (get : St -> T) (set : T -> St -> St) (m : ST T E A)
    : ST St E A :=
  fun s => let '(r, t) := m (get s) in (r, set t s).

(** The result of [m] as a value, for [match m() { Ok(..) .. Err(..) .. }]. *)
Definition st_try {St E E' A} (m : ST St E A) : ST St E' (E + A) := fun s =>
  match m s with
  | (Ok a, s') => (Ok (inr a), s')
  | (Err e, s') => (Ok (inl e), s')
  | (Panic, s') => (Panic, s')
  end.

(** [for x in l { body }]; the first early return ends the loop. *)
Fixpoint st_for {St E A} (l : list A) (body : A -> ST St E unit) : ST St E unit :=
  match l with
  | [] => mret tt
  | x :: l' => body x ;; st_for l' body
  end.

(** [for (i, x) in l.enumerate() { body }], counting from [i]. *)
Fixpoint st_for_enum {St E A} (i : nat) (l : list A) (body : nat -> A -> ST St E unit)
    : ST St E unit :=
  match l with
  | [] => mret tt
  | x :: l' => body i x ;; st_for_enum (S i) l' body
  end.

(** ** Machine arithmetic

    The three operators as the compiled code has them: the mathematical result
    when it fits, and otherwise a panic or the wrapped result, by profile.  The
    operands are unsigned values of the width, so a difference can only leave
    it from below. *)
Definition checked {E} `{Target} (bits x : Z) : res E Z :=
  if (0 <=? x)%Z && (x <? 2 ^ bits)%Z then Ok x
  else if overflow_checks then Panic else Ok (wrap bits x).

Definition add_u {E} `{Target} (bits a b : Z) : res E Z := checked bits (a + b).
Definition sub_u {E} `{Target} (bits a b : Z) : res E Z :=
  if (b <=? a)%Z then Ok (a - b)%Z
  else if overflow_checks then Panic else Ok (wrap bits (a - b)).
Definition mul_u {E} `{Target} (bits a b : Z) : res E Z := checked bits (a * b).

(** [usize::saturating_sub], [usize::saturating_add]. *)
Definition saturating_sub (a b : Z) : Z := Z.max 0 (a - b).
Definition saturating_add `{Target} (a b : Z) : Z := Z.min usize_max (a + b).

(** ** Slices of byte vectors *)

(** [&l[i..j]] as a value; [None] is the out-of-range panic. *)
Definition slice {A} (i j : nat) (l : list A) : option (list A) :=
  if decide (i <= j /\ j <= length l) then Some (take (j - i) (drop i l)) else None.

(** The vector after [l[i..i + bs.len()].copy_from_slice(bs)]. *)
Definition splice {A} (i : nat) (bs l : list A) : list A :=
  take i l ++ bs ++ drop (i + length bs) l.

(** [Vec::resize(n, 0)] *)
Definition vec_resize (n : nat) (l : list byte) : list byte :=
  take n l ++ replicate (n - length l) Byte.x00.

(** The sub-vector of length [n] at [i], when it lies inside [l]. *)
Definition bytes_at {A} (i n : nat) (l : list A) : list A := take n (drop i l).

(** [l.chunks_exact(n)] and its remainder, for [n > 0]. *)
Fixpoint chunks_exact_fuel {A} (fuel n : nat) (l : list A) : list (list A) * list A :=
  match fuel with
  | O => ([], l)
  | S fuel' =>
      if decide (n <= length l) then
        let '(cs, r) := chunks_exact_fuel fuel' n (drop n l) in (take n l :: cs, r)
      else ([], l)
  end.

Definition chunks_exact {A} (n : nat) (l : list A) : list (list A) * list A :=
  chunks_exact_fuel (length l) n l.

(** ** Lemmas *)

Create HintDb mdw.

Lemma wrap_swrap a b x : (0 <= a <= b)%Z -> wrap a (swrap b x) = wrap a x.
Proof.
  intros [Ha Hab]. unfold swrap, wrap.
  assert (Hd : forall k, ((x mod 2 ^ b - k * 2 ^ b) mod 2 ^ a)%Z = (x mod 2 ^ a)%Z).
  { intros k. replace (2 ^ b)%Z with (2 ^ (b - a) * 2 ^ a)%Z by (rewrite <- Z.pow_add_r; f_equal; lia).
    assert (0 < 2 ^ a)%Z by lia. assert (0 < 2 ^ (b - a))%Z by lia.
    rewrite Z.mul_assoc, <- Z.add_opp_r, <- Z.mul_opp_l, Z.mod_add by lia.
    rewrite (Z.mul_comm (2 ^ (b - a))), Z.rem_mul_r by lia.
    by rewrite (Z.mul_comm (2 ^ a)), Z.mod_add, Z.mod_mod by lia. }
  case_match; [rewrite <- (Hd 0%Z)|rewrite <- (Hd 1%Z)]; f_equal; lia.
Qed.

Lemma wrap_small bits x : in_bits bits x -> wrap bits x = x.
Proof. intros Hx. unfold wrap. by apply Z.mod_small. Qed.

Lemma wrap_in_bits bits x : (0 <= bits)%Z -> in_bits bits (wrap bits x).
Proof. intros Hb. unfold in_bits, wrap. apply Z.mod_pos_bound. lia. Qed.

Lemma checked_fits {E} `{Target} bits x :
  in_bits bits x -> checked (E := E) bits x = Ok x.
Proof.
  intros [Hl Hu]. unfold checked.
  by rewrite (proj2 (Z.leb_le 0 x) Hl), (proj2 (Z.ltb_lt x _) Hu).
Qed.

Lemma checked_in_bits {E} `{Target} bits x r :
  (0 <= bits)%Z -> checked (E := E) bits x = Ok r -> in_bits bits r.
Proof.
  intros Hb. unfold checked.
  destruct (Z.leb_spec 0 x), (Z.ltb_spec x (2 ^ bits)); simpl; intros Hr;
    try (injection Hr as <-; unfold in_bits; lia);
    destruct overflow_checks; simplify_eq; by apply wrap_in_bits.
Qed.

Lemma add_u_ok {E} `{Target} bits a b : in_bits bits (a + b) -> add_u (E := E) bits a b = Ok (a + b)%Z.
Proof. apply checked_fits. Qed.

Lemma sub_u_ok {E} `{Target} bits a b :
  (b <= a)%Z -> sub_u (E := E) bits a b = Ok (a - b)%Z.
Proof. intros Hab. unfold sub_u. by rewrite (proj2 (Z.leb_le b a) Hab). Qed.

Lemma checked_release {E} `{Target} bits x :
  overflow_checks = false -> checked (E := E) bits x <> Panic.
Proof. intros Hr. unfold checked. rewrite Hr. by case_match. Qed.

Lemma sub_u_release {E} `{Target} bits a b :
  overflow_checks = false -> sub_u (E := E) bits a b <> Panic.
Proof. intros Hr. unfold sub_u. rewrite Hr. by case_match. Qed.

Lemma size_of_usize_pos `{Target} : 0 < size_of_usize.
Proof. unfold size_of_usize. destruct pointer_width; lia. Qed.

Lemma usize_bits_bytes `{Target} : usize_bits = (8 * Z.of_nat size_of_usize)%Z.
Proof. unfold usize_bits, size_of_usize. by destruct pointer_width. Qed.

Section slices.
Context {A : Type}.
Implicit Types l bs : list A.

Lemma slice_some i j l r :
  slice i j l = Some r <-> i <= j /\ j <= length l /\ r = bytes_at i (j - i) l.
Proof. unfold slice, bytes_at. case_decide; naive_solver. Qed.

Lemma slice_ok i j l :
  i <= j -> j <= length l -> slice i j l = Some (bytes_at i (j - i) l).
Proof. intros. by apply slice_some. Qed.

Lemma slice_length i j l r : slice i j l = Some r -> length r = j - i.
Proof.
  rewrite slice_some. intros (? & ? & ->). unfold bytes_at.
  rewrite length_take, length_drop. lia.
Qed.

Lemma length_bytes_at i n l : i + n <= length l -> length (bytes_at i n l) = n.
Proof. intros. unfold bytes_at. rewrite length_take, length_drop. lia. Qed.

Lemma length_splice i bs l :
  i + length bs <= length l -> length (splice i bs l) = length l.
Proof.
  intros. unfold splice. rewrite !length_app, length_take, length_drop. lia.
Qed.

Lemma bytes_at_app_l i n l l' :
  i + n <= length l -> bytes_at i n (l ++ l') = bytes_at i n l.
Proof.
  intros. unfold bytes_at. rewrite drop_app_le by lia.
  rewrite take_app_le by (rewrite length_drop; lia). done.
Qed.

Lemma bytes_at_app_r i n l l' :
  length l <= i -> bytes_at i n (l ++ l') = bytes_at (i - length l) n l'.
Proof. intros. unfold bytes_at. by rewrite drop_app_ge. Qed.

Lemma bytes_at_all n l : length l = n -> bytes_at 0 n l = l.
Proof. intros <-. unfold bytes_at. rewrite drop_0. apply firstn_all. Qed.

Lemma bytes_at_mid l bs l' n :
  n = length l -> bytes_at n (length bs) (l ++ bs ++ l') = bs.
Proof.
  intros ->. rewrite bytes_at_app_r, Nat.sub_diag, bytes_at_app_l by lia.
  by apply bytes_at_all.
Qed.

Lemma splice_splice i a b l : (i + length a + length b <= length l) ->
  splice (i + length a) b (splice i a l) = splice i (a ++ b) l.
Proof.
  intros Hl. unfold splice. rewrite !app_assoc.
  rewrite take_app_length' by (rewrite length_app, length_take; lia).
  rewrite <- !app_assoc. do 3 f_equal. rewrite app_assoc, drop_app_ge by (rewrite length_app, length_take; lia).
  rewrite drop_drop, !length_app, length_take. f_equal. lia.
Qed.

Lemma splice_nil i l : splice i [] l = l.
Proof. unfold splice. cbn. rewrite Nat.add_0_r. apply take_drop. Qed.

Lemma bytes_at_splice_same i bs l :
  i <= length l -> bytes_at i (length bs) (splice i bs l) = bs.
Proof. intros. unfold splice. apply bytes_at_mid. rewrite length_take. lia. Qed.

Lemma slice_splice_same i bs l :
  i + length bs <= length l -> slice i (i + length bs) (splice i bs l) = Some bs.
Proof.
  intros Hl. rewrite slice_ok by (rewrite ?length_splice; lia).
  replace (i + length bs - i) with (length bs) by lia.
  rewrite bytes_at_splice_same by lia. done.
Qed.

Lemma lookup_splice i bs l k :
  i + length bs <= length l ->
  splice i bs l !! k = if decide (i <= k < i + length bs) then bs !! (k - i) else l !! k.
Proof.
  intros Hl. unfold splice.
  assert (Hi : length (take i l) = i) by (rewrite length_take; lia).
  destruct (decide (k < i)) as [Hk|Hk].
  - rewrite lookup_app_l by lia. rewrite decide_False by lia.
    by rewrite lookup_take_lt by lia.
  - rewrite lookup_app_r by lia. rewrite Hi.
    destruct (decide (k < i + length bs)) as [Hk'|Hk'].
    + by rewrite decide_True, lookup_app_l by lia.
    + rewrite decide_False, lookup_app_r by lia.
      rewrite lookup_drop. f_equal. lia.
Qed.

Lemma lookup_bytes_at i n l k :
  bytes_at i n l !! k = if decide (k < n) then l !! (i + k) else None.
Proof.
  unfold bytes_at. case_decide.
  - by rewrite lookup_take_lt, lookup_drop by lia.
  - by rewrite lookup_take_ge by lia.
Qed.

Lemma bytes_at_ext i n l l' :
  (forall k, i <= k < i + n -> l !! k = l' !! k) -> bytes_at i n l = bytes_at i n l'.
Proof.
  intros Heq. apply list_eq. intros k. rewrite !lookup_bytes_at.
  case_decide; [|done]. apply Heq. lia.
Qed.

Lemma bytes_at_splice_other i bs l j n :
  i + length bs <= length l -> j + n <= i \/ i + length bs <= j ->
  bytes_at j n (splice i bs l) = bytes_at j n l.
Proof.
  intros Hl Hd. apply bytes_at_ext. intros k Hk.
  rewrite lookup_splice by done. by rewrite decide_False by lia.
Qed.

Lemma bytes_at_splice_inside i bs l j n :
  i + length bs <= n -> j + n <= length l ->
  bytes_at j n (splice (j + i) bs l) = splice i bs (bytes_at j n l).
Proof.
  intros Hi Hj. apply list_eq. intros k. rewrite lookup_bytes_at.
  rewrite !lookup_splice by (rewrite ?length_bytes_at; lia). rewrite lookup_bytes_at.
  repeat case_decide; try lia; try done. f_equal; lia.
Qed.

Lemma take_splice n i bs l : n <= i -> n <= length l -> take n (splice i bs l) = take n l.
Proof.
  intros. unfold splice. rewrite take_app_le by (rewrite length_take; lia).
  rewrite take_take. f_equal. lia.
Qed.

End slices.

Lemma splice_end {A} (bs l : list A) : splice (length l) bs l = l ++ bs.
Proof.
  unfold splice. rewrite firstn_all, drop_ge by lia. by rewrite app_nil_r.
Qed.

(** Filling the zeroed slots of an array one after the other. *)
Lemma splice_app_r {A} (bs l1 l2 : list A) n :
  n = length l1 -> splice n bs (l1 ++ l2) = l1 ++ splice 0 bs l2.
Proof.
  intros ->. unfold splice. rewrite take_app_length, drop_app_add'; [|done]. done.
Qed.

Lemma vec_resize_grow n (l : list byte) :
  length l <= n -> vec_resize n l = l ++ replicate (n - length l) Byte.x00.
Proof. intros. unfold vec_resize. by rewrite take_ge by lia. Qed.

Lemma length_vec_resize n (l : list byte) : length (vec_resize n l) = n.
Proof. unfold vec_resize. rewrite length_app, length_take, length_replicate. lia. Qed.

Lemma res_bind_ok {E A B} (m : res E A) (f : A -> res E B) b :
  m ≫= f = Ok b <-> exists a, m = Ok a /\ f a = Ok b.
Proof. destruct m; cbn; split; naive_solver. Qed.

(** *** The state-and-error monad *)

Section st.
Context {St E : Type}.

Lemma st_bind_ok {A B} (m : ST St E A) (f : A -> ST St E B) s b s' :
  (m ≫= f) s = (Ok b, s') <-> exists a s1, m s = (Ok a, s1) /\ f a s1 = (Ok b, s').
Proof.
  unfold mbind, ST_bind. destruct (m s) as [[a|e|] s1]; split; naive_solver.
Qed.

Lemma st_bind_run {A B} (m : ST St E A) (f : A -> ST St E B) s a s1 :
  m s = (Ok a, s1) -> (m ≫= f) s = f a s1.
Proof. intros Hm. unfold mbind, ST_bind. by rewrite Hm. Qed.

Lemma st_bind_assoc {A B D} (m : ST St E A) (f : A -> ST St E B) (g : B -> ST St E D) s :
  ((m ≫= f) ≫= g) s = (m ≫= fun a => f a ≫= g) s.
Proof. unfold mbind, ST_bind. by destruct (m s) as [[] ?]. Qed.

Lemma st_bind_case {A B} (m : ST St E A) (f : A -> ST St E B) s r s1 :
  m s = (r, s1) ->
  (m ≫= f) s = match r with Ok a => f a s1 | Err e => (Err e, s1) | Panic => (Panic, s1) end.
Proof. unfold mbind, ST_bind. intros ->. by destruct r. Qed.

(** [st_rel R m]: whatever the outcome of [m], the states before and after
    are related by [R].  For a preorder [R] it composes along every control
    structure of the monad, error exits included. *)
Definition st_rel (R : relation St) {A} (m : ST St E A) : Prop :=
  forall s, R s (m s).2.

Context (R : relation St) `{!PreOrder R}.

Lemma st_rel_ret {A} (a : A) : st_rel R (mret a).
Proof. intros s. reflexivity. Qed.

Lemma st_rel_lift {A} (m : res E A) : st_rel R (st_lift m).
Proof. intros s. reflexivity. Qed.

Lemma st_rel_get : st_rel R st_get.
Proof. intros s. reflexivity. Qed.

Lemma st_rel_bind {A B} (m : ST St E A) (f : A -> ST St E B) :
  st_rel R m -> (forall a, st_rel R (f a)) -> st_rel R (m ≫= f).
Proof.
  intros Hm Hf s. specialize (Hm s). unfold mbind, ST_bind.
  destruct (m s) as [[a|e|] s1]; simpl in *; [|done..].
  etransitivity; [exact Hm|]. apply Hf.
Qed.

Lemma st_rel_for {A} (l : list A) (body : A -> ST St E unit) :
  (forall x, st_rel R (body x)) -> st_rel R (st_for l body).
Proof.
  intros Hb. induction l; simpl; [apply st_rel_ret | by apply st_rel_bind].
Qed.

Lemma st_rel_for_enum {A} (l : list A) (body : nat -> A -> ST St E unit) :
  (forall i x, st_rel R (body i x)) -> forall i, st_rel R (st_for_enum i l body).
Proof.
  intros Hb. induction l; intros i; simpl; [apply st_rel_ret | by apply st_rel_bind].
Qed.

End st.

Lemma st_rel_map_err {St E E' A} (R : relation St) (f : E -> E') (m : ST St E A) :
  st_rel R m -> st_rel R (st_map_err f m).
Proof. intros Hm s. specialize (Hm s). unfold st_map_err. by destruct (m s). Qed.

Lemma st_rel_try {St E E' A} (R : relation St) (m : ST St E A) :
  st_rel R m -> st_rel R (st_try (E' := E') m).
Proof. intros Hm s. specialize (Hm s). unfold st_try. destruct (m s) as [[] ?]; done. Qed.

(** Proves [st_rel R m] for a preorder [R] by following the structure of [m];
    [leaf] proves it for the primitive steps. *)
Ltac rel_step leaf :=
  lazymatch goal with
  | |- forall _, _ => intros
  | |- PreOrder _ => apply _
  | |- st_rel _ (_ ≫= _) => apply st_rel_bind
  | |- st_rel _ (st_map_err _ _) => apply st_rel_map_err
  | |- st_rel _ (st_try _) => apply st_rel_try
  | |- st_rel _ (st_for _ _) => apply st_rel_for
  | |- st_rel _ (st_for_enum _ _ _) => apply st_rel_for_enum
  | |- st_rel _ (match ?x with _ => _ end) => destruct x
  | |- st_rel _ st_get => apply st_rel_get
  | |- st_rel _ (mret _) => apply st_rel_ret
  | |- st_rel _ (st_lift _) => apply st_rel_lift
  | |- st_rel _ _ => first [solve [leaf] | solve [eauto 2 with mdw]]
  end.
Ltac rel_tac leaf := cbv zeta; repeat rel_step leaf.

Lemma st_for_map {St E A B} (g : A -> B) (l : list A) (body : B -> ST St E unit) s :
  st_for (g <$> l) body s = st_for l (fun x => body (g x)) s.
Proof.
  revert s. induction l as [|x l IH]; intros s; [done|]. csimpl. unfold mbind, ST_bind.
  destruct (body (g x) s) as [[] ?]; [apply IH|done..].
Qed.

(** [st_safe m]: no run of [m] panics. *)
Definition st_safe {St E A} (m : ST St E A) : Prop := forall s, (m s).1 <> Panic.

Section safe.
Context {St E : Type}.

Lemma st_safe_ret {A} (a : A) : st_safe (St := St) (E := E) (mret a).
Proof. done. Qed.

Lemma st_safe_lift {A} (m : res E A) : m <> Panic -> st_safe (St := St) (st_lift m).
Proof. intros Hm s. exact Hm. Qed.

Lemma st_safe_get : st_safe (E := E) (st_get (St := St)).
Proof. done. Qed.

Lemma st_safe_bind {A B} (m : ST St E A) (f : A -> ST St E B) :
  st_safe m -> (forall a, st_safe (f a)) -> st_safe (m ≫= f).
Proof.
  intros Hm Hf s. specialize (Hm s). unfold mbind, ST_bind.
  destruct (m s) as [[a|e|] s1]; simpl in *; [apply Hf|done..].
Qed.

Lemma st_safe_try {E' A} (m : ST St E' A) : st_safe m -> st_safe (E := E) (st_try m).
Proof. intros Hm s. specialize (Hm s). unfold st_try. destruct (m s) as [[] ?]; done. Qed.

Lemma st_safe_map_err {E' A} (f : E' -> E) (m : ST St E' A) :
  st_safe m -> st_safe (st_map_err f m).
Proof. intros Hm s. specialize (Hm s). unfold st_map_err. destruct (m s) as [[] ?]; done. Qed.

Lemma st_safe_zoom {T A} (g : St -> T) (p : T -> St -> St) (m : ST T E A) :
  st_safe m -> st_safe (st_zoom g p m).
Proof. intros Hm s. specialize (Hm (g s)). unfold st_zoom. destruct (m (g s)) as [[] ?]; done. Qed.
End safe.

#[export] Hint Resolve st_safe_ret st_safe_get st_safe_bind st_safe_try st_safe_map_err
  st_safe_zoom st_rel_try : mdw.

#[export] Hint Resolve st_rel_ret st_rel_lift st_rel_get st_rel_bind st_rel_for
  st_rel_for_enum st_rel_map_err : mdw.

(** Splits hypotheses [(m ≫= f) s = (Ok b, s')] into their steps. *)
Ltac st_inv :=
  repeat match goal with
  | H : (_ ≫= _) _ = (Ok _, _) |- _ =>
      apply st_bind_ok in H; destruct H as (? & ? & ? & ?)
  | H : mret _ _ = (Ok _, _) |- _ => injection H as ?; subst
  | H : st_get _ = (Ok _, _) |- _ => injection H as ?; subst
  | H : st_put _ _ = (Ok _, _) |- _ => injection H as ?; subst
  | H : st_modify _ _ = (Ok _, _) |- _ => injection H as ?; subst
  | H : st_lift _ _ = (Ok _, _) |- _ => injection H as ?; subst
  end.

(** Runs the head of a bind whose outcome is known. *)
Ltac st_step H := rewrite (st_bind_run _ _ _ _ _ H).
