(* ===== verification/Format.v ===== *)
(** * The minidump records and their serialization (interface)

    The record types of the minidump format come from the crate
    [minidump-common] and their byte encodings from the crate [scroll]; neither
    is part of this repository (src/src/minidump_format.rs only re-exports
    them).  The records below carry the fields the sources read or write under
    the names the sources use; a field a source leaves to
    [..Default::default()] everywhere is left out.  How a record becomes bytes
    is not defined here: it is the interface [Pod], with its law [PodOk].  The
    class [Format] gathers what the writers take from the two crates. *)
From Stdlib Require Import ZArith.
From S2P Require Import Prelude.

(** ** scroll: [TryIntoCtx<Endian>] and [SizeWith<Endian>] *)

Inductive ScrollError := TooBig | BadOffset | BadInput | Custom.

(** [size_with] is [<T>::size_with(&Endian::Little)]; [try_into_ctx v dst] is
    [v.try_into_ctx(dst, Endian::Little)] and returns the destination after
    the call with the number of bytes written. *)
Class Pod (T : Type) := {
  size_with : nat;
  try_into_ctx : T -> list byte -> res ScrollError (list byte * nat);
}.
Arguments size_with T {_}.

(** What [v] becomes in a zeroed slot of its own size. *)
Definition encode {T} `{Pod T} (v : T) : list byte :=
  match try_into_ctx v (replicate (size_with T) Byte.x00) with
  | Ok (bs, _) => bs
  | _ => []
  end.

(** The documented contract of the two traits: a value fills a destination of
    exactly [size_with] bytes, whatever was there before. *)
Class PodOk (T : Type) `{Pod T} : Prop := {
  try_into_ctx_fits : forall (v : T) dst, length dst = size_with T ->
    try_into_ctx v dst = Ok (encode v, size_with T);
  encode_length : forall v : T, length (encode v) = size_with T;
}.

#[export] Hint Rewrite @encode_length using (typeclasses eauto) : mdw.

(** Unsigned integers that are serialized as such. *)
Record u8 := U8 { u8_val : byte }.
Record u16 := U16 { u16_val : Z }.
Record u32 := U32 { u32_val : Z }.

(** ** minidump-common: records *)

Record MDLocationDescriptor := mkLocation {
  data_size : Z;
  rva : Z;
}.

Record MDRawDirectory := mkDirectory {
  stream_type : Z;
  location : MDLocationDescriptor;
}.

Record MDRawHeader := mkHeader {
  signature : Z;
  version : Z;
  stream_count : Z;
  stream_directory_rva : Z;
  checksum : Z;
  time_date_stamp : Z;
  flags : Z;
}.

Record MDMemoryDescriptor := mkMemoryDescriptor {
  start_of_memory_range : Z;
  memory : MDLocationDescriptor;
}.

Record MDRawThread := mkThread {
  thread_id : Z;
  suspend_count : Z;
  priority_class : Z;
  priority : Z;
  teb : Z;
  stack : MDMemoryDescriptor;
  thread_context : MDLocationDescriptor;
}.

Record MDRawThreadName := mkThreadName {
  tn_thread_id : Z;
  thread_name_rva : Z;
}.

Record MDException := mkException {
  exception_code : Z;
  exception_flags : Z;
  exception_address : Z;
  number_parameters : Z;
  exception_information : list Z;
}.

Record MDRawExceptionStream := mkExceptionStream {
  es_thread_id : Z;
  exception_record : MDException;
  es_align : Z;
  es_thread_context : MDLocationDescriptor;
}.

Record VS_FIXEDFILEINFO := mkFixedFileInfo {
  ffi_signature : Z;
  struct_version : Z;
  file_version_hi : Z;
  file_version_lo : Z;
  product_version_hi : Z;
  product_version_lo : Z;
}.

Record MDRawModule := mkModule {
  base_of_image : Z;
  size_of_image : Z;
  cv_record : MDLocationDescriptor;
  module_name_rva : Z;
  version_info : VS_FIXEDFILEINFO;
}.

Record MDMemoryInfoList := mkMemoryInfoList {
  mil_size_of_header : Z;
  size_of_entry : Z;
  number_of_entries : Z;
}.

Record MDMemoryInfo := mkMemoryInfo {
  base_address : Z;
  allocation_base : Z;
  allocation_protection : Z;
  alignment1 : Z;
  region_size : Z;
  state : Z;
  protection : Z;
  memory_type : Z;
  alignment2 : Z;
}.

Record MDRawHandleDataStream := mkHandleDataStream {
  hds_size_of_header : Z;
  size_of_descriptor : Z;
  number_of_descriptors : Z;
  reserved : Z;
}.

Record MDRawHandleDescriptor := mkHandleDescriptor {
  handle : Z;
  type_name_rva : Z;
  object_name_rva : Z;
  attributes : Z;
  granted_access : Z;
  handle_count : Z;
  pointer_count : Z;
}.

Record MDRawSystemInfo := mkSystemInfo {
  processor_architecture : Z;
  processor_level : Z;
  processor_revision : Z;
  number_of_processors : Z;
  product_type : Z;
  major_version : Z;
  minor_version : Z;
  build_number : Z;
  platform_id : Z;
  csd_version_rva : Z;
  cpu_data : list byte;
}.

Record MDRawLinkMap := mkRawLinkMap {
  lm_addr : Z;
  lm_name : Z;
  lm_ld : Z;
}.

Record MDRawDebug := mkRawDebug {
  dbg_version : Z;
  dbg_map : Z;
  dso_count : Z;
  dbg_brk : Z;
  ldbase : Z;
  dynamic : Z;
}.

(** [Default::default()] of the records the sources default. *)
Definition default_location : MDLocationDescriptor := mkLocation 0 0.
Definition default_directory : MDRawDirectory := mkDirectory 0 default_location.
Definition default_memory : MDMemoryDescriptor := mkMemoryDescriptor 0 default_location.
Definition default_exception : MDException := mkException 0 0 0 0 (replicate 15 0%Z).
Definition default_fixed_file_info : VS_FIXEDFILEINFO := mkFixedFileInfo 0 0 0 0 0 0.

(** [MDStreamType], [v as u32] *)
Record StreamTypes := {
  ThreadListStream : Z;
  ModuleListStream : Z;
  MemoryListStream : Z;
  ExceptionStream : Z;
  SystemInfoStream : Z;
  MemoryInfoListStream : Z;
  HandleDataStream : Z;
  ThreadNamesStream : Z;
  LinuxCpuInfo : Z;
  LinuxProcStatus : Z;
  LinuxLsbRelease : Z;
  LinuxCmdLine : Z;
  LinuxEnviron : Z;
  LinuxAuxv : Z;
  LinuxMaps : Z;
  LinuxDsoDebug : Z;
  MozLinuxLimits : Z;
}.

(** Everything the Linux writers take from the two crates, the constants
    included.  [size_of_*] is [mem::size_of], which two streams record. *)
Class Format := {
  pod_u8 :: Pod u8;
  pod_u16 :: Pod u16;
  pod_u32 :: Pod u32;
  pod_header :: Pod MDRawHeader;
  pod_directory :: Pod MDRawDirectory;
  pod_thread :: Pod MDRawThread;
  pod_thread_name :: Pod MDRawThreadName;
  pod_memory :: Pod MDMemoryDescriptor;
  pod_exception :: Pod MDRawExceptionStream;
  pod_module :: Pod MDRawModule;
  pod_memory_info_list :: Pod MDMemoryInfoList;
  pod_memory_info :: Pod MDMemoryInfo;
  pod_handle_data :: Pod MDRawHandleDataStream;
  pod_handle :: Pod MDRawHandleDescriptor;
  pod_system_info :: Pod MDRawSystemInfo;
  pod_link_map :: Pod MDRawLinkMap;
  pod_debug :: Pod MDRawDebug;
  stream_types : StreamTypes;
  MD_HEADER_SIGNATURE : Z;
  MD_HEADER_VERSION : Z;
  DUMP_REQUESTED : Z;
  CvSignature_Elf : Z;
  VS_FFI_SIGNATURE : Z;
  VS_FFI_STRUCVERSION : Z;
  size_of_MDMemoryInfoList : Z;
  size_of_MDMemoryInfo : Z;
  size_of_MDRawHandleDataStream : Z;
  size_of_MDRawHandleDescriptor : Z;
}.

(** The laws of the interface: every record fills its slot, and scroll writes
    the primitive integers little-endian, as it documents. *)
Class FormatOk (F : Format) : Prop := {
  ok_u8 :: PodOk u8;
  ok_u16 :: PodOk u16;
  ok_u32 :: PodOk u32;
  ok_header :: PodOk MDRawHeader;
  ok_directory :: PodOk MDRawDirectory;
  ok_thread :: PodOk MDRawThread;
  ok_thread_name :: PodOk MDRawThreadName;
  ok_memory :: PodOk MDMemoryDescriptor;
  ok_exception :: PodOk MDRawExceptionStream;
  ok_module :: PodOk MDRawModule;
  ok_memory_info_list :: PodOk MDMemoryInfoList;
  ok_memory_info :: PodOk MDMemoryInfo;
  ok_handle_data :: PodOk MDRawHandleDataStream;
  ok_handle :: PodOk MDRawHandleDescriptor;
  ok_system_info :: PodOk MDRawSystemInfo;
  ok_link_map :: PodOk MDRawLinkMap;
  ok_debug :: PodOk MDRawDebug;
  encode_u8 : forall b, encode (U8 b) = [b];
  encode_u16 : forall z, encode (U16 z) = le_split 2 z;
  encode_u32 : forall z, encode (U32 z) = le_split 4 z;
}.

Section sizes.
Context {F : Format} {FO : FormatOk F}.

Lemma size_u8 : size_with u8 = 1.
Proof. by rewrite <- (encode_length (U8 Byte.x00)), encode_u8. Qed.

Lemma size_u16 : size_with u16 = 2.
Proof. by rewrite <- (encode_length (U16 0)), encode_u16, length_le_split. Qed.

Lemma size_u32 : size_with u32 = 4.
Proof. by rewrite <- (encode_length (U32 0)), encode_u32, length_le_split. Qed.
End sizes.
