(* ===== verification/Layout.v ===== *)
(** * A concrete instance of the format interface

    The packed little-endian layout of the records and the values of the
    constants as the minidump format publishes them, as one instance of
    [Format].  No theorem about the writers depends on it: it is what the
    executable examples and the witnesses run on, and its law [layout_ok] shows
    that the hypotheses of those theorems can be met. *)
From Stdlib Require Import ZArith Lia.
From S2P Require Import Prelude Format.

(** A plain-data type whose encoding is a fixed number of bytes. *)
Definition pod_of {T} (size : nat) (enc : T -> list byte) : Pod T := {|
  size_with := size;
  try_into_ctx v dst :=
    if decide (size <= length dst) then Ok (enc v ++ drop size dst, size) else Err TooBig;
|}.

Lemma pod_of_encode {T} size (enc : T -> list byte) v :
  @encode T (pod_of size enc) v = enc v.
Proof.
  unfold encode. simpl. rewrite decide_True by (rewrite length_replicate; lia).
  rewrite drop_ge by (rewrite length_replicate; lia). by rewrite app_nil_r.
Qed.

Lemma pod_of_ok {T} size (enc : T -> list byte) :
  (forall v, length (enc v) = size) -> @PodOk T (pod_of size enc).
Proof.
  intros Hl. constructor.
  - intros v dst Hd. rewrite pod_of_encode. simpl in *.
    rewrite decide_True by lia. rewrite drop_ge by lia. by rewrite app_nil_r.
  - intros v. rewrite pod_of_encode. apply Hl.
Qed.

Definition enc_location (l : MDLocationDescriptor) : list byte :=
  le_split 4 (data_size l) ++ le_split 4 (rva l).

Definition enc_memory (m : MDMemoryDescriptor) : list byte :=
  le_split 8 (start_of_memory_range m) ++ enc_location (memory m).

Definition enc_directory (d : MDRawDirectory) : list byte :=
  le_split 4 (stream_type d) ++ enc_location (location d).

Definition enc_header (h : MDRawHeader) : list byte :=
  le_split 4 (signature h) ++ le_split 4 (version h) ++ le_split 4 (stream_count h) ++
  le_split 4 (stream_directory_rva h) ++ le_split 4 (checksum h) ++
  le_split 4 (time_date_stamp h) ++ le_split 8 (flags h).

Definition enc_thread (t : MDRawThread) : list byte :=
  le_split 4 (thread_id t) ++ le_split 4 (suspend_count t) ++
  le_split 4 (priority_class t) ++ le_split 4 (priority t) ++ le_split 8 (teb t) ++
  enc_memory (stack t) ++ enc_location (thread_context t).

Definition enc_thread_name (t : MDRawThreadName) : list byte :=
  le_split 4 (tn_thread_id t) ++ le_split 8 (thread_name_rva t).

Definition enc_exception (e : MDRawExceptionStream) : list byte :=
  le_split 4 (es_thread_id e) ++ le_split 4 (es_align e) ++
  le_split 4 (exception_code (exception_record e)) ++
  le_split 4 (exception_flags (exception_record e)) ++ le_split 8 0 ++
  le_split 8 (exception_address (exception_record e)) ++
  le_split 4 (number_parameters (exception_record e)) ++ le_split 4 0 ++
  take 120 (concat (le_split 8 <$> exception_information (exception_record e)) ++
            replicate 120 Byte.x00) ++ enc_location (es_thread_context e).

Definition enc_fixed_file_info (i : VS_FIXEDFILEINFO) : list byte :=
  le_split 4 (ffi_signature i) ++ le_split 4 (struct_version i) ++
  le_split 4 (file_version_hi i) ++ le_split 4 (file_version_lo i) ++
  le_split 4 (product_version_hi i) ++ le_split 4 (product_version_lo i) ++ le_split 28 0.

Definition enc_module (m : MDRawModule) : list byte :=
  le_split 8 (base_of_image m) ++ le_split 4 (size_of_image m) ++ le_split 4 0 ++
  le_split 4 0 ++ le_split 4 (module_name_rva m) ++ enc_fixed_file_info (version_info m) ++
  enc_location (cv_record m) ++ le_split 8 0 ++ le_split 16 0.

Definition enc_memory_info_list (m : MDMemoryInfoList) : list byte :=
  le_split 4 (mil_size_of_header m) ++ le_split 4 (size_of_entry m) ++
  le_split 8 (number_of_entries m).

Definition enc_memory_info (m : MDMemoryInfo) : list byte :=
  le_split 8 (base_address m) ++ le_split 8 (allocation_base m) ++
  le_split 4 (allocation_protection m) ++ le_split 4 (alignment1 m) ++
  le_split 8 (region_size m) ++ le_split 4 (state m) ++ le_split 4 (protection m) ++
  le_split 4 (memory_type m) ++ le_split 4 (alignment2 m).

Definition enc_handle_data (h : MDRawHandleDataStream) : list byte :=
  le_split 4 (hds_size_of_header h) ++ le_split 4 (size_of_descriptor h) ++
  le_split 4 (number_of_descriptors h) ++ le_split 4 (reserved h).

Definition enc_handle (h : MDRawHandleDescriptor) : list byte :=
  le_split 8 (handle h) ++ le_split 4 (type_name_rva h) ++ le_split 4 (object_name_rva h) ++
  le_split 4 (attributes h) ++ le_split 4 (granted_access h) ++ le_split 4 (handle_count h) ++
  le_split 4 (pointer_count h).

Definition enc_system_info (i : MDRawSystemInfo) : list byte :=
  le_split 2 (processor_architecture i) ++ le_split 2 (processor_level i) ++
  le_split 2 (processor_revision i) ++ le_split 1 (number_of_processors i) ++
  le_split 1 (product_type i) ++ le_split 4 (major_version i) ++ le_split 4 (minor_version i) ++
  le_split 4 (build_number i) ++ le_split 4 (platform_id i) ++ le_split 4 (csd_version_rva i) ++
  le_split 4 0 ++ take 24 (cpu_data i ++ replicate 24 Byte.x00).

Definition enc_link_map (m : MDRawLinkMap) : list byte :=
  le_split 8 (lm_addr m) ++ le_split 4 (lm_name m) ++ le_split 8 (lm_ld m).

Definition enc_debug (d : MDRawDebug) : list byte :=
  le_split 4 (dbg_version d) ++ le_split 4 (dbg_map d) ++ le_split 4 (dso_count d) ++
  le_split 8 (dbg_brk d) ++ le_split 8 (ldbase d) ++ le_split 8 (dynamic d).

Definition layout_stream_types : StreamTypes := {|
  ThreadListStream := 3; ModuleListStream := 4; MemoryListStream := 5;
  ExceptionStream := 6; SystemInfoStream := 7; MemoryInfoListStream := 16;
  HandleDataStream := 12; ThreadNamesStream := 24;
  LinuxCpuInfo := 0x47670003; LinuxProcStatus := 0x47670004;
  LinuxLsbRelease := 0x47670005; LinuxCmdLine := 0x47670006; LinuxEnviron := 0x47670007;
  LinuxAuxv := 0x47670008; LinuxMaps := 0x47670009; LinuxDsoDebug := 0x4767000A;
  MozLinuxLimits := 0x4d7a0003;
|}.

Definition layout : Format := {|
  pod_u8 := pod_of 1 (fun v => [u8_val v]);
  pod_u16 := pod_of 2 (fun v => le_split 2 (u16_val v));
  pod_u32 := pod_of 4 (fun v => le_split 4 (u32_val v));
  pod_header := pod_of 32 enc_header;
  pod_directory := pod_of 12 enc_directory;
  pod_thread := pod_of 48 enc_thread;
  pod_thread_name := pod_of 12 enc_thread_name;
  pod_memory := pod_of 16 enc_memory;
  pod_exception := pod_of 168 enc_exception;
  pod_module := pod_of 108 enc_module;
  pod_memory_info_list := pod_of 16 enc_memory_info_list;
  pod_memory_info := pod_of 48 enc_memory_info;
  pod_handle_data := pod_of 16 enc_handle_data;
  pod_handle := pod_of 32 enc_handle;
  pod_system_info := pod_of 56 enc_system_info;
  pod_link_map := pod_of 20 enc_link_map;
  pod_debug := pod_of 36 enc_debug;
  stream_types := layout_stream_types;
  MD_HEADER_SIGNATURE := 0x504d444d;
  MD_HEADER_VERSION := 0xa793;
  DUMP_REQUESTED := 0xffffffff;
  CvSignature_Elf := 0x4270454c;
  VS_FFI_SIGNATURE := 0xfeef04bd;
  VS_FFI_STRUCVERSION := 0x00010000;
  size_of_MDMemoryInfoList := 16;
  size_of_MDMemoryInfo := 48;
  size_of_MDRawHandleDataStream := 16;
  size_of_MDRawHandleDescriptor := 32;
|}.

Ltac layout_length :=
  intros []; cbv [enc_header enc_directory enc_location enc_thread enc_memory
    enc_thread_name enc_exception enc_fixed_file_info enc_module enc_memory_info_list
    enc_memory_info enc_handle_data enc_handle enc_system_info enc_link_map enc_debug];
  rewrite ?length_app, ?length_le_split; try reflexivity;
  rewrite ?length_take, ?length_app, ?length_replicate; lia.

Lemma layout_ok : FormatOk layout.
Proof.
  constructor; try (apply pod_of_ok; layout_length);
    intros; (etransitivity; [apply pod_of_encode|reflexivity]).
Qed.

(** A 64-bit release build. *)
Definition x64_release : Target := {| pointer_width := W64; overflow_checks := false; target_android := false |}.
(** A 64-bit debug build. *)
Definition x64_debug : Target := {| pointer_width := W64; overflow_checks := true; target_android := false |}.
