(* ===== verification/MemWriter.v ===== *)
(** * The in-memory dump buffer (src/src/mem_writer.rs)

    [Buffer] is the growing byte vector that becomes the minidump;
    [MemoryWriter] and [MemoryArrayWriter] are handles to a slot, or an array
    of slots, reserved in it.  Sizes and offsets of the vector are [nat] (a
    [Vec] never exceeds [isize::MAX] bytes, so [usize] sums of them do not
    overflow); the 32-bit file offsets stored in handles and descriptors are
    truncated exactly where the source writes [as u32]. *)
From Stdlib Require Import ZArith Lia.
From S2P Require Import Prelude Format Layout.

Inductive MemoryWriterError :=
  | MW_IOError (e : IoError)
  | MW_TryFromIntError
  | MW_Scroll (e : ScrollError).

(** ** Buffer *)

Record Buffer := mkBuffer { inner : list byte }.

Definition with_capacity (cap : nat) : Buffer := mkBuffer [].

Definition position (b : Buffer) : Z := Z.of_nat (length (inner b)).

Definition reserve {E} (len : nat) : ST Buffer E nat := fun b =>
  let mark := length (inner b) in
  (Ok mark, mkBuffer (vec_resize (length (inner b) + len) (inner b))).

Definition write_at `{Target} {T} `{Pod T} (offset : nat) (val : T)
    : ST Buffer ScrollError nat := fun b =>
  let to_write := size_with T in
  match sub_u usize_bits (Z.of_nat (length (inner b))) (Z.of_nat offset) with
  | Panic => (Panic, b)
  | Err e => (Err e, b)
  | Ok remainder =>
      let v := if (remainder <? Z.of_nat to_write)%Z
               then vec_resize (length (inner b) + to_write - Z.to_nat remainder) (inner b)
               else inner b in
      match slice offset (offset + to_write) v with
      | None => (Panic, mkBuffer v)
      | Some dst =>
          match try_into_ctx val dst with
          | Ok (dst', n) => (Ok n, mkBuffer (splice offset dst' v))
          | Err e => (Err e, mkBuffer v)
          | Panic => (Panic, mkBuffer v)
          end
      end
  end.

Definition write `{Target} {T} `{Pod T} (val : T) : ST Buffer ScrollError nat :=
  fun b => write_at (length (inner b)) val b.

Definition write_all {E} (buffer : list byte) : ST Buffer E unit := fun b =>
  (Ok tt, mkBuffer (inner b ++ buffer)).

(** ** MemoryWriter *)

Record MemoryWriter (T : Type) := mkMemoryWriter {
  mw_position : Z;
  mw_size : nat;
}.
Arguments mkMemoryWriter {T} _ _.
Arguments mw_position {T} _.
Arguments mw_size {T} _.

Definition alloc_with_val `{Target} {T} `{Pod T} (val : T)
    : ST Buffer MemoryWriterError (MemoryWriter T) :=
  b ← st_get;
  let pos := position b in
  size ← st_map_err MW_Scroll (write val);
  mret (mkMemoryWriter (wrap 32 pos) size).

Definition alloc (T : Type) `{Pod T} : ST Buffer MemoryWriterError (MemoryWriter T) :=
  let size := size_with T in
  pos ← reserve size;
  mret (mkMemoryWriter (wrap 32 (Z.of_nat pos)) size).

Definition set_value `{Target} {T} `{Pod T} (w : MemoryWriter T) (val : T)
    : ST Buffer MemoryWriterError unit :=
  st_map_err MW_Scroll (_ ← write_at (Z.to_nat (mw_position w)) val; mret tt).

Definition mw_location {T} `{Pod T} (w : MemoryWriter T) : MDLocationDescriptor :=
  mkLocation (wrap 32 (Z.of_nat (size_with T))) (mw_position w).

(** ** MemoryArrayWriter *)

Record MemoryArrayWriter (T : Type) := mkMemoryArrayWriter {
  maw_position : Z;
  array_size : nat;
}.
Arguments mkMemoryArrayWriter {T} _ _.
Arguments maw_position {T} _.
Arguments array_size {T} _.

Definition write_bytes {E} (sl : list byte) : ST Buffer E (MemoryArrayWriter u8) :=
  b ← st_get;
  let pos := position b in
  write_all sl;;
  mret (mkMemoryArrayWriter (wrap 32 pos) (length sl)).

Definition alloc_from_array `{Target} {T} `{Pod T} (array : list T)
    : ST Buffer MemoryWriterError (MemoryArrayWriter T) :=
  let n := length array in
  pos ← reserve (n * size_with T);
  st_for_enum 0 array (fun idx val =>
    st_map_err MW_Scroll (write_at (pos + idx * size_with T) val);; mret tt);;
  mret (mkMemoryArrayWriter (wrap 32 (Z.of_nat pos)) n).

(** The iterator is exact-size, so it is a list with its length. *)
Definition alloc_from_iter `{Target} {T} `{Pod T} (iter : list T)
    : ST Buffer MemoryWriterError (MemoryArrayWriter T) :=
  let n := length iter in
  let size := size_with T in
  pos ← reserve (n * size);
  st_for_enum 0 iter (fun idx val =>
    st_map_err MW_Scroll (write_at (pos + idx * size) val);; mret tt);;
  mret (mkMemoryArrayWriter (wrap 32 (Z.of_nat pos)) n).

Definition alloc_array (T : Type) `{Pod T} (n : nat)
    : ST Buffer MemoryWriterError (MemoryArrayWriter T) :=
  pos ← reserve (n * size_with T);
  mret (mkMemoryArrayWriter (wrap 32 (Z.of_nat pos)) n).

Definition set_value_at `{Target} {T} `{Pod T} (w : MemoryArrayWriter T) (val : T)
    (index : nat) : ST Buffer MemoryWriterError unit :=
  st_map_err MW_Scroll
    (_ ← write_at (Z.to_nat (maw_position w) + size_with T * index) val; mret tt).

Definition maw_location {T} `{Pod T} (w : MemoryArrayWriter T) : MDLocationDescriptor :=
  mkLocation (wrap 32 (Z.of_nat (array_size w * size_with T))) (maw_position w).

Definition location_of_index {E} `{Target} {T} `{Pod T} (w : MemoryArrayWriter T)
    (idx : nat) : res E MDLocationDescriptor :=
  r ← add_u 32 (maw_position w) (wrap 32 (Z.of_nat (size_with T * idx)));
  mret (mkLocation (wrap 32 (Z.of_nat (size_with T))) r).

(** ** Strings *)

(** [str::encode_utf16]; a [&str] is the list of its Unicode scalar values. *)
Definition encode_utf16_char (c : Z) : list Z :=
  if (c <? 65536)%Z then [c]
  else let c' := (c - 65536)%Z in
       [(55296 + Z.shiftr c' 10)%Z; (56320 + Z.land c' 1023)%Z].

Definition encode_utf16 (text : list Z) : list Z := text ≫= encode_utf16_char.

(** [u32::try_from(usize)] *)
Definition try_u32 (n : nat) : res MemoryWriterError Z :=
  if (Z.of_nat n <? 2 ^ 32)%Z then Ok (Z.of_nat n) else Err MW_TryFromIntError.

Definition write_string_to_location `{Target} `{Format} (text : list Z)
    : ST Buffer MemoryWriterError MDLocationDescriptor :=
  let letters := encode_utf16 text in
  hdr ← st_lift (try_u32 (length letters * 2));
  text_header ← alloc_with_val (U32 hdr);
  text_section ← alloc_array u16 (length letters);
  st_for_enum 0 letters (fun index letter =>
    set_value_at text_section (U16 letter) index);;
  let loc := mw_location text_header in
  size ← st_lift (add_u 32 (data_size loc) (data_size (maw_location text_section)));
  mret (mkLocation size (rva loc)).

(** ** Theory *)

Section pod.
Context `{Target} {T : Type} `{PodOk T}.
Implicit Types (b : Buffer) (v : T).

(** A write inside the buffer or at its end replaces exactly [size_with]
    bytes at [offset], growing the buffer when they reach past it. *)
Lemma write_at_run offset v b :
  offset <= length (inner b) ->
  write_at offset v b =
    (Ok (size_with T), mkBuffer (splice offset (encode v) (inner b))).
Proof.
  intros Hoff. unfold write_at. rewrite sub_u_ok by lia.
  set (v' := if (_ <? _)%Z then _ else _).
  assert (Hv : v' = inner b ++ replicate (offset + size_with T - length (inner b)) Byte.x00).
  { subst v'. destruct (Z.ltb_spec (Z.of_nat (length (inner b)) - Z.of_nat offset)
      (Z.of_nat (size_with T))) as [Hlt|Hge].
    - rewrite vec_resize_grow by lia. f_equal. f_equal. lia.
    - replace (offset + size_with T - length (inner b)) with 0 by lia.
      by rewrite app_nil_r. }
  assert (Hlen : offset + size_with T <= length v').
  { rewrite Hv, length_app, length_replicate. lia. }
  rewrite slice_ok by lia.
  rewrite try_into_ctx_fits by (rewrite length_bytes_at; lia).
  f_equal. f_equal. rewrite Hv. unfold splice.
  rewrite encode_length, take_app_le by lia. f_equal. f_equal.
  destruct (decide (offset + size_with T <= length (inner b))).
  - replace (offset + size_with T - length (inner b)) with 0 by lia.
    by rewrite app_nil_r.
  - rewrite drop_app_ge, !drop_ge by (rewrite ?length_replicate; lia). done.
Qed.

(** Past the end the subtraction underflows or the slice is out of range: a
    panic in both build profiles. *)
Lemma write_at_past_end offset v b :
  length (inner b) < offset -> (write_at offset v b).1 = Panic.
Proof.
  intros Hoff. unfold write_at, sub_u.
  rewrite (proj2 (Z.leb_gt _ _)) by lia.
  destruct overflow_checks; [done|].
  set (r := wrap _ _). set (v' := if (_ <? _)%Z then _ else _).
  enough (Hs : slice offset (offset + size_with T) v' = None) by by rewrite Hs.
  unfold slice. rewrite decide_False; [done|]. subst v'.
  destruct (Z.ltb_spec r (Z.of_nat (size_with T))) as [Hr|];
    rewrite ?length_vec_resize; lia.
Qed.

Lemma write_run v b :
  write v b = (Ok (size_with T), mkBuffer (inner b ++ encode v)).
Proof. unfold write. rewrite write_at_run by lia. by rewrite splice_end. Qed.

Lemma alloc_with_val_run v b :
  alloc_with_val v b =
    (Ok (mkMemoryWriter (wrap 32 (position b)) (size_with T)),
     mkBuffer (inner b ++ encode v)).
Proof.
  unfold alloc_with_val, st_map_err, mbind, ST_bind, st_get, mret, ST_ret.
  by rewrite write_run.
Qed.

Lemma set_value_at_run (w : MemoryArrayWriter T) v i b :
  Z.to_nat (maw_position w) + size_with T * i <= length (inner b) ->
  set_value_at w v i b =
    (Ok tt, mkBuffer (splice (Z.to_nat (maw_position w) + size_with T * i)
                        (encode v) (inner b))).
Proof.
  intros Hi. unfold set_value_at, st_map_err, mbind, ST_bind, mret, ST_ret.
  by rewrite write_at_run.
Qed.

Lemma set_value_run (w : MemoryWriter T) v b :
  Z.to_nat (mw_position w) <= length (inner b) ->
  set_value w v b =
    (Ok tt, mkBuffer (splice (Z.to_nat (mw_position w)) (encode v) (inner b))).
Proof.
  intros Hi. unfold set_value, st_map_err, mbind, ST_bind, mret, ST_ret.
  by rewrite write_at_run.
Qed.

Lemma alloc_array_run n b :
  alloc_array T n b =
    (Ok (mkMemoryArrayWriter (wrap 32 (position b)) n),
     mkBuffer (inner b ++ replicate (n * size_with T) Byte.x00)).
Proof.
  unfold alloc_array, reserve, mbind, ST_bind, mret, ST_ret, position.
  rewrite vec_resize_grow by lia. do 3 f_equal. f_equal. lia.
Qed.

Lemma alloc_run b :
  alloc T b =
    (Ok (mkMemoryWriter (wrap 32 (position b)) (size_with T)),
     mkBuffer (inner b ++ replicate (size_with T) Byte.x00)).
Proof.
  unfold alloc, reserve, mbind, ST_bind, mret, ST_ret, position.
  rewrite vec_resize_grow by lia. do 3 f_equal. f_equal. lia.
Qed.
End pod.

(** *** Arrays *)

Definition encode_all {T} `{Pod T} (vs : list T) : list byte := concat (encode <$> vs).

Section arrays.
Context `{Target} {T : Type} `{PodOk T}.

Lemma encode_all_length (vs : list T) :
  length (encode_all vs) = length vs * size_with T.
Proof.
  unfold encode_all. induction vs as [|v vs IH]; [done|].
  csimpl. rewrite length_app, encode_length, IH. lia.
Qed.

(** Filling reserved slots in increasing order writes the concatenation of
    the encodings; [g] is what the loop body makes of an item. *)
Lemma fill_array {E A} (g : A -> T) (body : nat -> A -> ST Buffer E unit) pos
    (vs : list A) tl :
  (forall i v b, pos + i * size_with T <= length (inner b) ->
     body i v b =
       (Ok tt, mkBuffer (splice (pos + i * size_with T) (encode (g v)) (inner b)))) ->
  forall i pre, length pre = pos + i * size_with T ->
  st_for_enum i vs body
    (mkBuffer (pre ++ replicate (length vs * size_with T) Byte.x00 ++ tl)) =
    (Ok tt, mkBuffer (pre ++ encode_all (g <$> vs) ++ tl)).
Proof.
  intros Hbody. induction vs as [|v vs IH]; intros i pre Hpre; [done|].
  simpl. erewrite st_bind_run; [|apply Hbody; cbn; rewrite length_app; lia].
  cbn [inner]. rewrite splice_app_r by lia.
  rewrite replicate_add, <- app_assoc. unfold splice. rewrite take_0, Nat.add_0_l.
  rewrite drop_app_length' by (rewrite length_replicate, encode_length; lia).
  simpl. rewrite (app_assoc pre).
  rewrite (IH (S i)) by (rewrite length_app, encode_length; lia).
  unfold encode_all. csimpl. by rewrite <- !app_assoc.
Qed.

Lemma alloc_from_array_run (vs : list T) b :
  alloc_from_array vs b =
    (Ok (mkMemoryArrayWriter (wrap 32 (position b)) (length vs)),
     mkBuffer (inner b ++ encode_all vs)).
Proof.
  unfold alloc_from_array. erewrite st_bind_run; [|reflexivity].
  rewrite vec_resize_grow by lia.
  replace (_ + _ - _) with (length vs * size_with T) by lia.
  rewrite <- (app_nil_r (replicate _ _)).
  erewrite st_bind_run; [|apply (fill_array id _ (length (inner b))); [|lia]].
  - by rewrite app_nil_r, list_fmap_id.
  - intros i v b' Hb'. unfold st_map_err, mbind, ST_bind, mret, ST_ret.
    by rewrite write_at_run by lia.
Qed.

Lemma encode_all_at (vs : list T) i v l :
  vs !! i = Some v ->
  bytes_at (length l + size_with T * i) (size_with T) (l ++ encode_all vs) = encode v.
Proof.
  intros Hi. rewrite bytes_at_app_r by lia.
  replace (_ - length l) with (size_with T * i) by lia.
  rewrite <- (take_drop_middle _ _ _ Hi). unfold encode_all.
  rewrite fmap_app, concat_app. csimpl.
  rewrite <- (encode_length v). apply bytes_at_mid.
  change (concat (encode <$> take i vs)) with (encode_all (take i vs)).
  apply lookup_lt_Some in Hi. rewrite encode_all_length, length_take, encode_length. lia.
Qed.

Lemma alloc_from_iter_eq (vs : list T) : alloc_from_iter vs = alloc_from_array vs.
Proof. reflexivity. Qed.

End arrays.

(** *** Reading strings back

    The reader of the format: a 32-bit byte count, then UTF-16 code units. *)
Fixpoint read_u16s (n : nat) (l : list byte) : list Z :=
  match n with
  | O => []
  | S n' => le_combine (take 2 l) :: read_u16s n' (drop 2 l)
  end.

Definition is_high_surrogate (u : Z) : bool := (55296 <=? u)%Z && (u <? 56320)%Z.
Definition is_low_surrogate (u : Z) : bool := (56320 <=? u)%Z && (u <? 57344)%Z.

Fixpoint decode_utf16 (us : list Z) : option (list Z) :=
  match us with
  | [] => Some []
  | u :: us' =>
      if is_high_surrogate u then
        match us' with
        | u2 :: us'' =>
            if is_low_surrogate u2 then
              cons (65536 + (u - 55296) * 1024 + (u2 - 56320))%Z <$> decode_utf16 us''
            else None
        | [] => None
        end
      else if is_low_surrogate u then None
      else cons u <$> decode_utf16 us'
  end.

Definition read_string (l : list byte) (r : Z) : option (list Z) :=
  let at_ := Z.to_nat r in
  let n := le_combine (bytes_at at_ 4 l) in
  decode_utf16 (read_u16s (Z.to_nat n / 2) (drop (at_ + 4) l)).

(** A Rust [char]: a Unicode scalar value. *)
Definition is_char (c : Z) : Prop :=
  (0 <= c < 55296 \/ 57344 <= c < 1114112)%Z.

Lemma encode_utf16_char_units c u :
  is_char c -> u ∈ encode_utf16_char c -> in_bits 16 u.
Proof.
  unfold is_char, encode_utf16_char, in_bits. intros Hc.
  destruct (Z.ltb_spec c 65536); rewrite ?list_elem_of_singleton, ?elem_of_cons.
  - intros ->. lia.
  - pose proof (Z.land_ones (c - 65536) 10 ltac:(lia)) as Hl.
    change (Z.ones 10) with 1023%Z in Hl. rewrite Hl, Z.shiftr_div_pow2 by lia.
    pose proof (Z.mod_pos_bound (c - 65536) (2 ^ 10) ltac:(lia)).
    intros [->|[->|[]%not_elem_of_nil]].
    + assert ((c - 65536) / 2 ^ 10 < 1024)%Z by (apply Z.div_lt_upper_bound; lia).
      assert (0 <= (c - 65536) / 2 ^ 10)%Z by (apply Z.div_pos; lia). lia.
    + lia.
Qed.

Lemma encode_utf16_units text u :
  Forall is_char text -> u ∈ encode_utf16 text -> in_bits 16 u.
Proof.
  intros Ht Hu. unfold encode_utf16 in Hu.
  apply list_elem_of_bind in Hu as (c & Hc & Hin).
  rewrite list.Forall_forall in Ht. eapply encode_utf16_char_units; [by apply Ht|done].
Qed.

Lemma decode_utf16_char c us :
  is_char c -> decode_utf16 (encode_utf16_char c ++ us) = cons c <$> decode_utf16 us.
Proof.
  unfold is_char, encode_utf16_char. intros Hc.
  destruct (Z.ltb_spec c 65536); simpl; unfold is_high_surrogate, is_low_surrogate.
  - destruct (Z.leb_spec 55296 c), (Z.ltb_spec c 56320), (Z.leb_spec 56320 c),
      (Z.ltb_spec c 57344); simpl; try done; lia.
  - pose proof (Z.land_ones (c - 65536) 10 ltac:(lia)) as Hl.
    change (Z.ones 10) with 1023%Z in Hl. rewrite Hl, Z.shiftr_div_pow2 by lia.
    change (2 ^ 10)%Z with 1024%Z.
    pose proof (Z.mod_pos_bound (c - 65536) 1024 ltac:(lia)).
    assert ((c - 65536) / 1024 < 1024)%Z by (apply Z.div_lt_upper_bound; lia).
    assert (0 <= (c - 65536) / 1024)%Z by (apply Z.div_pos; lia).
    set (q := ((c - 65536) / 1024)%Z) in *.
    rewrite (proj2 (Z.leb_le 55296 (55296 + q))), (proj2 (Z.ltb_lt (55296 + q) 56320)) by lia.
    set (m := ((c - 65536) mod 1024)%Z) in *.
    rewrite (proj2 (Z.leb_le 56320 (56320 + m))), (proj2 (Z.ltb_lt (56320 + m) 57344)) by lia.
    simpl. replace (_ + _ + _)%Z with c; [done|].
    pose proof (Z.div_mod (c - 65536) 1024). lia.
Qed.

Lemma decode_encode_utf16 text :
  Forall is_char text -> decode_utf16 (encode_utf16 text) = Some text.
Proof.
  induction 1 as [|c text Hc _ IH]; [done|].
  unfold encode_utf16 in *. csimpl. by rewrite decode_utf16_char, IH.
Qed.

Lemma read_u16s_app us tl :
  (forall u, u ∈ us -> in_bits 16 u) ->
  read_u16s (length us) (concat (le_split 2 <$> us) ++ tl) = us.
Proof.
  induction us as [|u us IH]; intros Hu; [done|].
  change (concat (le_split 2 <$> u :: us)) with (le_split 2 u ++ concat (le_split 2 <$> us)).
  rewrite <- app_assoc. cbn [length read_u16s].
  rewrite take_app_length' by (by rewrite length_le_split).
  rewrite drop_app_length' by (by rewrite length_le_split).
  rewrite IH by (intros; apply Hu; set_solver).
  rewrite le_combine_split. f_equal. apply wrap_small, Hu. set_solver.
Qed.

(** *** The string writer *)

(** The bytes [write_string_to_location] appends for [text]. *)
Definition string_bytes (text : list Z) : list byte :=
  let us := encode_utf16 text in
  le_split 4 (Z.of_nat (length us * 2)) ++ concat (le_split 2 <$> us).

Section strings.
Context `{Target} {F : Format} {FO : FormatOk F}.

Lemma encode_all_u16 us : encode_all (U16 <$> us) = concat (le_split 2 <$> us).
Proof.
  unfold encode_all. f_equal. rewrite <- list_fmap_compose.
  apply list_fmap_ext. intros i u _. apply encode_u16.
Qed.

Lemma string_bytes_length text :
  length (string_bytes text) = 4 + length (encode_utf16 text) * 2.
Proof.
  unfold string_bytes. rewrite length_app, length_le_split, <- encode_all_u16.
  rewrite encode_all_length, length_fmap, size_u16. lia.
Qed.

Lemma write_string_run text b :
  (Z.of_nat (length (inner b) + length (string_bytes text)) < 2 ^ 32)%Z ->
  write_string_to_location text b =
    (Ok (mkLocation (Z.of_nat (length (string_bytes text))) (position b)),
     mkBuffer (inner b ++ string_bytes text)).
Proof.
  rewrite string_bytes_length. intros Hfit.
  set (us := encode_utf16 text) in *. set (n := length us) in *.
  assert (Hw : forall x, (0 <= x < 2 ^ 32)%Z -> wrap 32 x = x) by (intros; by apply wrap_small).
  unfold write_string_to_location. fold us n.
  assert (Htry : st_lift (try_u32 (n * 2)) b = (Ok (Z.of_nat (n * 2)), b)).
  { unfold st_lift, try_u32. by rewrite (proj2 (Z.ltb_lt _ _)) by lia. }
  st_step Htry. st_step (alloc_with_val_run (U32 (Z.of_nat (n * 2))) b).
  erewrite st_bind_run; [|apply alloc_array_run]. cbn [inner].
  rewrite size_u16. rewrite <- (app_nil_r (replicate _ _)).
  set (pre := inner b ++ _).
  assert (Hpre : length pre = length (inner b) + 4).
  { subst pre. rewrite length_app, encode_length, size_u32. done. }
  set (w := mkMemoryArrayWriter (T := u16) _ _).
  assert (Hwp : maw_position w = Z.of_nat (length (inner b) + 4)).
  { subst w. unfold position. cbn [maw_position inner]. rewrite Hpre. apply Hw. lia. }
  assert (Hloop : st_for_enum 0 us (fun i u => set_value_at w (U16 u) i)
      (mkBuffer (pre ++ replicate (n * 2) Byte.x00 ++ [])) =
      (Ok tt, mkBuffer (pre ++ encode_all (U16 <$> us) ++ []))).
  { rewrite <- size_u16. apply (fill_array U16 _ (length (inner b) + 4)); [|lia].
    intros i u b' Hb'. rewrite set_value_at_run; rewrite Hwp; [|lia].
    do 3 f_equal. lia. }
  st_step Hloop. rewrite app_nil_r, encode_all_u16.
  unfold st_lift, mbind, ST_bind, mret, ST_ret, mw_location, maw_location.
  cbn [data_size rva mw_position mw_size array_size]. rewrite size_u32, size_u16.
  subst w. cbn [array_size]. rewrite !Hw by (rewrite ?Nat2Z.inj_mul; unfold position; lia).
  unfold add_u. rewrite checked_fits by (unfold in_bits; lia).
  f_equal; [f_equal; f_equal; lia|].
  f_equal. subst pre. unfold string_bytes. fold us n.
  by rewrite encode_u32, <- app_assoc.
Qed.

(** The reader finds [text] wherever its bytes are. *)
Lemma read_string_at text l off :
  Forall is_char text -> (Z.of_nat (length (string_bytes text)) < 2 ^ 32)%Z ->
  bytes_at off (length (string_bytes text)) l = string_bytes text ->
  read_string l (Z.of_nat off) = Some text.
Proof.
  intros Ht Hfit Hat. pose proof (string_bytes_length text) as Hlen.
  assert (Hl : drop off l = string_bytes text ++ drop (length (string_bytes text)) (drop off l)).
  { rewrite <- Hat at 1. symmetry. apply take_drop. }
  set (tl := drop (length (string_bytes text)) (drop off l)) in Hl.
  unfold read_string. rewrite Nat2Z.id, <- drop_drop. unfold bytes_at. rewrite Hl.
  unfold string_bytes in *. set (us := encode_utf16 text) in *. rewrite <- app_assoc.
  rewrite take_app_length', drop_app_length' by (by rewrite length_le_split).
  rewrite le_combine_split.
  rewrite Z.mod_small by (change (2 ^ (Z.of_nat 4 * 8))%Z with (2 ^ 32)%Z; lia).
  rewrite Nat2Z.id, Nat.div_mul by lia. rewrite read_u16s_app.
  - by apply decode_encode_utf16.
  - intros u Hu. by eapply encode_utf16_units.
Qed.

End strings.

(** ** Framing

    Writers run on a state that contains a buffer.  [frame n m]: whatever the
    outcome of [m], the buffer does not shrink, and as long as it stays below
    4 GiB (so that no 32-bit position has wrapped) its first [n] bytes keep
    their value. *)
Class HasBuffer (St : Type) := {
  get_buf : St -> Buffer;
  set_buf : Buffer -> St -> St;
  get_set_buf : forall b s, get_buf (set_buf b s) = b;
}.

#[export] Instance buffer_has_buffer : HasBuffer Buffer.
Proof. by refine {| get_buf := id; set_buf := fun b _ => b |}. Defined.

#[export] Instance pair_has_buffer C : HasBuffer (C * Buffer).
Proof. by refine {| get_buf := snd; set_buf := fun b s => (fst s, b) |}. Defined.

Definition on_buf {St E A} `{HasBuffer St} (m : ST Buffer E A) : ST St E A :=
  st_zoom get_buf set_buf m.

Definition buf_len {St} `{HasBuffer St} (s : St) : nat := length (inner (get_buf s)).

Definition grows {St} `{HasBuffer St} (s s' : St) : Prop := buf_len s <= buf_len s'.

#[export] Instance grows_preorder {St} `{HasBuffer St} : PreOrder (grows (St := St)).
Proof. unfold grows. split; [intros ?; lia | intros ???; lia]. Qed.

Record frame {St E A} `{HasBuffer St} (n : nat) (m : ST St E A) : Prop := {
  frame_grows : st_rel grows m;
  frame_keeps : forall s, n <= buf_len s ->
    (Z.of_nat (buf_len (m s).2) < 2 ^ 32)%Z ->
    take n (inner (get_buf (m s).2)) = take n (inner (get_buf s));
}.

Section frame.
Context {St E : Type} `{HasBuffer St}.

Lemma frame_ret {A} n (a : A) : frame (E := E) n (mret a).
Proof. split; [intros s; reflexivity | done]. Qed.

Lemma frame_lift {A} n (m : res E A) : frame n (st_lift m).
Proof. split; [intros s; reflexivity | done]. Qed.

Lemma frame_get n : frame (E := E) n st_get.
Proof. split; [intros s; reflexivity | done]. Qed.

(** The continuation may rely on where a handle points, which is known as
    long as positions have not wrapped. *)
Lemma frame_bind_pos {A B} (pos : A -> Z) n (m : ST St E A) (f : A -> ST St E B) :
  (forall s a s', m s = (Ok a, s') -> pos a = wrap 32 (Z.of_nat (buf_len s))) ->
  frame n m ->
  (forall a k, k <= n -> k <= Z.to_nat (pos a) -> frame k (f a)) ->
  frame n (m ≫= f).
Proof.
  intros Hpos [Gm Km] Hf.
  assert (Gf : forall a, st_rel grows (f a)) by (intros a; apply (Hf a 0); lia).
  split; [by apply st_rel_bind; [apply _|..]|].
  intros s Hn. specialize (Gm s). specialize (Km s Hn). unfold mbind, ST_bind.
  destruct (m s) as [[a|e|] s1] eqn:Em; simpl in *; [|done..].
  intros Hs. pose proof (Gf a s1) as G1. unfold grows in Gm, G1.
  destruct (Hf a n) as [_ K1]; [done|..].
  { rewrite (Hpos _ _ _ Em), wrap_small by (unfold in_bits; lia). lia. }
  rewrite K1; [|lia..]. apply Km. lia.
Qed.

Lemma frame_bind {A B} n (m : ST St E A) (f : A -> ST St E B) :
  frame n m -> (forall a, frame n (f a)) -> frame n (m ≫= f).
Proof.
  intros [Gm Km] Hf. split.
  { apply st_rel_bind; [apply _|done|]. intros a. apply Hf. }
  intros s Hn. specialize (Gm s). specialize (Km s Hn). unfold mbind, ST_bind.
  destruct (m s) as [[a|e|] s1] eqn:Em; simpl in *; [|done..].
  intros Hs. destruct (Hf a) as [G1 K1]. specialize (G1 s1). unfold grows in *.
  rewrite K1; [|lia..]. apply Km. lia.
Qed.

Lemma frame_for {A} n (l : list A) (body : A -> ST St E unit) :
  (forall x, frame n (body x)) -> frame n (st_for l body).
Proof. intros Hb. induction l; simpl; [apply frame_ret | by apply frame_bind]. Qed.

Lemma frame_for_enum {A} n (l : list A) (body : nat -> A -> ST St E unit) :
  (forall i x, frame n (body i x)) -> forall i, frame n (st_for_enum i l body).
Proof. intros Hb. induction l; intros i; simpl; [apply frame_ret | by apply frame_bind]. Qed.

Lemma frame_on_buf {A} n (m : ST Buffer E A) : frame n m -> frame n (on_buf (St := St) m).
Proof.
  intros [Gm Km]. split; intros s; unfold on_buf, st_zoom;
    specialize (Gm (get_buf s)); specialize (Km (get_buf s)); unfold grows, buf_len in *;
    cbn in Gm, Km |- *; destruct (m (get_buf s)) as [r b]; simpl in *;
    by rewrite get_set_buf.
Qed.
End frame.

Lemma frame_map_err {St E E' A} `{HasBuffer St} n (f : E -> E') (m : ST St E A) :
  frame n m -> frame n (st_map_err f m).
Proof.
  intros [Gm Km]. split; [by apply st_rel_map_err|].
  intros s. specialize (Km s). unfold st_map_err. by destruct (m s).
Qed.

Lemma frame_try {St E E' A} `{HasBuffer St} n (m : ST St E A) :
  frame n m -> frame (E := E') n (st_try m).
Proof.
  intros [Gm Km]. split; [by apply st_rel_try|].
  intros s. specialize (Km s). unfold st_try. by destruct (m s) as [[] ?].
Qed.

(** A change of the part of the state that is not the buffer. *)
Lemma frame_modify {C E} n (f : C -> C) :
  frame (E := E) n (st_modify (fun s : C * Buffer => (f (fst s), snd s))).
Proof. split; [intros s; unfold grows, buf_len; cbn; lia | done]. Qed.

Section frame_ops.
Context `{Target} {T : Type} `{PodOk T}.

Lemma frame_write_at n offset (v : T) : n <= offset -> frame n (write_at offset v).
Proof.
  intros Hn.
  assert (Hw : forall b, exists l, inner (write_at offset v b).2 = l /\
    length (inner b) <= length l /\ (n <= length (inner b) -> take n l = take n (inner b))).
  { intros b. destruct (decide (offset <= length (inner b))) as [Ho|Ho].
    - rewrite write_at_run by done. eexists; split; [done|]; cbn [snd inner].
      split; [|intros; by apply take_splice].
      unfold splice. rewrite !length_app, length_take, length_drop, encode_length. lia.
    - unfold write_at. cbv zeta. destruct (sub_u _ _ _) as [r|e|]; [|by eexists; split..].
      assert (Hv : exists v', (if (r <? Z.of_nat (size_with T))%Z then
        vec_resize (length (inner b) + size_with T - Z.to_nat r) (inner b) else inner b)
          = inner b ++ v').
      { destruct (Z.ltb_spec r (Z.of_nat (size_with T))).
        - rewrite vec_resize_grow by lia. by eexists.
        - exists []. by rewrite app_nil_r. }
      destruct Hv as [v' Hv]. rewrite Hv.
      assert (Hl : length (inner b ++ v') < offset + size_with T \/
                   offset + size_with T <= length (inner b ++ v')) by lia.
      destruct (slice _ _ _) as [dst|] eqn:Hsl.
      + pose proof (slice_length _ _ _ _ Hsl). apply slice_some in Hsl as (? & Hle & ->).
        rewrite try_into_ctx_fits by lia. eexists; split; [done|]; cbn [snd inner].
        rewrite length_splice by (rewrite encode_length; lia).
        split; [rewrite length_app; lia|]. intros.
        rewrite take_splice by (first [lia|rewrite length_app; lia]).
        by rewrite take_app_le by lia.
      + exists (inner b ++ v'). rewrite length_app. split; [done|]. split; [lia|].
        intros. by rewrite take_app_le by lia. }
  split; intros b; destruct (Hw b) as (l & El & Hlen & Ht);
    unfold grows, buf_len; cbn; rewrite El; auto.
Qed.

Lemma frame_write n (v : T) : frame n (write v).
Proof.
  split; intros b; unfold grows, buf_len; cbn; rewrite write_run; cbn [snd inner].
  - rewrite length_app. lia.
  - intros. by rewrite take_app_le by done.
Qed.

Lemma frame_alloc_with_val n (v : T) : frame n (alloc_with_val v).
Proof.
  apply frame_bind; [apply frame_get|]. intros b.
  apply frame_bind; [apply frame_map_err, frame_write|]. intros; apply frame_ret.
Qed.

Lemma frame_reserve {E} n k : frame (E := E) n (reserve k).
Proof.
  split; intros b; unfold grows, buf_len, reserve; cbn;
    rewrite vec_resize_grow by lia; rewrite ?length_app; [lia|].
  intros. by rewrite take_app_le by done.
Qed.

Lemma frame_alloc n : frame n (alloc T).
Proof. apply frame_bind; [apply frame_reserve|]. intros; apply frame_ret. Qed.

Lemma frame_alloc_array n k : frame n (alloc_array T k).
Proof. apply frame_bind; [apply frame_reserve|]. intros; apply frame_ret. Qed.

Lemma frame_alloc_from_array n (vs : list T) : frame n (alloc_from_array vs).
Proof.
  split; intros b; unfold grows, buf_len; cbn; rewrite alloc_from_array_run; cbn [snd inner].
  - rewrite length_app. lia.
  - intros. by rewrite take_app_le by done.
Qed.

Lemma frame_set_value_at n (w : MemoryArrayWriter T) v i :
  n <= Z.to_nat (maw_position w) -> frame n (set_value_at w v i).
Proof.
  intros. apply frame_map_err, frame_bind; [apply frame_write_at; lia|].
  intros; apply frame_ret.
Qed.

Lemma frame_set_value n (w : MemoryWriter T) v :
  n <= Z.to_nat (mw_position w) -> frame n (set_value w v).
Proof.
  intros. apply frame_map_err, frame_bind; [apply frame_write_at; lia|].
  intros; apply frame_ret.
Qed.

Lemma grows_set_value_at (w : MemoryArrayWriter T) v i : st_rel grows (set_value_at w v i).
Proof.
  apply (frame_grows 0). apply frame_set_value_at. lia.
Qed.

Lemma grows_set_value (w : MemoryWriter T) v : st_rel grows (set_value w v).
Proof. apply (frame_grows 0). apply frame_set_value. lia. Qed.
End frame_ops.

Lemma frame_write_all {E} n l : frame (E := E) n (write_all l).
Proof.
  split; intros b; unfold grows, buf_len, write_all; cbn; rewrite ?length_app; [lia|].
  intros. by rewrite take_app_le by done.
Qed.

Lemma frame_write_bytes {E} n l : frame (E := E) n (write_bytes l).
Proof.
  apply frame_bind; [apply frame_get|]. intros b.
  apply frame_bind; [apply frame_write_all|]. intros; apply frame_ret.
Qed.

Lemma alloc_array_pos {T} `{PodOk T} k b (w : MemoryArrayWriter T) b' :
  alloc_array T k b = (Ok w, b') -> maw_position w = wrap 32 (Z.of_nat (buf_len b)).
Proof. rewrite alloc_array_run. by injection 1 as <- <-. Qed.

Lemma alloc_pos {T} `{PodOk T} b (w : MemoryWriter T) b' :
  alloc T b = (Ok w, b') -> mw_position w = wrap 32 (Z.of_nat (buf_len b)).
Proof. rewrite alloc_run. by injection 1 as <- <-. Qed.

Lemma on_buf_ok {St E A} `{HasBuffer St} (m : ST Buffer E A) (s : St) a s' :
  on_buf m s = (Ok a, s') -> exists b', m (get_buf s) = (Ok a, b') /\ s' = set_buf b' s.
Proof.
  unfold on_buf, st_zoom. destruct (m (get_buf s)) as [r b']. naive_solver.
Qed.

Lemma on_buf_run {St E A} `{HasBuffer St} (m : ST Buffer E A) (s : St) r b' :
  m (get_buf s) = (r, b') -> on_buf m s = (r, set_buf b' s).
Proof. unfold on_buf, st_zoom. by intros ->. Qed.

Lemma map_err_ok {St E E' A} (f : E -> E') (m : ST St E A) s a s' :
  st_map_err f m s = (Ok a, s') <-> m s = (Ok a, s').
Proof. unfold st_map_err. destruct (m s) as [[]?]; simpl; naive_solver. Qed.

#[export] Hint Resolve frame_ret frame_lift frame_get frame_modify frame_write frame_write_all
  frame_write_bytes frame_alloc_with_val frame_alloc frame_alloc_array
  frame_alloc_from_array : mdw.

(** Proves that a handle returned by an allocation points to the old end of
    the buffer, through [on_buf] and error conversions. *)
Ltac alloc_pos_tac :=
  intros ? ? ? Hrun;
  repeat match type of Hrun with
  | on_buf _ _ = _ => apply on_buf_ok in Hrun as (? & Hrun & ->)
  | st_map_err _ _ _ = _ => apply map_err_ok in Hrun
  end;
  first [exact (alloc_array_pos _ _ _ _ Hrun) | exact (alloc_pos _ _ _ Hrun)].

(** Proves [frame n m] by following the structure of [m]. *)
Ltac frame_step :=
  lazymatch goal with
  | |- forall _, _ => intros
  | |- frame _ (_ ≫= _) =>
      first [ apply (frame_bind_pos maw_position); [solve [alloc_pos_tac]|..]
            | apply (frame_bind_pos mw_position); [solve [alloc_pos_tac]|..]
            | apply frame_bind ]
  | |- frame _ (st_map_err _ _) => apply frame_map_err
  | |- frame _ (on_buf _) => apply frame_on_buf
  | |- frame _ (st_try _) => apply frame_try
  | |- frame _ (st_for _ _) => apply frame_for
  | |- frame _ (st_for_enum _ _ _) => apply frame_for_enum
  | |- frame _ (set_value_at _ _ _) => apply frame_set_value_at
  | |- frame _ (set_value _ _) => apply frame_set_value
  | |- frame _ (match ?x with _ => _ end) => destruct x
  | |- frame _ _ => solve [eauto 3 with mdw typeclass_instances]
  | |- _ <= _ => lia
  end.

Ltac frame_tac := repeat frame_step.

Lemma frame_write_string `{Target} {F : Format} {FO : FormatOk F} n text :
  frame n (write_string_to_location text).
Proof. unfold write_string_to_location. cbv zeta. frame_tac. Qed.

Lemma frame_alloc_from_iter `{Target} {T} `{PodOk T} n (vs : list T) :
  frame n (alloc_from_iter vs).
Proof. rewrite alloc_from_iter_eq. by apply frame_alloc_from_array. Qed.

#[export] Hint Resolve frame_write_string frame_alloc_from_iter : mdw.

(** ** Properties *)

(** [Buffer::write_at], on every branch.  At an offset inside the buffer or
    at its end it succeeds, the slot then holds the encoding of the value, the
    buffer grows exactly when the slot reaches past its end, and every byte
    outside the slot is unchanged; past the end it panics, in debug and in
    release builds. *)
Theorem write_at_correct `{TG : Target} {T} `{PO : PodOk T} (offset : nat) (v : T) (b : Buffer) :
  (offset <= length (inner b) ->
     exists b', write_at offset v b = (Ok (size_with T), b') /\
       bytes_at offset (size_with T) (inner b') = encode v /\
       length (inner b') = max (length (inner b)) (offset + size_with T) /\
       (forall k, k < length (inner b) -> ~ (offset <= k < offset + size_with T) ->
          inner b' !! k = inner b !! k)) /\
  (length (inner b) < offset -> (write_at offset v b).1 = Panic).
Proof.
  split; [|by apply write_at_past_end]. intros Hoff.
  eexists; split; [by apply write_at_run|]. cbn [inner].
  split_and!.
  - rewrite <- (encode_length v). by apply bytes_at_splice_same.
  - unfold splice. rewrite !length_app, length_take, length_drop, encode_length. lia.
  - intros k Hk Hout. rewrite <- (encode_length v) in Hout. unfold splice.
    destruct (decide (k < offset)).
    + rewrite lookup_app_l by (rewrite length_take; lia). by rewrite lookup_take_lt by lia.
    + rewrite lookup_app_r; rewrite length_take; [|lia].
      rewrite lookup_app_r by lia. rewrite lookup_drop. f_equal. lia.
Qed.

Lemma write_at_correct_witness :
  let b := mkBuffer (le_split 6 0) in
  3 <= length (inner b) /\
  exists b', @write_at x64_release u32 (@pod_u32 layout) 3 (U32 7) b = (Ok 4, b') /\
    inner b' = le_split 3 0 ++ le_split 4 7.
Proof.
  intros b. split; [vm_compute; lia|].
  destruct (@write_at_correct x64_release u32 (@pod_u32 layout) (@ok_u32 layout layout_ok)
    3 (U32 7) b) as [Hin _].
  destruct Hin as (b' & Hrun & _); [vm_compute; lia|].
  exists b'. split; [exact Hrun|]. vm_compute in Hrun. by injection Hrun as <-.
Defined.

(** C21: [MemoryArrayWriter::alloc_from_array] (and [alloc_from_iter], which has
    the same body) reserves the array and writes the items one by one by index;
    this is the same as appending the concatenation of their encodings, it never
    fails, the handle's location covers exactly the appended bytes, and item [i]
    is found at [location_of_index i]. *)
Theorem alloc_from_array_correct `{TG : Target} {T} `{PO : PodOk T} (vs : list T) (b : Buffer) :
  (Z.of_nat (length (inner b) + length vs * size_with T) < 2 ^ 32)%Z ->
  exists w b', alloc_from_array vs b = (Ok w, b') /\
    alloc_from_iter vs b = (Ok w, b') /\
    inner b' = inner b ++ concat (encode <$> vs) /\
    maw_location w = mkLocation (Z.of_nat (length (inner b') - length (inner b)))
                       (Z.of_nat (length (inner b))) /\
    forall i v, vs !! i = Some v ->
      exists loc, location_of_index (E := MemoryWriterError) w i = Ok loc /\
        bytes_at (Z.to_nat (rva loc)) (Z.to_nat (data_size loc)) (inner b') = encode v.
Proof.
  intros Hfit. do 2 eexists. split; [apply alloc_from_array_run|].
  split; [exact (alloc_from_array_run vs b)|]. cbn [inner]. split; [done|].
  assert (Hw : forall x, (0 <= x < 2 ^ 32)%Z -> wrap 32 x = x) by (intros; by apply wrap_small).
  unfold position. split.
  - unfold maw_location. cbn [array_size maw_position].
    rewrite length_app, encode_all_length, !Hw by lia. f_equal. lia.
  - intros i v Hi. pose proof (lookup_lt_Some _ _ _ Hi).
    assert (size_with T * i + size_with T <= length vs * size_with T) by nia.
    eexists. split.
    + unfold location_of_index, add_u. cbn [maw_position].
      rewrite !Hw by lia. by rewrite checked_fits by (unfold in_bits; lia).
    + cbn [rva data_size]. rewrite Nat2Z.id.
      replace (Z.to_nat (_ + _)) with (length (inner b) + size_with T * i) by lia.
      by apply encode_all_at.
Qed.

Lemma alloc_from_array_witness :
  let b := mkBuffer (le_split 2 0) in
  (Z.of_nat (length (inner b) + 2 * 4) < 2 ^ 32)%Z /\
  exists w b', @alloc_from_array x64_release u32 (@pod_u32 layout) [U32 1; U32 2] b = (Ok w, b') /\
    inner b' = le_split 2 0 ++ le_split 4 1 ++ le_split 4 2.
Proof.
  intros b. split; [vm_compute; done|].
  destruct (@alloc_from_array_correct x64_release u32 (@pod_u32 layout)
    (@ok_u32 layout layout_ok) [U32 1; U32 2] b) as (w & b' & Hrun & _ & Hb & _);
    [vm_compute; done|].
  exists w, b'. split; [exact Hrun|]. rewrite Hb. vm_compute. done.
Defined.

(** a slot of an array reserved by [alloc_array] that is filled with
    [set_value_at] holds the encoding of its value at [location_of_index], and
    every other slot of the array and every byte before it are unchanged. *)
Theorem set_value_at_correct `{TG : Target} {T} `{PO : PodOk T} (n i : nat) (v : T)
    (b : Buffer) :
  (Z.of_nat (length (inner b) + n * size_with T) < 2 ^ 32)%Z -> i < n ->
  exists w b1 b2 loc, alloc_array T n b = (Ok w, b1) /\ set_value_at w v i b1 = (Ok tt, b2) /\
    location_of_index (E := MemoryWriterError) w i = Ok loc /\
    bytes_at (Z.to_nat (rva loc)) (Z.to_nat (data_size loc)) (inner b2) = encode v /\
    length (inner b2) = length (inner b1) /\
    take (length (inner b)) (inner b2) = inner b /\
    forall j, j < n -> j <> i ->
      bytes_at (length (inner b) + size_with T * j) (size_with T) (inner b2) =
      replicate (size_with T) Byte.x00.
Proof.
  intros Hfit Hi. rewrite alloc_array_run.
  assert (Hw : forall x, (0 <= x < 2 ^ 32)%Z -> wrap 32 x = x) by (intros; by apply wrap_small).
  assert (size_with T * i + size_with T <= n * size_with T) by nia.
  set (w := mkMemoryArrayWriter _ _).
  assert (Hpos : Z.to_nat (maw_position w) = length (inner b)).
  { subst w. cbn [maw_position]. unfold position. rewrite Hw by lia. lia. }
  set (b1 := mkBuffer _).
  assert (Hb1 : length (inner b1) = length (inner b) + n * size_with T).
  { subst b1. cbn. by rewrite length_app, length_replicate. }
  exists w, b1. eexists. eexists. split; [done|].
  split; [apply set_value_at_run; lia|]. rewrite Hpos. cbn [inner]. split_and!.
  - unfold location_of_index, add_u.
    subst w. cbn [maw_position]. unfold position. rewrite !Hw by lia.
    by rewrite checked_fits by (unfold in_bits; lia).
  - cbn [rva data_size]. rewrite Nat2Z.id.
    replace (Z.to_nat (_ + _)) with (length (inner b) + size_with T * i) by lia.
    rewrite <- (encode_length v) at 2. apply bytes_at_splice_same. lia.
  - rewrite length_splice; [done|]. rewrite encode_length. lia.
  - rewrite take_splice by lia. subst b1. cbn. by rewrite take_app_length.
  - intros j Hj Hne.
    assert (size_with T * j + size_with T <= n * size_with T) by nia.
    rewrite bytes_at_splice_other; rewrite ?encode_length; [|lia|nia].
    subst b1. cbn [inner]. rewrite bytes_at_app_r by lia.
    unfold bytes_at. rewrite drop_replicate, take_replicate. f_equal. lia.
Qed.

Lemma set_value_at_witness :
  let b := mkBuffer (le_split 2 0) in
  exists w b1 b2, @alloc_array u32 (@pod_u32 layout) 3 b = (Ok w, b1) /\
    @set_value_at x64_release u32 (@pod_u32 layout) w (U32 5) 1 b1 = (Ok tt, b2) /\
    inner b2 = le_split 6 0 ++ le_split 4 5 ++ le_split 4 0.
Proof.
  intros b.
  destruct (@set_value_at_correct x64_release u32 (@pod_u32 layout)
    (@ok_u32 layout layout_ok) 3 1 (U32 5) b) as (w & b1 & b2 & loc & Ha & Hs & _);
    [vm_compute; done|lia|].
  exists w, b1, b2. split; [exact Ha|]. split; [exact Hs|].
  vm_compute in Ha. injection Ha as <- <-. vm_compute in Hs. injection Hs as <-. done.
Defined.

(** [write_string_to_location] round-trips.  For every text (a list of Unicode
    scalar values) that keeps the dump below 4 GiB it succeeds, only appends to
    the buffer, returns a location that covers exactly the appended bytes, and
    a reader that follows the format (32-bit byte count, UTF-16 units, surrogate
    pairs) reads the same text back from it. *)
Theorem write_string_roundtrip `{TG : Target} (F : Format) (FO : FormatOk F)
    (text : list Z) (b : Buffer) :
  Forall is_char text ->
  (Z.of_nat (length (inner b) + 4 + 2 * length (encode_utf16 text)) < 2 ^ 32)%Z ->
  exists loc b', write_string_to_location text b = (Ok loc, b') /\
    take (length (inner b)) (inner b') = inner b /\
    rva loc = Z.of_nat (length (inner b)) /\
    data_size loc = Z.of_nat (length (inner b') - length (inner b)) /\
    read_string (inner b') (rva loc) = Some text.
Proof.
  intros Ht Hfit.
  pose proof (string_bytes_length text) as Hlen.
  rewrite write_string_run by lia. do 2 eexists. split; [done|]. cbn [inner rva data_size].
  unfold position. split; [by rewrite take_app_length|]. split; [done|].
  split; [rewrite length_app; lia|].
  apply read_string_at; [done|lia|].
  rewrite <- (app_nil_r (inner b ++ _)), <- app_assoc. by apply bytes_at_mid.
Qed.

Lemma write_string_roundtrip_witness :
  let text := [0x48; 0x1F600; 0xE9]%Z in
  let b := mkBuffer (le_split 3 1) in
  Forall is_char text /\
  exists loc b', @write_string_to_location x64_release layout text b = (Ok loc, b') /\
    read_string (inner b') (rva loc) = Some text.
Proof.
  intros text b.
  assert (Ht : Forall is_char text) by (repeat constructor; unfold is_char; lia).
  split; [exact Ht|].
  destruct (@write_string_roundtrip x64_release layout layout_ok text b Ht)
    as (loc & b' & Hrun & _ & _ & _ & Hread); [vm_compute; done|].
  exists loc, b'. split; [exact Hrun|exact Hread].
Defined.
