(* ===== verification/DirSection.v ===== *)
(** * The stream directory and its mirror on disk (src/src/dir_section.rs)

    [DirSection] owns the directory slots of the buffer and the destination
    file.  [write_to_file] fills the next slot, patches it into the file at its
    place and appends everything the buffer gained since the last call, so that
    the file always holds the flushed part of the buffer. *)
From Stdlib Require Import ZArith Lia.
From S2P Require Import Prelude Format Layout MemWriter.

(** ** The destination: [Write + Seek] *)

(** The three operations of the destination the code calls: [stream_position],
    [seek(SeekFrom::Start(p))] and [write_all]. *)
Class Destination (W : Type) := {
  stream_position : ST W IoError Z;
  seek_start : Z -> ST W IoError Z;
  dest_write_all : list byte -> ST W IoError unit;
}.

(** What the destination holds: bytes and a cursor. *)
Record File := mkFile {
  contents : list byte;
  cursor : Z;
}.

(** A successful [write_all]: bytes before the cursor that the file does not
    have yet read as zero, the rest is overwritten or appended. *)
Definition file_write (bs : list byte) (f : File) : File :=
  let c := Z.to_nat (cursor f) in
  mkFile (splice c bs (contents f ++ replicate (c - length (contents f)) Byte.x00))
         (cursor f + Z.of_nat (length bs)).

Definition file_seek (p : Z) (f : File) : File := mkFile (contents f) p.

(** The documented contract of [Write] and [Seek], for the calls that succeed;
    nothing is assumed about a call that fails. *)
Class DestinationOk (W : Type) `{Destination W} := {
  view : W -> File;
  stream_position_ok : forall w p w', stream_position w = (Ok p, w') ->
    p = cursor (view w) /\ view w' = view w;
  seek_start_ok : forall p w q w', seek_start p w = (Ok q, w') ->
    view w' = file_seek p (view w);
  dest_write_all_ok : forall bs w w', dest_write_all bs w = (Ok tt, w') ->
    view w' = file_write bs (view w);
}.

(** An in-memory destination ([std::io::Cursor<Vec<u8>>]): nothing fails. *)
#[export] Instance file_destination : Destination File := {|
  stream_position f := (Ok (cursor f), f);
  seek_start p f := (Ok p, file_seek p f);
  dest_write_all bs f := (Ok tt, file_write bs f);
|}.

#[export] Instance file_destination_ok : DestinationOk File.
Proof.
  refine {| view := id |}.
  - intros w p w' E. by injection E as <- <-.
  - intros p w q w' E. by injection E as <- <-.
  - intros bs w w' E. by injection E as <-.
Defined.

(** ** DirSection *)

Inductive FileWriterError :=
  | FW_IOError (e : IoError)
  | FW_MemoryWriterError (e : MemoryWriterError).

Record DirSection (W : Type) := mkDirSection {
  curr_idx : nat;
  section : MemoryArrayWriter MDRawDirectory;
  destination_start_offset : Z;
  destination : W;
  last_position_written_to_file : Z;
}.
Arguments mkDirSection {W} _ _ _ _ _.
Arguments curr_idx {W} _.
Arguments section {W} _.
Arguments destination_start_offset {W} _.
Arguments destination {W} _.
Arguments last_position_written_to_file {W} _.

Definition set_destination {W} (w : W) (d : DirSection W) : DirSection W :=
  mkDirSection (curr_idx d) (section d) (destination_start_offset d) w
    (last_position_written_to_file d).

Definition set_curr_idx {W} (i : nat) (d : DirSection W) : DirSection W :=
  mkDirSection i (section d) (destination_start_offset d) (destination d)
    (last_position_written_to_file d).

Definition set_last_position {W} (p : Z) (d : DirSection W) : DirSection W :=
  mkDirSection (curr_idx d) (section d) (destination_start_offset d) (destination d) p.

(** A call on the destination inside a method of [DirSection]. *)
Definition on_dest {W A} (m : ST W IoError A)
    : ST (DirSection W * Buffer) FileWriterError A :=
  st_map_err FW_IOError
    (st_zoom (fun s => destination (fst s)) (fun w s => (set_destination w (fst s), snd s)) m).

Definition on_buffer {W A} (m : ST Buffer MemoryWriterError A)
    : ST (DirSection W * Buffer) FileWriterError A :=
  st_map_err FW_MemoryWriterError (on_buf m).

Section dir_section.
Context `{Target} {F : Format} {W : Type} `{Destination W}.

Definition DirSection_new (index_length : Z) : ST (W * Buffer) FileWriterError (DirSection W) :=
  dir_section ← st_map_err FW_MemoryWriterError
    (on_buf (alloc_array MDRawDirectory (Z.to_nat index_length)));
  start ← st_map_err FW_IOError (st_zoom fst (fun w s => (w, snd s)) stream_position);
  s ← st_get;
  mret (mkDirSection 0 dir_section start (fst s) 0).

Definition dir_position (d : DirSection W) : Z := maw_position (section d).

Definition dump_dir_entry (dirent : MDRawDirectory)
    : ST (DirSection W * Buffer) FileWriterError unit :=
  '(self, _) ← st_get;
  on_buffer (set_value_at (section self) dirent (curr_idx self));;
  curr_file_pos ← on_dest stream_position;
  idx_pos ← st_lift (location_of_index (section self) (curr_idx self));
  st_modify (fun s => (set_curr_idx (S (curr_idx self)) (fst s), snd s));;
  target ← st_lift (add_u 64 (destination_start_offset self) (rva idx_pos));
  on_dest (seek_start target);;
  let start := Z.to_nat (rva idx_pos) in
  stop ← st_lift (add_u 32 (rva idx_pos) (data_size idx_pos));
  '(_, buffer) ← st_get;
  bytes ← st_lift (match slice start (Z.to_nat stop) (inner buffer) with
                   | Some bs => Ok bs
                   | None => Panic
                   end);
  on_dest (dest_write_all bytes);;
  on_dest (seek_start curr_file_pos);;
  mret tt.

Definition write_to_file (dirent : option MDRawDirectory)
    : ST (DirSection W * Buffer) FileWriterError unit :=
  match dirent with
  | Some d => dump_dir_entry d
  | None => mret tt
  end;;
  '(self, buffer) ← st_get;
  let start_pos := Z.to_nat (last_position_written_to_file self) in
  bytes ← st_lift (match slice start_pos (length (inner buffer)) (inner buffer) with
                   | Some bs => Ok bs
                   | None => Panic
                   end);
  on_dest (dest_write_all bytes);;
  st_modify (fun s => (set_last_position (position buffer) (fst s), snd s)).

End dir_section.

(** ** Theory *)

Lemma on_dest_ok {W A} (m : ST W IoError A) (s s' : DirSection W * Buffer) a :
  on_dest m s = (Ok a, s') <->
  exists w', m (destination s.1) = (Ok a, w') /\ s' = (set_destination w' s.1, s.2).
Proof.
  unfold on_dest. rewrite map_err_ok. unfold st_zoom.
  destruct (m _) as [r w']. naive_solver.
Qed.

Lemma on_buffer_ok {W A} (m : ST Buffer MemoryWriterError A) (s s' : DirSection W * Buffer) a :
  on_buffer m s = (Ok a, s') <-> exists b', m s.2 = (Ok a, b') /\ s' = (s.1, b').
Proof.
  unfold on_buffer. rewrite map_err_ok. unfold on_buf, st_zoom. cbn.
  destruct (m _) as [r b']. naive_solver.
Qed.

Lemma file_write_mirror s n bs (f : File) :
  s <= length (contents f) -> cursor f = Z.of_nat (s + n) -> s + n <= length (contents f) ->
  bytes_at s (n + length bs) (contents (file_write bs f)) =
    bytes_at s n (contents f) ++ bs /\
  take s (contents (file_write bs f)) = take s (contents f) /\
  s + n + length bs <= length (contents (file_write bs f)) /\
  cursor (file_write bs f) = Z.of_nat (s + (n + length bs)).
Proof.
  intros Hs Hc Hn. unfold file_write. cbn [contents cursor]. rewrite Hc, Nat2Z.id.
  replace (s + n - length (contents f)) with 0 by lia. rewrite app_nil_r.
  split_and!.
  - unfold splice, bytes_at.
    rewrite drop_app_le by (rewrite length_take; lia).
    rewrite skipn_firstn_comm. replace (s + n - s) with n by lia.
    rewrite app_assoc, take_app_le
      by (rewrite length_app, length_take, length_drop; lia).
    rewrite take_ge; [done|]. rewrite length_app, length_take, length_drop. lia.
  - by apply take_splice; lia.
  - unfold splice. rewrite !length_app, length_take, length_drop. lia.
  - lia.
Qed.

(** Overwriting inside the mirrored part. *)
Lemma file_write_patch s n k bs (f : File) l :
  s + n <= length (contents f) -> cursor f = Z.of_nat (s + k) -> k + length bs <= n ->
  n <= length l ->
  bytes_at s n (contents f) = take n l ->
  bytes_at s n (contents (file_write bs f)) = take n (splice k bs l) /\
  take s (contents (file_write bs f)) = take s (contents f) /\
  length (contents (file_write bs f)) = length (contents f).
Proof.
  intros Hn Hc Hk Hl Hm. unfold file_write. cbn [contents]. rewrite Hc, Nat2Z.id.
  replace (s + k - length (contents f)) with 0 by lia. rewrite app_nil_r.
  split_and!; [|by apply take_splice; lia | apply length_splice; lia].
  apply list_eq. intros j. rewrite lookup_bytes_at.
  destruct (decide (j < n)) as [Hj|Hj].
  - rewrite lookup_take_lt by lia. rewrite !lookup_splice by lia.
    replace (s + j - (s + k)) with (j - k) by lia.
    repeat case_decide; try lia; [done|].
    apply (f_equal (lookup j)) in Hm. rewrite lookup_bytes_at, decide_True in Hm by lia.
    by rewrite lookup_take_lt in Hm by lia.
  - by rewrite lookup_take_ge by lia.
Qed.

Section sync.
Context `{TG : Target} {F : Format} {FO : FormatOk F} {W : Type} `{DO : DestinationOk W}.
Implicit Types (d : DirSection W) (b : Buffer).

(** The number of bytes of the buffer that have reached the file. *)
Definition flushed (d : DirSection W) : nat := Z.to_nat (last_position_written_to_file d).

(** Where in the buffer the next directory entry goes. *)
Definition slot (d : DirSection W) : nat :=
  Z.to_nat (maw_position (section d)) + size_with MDRawDirectory * curr_idx d.

(** The file mirrors the flushed part of the buffer, behind [pre], the bytes it
    held before the dump. *)
Record synced (pre : list byte) (d : DirSection W) (b : Buffer) : Prop := {
  sync_start : destination_start_offset d = Z.of_nat (length pre);
  sync_last : (0 <= last_position_written_to_file d)%Z;
  sync_flushed : flushed d <= length (inner b);
  sync_cursor : cursor (view (destination d)) = Z.of_nat (length pre + flushed d);
  sync_length : length pre + flushed d <= length (contents (view (destination d)));
  sync_before : take (length pre) (contents (view (destination d))) = pre;
  sync_mirror : bytes_at (length pre) (flushed d) (contents (view (destination d))) =
                take (flushed d) (inner b);
}.

(** The next directory slot is in the flushed part, and its offsets fit. *)
Record room (d : DirSection W) : Prop := {
  room_pos : (0 <= maw_position (section d))%Z;
  room_slot : slot d + size_with MDRawDirectory <= flushed d;
  room_32 : (Z.of_nat (slot d + size_with MDRawDirectory) < 2 ^ 32)%Z;
  room_64 : (destination_start_offset d + 2 ^ 32 <= 2 ^ 64)%Z;
}.

Lemma location_of_slot d {E} :
  room d -> location_of_index (E := E) (section d) (curr_idx d) =
    Ok (mkLocation (Z.of_nat (size_with MDRawDirectory)) (Z.of_nat (slot d))).
Proof.
  intros [Hp Hs H32 _]. unfold slot in *. unfold location_of_index, add_u.
  rewrite !wrap_small by (unfold in_bits; lia).
  rewrite checked_fits by (unfold in_bits; lia). cbn. do 2 f_equal. lia.
Qed.

(** Decomposes a successful run of a [DirSection] method. *)
Ltac dir_inv :=
  repeat (progress (st_inv;
  repeat match goal with
  | HH : on_buffer _ _ = _ |- _ => apply on_buffer_ok in HH as (? & HH & ?); simplify_eq
  | HH : on_dest _ _ = _ |- _ => apply on_dest_ok in HH as (? & HH & ?); simplify_eq
  end; cbn [fst snd destination set_destination set_curr_idx set_last_position
            rva data_size inner] in *)).

Lemma dump_dir_entry_ok pre d b dirent d' b' :
  synced pre d b -> room d -> dump_dir_entry dirent (d, b) = (Ok tt, (d', b')) ->
  synced pre d' b' /\ inner b' = splice (slot d) (encode dirent) (inner b) /\
  curr_idx d' = S (curr_idx d) /\ section d' = section d /\ flushed d' = flushed d /\
  destination_start_offset d' = destination_start_offset d.
Proof.
  intros [Hst Hl0 Hfl Hcur Hlen Hbef Hmir] HR Hrun.
  pose proof HR as [Hp Hs H32 H64].
  unfold dump_dir_entry in Hrun. dir_inv.
  match goal with HH : set_value_at _ _ _ _ = _ |- _ =>
    rewrite set_value_at_run in HH by (unfold slot in *; lia); injection HH as HH end.
  match goal with HH : location_of_index _ _ = _ |- _ =>
    rewrite (location_of_slot d HR) in HH; injection HH as HH end.
  subst. cbn [rva data_size inner] in *. fold (slot d) in *.
  unfold add_u in *. rewrite !checked_fits in * by (unfold in_bits; lia).
  simplify_eq.
  replace (Z.to_nat (_ + _)) with (slot d + length (encode dirent)) in *
    by (rewrite encode_length; lia).
  rewrite Nat2Z.id, slice_splice_same in * by (rewrite encode_length; lia).
  dir_inv. simplify_eq.
  repeat match goal with
  | HH : stream_position _ = _ |- _ => apply stream_position_ok in HH as [? HH]
  | HH : seek_start _ _ = _ |- _ => apply seek_start_ok in HH
  | HH : dest_write_all _ ?x = (Ok ?u, _) |- _ => destruct u; apply dest_write_all_ok in HH
  end.
  unfold flushed in *. cbn [last_position_written_to_file curr_idx section
    destination_start_offset set_destination set_curr_idx].
  split; [|done].
  match goal with
  | V1 : view ?w1 = view (destination d), V2 : view ?w2 = file_seek _ (view ?w1),
    V3 : view ?w3 = file_write _ (view ?w2), V4 : view ?w4 = file_seek _ (view ?w3) |- _ =>
      rewrite V1 in V2; rewrite V2 in V3; rewrite V3 in V4; rename V4 into Hv
  end.
  destruct (file_write_patch (length pre) (flushed d) (slot d) (encode dirent)
    (file_seek (destination_start_offset d + Z.of_nat (slot d)) (view (destination d)))
    (inner b)) as (Hm & Ht & Hl); unfold flushed in *; cbn [contents cursor file_seek] in *;
    try (rewrite ?encode_length; lia); [done|].
  constructor; unfold flushed; cbn [last_position_written_to_file destination_start_offset
    destination set_destination set_curr_idx inner]; rewrite ?Hv; cbn [contents cursor file_seek].
  - done.
  - done.
  - rewrite length_splice; rewrite ?encode_length; lia.
  - subst. done.
  - lia.
  - by rewrite Ht.
  - done.
Qed.

(** What a flush leaves in the buffer: the directory entry in its slot. *)
Definition with_dirent (dirent : option MDRawDirectory) (d : DirSection W) (b : Buffer)
    : list byte :=
  match dirent with
  | Some e => splice (slot d) (encode e) (inner b)
  | None => inner b
  end.

Definition next_idx (dirent : option MDRawDirectory) (d : DirSection W) : nat :=
  match dirent with Some _ => S (curr_idx d) | None => curr_idx d end.

Lemma flush_tail_ok pre d b d' b' :
  synced pre d b -> write_to_file None (d, b) = (Ok tt, (d', b')) ->
  synced pre d' b' /\ b' = b /\ curr_idx d' = curr_idx d /\ section d' = section d /\
  flushed d' = length (inner b) /\
  destination_start_offset d' = destination_start_offset d.
Proof.
  intros [Hst Hl0 Hfl Hcur Hlen Hbef Hmir] Hrun.
  unfold write_to_file in Hrun. dir_inv. fold (flushed d) in *.
  rewrite slice_ok in * by lia. simplify_eq.
  match goal with HH : dest_write_all _ _ = (Ok ?u, _) |- _ =>
    destruct u; apply dest_write_all_ok in HH; rename HH into Hv end.
  unfold flushed in *. cbn [last_position_written_to_file curr_idx section
    destination_start_offset set_destination set_last_position].
  split; [|unfold position; rewrite Nat2Z.id; done].
  destruct (file_write_mirror (length pre) (flushed d)
    (bytes_at (flushed d) (length (inner b) - flushed d) (inner b)) (view (destination d)))
    as (Hm & Ht & Hl & Hc); unfold flushed in *; [lia..|].
  rewrite length_bytes_at in * by lia.
  replace (Z.to_nat (last_position_written_to_file d) +
    (length (inner b) - Z.to_nat (last_position_written_to_file d)))
    with (length (inner b)) in * by lia.
  constructor; unfold flushed, position; cbn [last_position_written_to_file
    destination_start_offset destination set_destination set_last_position];
    rewrite ?Hv, ?Nat2Z.id; try done; try lia.
  - by rewrite Ht.
  - rewrite Hm, Hmir, firstn_all. unfold bytes_at.
    rewrite (take_ge (drop _ _)) by (rewrite length_drop; lia). apply take_drop.
Qed.

Lemma write_to_file_split e :
  write_to_file (W := W) (Some e) = (dump_dir_entry e ;; write_to_file None).
Proof. reflexivity. Qed.

Lemma write_to_file_ok pre d b dirent d' b' :
  synced pre d b -> (is_Some dirent -> room d) ->
  write_to_file dirent (d, b) = (Ok tt, (d', b')) ->
  synced pre d' b' /\ inner b' = with_dirent dirent d b /\
  curr_idx d' = next_idx dirent d /\ section d' = section d /\
  flushed d' = length (inner b') /\
  destination_start_offset d' = destination_start_offset d.
Proof.
  intros Hsync HR Hrun. destruct dirent as [e|].
  - rewrite write_to_file_split in Hrun.
    apply st_bind_ok in Hrun as ([] & [d1 b1] & Hd & Hf).
    apply (dump_dir_entry_ok pre) in Hd as (Hs1 & Hb1 & Hi & Hsec & Hfl & Hst); [|done|eauto].
    apply (flush_tail_ok pre) in Hf as (Hs2 & -> & Hi2 & Hsec2 & Hfl2 & Hst2); [|done].
    unfold with_dirent, next_idx. split_and!; congruence.
  - apply (flush_tail_ok pre) in Hrun as (Hs2 & -> & ?); [|done].
    unfold with_dirent, next_idx. naive_solver.
Qed.

(** Between two flushes a stream writer may change anything but the flushed
    part of the buffer. *)
Lemma synced_frame pre d b b' :
  synced pre d b -> flushed d <= length (inner b') ->
  take (flushed d) (inner b') = take (flushed d) (inner b) -> synced pre d b'.
Proof.
  intros [] Hl Ht. constructor; try done. by rewrite Ht.
Qed.

Lemma length_with_dirent dirent d b :
  (is_Some dirent -> room d) -> flushed d <= length (inner b) ->
  length (with_dirent dirent d b) = length (inner b).
Proof.
  intros HR Hfl. destruct dirent as [e|]; [|done]. simpl.
  destruct HR as [_ Hs _ _]; [done|]. apply length_splice. rewrite encode_length. lia.
Qed.
End sync.

(** On an in-memory destination no call fails. *)
Lemma write_to_file_total `{TG : Target} {F : Format} {FO : FormatOk F} pre
    (d : DirSection File) b dirent :
  synced pre d b -> (is_Some dirent -> room d) ->
  exists d' b', write_to_file dirent (d, b) = (Ok tt, (d', b')).
Proof.
  intros Hsync HR.
  assert (Htail : forall d1 b1, synced pre d1 b1 ->
    exists d' b', write_to_file None (d1, b1) = (Ok tt, (d', b'))).
  { intros d1 b1 [_ ? Hfl _ _ _ _]. do 2 eexists. unfold write_to_file, on_dest, st_map_err,
      st_zoom, st_lift, st_modify, mbind, ST_bind, mret, ST_ret, st_get. cbn.
    unfold flushed in Hfl. rewrite slice_ok by lia. reflexivity. }
  destruct dirent as [e|]; [|by apply Htail].
  rewrite write_to_file_split.
  enough (exists d1 b1, dump_dir_entry e (d, b) = (Ok tt, (d1, b1))) as (d1 & b1 & Hd).
  { st_step Hd. eapply Htail, dump_dir_entry_ok; eauto. }
  assert (Hroom : room d) by eauto. pose proof Hroom as [Hp Hs H32 H64].
  destruct Hsync as [Hst Hl0 Hfl Hcur Hlen Hbef Hmir].
  do 2 eexists. unfold dump_dir_entry. erewrite st_bind_run; [|reflexivity]. cbn beta iota.
  erewrite st_bind_run; [|apply on_buffer_ok; eexists; split; [|reflexivity];
    apply set_value_at_run; cbn; unfold slot in *; lia].
  fold (slot d). erewrite st_bind_run; [|apply on_dest_ok; eexists; split; reflexivity].
  rewrite (location_of_slot d Hroom). erewrite st_bind_run; [|reflexivity].
  erewrite st_bind_run; [|reflexivity]. cbn [rva data_size].
  unfold add_u. rewrite !checked_fits by (unfold in_bits; lia).
  erewrite st_bind_run; [|reflexivity].
  erewrite st_bind_run; [|apply on_dest_ok; eexists; split; reflexivity].
  erewrite st_bind_run; [|reflexivity]. erewrite st_bind_run; [|reflexivity].
  cbn [fst snd inner]. rewrite Nat2Z.id.
  replace (Z.to_nat (_ + _)) with (slot d + length (encode e)) by (rewrite encode_length; lia).
  rewrite slice_splice_same by (rewrite encode_length; lia).
  erewrite st_bind_run; [|reflexivity].
  erewrite st_bind_run; [|apply on_dest_ok; eexists; split; reflexivity].
  erewrite st_bind_run; [|apply on_dest_ok; eexists; split; reflexivity]. reflexivity.
Qed.

(** ** Properties *)

(** C18: the destination mirrors the buffer.  Started in a state where the file
    holds the flushed part of the buffer (and, for a directory entry, its slot
    is flushed), every [write_to_file] that returns [Ok] leaves the file with
    the bytes it had before the dump followed by the whole buffer, the directory
    entry patched in at its slot, and the state ready for the next call. *)
Theorem write_to_file_mirrors `{TG : Target} (F : Format) (FO : FormatOk F) {W : Type}
    `{DO : DestinationOk W} (pre : list byte) (d d' : DirSection W) (b b' : Buffer)
    (dirent : option MDRawDirectory) :
  synced pre d b -> (is_Some dirent -> room d) ->
  write_to_file dirent (d, b) = (Ok tt, (d', b')) ->
  let file := contents (view (destination d')) in
  take (length pre) file = pre /\
  bytes_at (length pre) (length (inner b')) file = inner b' /\
  (forall e, dirent = Some e ->
     bytes_at (length pre + slot d) (size_with MDRawDirectory) file = encode e) /\
  length (inner b') = length (inner b) /\ curr_idx d' = next_idx dirent d /\
  synced pre d' b'.
Proof.
  intros Hsync HR Hrun file.
  pose proof (write_to_file_ok pre _ _ _ _ _ Hsync HR Hrun) as (Hs & Hb & Hi & _ & Hfl & _).
  pose proof Hs as [_ _ _ _ Hlen Hbef Hmir]. fold file in Hlen, Hbef, Hmir.
  rewrite Hfl, firstn_all in Hmir.
  pose proof (sync_flushed _ _ _ Hsync) as Hflb.
  assert (Hlb : length (inner b') = length (inner b)).
  { rewrite Hb. by apply length_with_dirent. }
  split_and!; try done.
  intros e ->. destruct HR as [_ Hsl _ _]; [done|]. cbn in Hb.
  transitivity (bytes_at (slot d) (size_with MDRawDirectory) (inner b')).
  - rewrite <- Hmir at 1. unfold bytes_at at 1 2 3.
    rewrite !skipn_firstn_comm, take_take, drop_drop. f_equal. lia.
  - rewrite Hb. rewrite <- (encode_length e). apply bytes_at_splice_same. lia.
Qed.

(** A 64-byte buffer with a two-entry directory at offset 32, flushed to a file
    that already held three bytes. *)
Definition sample_dir : DirSection File * Buffer :=
  (mkDirSection 0 (mkMemoryArrayWriter 32 2) 3
     (mkFile (le_split 3 (0x030201) ++ le_split 64 0) 67) 64,
   mkBuffer (le_split 64 0)).

Lemma sample_dir_synced : synced (le_split 3 0x030201) sample_dir.1 sample_dir.2.
Proof. constructor; vm_compute; solve [done|lia]. Qed.

Lemma sample_dir_room : room (F := layout) sample_dir.1.
Proof. constructor; vm_compute; solve [done|lia]. Qed.

Lemma write_to_file_mirrors_witness :
  exists d' b', @write_to_file x64_debug layout File _ (Some (mkDirectory 3 (mkLocation 4 64)))
    sample_dir = (Ok tt, (d', b')) /\
  bytes_at 3 (length (inner b')) (contents (destination d')) = inner b'.
Proof.
  pose (s' := (@write_to_file x64_debug layout File _
    (Some (mkDirectory 3 (mkLocation 4 64))) sample_dir).2).
  assert (Hrun : @write_to_file x64_debug layout File _
    (Some (mkDirectory 3 (mkLocation 4 64))) (sample_dir.1, sample_dir.2) =
    (Ok tt, (s'.1, s'.2))) by (vm_compute; reflexivity).
  exists s'.1, s'.2. split; [exact Hrun|].
  exact (proj1 (proj2 (@write_to_file_mirrors x64_debug layout layout_ok File _ _
    (le_split 3 0x030201) _ _ _ _ _ sample_dir_synced (fun _ => sample_dir_room) Hrun))).
Defined.

(** on an in-memory destination [write_to_file] always succeeds, from every
    synchronised state whose directory has room for the entry: no panic and no
    error. *)
Theorem write_to_file_succeeds `{TG : Target} (F : Format) (FO : FormatOk F)
    (pre : list byte) (d : DirSection File) (b : Buffer) (dirent : option MDRawDirectory) :
  synced pre d b -> (is_Some dirent -> room d) ->
  exists d' b', write_to_file dirent (d, b) = (Ok tt, (d', b')) /\ synced pre d' b' /\
    contents (destination d') =
      pre ++ inner b' ++ drop (length pre + length (inner b')) (contents (destination d')).
Proof.
  intros Hsync HR. destruct (write_to_file_total pre d b dirent Hsync HR) as (d' & b' & Hrun).
  pose proof (write_to_file_ok pre _ _ _ _ _ Hsync HR Hrun) as (Hs & _ & _ & _ & Hfl & _).
  exists d', b'. split; [done|]. split; [done|].
  destruct Hs as [_ _ _ _ Hlen Hbef Hmir]. rewrite Hfl, firstn_all in Hmir.
  unfold view in *; cbn in Hbef, Hmir.
  rewrite <- (take_drop (length pre) (contents (destination d'))) at 1. rewrite Hbef. f_equal.
  rewrite <- (take_drop (length (inner b')) (drop (length pre) _)).
  unfold bytes_at in Hmir. rewrite Hmir. f_equal. by rewrite drop_drop.
Qed.

Lemma write_to_file_succeeds_witness :
  exists d' b', @write_to_file x64_debug layout File _ (Some (mkDirectory 3 (mkLocation 4 64)))
    (sample_dir.1, sample_dir.2) = (Ok tt, (d', b')).
Proof.
  destruct (@write_to_file_succeeds x64_debug layout layout_ok (le_split 3 0x030201)
    sample_dir.1 sample_dir.2 (Some (mkDirectory 3 (mkLocation 4 64)))
    sample_dir_synced (fun _ => sample_dir_room)) as (d' & b' & Hrun & _).
  exists d', b'. exact Hrun.
Defined.
