(* ===== verification/Driver.v ===== *)
(** * The state of a dump in progress

    Both dump drivers (src/src/linux/minidump_writer.rs and
    src/src/mac/minidump_writer.rs) work on the same three things: the writer
    itself, the directory section, which holds the destination, and the buffer.
    The definitions here lift the stream writers and the directory operations to
    that state; [C] is the type of the writer. *)
From Stdlib Require Import ZArith Lia.
From S2P Require Import Prelude Format MemWriter DirSection.

Section driver.
Context {C W : Type}.

(** The state of a dump once the directory exists. *)
Notation Dump E := (ST (C * DirSection W * Buffer) E).

(** A stream writer, which sees the writer and the buffer. *)
Definition on_writer {E E' T} (conv : E -> E') (m : ST (C * Buffer) E T) : Dump E' T :=
  st_map_err conv
    (st_zoom (fun s => (fst (fst s), snd s)) (fun t s => (fst t, snd (fst s), snd t)) m).

Definition on_dump_buf {E E' T} (conv : E -> E') (m : ST Buffer E T) : Dump E' T :=
  st_map_err conv (on_buf m).

(** [dir_section.write_to_file(buffer, dirent)] *)
Definition flush `{TG : Target} {F : Format} `{Destination W} (dirent : option MDRawDirectory)
    : Dump FileWriterError unit :=
  st_zoom (fun s => (snd (fst s), snd s)) (fun t s => (fst (fst s), fst t, snd t))
    (write_to_file dirent).

(** Runs [m] with the directory section, which borrows the destination. *)
Definition with_dir {E T} (d : DirSection W) (m : Dump E T) : ST (C * W * Buffer) E T :=
  fun '(c, _, b) =>
    let '(r, (c', d', b')) := m (c, d, b) in
    (r, (c', destination d', b')).
End driver.

(** [dirent.location.data_size += n] *)
Definition extend_dirent {E} `{Target} (d : MDRawDirectory) (n : Z) : res E MDRawDirectory :=
  size ← add_u 32 (data_size (location d)) n;
  Ok (mkDirectory (stream_type d) (mkLocation size (rva (location d)))).
