(* ===== verification/DumpPlan.v ===== *)
(** * Dumps that follow a plan of streams

    What the two dump drivers have in common, for every list of streams and
    every type [C] of writers: where the entries of a dump are placed, the
    invariant that links destination, directory and buffer, and the rules that
    take it through a run, failures and panics included. *)
From Stdlib Require Import ZArith Lia.
From S2P Require Import Prelude Format Layout MemWriter DirSection Driver.

Local Open Scope Z_scope.

(** The location lies in the first [n] bytes of the dump. *)
Definition loc_inside (l : MDLocationDescriptor) (n : nat) : Prop :=
  0 <= data_size l /\ 0 <= rva l /\ rva l + data_size l <= Z.of_nat n.

Definition placed (ty : Z) (e : MDRawDirectory) (n : nat) : Prop :=
  stream_type e = ty /\ loc_inside (location e) n.

Lemma placed_mono ty e n n' : placed ty e n -> (n <= n')%nat -> placed ty e n'.
Proof. unfold placed, loc_inside. intuition lia. Qed.

(** [yields P m]: when [m] returns [a] and the buffer is below 4 GiB, [a] and
    the length of the buffer satisfy [P]. *)
Definition yields {St E T} `{HasBuffer St} (P : T -> nat -> Prop) (m : ST St E T) : Prop :=
  forall s a s', m s = (Ok a, s') -> Z.of_nat (buf_len s') < 2 ^ 32 -> P a (buf_len s').

Section alloc.
Context `{TG : Target} {F : Format} {FO : FormatOk F} {T : Type} `{PT : PodOk T}.

(** What an allocation returns, in terms of the length of the buffer. *)
Lemma alloc_with_val_len (v : T) b w b' : alloc_with_val v b = (Ok w, b') ->
  mw_position w = wrap 32 (Z.of_nat (buf_len b)) /\ buf_len b' = (buf_len b + size_with T)%nat.
Proof.
  rewrite alloc_with_val_run. intros [= <- <-]. split; [done|].
  unfold buf_len. cbn. by rewrite length_app, encode_length.
Qed.

Lemma alloc_len b (w : MemoryWriter T) b' : alloc T b = (Ok w, b') ->
  mw_position w = wrap 32 (Z.of_nat (buf_len b)) /\ buf_len b' = (buf_len b + size_with T)%nat.
Proof.
  rewrite alloc_run. intros [= <- <-]. split; [done|].
  unfold buf_len. cbn. by rewrite length_app, length_replicate.
Qed.

Lemma alloc_array_len k b (w : MemoryArrayWriter T) b' : alloc_array T k b = (Ok w, b') ->
  buf_len b' = (buf_len b + MemWriter.array_size w * size_with T)%nat.
Proof.
  rewrite alloc_array_run. intros [= <- <-].
  unfold buf_len. cbn. by rewrite length_app, length_replicate.
Qed.

Lemma alloc_from_array_len (vs : list T) b w b' : alloc_from_array vs b = (Ok w, b') ->
  buf_len b' = (buf_len b + MemWriter.array_size w * size_with T)%nat.
Proof.
  rewrite alloc_from_array_run. intros [= <- <-].
  unfold buf_len. cbn. by rewrite length_app, encode_all_length.
Qed.

Lemma alloc_from_iter_len (vs : list T) b w b' : alloc_from_iter vs b = (Ok w, b') ->
  buf_len b' = (buf_len b + MemWriter.array_size w * size_with T)%nat.
Proof. rewrite alloc_from_iter_eq. apply alloc_from_array_len. Qed.

Lemma write_bytes_len {E} bs b (w : MemoryArrayWriter u8) b' :
  write_bytes (E := E) bs b = (Ok w, b') ->
  maw_position w = wrap 32 (Z.of_nat (buf_len b)) /\
  buf_len b' = (buf_len b + MemWriter.array_size w * size_with u8)%nat.
Proof.
  intros [= <- <-]. split; [done|]. unfold buf_len. cbn. rewrite length_app, size_u8. lia.
Qed.

(** A stream that is one record, or a record followed by an array. *)
Lemma header_placed ty (h : MemoryWriter T) (l n : nat) :
  mw_position h = wrap 32 (Z.of_nat l) -> (l + size_with T <= n)%nat -> Z.of_nat n < 2 ^ 32 ->
  placed ty (mkDirectory ty (mw_location h)) n.
Proof.
  intros Hp Hl Hn. split; [done|]. unfold loc_inside, mw_location. cbn [location rva data_size].
  rewrite Hp, !wrap_small by (unfold in_bits; lia). lia.
Qed.

Lemma header_array_placed {U} `{PodOk U} {E} ty (h : MemoryWriter T) (w : MemoryArrayWriter U)
    (l n : nat) e :
  mw_position h = wrap 32 (Z.of_nat l) ->
  (l + size_with T + MemWriter.array_size w * size_with U <= n)%nat -> Z.of_nat n < 2 ^ 32 ->
  extend_dirent (E := E) (mkDirectory ty (mw_location h))
    (wrap 32 (Z.of_nat (MemWriter.array_size w * size_with U))) = Ok e ->
  placed ty e n.
Proof.
  intros Hp Hl Hn. unfold extend_dirent, mw_location.
  cbn [location rva data_size stream_type].
  rewrite Hp, !wrap_small by (unfold in_bits; lia). unfold add_u.
  rewrite checked_fits by (unfold in_bits; lia). intros [= <-]. split; [done|].
  unfold loc_inside. cbn. lia.
Qed.
End alloc.

Lemma buf_len_set {St} `{HasBuffer St} b (s : St) : buf_len (set_buf b s) = buf_len b.
Proof. unfold buf_len. by rewrite get_set_buf. Qed.

Lemma buf_len_get {St} `{HasBuffer St} (s : St) : buf_len (get_buf s) = buf_len s.
Proof. done. Qed.

Lemma run_grows {St E T} `{HasBuffer St} (m : ST St E T) s r s' :
  frame 0 m -> m s = (r, s') -> (buf_len s <= buf_len s')%nat.
Proof. intros [Hg _] Hr. specialize (Hg s). by rewrite Hr in Hg. Qed.

(** What a successful allocation did to the length of the buffer. *)
Ltac alloc_fact :=
  match goal with
  | HH : st_map_err _ _ _ = (Ok _, _) |- _ => apply map_err_ok in HH
  | HH : on_buf _ _ = (Ok _, _) |- _ => apply on_buf_ok in HH as (? & HH & ->)
  | HH : alloc_with_val _ _ = (Ok _, _) |- _ => apply alloc_with_val_len in HH as [? HH]
  | HH : alloc _ _ = (Ok _, _) |- _ => apply alloc_len in HH as [? HH]
  | HH : alloc_array _ _ _ = (Ok _, _) |- _ => apply alloc_array_len in HH
  | HH : alloc_from_array _ _ = (Ok _, _) |- _ => apply alloc_from_array_len in HH
  | HH : alloc_from_iter _ _ = (Ok _, _) |- _ => apply alloc_from_iter_len in HH
  | HH : write_bytes _ _ = (Ok _, _) |- _ => apply write_bytes_len in HH as [? HH]
  end.

(** Any other run does not shrink it; [tac] proves the frame. *)
Ltac growth_fact tac :=
  match goal with
  | HH : ?m ?s = (Ok _, ?s') |- _ =>
      let Hg := fresh "Hg" in
      assert (Hg : (buf_len s <= buf_len s')%nat)
        by (apply (run_grows m _ _ _ ltac:(tac) HH));
      clear HH
  end.

(** Closes the goal with the lemma on the shape of the stream. *)
Ltac place :=
  match goal with
  | Hp : mw_position ?h = _,
    He : extend_dirent _ (wrap 32 (Z.of_nat (MemWriter.array_size ?w * _))) = Ok _ |- _ =>
      refine (header_array_placed _ h w _ _ _ Hp _ _ He); lia
  | Hp : mw_position ?h = _ |- placed _ (mkDirectory _ (mw_location ?h)) _ =>
      refine (header_placed _ h _ _ Hp _ _); lia
  end.

Local Open Scope nat_scope.

(** ** Plans

    The streams of a dump in the order of their directory entries; [slot_ok n
    spec e]: the entry [e] describes the stream [spec] in a dump of [n] bytes. *)
Class StreamPlan := {
  slot_spec : Type;
  plan : list slot_spec;
  slot_ok : nat -> slot_spec -> MDRawDirectory -> Prop;
  slot_ok_mono : forall n n' spec e, n <= n' -> slot_ok n spec e -> slot_ok n' spec e;
}.

Section dump.
Context `{TG : Target} {F : Format} {FO : FormatOk F} {SP : StreamPlan}.
Context (pre : list byte) (hdr : MDRawHeader).

Notation slots := (length plan).
Notation hsz := (size_with MDRawHeader).
Notation dsz := (size_with MDRawDirectory).
Notation dir_end := (hsz + slots * dsz).

(** The bytes of a directory with the entries [es]. *)
Definition directory_bytes (es : list MDRawDirectory) : list byte :=
  concat (encode <$> es) ++ replicate ((slots - length es) * dsz) Byte.x00.

Record dump_inv (es : list MDRawDirectory) (d : DirSection File) (b : Buffer) : Prop := {
  inv_sync : synced pre d b;
  inv_section : section d = mkMemoryArrayWriter (Z.of_nat hsz) slots;
  inv_idx : curr_idx d = length es;
  inv_flushed : dir_end <= flushed d;
  inv_small : (Z.of_nat dir_end < 2 ^ 32)%Z;
  inv_start : (Z.of_nat (length pre) + 2 ^ 32 <= 2 ^ 64)%Z;
  inv_header : bytes_at 0 hsz (inner b) = encode hdr;
  inv_dir : bytes_at hsz (slots * dsz) (inner b) = directory_bytes es;
  inv_entries : Forall2 (slot_ok (length (inner b))) (take (length es) plan) es;
}.

Lemma inv_count es d b : dump_inv es d b -> length es <= slots.
Proof.
  intros Hi. pose proof (Forall2_length _ _ _ (inv_entries _ _ _ Hi)) as Hl.
  rewrite length_take in Hl. lia.
Qed.

(** The invariant only reads the flushed part of the buffer. *)
Lemma inv_frame es d b b' :
  dump_inv es d b -> length (inner b) <= length (inner b') ->
  take (flushed d) (inner b') = take (flushed d) (inner b) -> dump_inv es d b'.
Proof.
  intros [Hs Hsec Hidx Hfl Hsm Hst Hh Hd He] Hl Ht.
  pose proof (sync_flushed _ _ _ Hs).
  assert (Hat : forall i n, i + n <= flushed d ->
    bytes_at i n (inner b') = bytes_at i n (inner b)).
  { intros i n Hin. apply (f_equal (bytes_at i n)) in Ht. unfold bytes_at in *.
    rewrite !skipn_firstn_comm, !take_take in Ht. by rewrite Nat.min_l in Ht by lia. }
  constructor; try done.
  - apply (synced_frame pre d b); [done|lia|done].
  - rewrite Hat by lia. done.
  - rewrite Hat by lia. done.
  - eapply Forall2_impl; [done|]. intros ? ?. by apply slot_ok_mono.
Qed.

Lemma length_concat_encode (es : list MDRawDirectory) :
  length (concat (encode <$> es)) = length es * dsz.
Proof. apply encode_all_length. Qed.

Lemma directory_bytes_snoc es e :
  length es < slots ->
  splice (dsz * length es) (encode e) (directory_bytes es) = directory_bytes (es ++ [e]).
Proof.
  intros Hl. unfold directory_bytes, splice.
  rewrite take_app_le, take_ge by (rewrite length_concat_encode; lia).
  rewrite fmap_app, concat_app, <- app_assoc. f_equal. cbn [fmap list_fmap concat].
  rewrite app_nil_r. f_equal.
  rewrite drop_app_ge by (rewrite length_concat_encode, encode_length; lia).
  rewrite drop_replicate, length_concat_encode, encode_length, length_app. f_equal. cbn [length].
  replace (slots - length es) with (S (slots - (length es + 1))) by lia. rewrite Nat.mul_succ_l.
  rewrite (Nat.mul_comm dsz). generalize ((slots - (length es + 1)) * dsz). lia.
Qed.

Lemma inv_room es d b : dump_inv es d b -> length es < slots -> room d.
Proof.
  intros [Hs Hsec Hidx Hfl Hsm Hst _ _ _] Hl.
  assert (slot d = hsz + dsz * length es) as Hslot.
  { unfold slot. rewrite Hsec, Hidx. cbn [maw_position]. lia. }
  constructor.
  - rewrite Hsec. cbn. lia.
  - rewrite Hslot. nia.
  - rewrite Hslot. nia.
  - rewrite (sync_start _ _ _ Hs). lia.
Qed.

(** A flush with an entry for the next stream. *)
Lemma inv_flush_some es d b e spec :
  dump_inv es d b -> plan !! length es = Some spec -> slot_ok (length (inner b)) spec e ->
  exists d' b', write_to_file (Some e) (d, b) = (Ok tt, (d', b')) /\
    dump_inv (es ++ [e]) d' b' /\ flushed d' = length (inner b').
Proof.
  intros Hi Hspec He. pose proof (lookup_lt_Some _ _ _ Hspec) as Hlt.
  pose proof (inv_room _ _ _ Hi Hlt) as HR.
  destruct (write_to_file_total pre d b (Some e) (inv_sync _ _ _ Hi) (fun _ => HR))
    as (d' & b' & Hrun).
  exists d', b'. split; [done|].
  pose proof (write_to_file_ok pre _ _ _ _ _ (inv_sync _ _ _ Hi) (fun _ => HR) Hrun)
    as (Hs' & Hb' & Hi' & Hsec' & Hfl' & Hst').
  destruct Hi as [Hs Hsec Hidx Hfl Hsm Hst Hh Hd Hes]. cbn in Hb', Hi'.
  pose proof (sync_flushed _ _ _ Hs).
  assert (Hslot : slot d = hsz + dsz * length es).
  { unfold slot. rewrite Hsec, Hidx. cbn [maw_position]. lia. }
  assert (Hend : slot d + dsz <= length (inner b)) by (destruct HR; lia).
  assert (Hlen : length (inner b') = length (inner b)).
  { rewrite Hb'. apply length_splice. rewrite encode_length. lia. }
  split; [|done]. constructor; try done; try congruence.
  - rewrite length_app. simpl. lia.
  - lia.
  - rewrite Hb'. rewrite bytes_at_splice_other; rewrite ?encode_length; [done|lia|lia].
  - rewrite <- directory_bytes_snoc by done. rewrite <- Hd, Hb', Hslot.
    apply bytes_at_splice_inside; rewrite ?encode_length; nia.
  - rewrite length_app, Hlen. cbn [length]. rewrite Nat.add_1_r, (take_S_r _ _ _ Hspec).
    apply Forall2_app; [done|]. by constructor.
Qed.

Lemma inv_flush_none es d b :
  dump_inv es d b ->
  exists d', write_to_file None (d, b) = (Ok tt, (d', b)) /\
    dump_inv es d' b /\ flushed d' = length (inner b).
Proof.
  intros Hi. destruct (write_to_file_total pre d b None (inv_sync _ _ _ Hi)) as (d' & b' & Hrun);
    [by intros []|].
  pose proof (flush_tail_ok pre _ _ _ _ (inv_sync _ _ _ Hi) Hrun)
    as (Hs' & -> & Hi' & Hsec' & Hfl' & Hst').
  exists d'. split; [done|]. split; [|done].
  destruct Hi as [Hs Hsec Hidx Hfl Hsm Hst Hh Hd Hes].
  pose proof (sync_flushed _ _ _ Hs).
  constructor; try done; try congruence. lia.
Qed.
End dump.

(** ** Growth *)

Section growth.
Context `{TG : Target} {F : Format} {FO : FormatOk F} {C W : Type} `{Destination W}.

Lemma grows_on_dest {T} (m : ST W IoError T) : st_rel grows (on_dest m).
Proof.
  apply st_rel_map_err. intros s. unfold st_zoom. destruct (m _). unfold grows, buf_len. cbn. lia.
Qed.

Lemma grows_on_buf {St E T} `{HasBuffer St} (m : ST Buffer E T) :
  st_rel grows m -> st_rel grows (on_buf (St := St) m).
Proof.
  intros Hm s. specialize (Hm (get_buf s)). unfold on_buf, st_zoom. destruct (m (get_buf s)).
  unfold grows in *. cbn in *. by rewrite buf_len_set.
Qed.

Lemma grows_write_to_file dirent : st_rel grows (write_to_file (W := W) dirent).
Proof.
  assert (Hmod : forall f, st_rel (E := FileWriterError) grows
    (st_modify (fun s : DirSection W * Buffer => (f (fst s), snd s)))).
  { intros f s. unfold grows, buf_len. cbn. lia. }
  unfold write_to_file, dump_dir_entry.
  repeat lazymatch goal with
  | |- forall _, _ => intros
  | |- PreOrder _ => apply _
  | |- st_rel _ (_ ≫= _) => apply st_rel_bind
  | |- st_rel _ (on_dest _) => apply grows_on_dest
  | |- st_rel _ (on_buffer _) => apply st_rel_map_err, grows_on_buf, grows_set_value_at
  | |- st_rel _ (st_modify _) => apply Hmod
  | |- st_rel _ (st_lift _) => apply st_rel_lift
  | |- st_rel _ st_get => apply st_rel_get
  | |- st_rel _ (mret _) => apply st_rel_ret
  | |- st_rel _ (match ?x with _ => _ end) => destruct x
  end.
Qed.

Lemma grows_flush dirent : st_rel grows (flush (C := C) (W := W) dirent).
Proof.
  intros [[c d] b]. pose proof (grows_write_to_file dirent (d, b)) as Hg. unfold flush, st_zoom.
  cbn in *. destruct (write_to_file dirent (d, b)) as [r [d' b']]. exact Hg.
Qed.

Lemma grows_on_writer {E E' T} (conv : E -> E') (m : ST (C * Buffer) E T) :
  st_rel grows m -> st_rel grows (on_writer (W := W) conv m).
Proof.
  intros Hm. apply st_rel_map_err. intros [[c d] b]. specialize (Hm (c, b)). unfold st_zoom.
  cbn in *. destruct (m (c, b)) as [r [c' b']]. exact Hm.
Qed.
End growth.

(** ** The streams one after the other *)

Section stages.
Context `{TG : Target} {F : Format} {FO : FormatOk F} {SP : StreamPlan} {C : Type}.
Context (pre : list byte) (hdr : MDRawHeader).

Notation State := (C * DirSection File * Buffer)%type.

(** [k] streams have their entry; nothing but the flushed part is promised. *)
Definition Inv (k : nat) (s : State) : Prop :=
  exists es, length es = k /\ dump_inv pre hdr es s.1.2 s.2.

(** The same, with the whole buffer flushed. *)
Definition Clean (k : nat) (s : State) : Prop :=
  Inv k s /\ flushed s.1.2 = length (inner s.2).

(** Whatever the outcome of [m] the invariant holds for some number of streams,
    as long as the dump stays below 4 GiB; a normal return establishes [Q]. *)
Definition hoare {E T} (P : State -> Prop) (m : ST State E T) (Q : T -> State -> Prop) : Prop :=
  st_rel grows m /\
  forall s, P s -> (Z.of_nat (buf_len (m s).2) < 2 ^ 32)%Z ->
    (exists j, Inv j (m s).2) /\ forall a, (m s).1 = Ok a -> Q a (m s).2.

Lemma hoare_bind {E T U} P (m : ST State E T) Q (f : T -> ST State E U) R :
  hoare P m Q -> (forall a, hoare (Q a) (f a) R) -> hoare P (m ≫= f) R.
Proof.
  intros [Hg Hm] Hf. split.
  { apply st_rel_bind; [apply _|done|]. intros a. apply Hf. }
  intros s HP. unfold mbind, ST_bind. specialize (Hm s HP).
  destruct (m s) as [[a|e|] s1]; cbn in *; [|naive_solver..].
  destruct (Hf a) as [Hga Hfa]. intros Hlt. specialize (Hga s1). unfold grows in Hga.
  destruct Hm as [_ HQ]; [lia|]. apply Hfa; [by apply HQ|done].
Qed.

Lemma hoare_conseq {E T} (P P' : State -> Prop) (m : ST State E T) (Q Q' : T -> State -> Prop) :
  hoare P m Q -> (forall s, P' s -> P s) -> (forall a s, Q a s -> Q' a s) -> hoare P' m Q'.
Proof. intros [Hg Hm] HP HQ. split; [done|]. intros s Hs Hlt. destruct (Hm s); eauto. Qed.

Lemma hoare_map_err {E E' T} (conv : E -> E') P (m : ST State E T) Q :
  hoare P m Q -> hoare P (st_map_err conv m) Q.
Proof.
  intros [Hg Hm]. split; [by apply st_rel_map_err|]. intros s HP. specialize (Hm s HP).
  unfold st_map_err. destruct (m s) as [[a|e|] s1]; cbn in *; naive_solver.
Qed.

(** A caught error: the state is only known to satisfy [Q'] then. *)
Lemma hoare_try {E E' T} P (m : ST State E T) Q (Q' : State -> Prop) :
  hoare P m Q ->
  (forall s e s', P s -> m s = (Err e, s') -> (Z.of_nat (buf_len s') < 2 ^ 32)%Z -> Q' s') ->
  hoare (E := E') P (st_try m) (fun r s => match r with inr a => Q a s | inl _ => Q' s end).
Proof.
  intros [Hg Hm] Herr. split; [by apply st_rel_try|]. intros s HP.
  specialize (Hm s HP). specialize (Herr s). unfold st_try.
  destruct (m s) as [[a|e|] s1]; cbn in *; intros Hlt; destruct (Hm Hlt) as [Hi HQ];
    (split; [done|]); intros r [= <-]; eauto.
Qed.

Lemma Inv_frame k c c' d b b' :
  Inv k (c, d, b) -> length (inner b) <= length (inner b') ->
  take (flushed d) (inner b') = take (flushed d) (inner b) -> Inv k (c', d, b').
Proof. intros (es & Hk & Hi) Hl Ht. exists es. split; [done|]. by eapply inv_frame. Qed.

(** A writer between two flushes, whatever its outcome. *)
Lemma writer_keeps {E T} k (m : ST (C * Buffer) E T) c d b r c' b' :
  (forall n, frame n m) -> Inv k (c, d, b) -> m (c, b) = (r, (c', b')) ->
  (Z.of_nat (length (inner b')) < 2 ^ 32)%Z -> Inv k (c', d, b').
Proof.
  intros Hf Hi Hrun Hlt. destruct (Hf (flushed d)) as [Hg Hk].
  specialize (Hg (c, b)). specialize (Hk (c, b)). rewrite Hrun in *. cbn in *.
  eapply Inv_frame; [done|exact Hg|]. apply Hk; [|done].
  destruct Hi as (es & _ & Hi). apply (sync_flushed _ _ _ (inv_sync _ _ _ _ _ Hi)).
Qed.

Lemma hoare_writer {E E' T} (conv : E -> E') k (m : ST (C * Buffer) E T) (P : T -> nat -> Prop) :
  (forall n, frame n m) -> yields P m ->
  hoare (Inv k) (on_writer conv m) (fun a s => Inv k s /\ P a (buf_len s)).
Proof.
  intros Hf Hy. unfold on_writer. apply hoare_map_err. split.
  { pose proof (grows_on_writer (W := File) id m (frame_grows _ _ (Hf 0))) as Hg.
    intros s. specialize (Hg s). unfold on_writer, st_map_err in Hg.
    by destruct (st_zoom _ _ m s). }
  intros [[c d] b] Hi. unfold st_zoom. cbn. destruct (m (c, b)) as [r [c' b']] eqn:Hrun. cbn.
  intros Hlt. pose proof (writer_keeps _ _ _ _ _ _ _ _ Hf Hi Hrun Hlt) as Hi'.
  split; [by exists k|]. intros a ->. split; [done|]. by apply (Hy _ _ _ Hrun).
Qed.

Lemma hoare_flush_some k e spec :
  plan !! k = Some spec ->
  hoare (fun s => Inv k s /\ slot_ok (buf_len s) spec e) (flush (Some e)) (fun _ => Clean (S k)).
Proof.
  intros Hspec. split; [apply grows_flush|].
  intros [[c d] b] [(es & <- & Hi) He] _.
  destruct (inv_flush_some pre hdr es d b e spec Hi Hspec He) as (d' & b' & Hrun & Hi' & Hfl).
  unfold flush, st_zoom. cbn [fst snd]. rewrite Hrun. cbn [fst snd].
  assert (HS : Inv (S (length es)) (c, d', b')).
  { exists (es ++ [e]). split; [rewrite length_app; cbn; lia|done]. }
  split; [by exists (S (length es))|]. by intros [] _.
Qed.

Lemma hoare_flush_none k : hoare (Inv k) (flush None) (fun _ => Clean k).
Proof.
  split; [apply grows_flush|]. intros [[c d] b] (es & <- & Hi) _.
  destruct (inv_flush_none pre hdr es d b Hi) as (d' & Hrun & Hi' & Hfl).
  unfold flush, st_zoom. cbn [fst snd]. rewrite Hrun. cbn [fst snd].
  assert (HS : Inv (length es) (c, d', b)) by by exists es.
  split; [by exists (length es)|]. by intros [] _.
Qed.

Lemma flush_some_ok k e spec s :
  plan !! k = Some spec -> Inv k s -> slot_ok (buf_len s) spec e ->
  exists s', flush (Some e) s = (Ok tt, s').
Proof.
  destruct s as [[c d] b]. intros Hspec (es & <- & Hi) He.
  destruct (inv_flush_some pre hdr es d b e spec Hi Hspec He) as (d' & b' & Hrun & _ & _).
  unfold flush, st_zoom. cbn [fst snd]. rewrite Hrun. by eexists.
Qed.

Lemma hoare_ext {E T} P (m m' : ST State E T) Q :
  (forall s, m s = m' s) -> hoare P m' Q -> hoare P m Q.
Proof.
  intros He [Hg Hm]. split; [intros s; rewrite He; apply Hg|]. intros s. rewrite He. apply Hm.
Qed.

Lemma hoare_ret {E T} (P : State -> Prop) (a : T) Q :
  (forall s, P s -> Q a s /\ exists j, Inv j s) -> hoare (E := E) P (mret a) Q.
Proof.
  intros HP. split; [apply st_rel_ret; apply _|]. intros s Hs _. destruct (HP s Hs).
  split; [done|]. by intros ? [= <-].
Qed.

(** A writer whose failure is not one of the dump. *)
Lemma hoare_writer_try {E E' E'' T} (conv : E -> E') k (m : ST (C * Buffer) E T) (P : T -> nat -> Prop) :
  (forall n, frame n m) -> yields P m ->
  hoare (E := E'') (Inv k) (st_try (on_writer conv m))
    (fun r s => match r with inr a => Inv k s /\ P a (buf_len s) | inl _ => Inv k s end).
Proof.
  intros Hf Hy. apply hoare_try; [by apply hoare_writer|].
  intros [[c d] b] e s' Hi. unfold on_writer, st_map_err, st_zoom. cbn [fst snd].
  destruct (m (c, b)) as [[a|e1|] [c' b']] eqn:Hrun; intros [= <- <-] Hlt.
  by eapply writer_keeps.
Qed.

Lemma on_dump_buf_writer {E E' T} (conv : E -> E') (m : ST Buffer E T) (s : State) :
  on_dump_buf conv m s = on_writer conv (on_buf m) s.
Proof.
  destruct s as [[c d] b]. unfold on_dump_buf, on_writer, st_map_err, on_buf, st_zoom. cbn.
  by destruct (m b).
Qed.

Lemma yields_on_buf {E T} (P : T -> nat -> Prop) (m : ST Buffer E T) :
  yields P m -> yields (St := C * Buffer) P (on_buf m).
Proof.
  intros Hy s a s' Hrun Hlt. apply on_buf_ok in Hrun as (b' & Hrun & ->).
  rewrite buf_len_set in *. by apply (Hy _ _ _ Hrun).
Qed.

Lemma hoare_buf_try {E E' E'' T} (conv : E -> E') k (m : ST Buffer E T) (P : T -> nat -> Prop) :
  (forall n, frame n m) -> yields P m ->
  hoare (E := E'') (Inv k) (st_try (on_dump_buf conv m))
    (fun r s => match r with inr a => Inv k s /\ P a (buf_len s) | inl _ => Inv k s end).
Proof.
  intros Hf Hy. eapply hoare_ext; [intros s; unfold st_try; by rewrite on_dump_buf_writer|].
  apply hoare_writer_try; [intros n; by apply frame_on_buf|by apply yields_on_buf].
Qed.

(** A stream writer and the flush of its entry. *)
Lemma stage_stream {E E' T} (conv : E -> E') (convF : FileWriterError -> E') k spec
    (m : ST (C * Buffer) E MDRawDirectory) (rest : ST State E' T) R :
  plan !! k = Some spec -> (forall n, frame n m) -> yields (fun e n => slot_ok n spec e) m ->
  hoare (Clean (S k)) rest R ->
  hoare (Clean k) (e ← on_writer conv m; st_map_err convF (flush (Some e));; rest) R.
Proof.
  intros Ho Hf Hy Hr. eapply hoare_bind.
  - eapply hoare_conseq;
      [by apply (hoare_writer conv k m (fun e n => slot_ok n spec e))|by intros s []|done].
  - intros e. cbn beta. apply (hoare_bind _ _ (fun _ => Clean (S k))); [|by intros []].
    apply hoare_map_err. by apply (hoare_flush_some k e spec).
Qed.

(** A list of stream writers, in the order of the plan from the slot [k] on. *)
Lemma stage_list {E E'} (conv : E -> E') (convF : FileWriterError -> E')
    (ws : list (ST (C * Buffer) E MDRawDirectory)) : forall k specs,
  Forall2 (fun m spec => (forall n, frame n m) /\ yields (fun e n => slot_ok n spec e) m) ws specs ->
  (forall i, i < length specs -> plan !! (k + i) = specs !! i) ->
  hoare (Clean k)
    (st_for ws (fun m => e ← on_writer conv m; st_map_err convF (flush (Some e))))
    (fun _ => Clean (k + length ws)).
Proof.
  induction ws as [|m ws IH]; intros k specs HF Hp; cbn [st_for].
  - apply hoare_ret. intros s Hs. cbn [length]. rewrite Nat.add_0_r. split; [done|].
    exists k. apply Hs.
  - inversion HF as [|? spec ? specs' [Hf Hy] HF' Eq1 Eq2]; subst.
    apply (hoare_bind _ _ (fun _ => Clean (S k))).
    + eapply hoare_bind.
      * eapply hoare_conseq;
          [by apply (hoare_writer conv k m (fun e n => slot_ok n spec e))|by intros s []|done].
      * intros e. cbn beta. apply hoare_map_err. apply (hoare_flush_some k e spec).
        specialize (Hp 0 ltac:(cbn; lia)). by rewrite Nat.add_0_r in Hp.
    + intros []. cbn [length]. replace (k + S (length ws)) with (S k + length ws) by lia.
      apply (IH (S k) specs' HF'). intros i Hi.
      specialize (Hp (S i) ltac:(cbn; lia)). by replace (S k + i) with (k + S i) by lia.
Qed.
End stages.

(** ** The first flush *)

(** The state in which the streams start: the reserved header and directory,
    nothing flushed. *)
Definition start_dir {F : Format} {SP : StreamPlan} (f : File) : DirSection File :=
  mkDirSection 0 (mkMemoryArrayWriter (wrap 32 (Z.of_nat (size_with MDRawHeader))) (length plan))
    (cursor f) f 0.

Definition start_buffer {F : Format} {SP : StreamPlan} : Buffer :=
  mkBuffer (replicate (size_with MDRawHeader + length plan * size_with MDRawDirectory) Byte.x00).

(** The part of the file before the dump. *)
Definition before (f : File) : list byte := take (Z.to_nat (cursor f)) (contents f).

(** Writes the header into its slot and flushes. *)
Definition flush_header `{TG : Target} {F : Format} {C W E : Type} `{Destination W}
    (convM : MemoryWriterError -> E) (convF : FileWriterError -> E)
    (w : MemoryWriter MDRawHeader) (hdr : MDRawHeader) : ST (C * DirSection W * Buffer) E unit :=
  on_dump_buf convM (set_value w hdr);; st_map_err convF (flush None).

Section header.
Context `{TG : Target} {F : Format} {FO : FormatOk F} {SP : StreamPlan} {C E : Type}.
Context (convM : MemoryWriterError -> E) (convF : FileWriterError -> E).

Notation slots := (length plan).
Notation hsz := (size_with MDRawHeader).
Notation dsz := (size_with MDRawDirectory).

(** Reserving header and directory in an empty buffer. *)
Lemma dump_start (c : C) f n {T} (k : MemoryWriter MDRawHeader -> DirSection File ->
    ST (C * File * Buffer) E T) :
  n = Z.of_nat slots ->
  (header_section ← st_map_err convM (on_buf (alloc MDRawHeader));
   dir_section ← st_map_err convF
     (st_zoom (fun s => (snd (fst s), snd s)) (fun t s => (fst (fst s), fst t, snd t))
        (DirSection_new n));
   k header_section dir_section) (c, f, mkBuffer []) =
  k (mkMemoryWriter (wrap 32 0) hsz) (start_dir f) (c, f, start_buffer).
Proof.
  intros ->. erewrite st_bind_run; [|apply map_err_ok, on_buf_run, alloc_run]. cbn [set_buf].
  erewrite st_bind_run; [|apply map_err_ok; unfold st_zoom, DirSection_new; cbn [fst snd];
    erewrite st_bind_run; [|apply map_err_ok, on_buf_run, alloc_array_run];
    erewrite st_bind_run; [|reflexivity]; erewrite st_bind_run; reflexivity].
  rewrite Nat2Z.id. cbn. unfold position, start_dir, start_buffer. cbn [inner app].
  rewrite length_replicate, replicate_add. reflexivity.
Qed.

Lemma grows_flush_header w hdr :
  st_rel grows (flush_header (C := C) (W := File) convM convF w hdr).
Proof.
  apply st_rel_bind; [apply _|apply st_rel_map_err, grows_on_buf, grows_set_value|].
  intros _. apply st_rel_map_err, grows_flush.
Qed.

Context (f : File) (Hcur : (0 <= cursor f <= Z.of_nat (length (contents f)))%Z).
Context (Hend : (cursor f + 2 ^ 32 <= 2 ^ 64)%Z).
Context (Hsmall : (Z.of_nat (hsz + slots * dsz) < 2 ^ 32)%Z).

Lemma length_before : Z.of_nat (length (before f)) = cursor f.
Proof. unfold before. rewrite length_take. lia. Qed.

Lemma start_synced b : synced (before f) (start_dir f) b.
Proof.
  pose proof length_before as Hb.
  constructor; unfold flushed; cbn -[before]; rewrite ?Nat.add_0_r; try done; try lia.
  unfold before. rewrite length_take. f_equal. lia.
Qed.

Lemma start_dir_position : dir_position (start_dir f) = Z.of_nat hsz.
Proof. cbn. apply wrap_small. unfold in_bits; lia. Qed.

Lemma flush_header_run (c : C) hdr :
  exists s, flush_header convM convF (mkMemoryWriter (wrap 32 0) hsz) hdr
      (c, start_dir f, start_buffer) = (Ok tt, s) /\
    Clean (before f) hdr 0 s /\ length (inner s.2) = hsz + slots * dsz /\ s.1.1 = c.
Proof.
  pose proof length_before as Hlb.
  set (b1 := mkBuffer (splice 0 (encode hdr) (inner start_buffer))).
  assert (Hl1 : length (inner b1) = hsz + slots * dsz).
  { subst b1. cbn [inner start_buffer]. rewrite length_splice; rewrite length_replicate;
      [done|rewrite encode_length; lia]. }
  destruct (write_to_file_total (before f) (start_dir f) b1 None (start_synced b1))
    as (d' & b' & Hrun); [by intros []|].
  pose proof (flush_tail_ok (before f) _ _ _ _ (start_synced b1) Hrun)
    as (Hs & -> & Hi & Hsec & Hfl & Hst).
  exists (c, d', b1). split; [|split; [split|split; [exact Hl1|done]]]; [| |exact Hfl].
  - unfold flush_header.
    erewrite st_bind_run; [|apply map_err_ok, on_buf_run, set_value_run; apply Nat.le_0_l].
    apply map_err_ok. unfold flush, st_zoom. cbn [fst snd set_buf pair_has_buffer].
    change (Z.to_nat (mw_position (mkMemoryWriter (wrap 32 0) hsz))) with 0.
    cbn [get_buf pair_has_buffer snd]. fold b1. rewrite Hrun. reflexivity.
  - exists []. split; [done|]. cbn [fst snd]. constructor; try done.
    + rewrite Hsec. cbn. f_equal. apply wrap_small. unfold in_bits; lia.
    + lia.
    + lia.
    + subst b1. cbn [inner]. rewrite <- (encode_length hdr).
      apply bytes_at_splice_same. lia.
    + subst b1. cbn [inner start_buffer]. rewrite bytes_at_splice_other;
        rewrite ?encode_length, ?length_replicate; [|lia|lia].
      unfold bytes_at, directory_bytes. rewrite drop_replicate, take_replicate.
      cbn [fmap list_fmap concat app length]. f_equal. lia.
Qed.
End header.

(** ** The destination *)

(** What the destination holds when [n] bytes of the buffer are flushed: the
    bytes from before the dump, the header, the directory with the entries
    [es], each describing its stream, and the rest of the flushed bytes. *)
Definition dump_on_disk {F : Format} {SP : StreamPlan} (pre : list byte) (hdr : MDRawHeader)
    (es : list MDRawDirectory) (n : nat) (file : list byte) (b : Buffer) : Prop :=
  let hsz := size_with MDRawHeader in
  let dsz := size_with MDRawDirectory in
  take (length pre) file = pre /\
  hsz + length plan * dsz <= n <= length (inner b) /\
  bytes_at (length pre) n file = take n (inner b) /\
  bytes_at 0 hsz (inner b) = encode hdr /\
  bytes_at hsz (length plan * dsz) (inner b) = directory_bytes es /\
  Forall2 (slot_ok (length (inner b))) (take (length es) plan) es.

Lemma Inv_on_disk `{TG : Target} {F : Format} {FO : FormatOk F} {SP : StreamPlan} {C : Type}
    pre hdr k (s : C * DirSection File * Buffer) :
  Inv pre hdr k s ->
  exists es, length es = k /\
    dump_on_disk pre hdr es (flushed s.1.2) (contents (destination s.1.2)) s.2.
Proof.
  intros (es & Hk & [Hs _ _ Hfl _ _ Hh Hd He]). exists es. split; [done|].
  pose proof (sync_flushed _ _ _ Hs). pose proof (sync_before _ _ _ Hs).
  pose proof (sync_mirror _ _ _ Hs). by split_and!.
Qed.

Lemma dump_on_disk_prefix {F : Format} {SP : StreamPlan} pre hdr es file b :
  dump_on_disk pre hdr es (length (inner b)) file b ->
  take (length pre + length (inner b)) file = pre ++ inner b.
Proof.
  intros (Hpre & _ & Hm & _). rewrite firstn_all in Hm. unfold bytes_at in Hm.
  rewrite <- (take_drop (length pre) file) at 1. rewrite Hpre, take_app_add', Hm; done.
Qed.

(** A dump below 4 GiB has a header and directory below it. *)
Lemma dump_small `{TG : Target} {F : Format} {FO : FormatOk F} {SP : StreamPlan} {C E T : Type}
    (convM : MemoryWriterError -> E) (convF : FileWriterError -> E) w hdr
    (rest : ST (C * DirSection File * Buffer) E T) (c : C) (f : File) r c' d' b' :
  st_rel grows rest ->
  (flush_header convM convF w hdr;; rest) (c, start_dir f, start_buffer) = (r, (c', d', b')) ->
  (Z.of_nat (length (inner b')) < 2 ^ 32)%Z ->
  (Z.of_nat (size_with MDRawHeader + length plan * size_with MDRawDirectory) < 2 ^ 32)%Z.
Proof.
  intros Hg Hrun Hlt.
  pose proof (st_rel_bind grows _ _ (grows_flush_header convM convF w hdr)
    (fun _ => Hg) (c, start_dir f, start_buffer)) as Hall.
  rewrite Hrun in Hall. unfold grows, buf_len, start_buffer in Hall. cbn [get_buf pair_has_buffer
    snd inner] in Hall. rewrite length_replicate in Hall. lia.
Qed.

(** A run from the start of a dump, whatever its outcome: the header goes out
    first, then the streams [rest] run under the invariant. *)
Lemma dump_run_spec `{TG : Target} {F : Format} {FO : FormatOk F} {SP : StreamPlan} {C E T : Type}
    (convM : MemoryWriterError -> E) (convF : FileWriterError -> E) (hdr : MDRawHeader) (m : nat)
    (rest : ST (C * DirSection File * Buffer) E T) (c : C) (f : File) r c' d' b' :
  (0 <= cursor f <= Z.of_nat (length (contents f)))%Z -> (cursor f + 2 ^ 32 <= 2 ^ 64)%Z ->
  hoare (before f) hdr (Clean (before f) hdr 0) rest
    (fun _ s => exists k, m <= k /\ Clean (before f) hdr k s) ->
  (flush_header convM convF (mkMemoryWriter (wrap 32 0) (size_with MDRawHeader)) hdr;; rest)
    (c, start_dir f, start_buffer) = (r, (c', d', b')) ->
  (Z.of_nat (length (inner b')) < 2 ^ 32)%Z ->
  exists es n, dump_on_disk (before f) hdr es n (contents (destination d')) b' /\
    (forall a, r = Ok a -> n = length (inner b') /\ m <= length es).
Proof.
  intros Hcur Hend [Hg Hm] Hrun Hlt.
  pose proof (dump_small _ _ _ _ _ _ _ _ _ _ _ Hg Hrun Hlt) as Hsmall.
  destruct (flush_header_run convM convF f Hcur Hend Hsmall c hdr) as (s & Hw & Hclean & Hlen & _).
  rewrite (st_bind_run _ _ _ _ _ Hw) in Hrun. specialize (Hm s Hclean).
  rewrite Hrun in Hm. cbn in Hm. destruct (Hm Hlt) as [[j Hj] Hok].
  destruct r as [a|e|].
  - destruct (Hok a eq_refl) as (k & Hk & Hi & Hfl).
    destruct (Inv_on_disk _ _ _ _ Hi) as (es & <- & Hd). cbn in Hd, Hfl. eexists es, _.
    by split.
  - destruct (Inv_on_disk _ _ _ _ Hj) as (es & _ & Hd). by eexists es, _.
  - destruct (Inv_on_disk _ _ _ _ Hj) as (es & _ & Hd). by eexists es, _.
Qed.
