(* ===== verification/Slots.v ===== *)
(** * Bytes that stay where they were written

    Most streams reserve an array, append what its records point to and fill the
    slots one by one (src/src/mem_writer.rs, used by src/src/linux/sections/ and
    src/src/linux/dso_debug.rs).  Here is what is needed to say what stands where
    in a dump: a block of bytes that stands at an offset, the change of a region
    that leaves everything else alone, and the rule for a loop over the slots of
    an array. *)
From Stdlib Require Import ZArith Lia.
From S2P Require Import Prelude Format Layout MemWriter DirSection Driver DumpPlan.

Local Open Scope nat_scope.

(** Nothing but the bytes from [lo] to [hi] has changed; the buffer may have
    grown. *)
Definition kept_outside (lo hi : nat) (l l' : list byte) : Prop :=
  length l <= length l' /\
  forall j n, j + n <= length l -> j + n <= lo \/ hi <= j -> bytes_at j n l' = bytes_at j n l.

Lemma kept_outside_refl lo hi l : kept_outside lo hi l l.
Proof. by split. Qed.

Lemma kept_outside_trans lo hi lo' hi' l1 l2 l3 :
  lo' <= lo -> hi <= hi' -> kept_outside lo hi l1 l2 -> kept_outside lo' hi' l2 l3 ->
  kept_outside lo' hi' l1 l3.
Proof.
  intros Hlo Hhi [Hl1 Hk1] [Hl2 Hk2]. split; [lia|]. intros j n Hj Ho.
  rewrite Hk2 by lia. apply Hk1; lia.
Qed.

Lemma kept_outside_weaken lo hi lo' hi' l l' :
  lo' <= lo -> hi <= hi' -> kept_outside lo hi l l' -> kept_outside lo' hi' l l'.
Proof. intros Hlo Hhi [Hl Hk]. split; [done|]. intros j n Hj Ho. apply Hk; lia. Qed.

(** Nothing at all has changed, and the buffer may have grown. *)
Notation extended := (kept_outside 0 0).

Lemma extended_weaken lo hi l l' : extended l l' -> kept_outside lo hi l l'.
Proof. intros [Hl Hk]. split; [done|]. intros j n Hj _. apply Hk; [done|]. right; lia. Qed.

Lemma extended_app l tl : extended l (l ++ tl).
Proof.
  split; [rewrite length_app; lia|]. intros j n Hj _. unfold bytes_at.
  rewrite drop_app_le by lia. rewrite take_app_le; [done|]. rewrite length_drop. lia.
Qed.

Lemma extended_take l l' : length l <= length l' -> take (length l) l' = l -> extended l l'.
Proof.
  intros Hl Ht. rewrite <- (take_drop (length l) l'), Ht. apply extended_app.
Qed.

Lemma extended_prefix l l' : extended l l' -> take (length l) l' = l.
Proof.
  intros [Hl Hk]. specialize (Hk 0 (length l) ltac:(lia) ltac:(lia)). unfold bytes_at in Hk.
  by rewrite !drop_0, firstn_all in Hk.
Qed.

Lemma extended_frame {St E T} `{HasBuffer St} (m : ST St E T) s r s' :
  (forall n, frame n m) -> m s = (r, s') -> (Z.of_nat (buf_len s') < 2 ^ 32)%Z ->
  extended (inner (get_buf s)) (inner (get_buf s')).
Proof.
  intros Hf Hrun Hlt. destruct (Hf (buf_len s)) as [Hg Hk].
  specialize (Hg s). specialize (Hk s). rewrite Hrun in *. cbn in *.
  specialize (Hk ltac:(lia) Hlt). apply extended_take; [exact Hg|].
  unfold buf_len in Hk. by rewrite Hk, firstn_all.
Qed.

Lemma kept_outside_splice i bs l :
  i + length bs <= length l -> kept_outside i (i + length bs) l (splice i bs l).
Proof.
  intros Hi. split; [by rewrite length_splice|]. intros j n Hj Ho.
  by apply bytes_at_splice_other.
Qed.

Lemma kept_outside_splice_app i bs l tl :
  i + length bs <= length l -> kept_outside i (i + length bs) l (splice i bs (l ++ tl)).
Proof.
  intros Hi. eapply kept_outside_trans; [| |apply extended_weaken, (extended_app l tl)|];
    [reflexivity..|]. apply kept_outside_splice. rewrite length_app. lia.
Qed.

(** ** Blocks *)

(** The bytes [bs] stand at offset [r], which is not below [lo]. *)
Definition stands (lo : nat) (l : list byte) (r : Z) (bs : list byte) : Prop :=
  (Z.of_nat lo <= r)%Z /\ (r + Z.of_nat (length bs) <= Z.of_nat (length l))%Z /\
  bytes_at (Z.to_nat r) (length bs) l = bs.

Lemma stands_kept lo hi lo' l l' r bs :
  kept_outside lo hi l l' -> hi <= lo' -> stands lo' l r bs -> stands lo' l' r bs.
Proof.
  intros [Hl Hk] Hhi (Hlo & Hr & Hat). split; [done|]. split; [lia|].
  rewrite <- Hat at 2. apply Hk; lia.
Qed.

Lemma stands_weaken lo lo' l r bs : lo' <= lo -> stands lo l r bs -> stands lo' l r bs.
Proof. intros Hlo (? & ? & ?). split; [lia|done]. Qed.

(** Something that stands in [l] behind [hi] still does when only what is before
    [hi] has changed. *)
Lemma stands_moved hi lo l l' r bs :
  kept_outside 0 hi l l' -> hi <= lo -> stands lo l r bs -> stands hi l' r bs.
Proof. intros Hk Hlo Hs. eapply stands_kept; [exact Hk|done|]. by eapply stands_weaken. Qed.

Lemma stands_nil lo l r : (Z.of_nat lo <= r <= Z.of_nat (length l))%Z -> stands lo l r [].
Proof. intros Hr. split; [lia|]. split; [cbn; lia|]. done. Qed.

Lemma stands_mid lo l bs l' : lo <= length l -> stands lo (l ++ bs ++ l') (Z.of_nat (length l)) bs.
Proof.
  intros Hlo. split; [lia|]. split; [rewrite !length_app; lia|].
  rewrite Nat2Z.id. by apply bytes_at_mid.
Qed.

Lemma stands_end lo l bs : lo <= length l -> stands lo (l ++ bs) (Z.of_nat (length l)) bs.
Proof. intros Hlo. rewrite <- (app_nil_r bs) at 1. by apply stands_mid. Qed.

Lemma bytes_at_split i m n (l : list byte) : bytes_at i (m + n) l = bytes_at i m l ++ bytes_at (i + m) n l.
Proof. unfold bytes_at. by rewrite <- drop_drop, take_take_drop. Qed.

Lemma stands_app lo l r xs ys :
  stands lo l r (xs ++ ys) <->
  stands lo l r xs /\ stands lo l (r + Z.of_nat (length xs)) ys.
Proof.
  unfold stands. rewrite length_app, bytes_at_split. split.
  - intros (Hlo & Hr & Hat). apply app_inj_1 in Hat as [Hx Hy]; [|rewrite length_bytes_at; lia].
    split_and!; try lia; [done|]. by replace (Z.to_nat (r + _)) with (Z.to_nat r + length xs) by lia.
  - intros ((Hlo & Hr & Hx) & _ & Hr' & Hy). split_and!; [done|lia|]. f_equal; [done|].
    by replace (Z.to_nat (r + _)) with (Z.to_nat r + length xs) in Hy by lia.
Qed.

(** The reader of strings finds a text that stands in the dump. *)
Lemma stands_string `{TG : Target} {F : Format} {FO : FormatOk F} lo l r text :
  Forall is_char text -> (Z.of_nat (length l) < 2 ^ 32)%Z -> stands lo l r (string_bytes text) ->
  read_string l r = Some text.
Proof.
  intros Hc Hl (Hlo & Hr & Hat). rewrite <- (Z2Nat.id r) by lia. by apply read_string_at; [|lia|].
Qed.

(** ** Allocations *)

Lemma string_fits `{TG : Target} {F : Format} {FO : FormatOk F} text b loc b' :
  write_string_to_location text b = (Ok loc, b') -> (Z.of_nat (length (inner b')) < 2 ^ 32)%Z ->
  (Z.of_nat (length (inner b) + length (string_bytes text)) < 2 ^ 32)%Z.
Proof.
  intros Hrun Hlt. unfold write_string_to_location in Hrun. st_inv.
  match goal with HH : alloc_with_val _ _ = _ |- _ => apply alloc_with_val_len in HH as [_ Hh] end.
  match goal with HH : alloc_array _ _ _ = (Ok ?w, _) |- _ =>
    rewrite alloc_array_run in HH; injection HH as <- <- end.
  match goal with HH : st_for_enum _ _ _ _ = (Ok _, _) |- _ =>
    apply run_grows in HH; [|frame_tac] end.
  unfold buf_len in *. cbn in *. rewrite length_app, length_replicate, size_u16 in *.
  rewrite string_bytes_length, size_u32 in *. lia.
Qed.

(** A string writer that returned in a small buffer has appended the string. *)
Lemma write_string_ok `{TG : Target} {F : Format} {FO : FormatOk F} text b loc b' :
  write_string_to_location text b = (Ok loc, b') -> (Z.of_nat (length (inner b')) < 2 ^ 32)%Z ->
  (Z.of_nat (length (string_bytes text)) < 2 ^ 32)%Z /\
  loc = mkLocation (Z.of_nat (length (string_bytes text))) (position b) /\
  b' = mkBuffer (inner b ++ string_bytes text).
Proof.
  intros Hrun Hlt. pose proof (string_fits _ _ _ _ Hrun Hlt).
  rewrite write_string_run in Hrun by done. injection Hrun as <- <-. split; [lia|done].
Qed.

(** A record that was allocated with its value. *)
Lemma alloc_with_val_stands `{TG : Target} {T} `{PodOk T} (v : T) b w b' :
  alloc_with_val v b = (Ok w, b') -> (Z.of_nat (length (inner b')) < 2 ^ 32)%Z ->
  inner b' = inner b ++ encode v /\
  mw_location w = mkLocation (Z.of_nat (size_with T)) (Z.of_nat (length (inner b))).
Proof.
  rewrite alloc_with_val_run. intros [= <- <-]. cbn [inner]. rewrite length_app, encode_length.
  intros Hlt. split; [done|]. unfold mw_location, position. cbn.
  by rewrite !wrap_small by (unfold in_bits; lia).
Qed.

Lemma alloc_from_array_stands `{TG : Target} {T} `{PodOk T} (vs : list T) b w b' :
  alloc_from_array vs b = (Ok w, b') -> (Z.of_nat (length (inner b')) < 2 ^ 32)%Z ->
  inner b' = inner b ++ encode_all vs /\
  maw_location w = mkLocation (Z.of_nat (length vs * size_with T)) (Z.of_nat (length (inner b))).
Proof.
  rewrite alloc_from_array_run. intros [= <- <-]. cbn [inner].
  rewrite length_app, encode_all_length. intros Hlt. split; [done|].
  unfold maw_location, position. cbn. by rewrite !wrap_small by (unfold in_bits; lia).
Qed.

(** ** Filling the slots of an array *)

Section slots.
Context `{TG : Target} {T : Type} `{PT : PodOk T}.
Notation sz := (size_with T).

(** The slot [i] of the array at [p] has received [v]; nothing else of the old
    buffer has changed. *)
Definition slot_set (p i : nat) (v : T) (l l' : list byte) : Prop :=
  kept_outside (p + sz * i) (p + sz * i + sz) l l' /\ bytes_at (p + sz * i) sz l' = encode v.

(** A record that is stored after something has been appended. *)
Lemma set_value_at_slot (w : MemoryArrayWriter T) p i v l b b' :
  maw_position w = Z.of_nat p -> p + sz * i + sz <= length l -> extended l (inner b) ->
  set_value_at w v i b = (Ok tt, b') ->
  slot_set p i v l (inner b') /\ kept_outside (p + sz * i) (p + sz * i + sz) (inner b) (inner b').
Proof.
  intros Hw Hp Hx Hrun. pose proof (proj1 Hx) as Hl.
  rewrite set_value_at_run in Hrun by (rewrite Hw; lia). injection Hrun as <-. cbn [inner].
  rewrite Hw, Nat2Z.id.
  pose proof (kept_outside_splice (p + sz * i) (encode v) (inner b)) as Hs.
  rewrite encode_length in Hs. specialize (Hs ltac:(lia)). split; [split|exact Hs].
  - eapply kept_outside_trans; [| |apply extended_weaken; exact Hx|exact Hs]; reflexivity.
  - pose proof (bytes_at_splice_same (p + sz * i) (encode v) (inner b)) as Hsame.
    rewrite encode_length in Hsame. apply Hsame. lia.
Qed.

(** A record that names a string, which is appended first. *)
Lemma string_slot {F : Format} {FO : FormatOk F} (w : MemoryArrayWriter T) p i text (f : Z -> T)
    b loc b1 b2 :
  maw_position w = Z.of_nat p -> p + sz * i + sz <= length (inner b) ->
  write_string_to_location text b = (Ok loc, b1) -> set_value_at w (f (rva loc)) i b1 = (Ok tt, b2) ->
  (Z.of_nat (length (inner b2)) < 2 ^ 32)%Z ->
  slot_set p i (f (position b)) (inner b) (inner b2) /\
  stands (length (inner b)) (inner b2) (position b) (string_bytes text).
Proof.
  intros Hw Hp Hs Hset Hlt. apply run_grows in Hset as Hg; [|frame_tac].
  unfold buf_len in Hg. cbn in Hg.
  apply write_string_ok in Hs as (Hfit & -> & ->); [|lia]. cbn [rva] in Hset.
  destruct (set_value_at_slot w p i _ (inner b) (mkBuffer _) _ Hw Hp (extended_app _ _) Hset)
    as [Hslots Hk].
  split; [done|]. eapply stands_kept; [exact Hk|lia|]. apply stands_end. lia.
Qed.

Context {St E A : Type} `{HasBuffer St}.
Context (body : nat -> A -> ST St E unit) (p : nat) (xs : list A).
(** [I] holds between two turns; [R i x v s] is what the record [v] in the slot
    [i] says about the item [x]. *)
Context (I : St -> Prop) (R : nat -> A -> T -> St -> Prop).

Notation bytes s := (inner (get_buf s)).
Notation array_end := (p + sz * length xs).

Hypothesis Hgrows : forall i x, st_rel grows (body i x).

Hypothesis Hbody : forall i x s s',
  xs !! i = Some x -> I s -> array_end <= buf_len s -> body i x s = (Ok tt, s') ->
  (Z.of_nat (buf_len s') < 2 ^ 32)%Z ->
  I s' /\ exists v, slot_set p i v (bytes s) (bytes s') /\ R i x v s'.

Hypothesis Hstable : forall i x v j y s s',
  i < j -> xs !! i = Some x -> xs !! j = Some y -> I s -> R i x v s ->
  kept_outside p array_end (bytes s) (bytes s') -> body j y s = (Ok tt, s') ->
  (Z.of_nat (buf_len s') < 2 ^ 32)%Z -> R i x v s'.

(** The slots before [i] are filled with [vs]. *)
Definition filled (vs : list T) (s : St) : Prop :=
  I s /\ array_end <= buf_len s /\ bytes_at p (sz * length vs) (bytes s) = encode_all vs /\
  forall j x, j < length vs -> xs !! j = Some x -> exists v, vs !! j = Some v /\ R j x v s.

Lemma fill_slot vs x s s' :
  filled vs s -> xs !! length vs = Some x -> body (length vs) x s = (Ok tt, s') ->
  (Z.of_nat (buf_len s') < 2 ^ 32)%Z ->
  exists v, filled (vs ++ [v]) s' /\ kept_outside p array_end (bytes s) (bytes s').
Proof.
  intros (HI & Hend & Hat & HR) Hx Hrun Hlt. pose proof (lookup_lt_Some _ _ _ Hx) as Hlx.
  destruct (Hbody _ _ _ _ Hx HI Hend Hrun Hlt) as (HI' & v & [Hk Hv] & Hr).
  assert (Hk' : kept_outside p array_end (bytes s) (bytes s'))
    by (eapply kept_outside_weaken; [| |exact Hk]; nia).
  exists v. split; [|done]. unfold filled, buf_len in *. split; [done|].
  split; [destruct Hk'; lia|]. split.
  - rewrite length_app. cbn [length]. rewrite Nat.mul_add_distr_l, bytes_at_split, Nat.mul_1_r, Hv.
    rewrite (proj2 Hk), Hat by nia. unfold encode_all. rewrite fmap_app, concat_app. cbn.
    by rewrite app_nil_r.
  - intros j y Hj Hy. destruct (decide (j = length vs)) as [->|Hne].
    + exists v. rewrite Hx in Hy. injection Hy as <-. split; [|done].
      by rewrite lookup_app_r, Nat.sub_diag.
    + rewrite length_app in Hj. cbn in Hj. destruct (HR j y) as (v' & Hv' & HR'); [lia|done|].
      exists v'. split; [by apply lookup_app_l_Some|].
      eapply (Hstable j y v' (length vs) x s s'); eauto. lia.
Qed.

Lemma fill_slots_from todo : forall vs s s',
  todo = drop (length vs) xs -> length vs <= length xs -> filled vs s ->
  st_for_enum (length vs) todo body s = (Ok tt, s') -> (Z.of_nat (buf_len s') < 2 ^ 32)%Z ->
  exists vs', length vs' = length xs /\ filled vs' s' /\ kept_outside p array_end (bytes s) (bytes s').
Proof.
  induction todo as [|x todo IH]; intros vs s s' Htodo Hl Hf Hrun Hlt.
  - injection Hrun as <-. exists vs. split_and!; [|done|apply kept_outside_refl].
    apply (f_equal length) in Htodo. rewrite length_drop in Htodo. cbn in Htodo. lia.
  - cbn [st_for_enum] in Hrun. apply st_bind_ok in Hrun as ([] & s1 & Hb & Hrun).
    assert (Hx : xs !! length vs = Some x).
    { rewrite <- (Nat.add_0_r (length vs)), <- lookup_drop, <- Htodo. done. }
    pose proof (lookup_lt_Some _ _ _ Hx).
    assert (Hlt1 : (Z.of_nat (buf_len s1) < 2 ^ 32)%Z).
    { pose proof (st_rel_for_enum grows todo body Hgrows (S (length vs)) s1) as Hg.
      rewrite Hrun in Hg. unfold grows in Hg. cbn in Hg. lia. }
    destruct (fill_slot vs x s s1 Hf Hx Hb Hlt1) as (v & Hf1 & Hk1).
    destruct (IH (vs ++ [v]) s1 s') as (vs' & Hl' & Hf' & Hk');
      rewrite ?length_app; cbn [length]; rewrite ?Nat.add_1_r; try done.
    + rewrite (drop_S _ _ _ Hx) in Htodo. congruence.
    + exists vs'. split_and!; [done|done|]. by eapply kept_outside_trans.
Qed.

(** A loop that returned has filled every slot, and each record says about its
    item what its turn established. *)
Lemma fill_slots s s' :
  I s -> array_end <= buf_len s -> st_for_enum 0 xs body s = (Ok tt, s') ->
  (Z.of_nat (buf_len s') < 2 ^ 32)%Z ->
  I s' /\ exists vs, stands p (bytes s') (Z.of_nat p) (encode_all vs) /\
    length vs = length xs /\ kept_outside p array_end (bytes s) (bytes s') /\
    forall i x, xs !! i = Some x -> exists v, vs !! i = Some v /\ R i x v s'.
Proof.
  intros HI Hend Hrun Hlt.
  destruct (fill_slots_from xs [] s s') as (vs & Hl & (HI' & Hend' & Hat & HR) & Hk);
    [done|cbn; lia| |done|done|].
  { split; [done|]. split; [done|]. split; [by rewrite Nat.mul_0_r|]. cbn. lia. }
  split; [done|]. exists vs. unfold stands. rewrite encode_all_length, Nat2Z.id. split_and!; try done.
  - unfold buf_len in *. nia.
  - by rewrite Nat.mul_comm.
  - intros i x Hx. apply HR; [|done]. apply lookup_lt_Some in Hx. lia.
Qed.
End slots.

Lemma encode_count {F : Format} {FO : FormatOk F} n :
  encode (U32 (wrap 32 (Z.of_nat n))) = le_split 4 (Z.of_nat n).
Proof. rewrite encode_u32. exact (eq_sym (le_split_mod (Z.of_nat n) 4)). Qed.

(** The start of a list stream: a count, and an array with that many slots.  The
    entry covers both. *)
Lemma list_stream_start `{TG : Target} {F : Format} {FO : FormatOk F} {T} `{PodOk T} {E} ty n b h b1
    (w : MemoryArrayWriter T) b2 e :
  alloc_with_val (U32 (wrap 32 (Z.of_nat n))) b = (Ok h, b1) -> alloc_array T n b1 = (Ok w, b2) ->
  extend_dirent (E := E) (mkDirectory ty (mw_location h)) (data_size (maw_location w)) = Ok e ->
  (Z.of_nat (length (inner b2)) < 2 ^ 32)%Z ->
  e = mkDirectory ty (mkLocation (Z.of_nat (4 + size_with T * n)) (Z.of_nat (length (inner b)))) /\
  maw_position w = Z.of_nat (length (inner b) + 4) /\
  inner b2 = inner b ++ le_split 4 (Z.of_nat n) ++ replicate (n * size_with T) Byte.x00.
Proof.
  rewrite alloc_with_val_run. intros [= <- <-]. rewrite alloc_array_run. intros [= <- <-].
  cbn [inner]. rewrite !length_app, encode_length, length_replicate, size_u32.
  unfold extend_dirent, mw_location, maw_location, position. cbn [location stream_type data_size
    rva mw_position maw_position MemWriter.array_size inner]. rewrite length_app, encode_length, size_u32.
  intros He Hlt. revert He. rewrite !wrap_small by (unfold in_bits; lia). unfold add_u.
  rewrite checked_fits by (unfold in_bits; lia). intros [= <-]. split_and!.
  - do 2 f_equal. lia.
  - done.
  - by rewrite encode_count, <- app_assoc.
Qed.

(** The entry [e] is that of a list stream: a count followed by the records
    [vs]. *)
Definition list_at {F : Format} {T} `{Pod T} (lo : nat) (l : list byte) (ty : Z)
    (e : MDRawDirectory) (vs : list T) : Prop :=
  stream_type e = ty /\ data_size (location e) = Z.of_nat (4 + size_with T * length vs) /\
  stands lo l (rva (location e)) (le_split 4 (Z.of_nat (length vs)) ++ encode_all vs).

(** Once the slots are filled the stream is complete. *)
Lemma list_stream_filled `{TG : Target} {F : Format} {FO : FormatOk F} {T} `{PodOk T} ty
    (l0 l l' : list byte) (vs : list T) :
  l = l0 ++ le_split 4 (Z.of_nat (length vs)) ++
      replicate (length vs * size_with T) Byte.x00 ->
  kept_outside (length l0 + 4) (length l0 + 4 + size_with T * length vs) l l' ->
  stands (length l0 + 4) l' (Z.of_nat (length l0 + 4)) (encode_all vs) ->
  list_at (length l0) l' ty (mkDirectory ty (mkLocation
    (Z.of_nat (4 + size_with T * length vs)) (Z.of_nat (length l0)))) vs.
Proof.
  intros -> [Hl Hk] Hvs. split; [done|]. split; [done|]. cbn [location rva].
  rewrite !length_app, length_le_split, length_replicate in Hl.
  apply stands_app. rewrite length_le_split. split.
  - split; [lia|]. rewrite length_le_split, Nat2Z.id. split; [lia|].
    rewrite Hk by (rewrite ?length_app, ?length_le_split; lia).
    rewrite <- (length_le_split 4 (Z.of_nat (length vs))) at 1. by apply bytes_at_mid.
  - replace (Z.of_nat (length l0) + Z.of_nat 4)%Z with (Z.of_nat (length l0 + 4)) by lia.
    by eapply stands_weaken; [|exact Hvs]; lia.
Qed.

(** A list stream whose records are all known when it is written. *)
Lemma list_stream_run `{TG : Target} {F : Format} {FO : FormatOk F} {T} `{PodOk T} {E} ty
    (vs : list T) b h b1 w b2 e :
  alloc_with_val (U32 (wrap 32 (Z.of_nat (length vs)))) b = (Ok h, b1) ->
  alloc_from_array vs b1 = (Ok w, b2) ->
  extend_dirent (E := E) (mkDirectory ty (mw_location h)) (data_size (maw_location w)) = Ok e ->
  (Z.of_nat (length (inner b2)) < 2 ^ 32)%Z ->
  extended (inner b) (inner b2) /\ list_at (length (inner b)) (inner b2) ty e vs.
Proof.
  rewrite alloc_with_val_run. intros [= <- <-]. rewrite alloc_from_array_run. intros [= <- <-].
  cbn [inner]. rewrite encode_count, !length_app, length_le_split, encode_all_length.
  unfold extend_dirent, mw_location, maw_location, position. cbn [location stream_type data_size
    rva mw_position mw_size maw_position MemWriter.array_size inner]. rewrite size_u32.
  intros He Hlt. revert He. rewrite !wrap_small, add_u_ok by (unfold in_bits; lia).
  intros [= <-]. split; [rewrite <- app_assoc; apply extended_app|]. split; [done|].
  split; [cbn; lia|]. cbn [location rva]. rewrite <- app_assoc. by apply stands_end.
Qed.

Lemma list_at_kept {F : Format} {T} `{Pod T} lo hi lo' l l' ty e (vs : list T) :
  kept_outside lo hi l l' -> hi <= lo' -> list_at lo' l ty e vs -> list_at lo' l' ty e vs.
Proof. intros Hk Hhi (? & ? & Hs). split_and!; [done..|]. by eapply stands_kept. Qed.

Lemma list_at_weaken {F : Format} {T} `{Pod T} lo lo' l ty e (vs : list T) :
  lo' <= lo -> list_at lo l ty e vs -> list_at lo' l ty e vs.
Proof. intros Hlo (? & ? & Hs). split_and!; [done..|]. by eapply stands_weaken. Qed.

Lemma list_at_moved {F : Format} {T} `{Pod T} hi lo l l' ty e (vs : list T) :
  kept_outside 0 hi l l' -> hi <= lo -> list_at lo l ty e vs -> list_at hi l' ty e vs.
Proof. intros Hk Hlo (? & ? & Hs). split_and!; [done..|]. by eapply stands_moved. Qed.

(** Every record of the list stands in its slot. *)
Lemma list_at_slot {F : Format} {T} `{PodOk T} lo l ty e (vs : list T) i v :
  list_at lo l ty e vs -> vs !! i = Some v ->
  stands lo l (rva (location e) + 4 + Z.of_nat (size_with T * i)) (encode v).
Proof.
  intros (_ & _ & Hs) Hv. apply stands_app in Hs as [_ Hs]. rewrite length_le_split in Hs.
  rewrite <- (take_drop_middle vs i v Hv) in Hs. unfold encode_all in Hs.
  rewrite fmap_app, concat_app in Hs. apply stands_app in Hs as [_ Hs].
  cbn [fmap list_fmap concat] in Hs. apply stands_app in Hs as [Hs _].
  pose proof (encode_all_length (take i vs)) as Hl. unfold encode_all in Hl.
  rewrite Hl, length_take, Nat.min_l in Hs by (apply lookup_lt_Some in Hv; lia).
  by rewrite Nat.mul_comm in Hs.
Qed.

(** The stream [e] is made of the bytes [bs]. *)
Definition stream_is (lo : nat) (l : list byte) (ty : Z) (e : MDRawDirectory) (bs : list byte) : Prop :=
  stream_type e = ty /\ data_size (location e) = Z.of_nat (length bs) /\
  stands lo l (rva (location e)) bs.

Lemma stream_is_weaken lo lo' l ty e bs :
  lo' <= lo -> stream_is lo l ty e bs -> stream_is lo' l ty e bs.
Proof. intros Hlo (? & ? & Hs). split_and!; [done..|]. by eapply stands_weaken. Qed.

Lemma stream_is_moved hi lo l l' ty e bs :
  kept_outside 0 hi l l' -> hi <= lo -> stream_is lo l ty e bs -> stream_is hi l' ty e bs.
Proof. intros Hk Hlo (? & ? & Hs). split_and!; [done..|]. by eapply stands_moved. Qed.

Lemma stream_is_list {F : Format} {T} `{PodOk T} lo l ty e (vs : list T) :
  stream_is lo l ty e (le_split 4 (Z.of_nat (length vs)) ++ encode_all vs) <-> list_at lo l ty e vs.
Proof.
  unfold stream_is, list_at. rewrite length_app, length_le_split, encode_all_length.
  by rewrite (Nat.mul_comm (length vs)).
Qed.

Lemma stream_is_placed lo l ty e bs : stream_is lo l ty e bs -> placed ty e (length l).
Proof. intros (Hty & Hsz & Hlo & Hr & _). split; [done|]. unfold loc_inside. rewrite Hsz. lia. Qed.

(** Reads a run through the error conversions and the accesses to the buffer. *)
Ltac run_inv :=
  repeat match goal with
  | HH : st_map_err _ _ _ = (Ok _, _) |- _ => apply map_err_ok in HH
  | HH : on_buf _ _ = (Ok _, _) |- _ => apply on_buf_ok in HH as (? & HH & ?)
  end; cbn [get_buf set_buf pair_has_buffer buffer_has_buffer fst snd id] in *; simplify_eq/=;
  repeat match goal with u : unit |- _ => destruct u end.
