(* ===== verification/Ensures.v ===== *)
(** * Runs that succeed

    The judgement with which the library shows that a writer returns: as long as
    the buffer it leaves is below 4 GiB, whatever happens on the way, the run
    ends with a value, and neither with an error nor with a panic. *)
From Stdlib Require Import ZArith Lia.
From S2P Require Import Prelude Format Layout MemWriter DirSection Driver DumpPlan Slots.

Local Open Scope nat_scope.

Definition small {St} `{HasBuffer St} (s : St) : Prop := (Z.of_nat (buf_len s) < 2 ^ 32)%Z.

Definition ensures {St E T} `{HasBuffer St} (m : ST St E T) (s : St) (Q : T -> St -> Prop) : Prop :=
  small (m s).2 -> exists a s', m s = (Ok a, s') /\ Q a s'.

Section rules.
Context {St E : Type} `{HasBuffer St}.

Lemma ensures_run {T} (m : ST St E T) s a s' (Q : T -> St -> Prop) :
  m s = (Ok a, s') -> Q a s' -> ensures m s Q.
Proof. intros Hm HQ _. eauto. Qed.

(** What a run leaves may be taken to be small. *)
Lemma ensures_run_small {T} (m : ST St E T) s a s' (Q : T -> St -> Prop) :
  m s = (Ok a, s') -> (small s' -> Q a s') -> ensures m s Q.
Proof. intros Hm HQ Hs. rewrite Hm in Hs. eauto. Qed.

Lemma ensures_conseq {T} (m : ST St E T) s (Q Q' : T -> St -> Prop) :
  ensures m s Q -> (forall a s', Q a s' -> Q' a s') -> ensures m s Q'.
Proof. intros Hm HQ Hs. destruct (Hm Hs) as (a & s' & Hr & Ha). eauto. Qed.

(** What is ensured holds of a run that returned. *)
Lemma ensures_ok {T} (m : ST St E T) s a s' (Q : T -> St -> Prop) :
  ensures m s Q -> m s = (Ok a, s') -> small s' -> Q a s'.
Proof.
  intros Hm Hr Hs. unfold ensures in Hm. rewrite Hr in Hm.
  by destruct (Hm Hs) as (a' & s1 & [= <- <-] & HQ).
Qed.

Lemma ensures_ret {T} (a : T) s (Q : T -> St -> Prop) : Q a s -> ensures (E := E) (mret a) s Q.
Proof. apply ensures_run. done. Qed.

Lemma ensures_lift {T} (r : res E T) a s (Q : T -> St -> Prop) :
  r = Ok a -> Q a s -> ensures (st_lift r) s Q.
Proof. intros ->. by apply ensures_run. Qed.

Lemma ensures_get s (Q : St -> St -> Prop) : Q s s -> ensures (E := E) st_get s Q.
Proof. apply ensures_run. done. Qed.

Lemma ensures_bind {T U} (m : ST St E T) (f : T -> ST St E U) s Q :
  (forall a, st_rel grows (f a)) -> ensures m s (fun a s1 => ensures (f a) s1 Q) ->
  ensures (m ≫= f) s Q.
Proof.
  intros Hg Hm Hs. unfold mbind, ST_bind in Hs |- *. unfold ensures in Hm.
  destruct (m s) as [[a|e|] s1].
  - specialize (Hg a s1). unfold grows, small in *. cbn in *.
    destruct Hm as (a' & s' & [= <- <-] & Hf); [lia|]. by apply Hf.
  - destruct Hm as (? & ? & ? & _); [done|discriminate].
  - destruct Hm as (? & ? & ? & _); [done|discriminate].
Qed.

Lemma ensures_for_enum {T} (l : list T) (body : nat -> T -> ST St E unit) (I : nat -> St -> Prop) :
  (forall i x, st_rel grows (body i x)) -> forall i s Q,
  (forall j x s, l !! j = Some x -> I (i + j) s -> ensures (body (i + j) x) s (fun _ => I (S (i + j)))) ->
  I i s -> (forall s', I (i + length l) s' -> Q tt s') ->
  ensures (st_for_enum i l body) s Q.
Proof.
  intros Hg. induction l as [|x l IH]; intros i s Q Hb Hi HQ; cbn [st_for_enum].
  - apply ensures_ret, HQ. cbn. by rewrite Nat.add_0_r.
  - apply ensures_bind; [intros _; by apply st_rel_for_enum; [apply _|]|].
    specialize (Hb 0 x s eq_refl) as H0. rewrite Nat.add_0_r in H0.
    eapply ensures_conseq; [by apply H0|]. intros [] s1 H1. apply IH; [|done|].
    + intros j y s2 Hj HI. specialize (Hb (S j) y s2 Hj).
      replace (i + S j) with (S i + j) in Hb by lia. by apply Hb.
    + intros s' HI. apply HQ. cbn [length]. by replace (i + S (length l)) with (S i + length l) by lia.
Qed.

Lemma ensures_for {T} (l : list T) (body : T -> ST St E unit) (I : St -> Prop) :
  (forall x, st_rel grows (body x)) ->
  (forall x s, x ∈ l -> I s -> ensures (body x) s (fun _ => I)) ->
  forall s, I s -> ensures (st_for l body) s (fun _ => I).
Proof.
  intros Hg. induction l as [|x l IH]; intros Hb s Hi; cbn [st_for]; [by apply ensures_ret|].
  apply ensures_bind; [intros _; by apply st_rel_for; [apply _|]|].
  eapply ensures_conseq; [apply Hb; [left|done]|]. intros [] s1 H1. apply IH; [|done].
  intros y s2 Hy. apply Hb. by right.
Qed.
End rules.

Lemma ensures_map_err {St E E' T} `{HasBuffer St} (conv : E -> E') (m : ST St E T) s Q :
  ensures m s Q -> ensures (st_map_err conv m) s Q.
Proof.
  intros Hm Hs. unfold st_map_err in *. destruct (m s) as [r s1] eqn:Hr.
  destruct Hm as (a & s' & Hr' & HQ); [by rewrite Hr; destruct r|].
  rewrite Hr in Hr'. injection Hr' as -> ->. eauto.
Qed.

Lemma ensures_on_buf {St E T} `{HasBuffer St} (m : ST Buffer E T) (s : St) (Q : T -> St -> Prop) :
  ensures m (get_buf s) (fun a b => Q a (set_buf b s)) -> ensures (on_buf m) s Q.
Proof.
  intros Hm Hs. unfold on_buf, st_zoom in *. destruct (m (get_buf s)) as [r b] eqn:Hr.
  destruct Hm as (a & b' & Hr' & HQ).
  { rewrite Hr. unfold small in *. cbn in *. by rewrite buf_len_set in Hs. }
  rewrite Hr in Hr'. injection Hr' as -> ->. eauto.
Qed.

(** A caught error is a value; only a panic is to be excluded. *)
Lemma ensures_try {St E E' T} `{HasBuffer St} (m : ST St E T) (s : St) (Q : E + T -> St -> Prop) :
  (m s).1 <> Panic -> (forall r, small (m s).2 -> Q r (m s).2) -> ensures (E := E') (st_try m) s Q.
Proof.
  intros Hp HQ Hs. unfold st_try in *. destruct (m s) as [[a|e|] s1]; [..|done];
    do 2 eexists; (split; [done|]); by apply HQ.
Qed.

Lemma ensures_try_ok {St E E' T} `{HasBuffer St} (m : ST St E T) (s : St) (Q : E + T -> St -> Prop) :
  ensures m s (fun a => Q (inr a)) -> ensures (E := E') (st_try m) s Q.
Proof.
  intros Hm Hs. unfold ensures in Hm. unfold st_try in *. destruct (m s) as [r s1].
  destruct Hm as (a & s' & [= -> ->] & HQ); [by destruct r|]. eauto.
Qed.

(** ** Buffer operations *)

Section buffer.
Context `{TG : Target} {F : Format} {FO : FormatOk F}.

(** The length of the text in UTF-16 fits its 32-bit byte count. *)
Definition short_text (text : list Z) : Prop := (Z.of_nat (length (encode_utf16 text) * 2) < 2 ^ 32)%Z.

Lemma ensures_string text b (Q : MDLocationDescriptor -> Buffer -> Prop) :
  Q (mkLocation (Z.of_nat (length (string_bytes text))) (position b))
    (mkBuffer (inner b ++ string_bytes text)) ->
  short_text text -> ensures (write_string_to_location text) b Q.
Proof.
  intros HQ Hshort Hs. rewrite write_string_run; [eauto|].
  unfold write_string_to_location in Hs. cbv zeta in Hs.
  unfold short_text in Hshort. unfold try_u32 in Hs.
  destruct (Z.ltb_spec (Z.of_nat (length (encode_utf16 text) * 2)) (2 ^ 32)); [|lia].
  erewrite st_bind_run in Hs; [|reflexivity].
  erewrite st_bind_run in Hs; [|apply alloc_with_val_run].
  erewrite st_bind_run in Hs; [|apply alloc_array_run]. unfold small in Hs.
  match type of Hs with context [buf_len (?m ?b0).2] =>
    pose proof (run_grows m b0 (m b0).1 (m b0).2 ltac:(frame_tac) (surjective_pairing _)) as Hg;
    set (n := buf_len (m b0).2) in * end.
  unfold buf_len in Hg at 1. cbn [get_buf buffer_has_buffer id inner] in Hg.
  rewrite !length_app, encode_length, length_replicate, size_u16, size_u32 in Hg.
  rewrite string_bytes_length. lia.
Qed.

Lemma ensures_set_value_at {T} `{PodOk T} (w : MemoryArrayWriter T) v i b
    (Q : unit -> Buffer -> Prop) :
  Z.to_nat (maw_position w) + size_with T * i <= length (inner b) ->
  Q tt (mkBuffer (splice (Z.to_nat (maw_position w) + size_with T * i) (encode v) (inner b))) ->
  ensures (set_value_at w v i) b Q.
Proof. intros Hp. apply ensures_run. by apply set_value_at_run. Qed.
End buffer.

(** The first step of a sequence of writer steps. *)
Ltac ens_bind := apply ensures_bind; [solve [intros; apply (frame_grows 0); frame_tac]|].

Section entries.
Context `{TG : Target} {F : Format} {FO : FormatOk F}.

(** A record that starts a stream, already written, and the array behind it. *)
Lemma array_entry_ensures {T U} `{PodOk T} `{PodOk U} {E} (conv : MemoryWriterError -> E) ty (h : T)
    (vs : list U) {C} (c : C) b :
  ensures
    (w ← st_map_err conv (on_buf (alloc_from_array vs));
     st_lift (extend_dirent (mkDirectory ty (mw_location
                (mkMemoryWriter (wrap 32 (position b)) (size_with T) : MemoryWriter T)))
                (data_size (maw_location w))))
    (c, mkBuffer (inner b ++ encode h))
    (fun e s => s = (c, mkBuffer (inner b ++ encode h ++ encode_all vs)) /\
       stream_is (length (inner b)) (inner s.2) ty e (encode h ++ encode_all vs)).
Proof.
  ens_bind. eapply ensures_run_small; [apply map_err_ok, on_buf_run, alloc_from_array_run|].
  cbn [get_buf set_buf pair_has_buffer fst snd]. intros Hs. unfold small, buf_len in Hs.
  cbn [get_buf pair_has_buffer snd inner] in Hs.
  rewrite !length_app, encode_length, encode_all_length in Hs.
  eapply ensures_lift.
  - unfold extend_dirent, mw_location, maw_location, position.
    cbn [location data_size rva mw_position mw_size maw_position MemWriter.array_size stream_type].
    rewrite !(wrap_small 32 (Z.of_nat _)), add_u_ok by (unfold in_bits; lia). reflexivity.
  - cbn [inner snd]. rewrite <- app_assoc. split; [done|].
    split; [done|]. cbn [location data_size rva]. rewrite length_app, encode_length, encode_all_length.
    split; [lia|]. by apply stands_end.
Qed.

End entries.
