(* ===== verification/DumpStages.v ===== *)
(** * A dump stage by stage

    The rules with which the contents of a whole dump are put together from the
    contents of its streams, for both drivers.  A stage runs a stream writer and
    flushes its directory entry (src/src/linux/minidump_writer.rs,
    src/src/dir_section.rs); what the writer has put into the buffer stays there,
    because every later stage appends, and changes nothing of what was there but
    its own directory slot. *)
From Stdlib Require Import ZArith Lia.
From S2P Require Import Prelude Format Layout MemWriter DirSection Driver DumpPlan Slots Ensures.

Local Open Scope nat_scope.

(** The entry [k] of the directory is known, and is as [P] says. *)
Definition entry (es : list MDRawDirectory) (k : nat) (P : MDRawDirectory -> Prop) : Prop :=
  exists e, es !! k = Some e /\ P e.

(** ** Judgements

    [judge total m s Q]: if the run of [m] from [s] leaves a buffer below 4 GiB
    and returns, then [Q] holds; it must return when [total] is true. *)
Definition judge {St E T} `{HasBuffer St} (total : bool) (m : ST St E T) (s : St) (Q : T -> St -> Prop)
    : Prop :=
  small (m s).2 ->
  match (m s).1 with
  | Ok a => Q a (m s).2
  | _ => total = false
  end.

Section judge.
Context {St E : Type} `{HasBuffer St} (total : bool).

(** From the contents of a run that returned, and that it returns. *)
Lemma judge_of {T} (m : ST St E T) s (Q Q' : T -> St -> Prop) :
  (forall a s', m s = (Ok a, s') -> small s' -> Q a s') ->
  (total = true -> ensures m s Q') -> judge total m s Q.
Proof.
  intros HQ He Hs. destruct (m s) as [r s1] eqn:Hr. cbn in *.
  destruct total; [|by destruct r; eauto]. unfold ensures in He. rewrite Hr in He.
  destruct (He eq_refl Hs) as (a & s' & [= -> ->] & _). eauto.
Qed.

Lemma judge_ensures {T} (m : ST St E T) s (Q : T -> St -> Prop) : ensures m s Q -> judge total m s Q.
Proof.
  intros He. eapply judge_of; [|by intros _]. intros a s' Hr Hs. by eapply ensures_ok.
Qed.

Lemma judge_ok {T} (m : ST St E T) s a s' (Q : T -> St -> Prop) :
  judge total m s Q -> m s = (Ok a, s') -> small s' -> Q a s'.
Proof. intros Hj Hr Hs. unfold judge in Hj. rewrite Hr in Hj. by apply Hj. Qed.

Lemma judge_conseq {T} (m : ST St E T) s (Q Q' : T -> St -> Prop) :
  judge total m s Q -> (forall a s', small s' -> Q a s' -> Q' a s') -> judge total m s Q'.
Proof. intros Hj HQ Hs. specialize (Hj Hs). destruct (m s) as [[] ?]; cbn in *; eauto. Qed.

Lemma judge_run {T} (m : ST St E T) s a s' (Q : T -> St -> Prop) :
  m s = (Ok a, s') -> Q a s' -> judge total m s Q.
Proof. intros Hr HQ _. by rewrite Hr. Qed.

Lemma judge_bind {T U} (m : ST St E T) (f : T -> ST St E U) s Q :
  (forall a, st_rel grows (f a)) -> judge total m s (fun a s1 => judge total (f a) s1 Q) ->
  judge total (m ≫= f) s Q.
Proof.
  intros Hg Hm Hs. unfold mbind, ST_bind in *. unfold judge in Hm at 1.
  destruct (m s) as [[a|e|] s1]; cbn in *; [|by apply Hm..].
  apply Hm; [|done]. specialize (Hg a s1). unfold grows, small in *. lia.
Qed.

Lemma judge_run_small {T} (m : ST St E T) s a s' (Q : T -> St -> Prop) :
  m s = (Ok a, s') -> (small s' -> Q a s') -> judge total m s Q.
Proof. intros Hr HQ Hs. rewrite Hr in *. by apply HQ. Qed.

(** A query: its answer is known when it has one, and has to be there for a
    total run. *)
Lemma judge_lift {T} (r : res E T) s (Q : T -> St -> Prop) :
  (forall a, small s -> r = Ok a -> Q a s) -> (small s -> total = true -> exists a, r = Ok a) ->
  judge total (st_lift r) s Q.
Proof.
  intros HQ He Hs. unfold st_lift in *. cbn [fst snd] in *. destruct r as [a|e|]; [by apply HQ|..];
    (destruct total; [|done]; by destruct (He Hs eq_refl)).
Qed.

Lemma judge_bind_run {T U} (m : ST St E T) (f : T -> ST St E U) s a s1 Q :
  m s = (Ok a, s1) -> judge total (f a) s1 Q -> judge total (m ≫= f) s Q.
Proof. intros Hm Hf. unfold judge. by rewrite (st_bind_run _ _ _ _ _ Hm). Qed.

Lemma judge_ext {T} (m m' : ST St E T) s Q : m s = m' s -> judge total m' s Q -> judge total m s Q.
Proof. intros Hm. unfold judge. by rewrite Hm. Qed.

(** A run that returns exactly when the query [q] does. *)
Lemma judge_when {E' X T} (q : res E' X) (m : ST St E T) s (Q : T -> St -> Prop) :
  (forall x, q = Ok x -> judge total m s Q) -> (forall a s', m s = (Ok a, s') -> exists x, q = Ok x) ->
  (total = true -> exists x, q = Ok x) -> judge total m s Q.
Proof.
  intros Hq Hr Ht Hs. destruct (m s) as [[a|e|] s'] eqn:Hm; cbn [fst snd].
  - destruct (Hr a s' eq_refl) as [x Hx]. apply (judge_ok m s a s' Q); [by apply (Hq x)|done..].
  - destruct total; [|done]. destruct (Ht eq_refl) as [x Hx]. specialize (Hq x Hx).
    unfold judge in Hq. rewrite Hm in Hq. by apply Hq.
  - destruct total; [|done]. destruct (Ht eq_refl) as [x Hx]. specialize (Hq x Hx).
    unfold judge in Hq. rewrite Hm in Hq. by apply Hq.
Qed.

Lemma judge_total {T} (m : ST St E T) s Q : total = true -> judge total m s Q -> ensures m s Q.
Proof.
  intros -> Hj Hs. specialize (Hj Hs). destruct (m s) as [[a|e|] s']; [|done..]. eauto.
Qed.

Lemma judge_map_err {E' T} (conv : E -> E') (m : ST St E T) s Q :
  judge total m s Q -> judge total (st_map_err conv m) s Q.
Proof. intros Hm. unfold judge, st_map_err in *. destruct (m s) as [[] ?]; exact Hm. Qed.

(** A caught error is a value: a total run only has to avoid a panic. *)
Lemma judge_try {E' T} (m : ST St E T) s (Q : E + T -> St -> Prop) :
  (forall r s', m s = (r, s') -> small s' ->
    match r with Ok a => Q (inr a) s' | Err e => Q (inl e) s' | Panic => total = false end) ->
  judge (E := E') total (st_try m) s Q.
Proof. intros Hm. unfold judge, st_try. destruct (m s) as [[] s1] eqn:Hr; cbn; exact (Hm _ _ eq_refl). Qed.
End judge.

Lemma judge_on_buf {St E T} `{HasBuffer St} total (m : ST Buffer E T) (s : St) (Q : T -> St -> Prop) :
  judge total m (get_buf s) (fun a b => Q a (set_buf b s)) -> judge total (on_buf m) s Q.
Proof.
  intros Hm Hs. unfold judge in Hm. unfold on_buf, st_zoom in *.
  destruct (m (get_buf s)) as [[a|e|] b]; cbn [fst snd] in *; apply Hm; unfold small in *;
    by rewrite buf_len_set in Hs.
Qed.

(** A loop that fills the slots of the array at [p], one for each item: [I] holds
    between two turns, and [R i x v s] is what the record [v] says about the item
    [x]. *)
Section fill.
Context `{TG : Target} {T : Type} `{PT : PodOk T} {St E A : Type} `{HasBuffer St} (total : bool).
Context (body : nat -> A -> ST St E unit) (p : nat) (xs : list A).
Context (I : St -> Prop) (R : nat -> A -> T -> St -> Prop).
Notation bytes s := (inner (get_buf s)).
Notation array_end := (p + size_with T * length xs).

Lemma judge_fill s (Q : unit -> St -> Prop) :
  (forall i x, st_rel grows (body i x)) ->
  (forall i x s, xs !! i = Some x -> I s -> array_end <= buf_len s ->
    judge total (body i x) s (fun _ s' => I s' /\ exists v, slot_set p i v (bytes s) (bytes s') /\ R i x v s')) ->
  (forall i x v j y s s', i < j -> xs !! i = Some x -> xs !! j = Some y -> I s -> R i x v s ->
    kept_outside p array_end (bytes s) (bytes s') -> body j y s = (Ok tt, s') -> small s' -> R i x v s') ->
  I s -> array_end <= buf_len s ->
  (forall s' vs, small s' -> I s' -> stands p (bytes s') (Z.of_nat p) (encode_all vs) ->
    length vs = length xs -> kept_outside p array_end (bytes s) (bytes s') ->
    (forall i x, xs !! i = Some x -> exists v, vs !! i = Some v /\ R i x v s') -> Q tt s') ->
  judge total (st_for_enum 0 xs body) s Q.
Proof.
  intros Hg Hb Hst HI Hend HQ. eapply judge_of.
  - intros [] s' Hrun Hs.
    destruct (fill_slots body p xs I R Hg) with (s := s) (s' := s') as (HI' & vs & ? & ? & ? & ?);
      [|exact Hst|done..|eauto].
    intros i x s1 s2 Hx HI1 Hend1 Hrun1 Hs1. exact (judge_ok _ _ _ _ _ _ (Hb i x s1 Hx HI1 Hend1) Hrun1 Hs1).
  - intros Ht. apply (ensures_for_enum _ _ (fun _ s => I s /\ array_end <= buf_len s)
      Hg 0 s (fun _ _ => True)); [|done|done].
    intros j x s1 Hj [HI1 Hend1]. eapply ensures_conseq; [apply (judge_total _ _ _ _ Ht), (Hb j x s1 Hj HI1 Hend1)|].
    intros [] s2 [HI2 (v & [[Hl _] _] & _)]. split; [done|]. unfold buf_len in *. lia.
Qed.
End fill.

(** The first step of a sequence of writer steps. *)
Ltac judge_step := apply judge_bind; [solve [intros; apply (frame_grows 0); frame_tac]|].

(** ** Stages *)

Section stages.
Context `{TG : Target} {F : Format} {FO : FormatOk F} {SP : StreamPlan} {C : Type}.
Context (pre : list byte) (hdr : MDRawHeader) (total : bool).

Notation State := (C * DirSection File * Buffer)%type.
Notation hsz := (size_with MDRawHeader).
Notation dsz := (size_with MDRawDirectory).
Notation dir_end := (hsz + length plan * dsz).

(** What stood in a buffer [l] behind the directory stands in [l'] too. *)
Definition survives (l l' : list byte) : Prop := dir_end <= length l /\ kept_outside 0 dir_end l l'.

(** Between two stages: the entries [es] are written, the buffer is flushed, and
    what the stages put into the buffer is there, [ls] being the buffers they
    left. *)
Record At (es : list MDRawDirectory) (ls : list (list byte)) (s : State) : Prop := {
  at_inv : dump_inv pre hdr es s.1.2 s.2;
  at_clean : flushed s.1.2 = length (inner s.2);
  at_survive : Forall (fun l => survives l (inner s.2)) ls;
}.

Lemma at_length es ls s : At es ls s -> dir_end <= length (inner s.2).
Proof.
  intros [Hi _ _]. pose proof (inv_flushed _ _ _ _ _ Hi).
  pose proof (sync_flushed _ _ _ (inv_sync _ _ _ _ _ Hi)). lia.
Qed.

Lemma survives_trans l l' l'' :
  survives l l' -> kept_outside 0 dir_end l' l'' -> survives l l''.
Proof. intros [Hl Hk] Hk'. split; [done|]. by eapply kept_outside_trans. Qed.

(** A flush with an entry changes the slot of the entry only. *)
Lemma flush_slot es d b e spec :
  dump_inv pre hdr es d b -> plan !! length es = Some spec -> slot_ok (length (inner b)) spec e ->
  exists d' b', write_to_file (Some e) (d, b) = (Ok tt, (d', b')) /\
    dump_inv pre hdr (es ++ [e]) d' b' /\ flushed d' = length (inner b') /\
    kept_outside 0 dir_end (inner b) (inner b').
Proof.
  intros Hi Hspec He. pose proof (lookup_lt_Some _ _ _ Hspec) as Hlt.
  destruct (inv_flush_some pre hdr es d b e spec Hi Hspec He) as (d' & b' & Hrun & Hi' & Hfl).
  exists d', b'. split_and!; [done..|]. pose proof (inv_room pre hdr es d b Hi Hlt) as HR.
  destruct (write_to_file_ok pre _ _ _ _ _ (inv_sync _ _ _ _ _ Hi) (fun _ => HR) Hrun) as (_ & Hb' & _).
  cbn in Hb'. rewrite Hb'. pose proof (sync_flushed _ _ _ (inv_sync _ _ _ _ _ Hi)).
  assert (Hslot : slot d = hsz + dsz * length es).
  { unfold slot. rewrite (inv_section _ _ _ _ _ Hi), (inv_idx _ _ _ _ _ Hi). cbn [maw_position]. lia. }
  pose proof (kept_outside_splice (slot d) (encode e) (inner b)) as Hk. rewrite encode_length in Hk.
  eapply kept_outside_weaken; [| |apply Hk]; [lia| |destruct HR; lia].
  rewrite Hslot. nia.
Qed.

(** A writer between two flushes. *)
Lemma writer_survives {E T} es ls (m : ST (C * Buffer) E T) c d b r c' b' :
  (forall n, frame n m) -> At es ls (c, d, b) -> m (c, b) = (r, (c', b')) -> small b' ->
  dump_inv pre hdr es d b' /\ extended (inner b) (inner b') /\
  Forall (fun l => survives l (inner b')) ls.
Proof.
  intros Hf [Hi Hc Hl] Hrun Hs. pose proof (extended_frame m (c, b) r (c', b') Hf Hrun Hs) as Hx.
  cbn in *. split; [|split; [done|]].
  - pose proof (sync_flushed _ _ _ (inv_sync _ _ _ _ _ Hi)).
    eapply inv_frame; [exact Hi|exact (proj1 Hx)|]. rewrite Hc.
    by rewrite (extended_prefix _ _ Hx), firstn_all.
  - eapply Forall_impl; [exact Hl|]. intros l Hsv. eapply survives_trans; [exact Hsv|].
    by apply extended_weaken.
Qed.

(** The flush of an entry after a writer; the buffer joins the ones that
    survive. *)
Lemma judge_flush {E T} (convF : FileWriterError -> E) es ls e spec c d b (rest : ST State E T) Q :
  st_rel grows rest -> dump_inv pre hdr es d b -> Forall (fun l => survives l (inner b)) ls ->
  plan !! length es = Some spec -> slot_ok (length (inner b)) spec e ->
  (forall d' b', At (es ++ [e]) (inner b :: ls) (c, d', b') -> judge total rest (c, d', b') Q) ->
  judge total (st_map_err convF (flush (Some e));; rest) (c, d, b) Q.
Proof.
  intros Hg Hi Hl Hspec He Hrest. apply judge_bind; [done|].
  destruct (flush_slot es d b e spec Hi Hspec He) as (d' & b' & Hrun & Hi' & Hfl & Hk).
  eapply (judge_run _ _ _ tt (c, d', b')).
  { apply map_err_ok. unfold flush, st_zoom. cbn [fst snd]. by rewrite Hrun. }
  apply Hrest. constructor; [done..|]. pose proof (sync_flushed _ _ _ (inv_sync _ _ _ _ _ Hi)).
  pose proof (inv_flushed _ _ _ _ _ Hi). constructor; [split; [cbn; lia|done]|].
  eapply Forall_impl; [exact Hl|]. intros l Hs. exact (survives_trans _ _ _ Hs Hk).
Qed.

(** A stream writer with the flush of its entry. *)
Lemma judge_stage {E E' T} (conv : E -> E') (convF : FileWriterError -> E') es ls spec
    (m : ST (C * Buffer) E MDRawDirectory) c d b P (rest : ST State E' T) Q :
  At es ls (c, d, b) -> plan !! length es = Some spec -> (forall n, frame n m) ->
  yields (fun e n => slot_ok n spec e) m -> st_rel grows rest ->
  judge total m (c, b) P ->
  (forall e c' b' d' b'', small b' -> P e (c', b') -> At (es ++ [e]) (inner b' :: ls) (c', d', b'') ->
    judge total rest (c', d', b'') Q) ->
  judge total (e ← on_writer conv m; st_map_err convF (flush (Some e));; rest) (c, d, b) Q.
Proof.
  intros Hat Hspec Hf Hy Hg Hm Hrest.
  apply judge_bind.
  { intros e. apply st_rel_bind; [apply _|apply st_rel_map_err, grows_flush|done]. }
  apply judge_map_err. intros Hs. unfold st_zoom in *. cbn [fst snd] in *.
  unfold judge in Hm. destruct (m (c, b)) as [r [c' b']] eqn:Hrun. cbn in *. specialize (Hm Hs).
  destruct r as [e|err|]; [|exact Hm..].
  destruct (writer_survives es ls m c d b _ c' b' Hf Hat Hrun Hs) as (Hi & _ & Hl).
  apply (judge_flush convF es ls e spec); [done..|exact (Hy _ _ _ Hrun Hs)|].
  intros d' b''. by apply Hrest.
Qed.

(** A writer without an entry of its own, and a plain flush. *)
Lemma judge_quiet_stage {E E' T} (conv : E -> E') (convF : FileWriterError -> E') es ls
    (m : ST (C * Buffer) E unit) c d b P (rest : ST State E' T) Q :
  At es ls (c, d, b) -> (forall n, frame n m) -> st_rel grows rest -> judge total m (c, b) P ->
  (forall c' b' d', small b' -> P tt (c', b') -> At es (inner b' :: ls) (c', d', b') ->
    judge total rest (c', d', b') Q) ->
  judge total (on_writer conv m;; st_map_err convF (flush None);; rest) (c, d, b) Q.
Proof.
  intros Hat Hf Hg Hm Hrest. apply judge_bind.
  { intros _. apply st_rel_bind; [apply _|apply st_rel_map_err, grows_flush|done]. }
  apply judge_map_err. intros Hs. unfold st_zoom in *. cbn [fst snd] in *.
  unfold judge in Hm. destruct (m (c, b)) as [r [c' b']] eqn:Hrun. cbn in *. specialize (Hm Hs).
  destruct r as [[]|err|]; [|exact Hm..].
  destruct (writer_survives es ls m c d b _ c' b' Hf Hat Hrun Hs) as (Hi & Hx & Hl).
  destruct (inv_flush_none pre hdr es d b' Hi) as (d' & Hrun' & Hi' & Hfl).
  apply judge_bind; [done|]. eapply (judge_run _ _ _ tt (c', d', b')).
  { apply map_err_ok. unfold flush, st_zoom. cbn [fst snd]. by rewrite Hrun'. }
  apply Hrest; [done..|]. constructor; [done..|]. constructor; [|done].
  pose proof (at_length _ _ _ Hat). pose proof (proj1 Hx). cbn in *.
  split; [lia|apply kept_outside_refl].
Qed.

(** A buffer operation whose failure leaves the entry to [entry]. *)
Lemma judge_try_stage {E E' T U} (convF : FileWriterError -> E') es ls spec (m : ST Buffer E U)
    (entry : E + U -> MDRawDirectory) c d b (P : E + U -> Buffer -> Prop) (rest : ST State E' T) Q :
  At es ls (c, d, b) -> plan !! length es = Some spec -> (forall n, frame n m) -> st_rel grows rest ->
  (forall r b', m b = (r, b') -> small b' -> match r with
    | Ok a => slot_ok (length (inner b')) spec (entry (inr a)) /\ P (inr a) b'
    | Err e => slot_ok (length (inner b')) spec (entry (inl e)) /\ P (inl e) b'
    | Panic => total = false end) ->
  (forall r b' d' b'', small b' -> P r b' -> At (es ++ [entry r]) (inner b' :: ls) (c, d', b'') ->
    judge total rest (c, d', b'') Q) ->
  judge total (r ← st_try (on_dump_buf (fun e => e) m); st_map_err convF (flush (Some (entry r)));; rest)
    (c, d, b) Q.
Proof.
  intros Hat Hspec Hf Hg Hm Hrest. apply judge_bind.
  { intros e. apply st_rel_bind; [apply _|apply st_rel_map_err, grows_flush|done]. }
  apply judge_try. intros r s'. unfold on_dump_buf, st_map_err, on_buf, st_zoom.
  cbn [get_buf set_buf pair_has_buffer fst snd]. destruct (m b) as [r0 b'] eqn:Hrun. intros Hr Hs.
  assert (Hs' : s' = (c, d, b')) by (destruct r0; by injection Hr as _ <-). subst s'.
  assert (Hsm : small b') by exact Hs. specialize (Hm r0 b' eq_refl Hsm).
  destruct (writer_survives es ls (on_buf (St := C * Buffer) m) c d b r0 c b'
    (fun n => frame_on_buf n m (Hf n)) Hat) as (Hi & _ & Hl); [unfold on_buf, st_zoom; cbn; by rewrite Hrun|done|].
  destruct r0 as [a|e|]; injection Hr as <-; [| |done]; destruct Hm as [Hok HP];
    (apply (judge_flush convF es ls _ spec); [done..|]); intros d' b'' Hat'; by eapply Hrest.
Qed.
End stages.

(** A whole run: the header is written, the streams are judged from there, and
    what they leave on the disk is the dump. *)
Lemma judged_run `{TG : Target} {F : Format} {FO : FormatOk F} {SP : StreamPlan} {C E T : Type}
    (convM : MemoryWriterError -> E) (convF : FileWriterError -> E) (hdr : MDRawHeader) (total : bool)
    (f : File) (c : C) (rest : ST (C * DirSection File * Buffer) E T)
    (Q : list MDRawDirectory -> C * DirSection File * Buffer -> Prop) r c' d' b' :
  (0 <= cursor f <= Z.of_nat (length (contents f)))%Z -> (cursor f + 2 ^ 32 <= 2 ^ 64)%Z ->
  st_rel grows rest ->
  (forall d b, At (before f) hdr [] [] (c, d, b) ->
    length (inner b) = size_with MDRawHeader + length plan * size_with MDRawDirectory ->
    judge total rest (c, d, b) (fun _ s => exists es ls, At (before f) hdr es ls s /\ Q es s)) ->
  (flush_header convM convF (mkMemoryWriter (wrap 32 0) (size_with MDRawHeader)) hdr;; rest)
    (c, start_dir f, start_buffer) = (r, (c', d', b')) -> small b' ->
  match r with
  | Ok _ => exists es, dump_on_disk (before f) hdr es (length (inner b')) (contents (destination d')) b' /\
      Q es (c', d', b')
  | _ => total = false
  end.
Proof.
  intros Hcur Hend Hg Hj Hrun Hs. pose proof (dump_small _ _ _ _ _ _ _ _ _ _ _ Hg Hrun Hs) as Hsmall.
  destruct (flush_header_run convM convF f Hcur Hend Hsmall c hdr)
    as ([[c1 d1] b1] & Hh & [(es & Hes & Hi) Hfl] & Hlen & Hc1).
  cbn in Hc1. subst c1. apply nil_length_inv in Hes. subst es.
  rewrite (st_bind_run _ _ _ _ _ Hh) in Hrun.
  assert (Hat : At (before f) hdr [] [] (c, d1, b1)) by (by constructor).
  specialize (Hj d1 b1 Hat Hlen). unfold judge in Hj. rewrite Hrun in Hj. specialize (Hj Hs).
  destruct r as [a|e|]; [|done..]. destruct Hj as (es & ls & Hfin & HQ). exists es. split; [|exact HQ].
  destruct Hfin as [Hi' Hfl' _]. cbn [fst snd] in *. rewrite <- Hfl'.
  destruct Hi' as [Hsy _ _ Hf' _ _ Hh' Hdir He]. pose proof (sync_flushed _ _ _ Hsy).
  pose proof (sync_before _ _ _ Hsy). pose proof (sync_mirror _ _ _ Hsy). by split_and!.
Qed.
