(* ===== verification/RustStr.v ===== *)
(** * Strings, paths and number parsing of the Rust standard library

    An [OsStr] is its bytes; a [&str] is the list of its Unicode scalar values.
    The functions below are the ones the sources call on them. *)
From Stdlib Require Import ZArith Lia String.
From S2P Require Import Prelude.

Local Open Scope Z_scope.

(** Literals. *)
Definition bytes_of (s : string) : list byte := String.list_byte_of_string s.
Definition str_of (s : string) : list Z := byte.unsigned <$> String.list_byte_of_string s.

(** ** Searching and splitting *)

Fixpoint starts_with {A} `{EqDecision A} (p l : list A) : bool :=
  match p, l with
  | [], _ => true
  | x :: p', y :: l' => bool_decide (x = y) && starts_with p' l'
  | _ :: _, [] => false
  end.

(** [<[u8]>::strip_suffix] *)
Definition strip_suffix {A} `{EqDecision A} (s l : list A) : option (list A) :=
  if starts_with (rev s) (rev l)
  then Some (take (length l - length s) l) else None.

(** [str::split_once] *)
Fixpoint split_once {A} `{EqDecision A} (p l : list A) : option (list A * list A) :=
  if starts_with p l then Some ([], drop (length p) l)
  else match l with
       | [] => None
       | x :: l' => '(a, b) ← split_once p l'; Some (x :: a, b)
       end.

(** [str::split(c)]: at least one piece. *)
Fixpoint split_on {A} (p : A -> bool) (l : list A) : list (list A) :=
  match l with
  | [] => [[]]
  | x :: l' =>
      if p x then [] :: split_on p l'
      else match split_on p l' with
           | piece :: rest => (x :: piece) :: rest
           | [] => [[x]]
           end
  end.

(** [str::find(pred)] and [str::rfind(pred)], as indices of characters. *)
Fixpoint find_idx {A} (p : A -> bool) (l : list A) : option nat :=
  match l with
  | [] => None
  | x :: l' => if p x then Some O else S <$> find_idx p l'
  end.

Definition rfind_idx {A} (p : A -> bool) (l : list A) : option nat :=
  i ← find_idx p (rev l); Some (length l - 1 - i)%nat.

Lemma find_idx_spec {A} (p : A -> bool) l i :
  find_idx p l = Some i ->
  exists x, l !! i = Some x /\ p x = true /\
    forall j y, (j < i)%nat -> l !! j = Some y -> p y = false.
Proof.
  revert i. induction l as [|x l IH]; intros i; simpl; [done|].
  destruct (p x) eqn:E.
  - intros [= <-]. exists x. split_and!; [done|done|]. intros; lia.
  - destruct (find_idx p l) as [j|]; simpl; [|done]. intros [= <-].
    destruct (IH j eq_refl) as (y & ? & ? & Hb). exists y. split_and!; [done|done|].
    intros [|k] z Hk Hz; simpl in *; [congruence|]. apply (Hb k); [lia|done].
Qed.

Lemma find_idx_none {A} (p : A -> bool) l i x :
  find_idx p l = None -> l !! i = Some x -> p x = false.
Proof.
  revert i. induction l as [|y l IH]; intros i; simpl; [done|].
  destruct (p y) eqn:E; [done|]. destruct (find_idx p l); [done|]. intros _.
  destruct i as [|i]; simpl; [congruence|]. by apply IH.
Qed.

(** ** Characters *)

Definition is_ascii_digit (c : Z) : bool := (48 <=? c) && (c <=? 57).

(** [char::is_whitespace] *)
Definition is_whitespace (c : Z) : bool :=
  ((9 <=? c) && (c <=? 13)) || (c =? 32) || (c =? 133) || (c =? 160) || (c =? 5760) ||
  ((8192 <=? c) && (c <=? 8202)) || (c =? 8232) || (c =? 8233) || (c =? 8239) ||
  (c =? 8287) || (c =? 12288).

Fixpoint trim_start (s : list Z) : list Z :=
  match s with
  | [] => []
  | c :: s' => if is_whitespace c then trim_start s' else s
  end.

Definition trim_end (s : list Z) : list Z := rev (trim_start (rev s)).
Definition trim (s : list Z) : list Z := trim_end (trim_start s).

(** [str::split_whitespace] *)
Definition split_whitespace (s : list Z) : list (list Z) :=
  filter (fun p => p <> []) (split_on is_whitespace s).

(** ** Numbers *)

(** The value of a digit in radix 10 or 16. *)
Definition digit_val (radix c : Z) : option Z :=
  let v := if is_ascii_digit c then Some (c - 48)
           else if (97 <=? c) && (c <=? 102) then Some (c - 87)
           else if (65 <=? c) && (c <=? 70) then Some (c - 55)
           else None in
  d ← v; if d <? radix then Some d else None.

Fixpoint parse_digits (radix bound acc : Z) (s : list Z) : option Z :=
  match s with
  | [] => Some acc
  | c :: s' =>
      d ← digit_val radix c;
      let acc' := acc * radix + d in
      if acc' <? bound then parse_digits radix bound acc' s' else None
  end.

(** [uN::from_str_radix]: an optional sign [+], at least one digit, no overflow. *)
Definition parse_uint (bits radix : Z) (s : list Z) : option Z :=
  match s with
  | [] => None
  | 43 :: s' => match s' with [] => None | _ => parse_digits radix (2 ^ bits) 0 s' end
  | _ => parse_digits radix (2 ^ bits) 0 s
  end.

(** [iN::from_str] in radix 10. *)
Definition parse_int (bits : Z) (s : list Z) : option Z :=
  match s with
  | [] => None
  | 45 :: s' => match s' with
                | [] => None
                | _ => Z.opp <$> parse_digits 10 (2 ^ (bits - 1) + 1) 0 s'
                end
  | 43 :: s' => match s' with [] => None | _ => parse_digits 10 (2 ^ (bits - 1)) 0 s' end
  | _ => parse_digits 10 (2 ^ (bits - 1)) 0 s
  end.

(** [format!("{}", n)] and [format!("{:x}", n)] for [n >= 0] below [radix^fuel]. *)
Fixpoint fmt_digits (fuel : nat) (radix n : Z) (acc : list Z) : list Z :=
  match fuel with
  | O => acc
  | S fuel' =>
      let d := n mod radix in
      let c := if d <? 10 then 48 + d else 87 + d in
      if n / radix =? 0 then c :: acc else fmt_digits fuel' radix (n / radix) (c :: acc)
  end.

Definition fmt_dec (n : Z) : list Z :=
  if n <? 0 then 45 :: fmt_digits 20 10 (- n) [] else fmt_digits 20 10 n [].

Definition fmt_hex32 (n : Z) : list Z := fmt_digits 16 16 (wrap 32 n) [].

(** ** UTF-8 *)

Definition utf8_encode_char (c : Z) : list byte :=
  byte.of_Z <$>
  if c <? 128 then [c]
  else if c <? 2048 then [192 + Z.shiftr c 6; 128 + Z.land c 63]
  else if c <? 65536 then
    [224 + Z.shiftr c 12; 128 + Z.land (Z.shiftr c 6) 63; 128 + Z.land c 63]
  else [240 + Z.shiftr c 18; 128 + Z.land (Z.shiftr c 12) 63;
        128 + Z.land (Z.shiftr c 6) 63; 128 + Z.land c 63].

(** [String::into] an [OsString]. *)
Definition utf8_encode (s : list Z) : list byte := s ≫= utf8_encode_char.

Definition is_cont (lo hi : Z) (b : byte) : bool :=
  (lo <=? byte.unsigned b) && (byte.unsigned b <=? hi).

(** One step of the decoder: the scalar value and the number of bytes it takes,
    or the length of the longest valid prefix of a broken sequence. *)
Definition utf8_step (l : list byte) : option (Z * nat + nat) :=
  match l with
  | [] => None
  | b0 :: l' =>
      let x := byte.unsigned b0 in
      let low b := Z.land (byte.unsigned b) 63 in
      let two lo hi k :=
        match l' with
        | b1 :: l'' => if is_cont lo hi b1 then k b1 l'' else Some (inr 1%nat)
        | [] => Some (inr 1%nat)
        end in
      if x <? 128 then Some (inl (x, 1%nat))
      else if (194 <=? x) && (x <=? 223) then
        two 128 191 (fun b1 _ => Some (inl ((x - 192) * 64 + low b1, 2%nat)))
      else if (224 <=? x) && (x <=? 239) then
        two (if x =? 224 then 160 else 128) (if x =? 237 then 159 else 191)
          (fun b1 l'' => match l'' with
             | b2 :: _ => if is_cont 128 191 b2
                 then Some (inl ((x - 224) * 4096 + low b1 * 64 + low b2, 3%nat))
                 else Some (inr 2%nat)
             | [] => Some (inr 2%nat)
             end)
      else if (240 <=? x) && (x <=? 244) then
        two (if x =? 240 then 144 else 128) (if x =? 244 then 143 else 191)
          (fun b1 l'' => match l'' with
             | b2 :: l3 => if is_cont 128 191 b2 then
                 match l3 with
                 | b3 :: _ => if is_cont 128 191 b3
                     then Some (inl ((x - 240) * 262144 + low b1 * 4096 + low b2 * 64 + low b3,
                                     4%nat))
                     else Some (inr 3%nat)
                 | [] => Some (inr 3%nat)
                 end else Some (inr 2%nat)
             | [] => Some (inr 2%nat)
             end)
      else Some (inr 1%nat)
  end.

(** Every step consumes at least one byte, so the length is enough fuel. *)
Fixpoint utf8_lossy_fuel (fuel : nat) (l : list byte) : list Z :=
  match fuel with
  | O => []
  | S fuel' =>
      match utf8_step l with
      | None => []
      | Some (inl (c, n)) => c :: utf8_lossy_fuel fuel' (drop n l)
      | Some (inr n) => 65533 :: utf8_lossy_fuel fuel' (drop n l)
      end
  end.

(** [OsStr::to_string_lossy] *)
Definition to_string_lossy (l : list byte) : list Z := utf8_lossy_fuel (length l) l.

Fixpoint from_utf8_fuel (fuel : nat) (l : list byte) : option (list Z) :=
  match fuel with
  | O => Some []
  | S fuel' =>
      match utf8_step l with
      | None => Some []
      | Some (inl (c, n)) => cons c <$> from_utf8_fuel fuel' (drop n l)
      | Some (inr _) => None
      end
  end.

(** [String::from_utf8] *)
Definition from_utf8 (l : list byte) : option (list Z) := from_utf8_fuel (length l) l.

(** ** Paths (Unix) *)

Definition is_slash (b : byte) : bool := bool_decide (b = Byte.x2f).
Definition dot : list byte := [Byte.x2e].
Definition dotdot : list byte := [Byte.x2e; Byte.x2e].

(** The components of a path other than the root and [.]. *)
Definition path_components (p : list byte) : list (list byte) :=
  filter (fun c => c <> [] /\ c <> dot) (split_on is_slash p).

(** [Path::file_name] *)
Definition file_name (p : list byte) : option (list byte) :=
  c ← last (path_components p);
  if decide (c = dotdot) then None else Some c.

Definition is_absolute (p : list byte) : bool :=
  match p with b :: _ => is_slash b | [] => false end.

(** Drops empty and [.] components from the end of a path, but not its root. *)
Fixpoint trim_path_rev (fuel : nat) (r : list byte) : list byte :=
  match fuel with
  | O => r
  | S fuel' =>
      match r with
      | b :: (_ :: _) as r' =>
          if is_slash b then trim_path_rev fuel' (tail r)
          else match r with
               | b1 :: b2 :: r2 =>
                   if bool_decide (b1 = Byte.x2e) && is_slash b2
                   then trim_path_rev fuel' (b2 :: r2) else r
               | _ => r
               end
      | _ => r
      end
  end.

(** [PathBuf::pop] on a path that has a file name: what is before the last
    component, without trailing separators. *)
Definition path_parent (p : list byte) : list byte :=
  let r := trim_path_rev (length p) (rev p) in
  let n := match find_idx is_slash r with Some i => i | None => length r end in
  let r' := drop n r in
  rev (trim_path_rev (length r') r').

(** [PathBuf::push] *)
Definition path_push (p q : list byte) : list byte :=
  if is_absolute q then q
  else match last p with
       | None => q
       | Some b => if is_slash b then p ++ q else p ++ [Byte.x2f] ++ q
       end.

(** [PathBuf::set_file_name] *)
Definition path_set_file_name (p name : list byte) : list byte :=
  path_push (match file_name p with Some _ => path_parent p | None => p end) name.

(** ** Lines ([BufRead::lines])

    The bytes of a file, cut at line feeds: the complete lines without their
    terminator, and what follows the last one. *)
Fixpoint split_lines (l : list byte) : list (list byte) * list byte :=
  match l with
  | [] => ([], [])
  | b :: l' =>
      let '(full, rest) := split_lines l' in
      if decide (b = Byte.x0a) then ([] :: full, rest)
      else match full with
           | [] => ([], b :: rest)
           | x :: full' => ((b :: x) :: full', rest)
           end
  end.

(** A complete line also loses a carriage return at its end. *)
Definition strip_cr (l : list byte) : list byte :=
  match last l with Some Byte.x0d => take (length l - 1) l | _ => l end.

(** [str::get(0..n)] and [str::get(n..)]: [None] unless [n] is a character
    boundary of the string. *)
Fixpoint str_split_at (n : nat) (s : list Z) : option (list Z * list Z) :=
  match n, s with
  | O, _ => Some ([], s)
  | _, [] => None
  | _, c :: s' =>
      let k := length (utf8_encode_char c) in
      if decide (k <= n)%nat
      then '(a, b) ← str_split_at (n - k) s'; Some (c :: a, b)
      else None
  end.

(** ** Examples *)

Example parse_plain : parse_uint 32 10 (str_of "11800") = Some 11800.
Proof. reflexivity. Qed.
Example parse_overflow : parse_uint 32 10 (str_of "4294967296") = None.
Proof. reflexivity. Qed.
Example parse_negative : parse_int 32 (str_of "-2147483648") = Some (-2147483648).
Proof. reflexivity. Qed.
Example file_name_ex : file_name (bytes_of "/usr/lib/libm.so.6") = Some (bytes_of "libm.so.6").
Proof. reflexivity. Qed.
Example set_file_name_ex :
  path_set_file_name (bytes_of "/usr/lib//libm.so.6/") (bytes_of "x") = bytes_of "/usr/lib/x".
Proof. reflexivity. Qed.
Example set_file_name_root : path_set_file_name (bytes_of "/a") (bytes_of "x") = bytes_of "/x".
Proof. reflexivity. Qed.
Example lossy_ex :
  to_string_lossy (bytes_of "a" ++ [Byte.xc3; Byte.xa9; Byte.xff]) = [97; 233; 65533].
Proof. reflexivity. Qed.
Example fmt_ex : fmt_dec 1203 = str_of "1203" /\ fmt_hex32 (-1) = str_of "ffffffff".
Proof. split; reflexivity. Qed.
