(* ===== verification/Text.v ===== *)
(** * Decoded text

    Every text the sources decode from bytes (names, paths) is a sequence of
    Unicode scalar values, and not longer in UTF-16 than its bytes; so it can be
    written into a dump and read back. *)
From Stdlib Require Import ZArith Lia.
From S2P Require Import Prelude Format Layout MemWriter DirSection Driver DumpPlan Slots Ensures RustStr.

Local Open Scope Z_scope.

Lemma low_bits x : 128 <= x <= 191 -> Z.land x 63 = x - 128.
Proof.
  intros Hx. change 63 with (Z.ones 6). rewrite Z.land_ones by lia. change (2 ^ 6) with 64.
  symmetry. apply (Z.mod_unique_pos _ _ 2); lia.
Qed.

Lemma cont_bounds lo hi b : is_cont lo hi b = true -> lo <= byte.unsigned b <= hi.
Proof. unfold is_cont. rewrite andb_true_iff, !Z.leb_le. done. Qed.

(** A step of the decoder gives a scalar value that takes no more code units
    than bytes. *)
Lemma utf8_step_char l c n : utf8_step l = Some (inl (c, n)) ->
  is_char c /\ (List.length (encode_utf16_char c) <= n <= List.length l)%nat.
Proof.
  assert (Hu : forall c, (List.length (encode_utf16_char c) <= 2)%nat)
    by (intros c'; unfold encode_utf16_char; case_match; cbn; lia).
  assert (Hu1 : forall c, c < 65536 -> List.length (encode_utf16_char c) = 1%nat)
    by (intros c' Hc'; unfold encode_utf16_char; destruct (Z.ltb_spec c' 65536); [done|lia]).
  unfold is_char. destruct l as [|b0 l']; [done|]. cbn [utf8_step].
  pose proof (byte.unsigned_range b0) as Hb0. set (x := byte.unsigned b0) in *.
  destruct (Z.ltb_spec x 128); [intros [= <- <-]; rewrite Hu1 by lia; cbn; lia|].
  destruct ((194 <=? x) && (x <=? 223)) eqn:E2; [|destruct ((224 <=? x) && (x <=? 239)) eqn:E3;
    [|destruct ((240 <=? x) && (x <=? 244)) eqn:E4; [|done]]];
    rewrite andb_true_iff, !Z.leb_le in *.
  - destruct l' as [|b1 l'']; [done|]. destruct (is_cont _ _ b1) eqn:C1; [|done].
    apply cont_bounds in C1. intros [= <- <-]. rewrite low_bits by lia. rewrite Hu1 by lia. cbn. lia.
  - destruct l' as [|b1 [|b2 l'']]; [done|by destruct (is_cont _ _ b1)|].
    destruct (is_cont _ _ b1) eqn:C1; [|done]. destruct (is_cont 128 191 b2) eqn:C2; [|done].
    apply cont_bounds in C1, C2. intros [= <- <-].
    destruct (Z.eqb_spec x 224), (Z.eqb_spec x 237); rewrite !low_bits by lia; rewrite Hu1 by lia;
      cbn [List.length]; lia.
  - destruct l' as [|b1 [|b2 [|b3 l'']]]; [done|by destruct (is_cont _ _ b1)|
      by destruct (is_cont _ _ b1), (is_cont 128 191 b2)|].
    destruct (is_cont _ _ b1) eqn:C1; [|done]. destruct (is_cont 128 191 b2) eqn:C2; [|done].
    destruct (is_cont 128 191 b3) eqn:C3; [|done]. apply cont_bounds in C1, C2, C3.
    intros [= <- <-]. match goal with |- context [encode_utf16_char ?c] => specialize (Hu c) end.
    destruct (Z.eqb_spec x 240), (Z.eqb_spec x 244); rewrite !low_bits in * by lia;
      cbn [List.length]; lia.
Qed.

Lemma utf8_step_skip l n : utf8_step l = Some (inr n) -> (1 <= n <= List.length l)%nat.
Proof.
  destruct l as [|b0 l']; [done|]. cbn [utf8_step]. repeat case_match; intros; simplify_eq; cbn; lia.
Qed.

Lemma encode_utf16_cons c text : encode_utf16 (c :: text) = encode_utf16_char c ++ encode_utf16 text.
Proof. done. Qed.

(** What is decoded can be written and read back. *)
Definition decoded (l : list byte) (text : list Z) : Prop :=
  Forall is_char text /\ (List.length (encode_utf16 text) <= List.length l)%nat.

Lemma decoded_cons l n c text :
  is_char c -> (List.length (encode_utf16_char c) <= n <= List.length l)%nat ->
  decoded (drop n l) text -> decoded l (c :: text).
Proof.
  intros Hc Hn [Ht Hl]. split; [by constructor|].
  rewrite encode_utf16_cons, length_app. rewrite length_drop in Hl. lia.
Qed.

Lemma from_utf8_decoded l text : from_utf8 l = Some text -> decoded l text.
Proof.
  unfold from_utf8. generalize (List.length l). intros fuel. revert l text.
  induction fuel as [|fuel IH]; intros l text; cbn [from_utf8_fuel].
  { intros [= <-]. split; [done|]. cbn. lia. }
  destruct (utf8_step l) as [[[c n]|]|] eqn:Hs; [|done|intros [= <-]; split; [done|cbn; lia]].
  destruct (from_utf8_fuel fuel (drop n l)) as [t|] eqn:Ht; [|done]. intros [= <-].
  apply utf8_step_char in Hs as [Hc Hn]. apply (decoded_cons l n); [done|done|by apply IH].
Qed.

Lemma to_string_lossy_decoded l : decoded l (to_string_lossy l).
Proof.
  unfold to_string_lossy. generalize (List.length l). intros fuel. revert l.
  induction fuel as [|fuel IH]; intros l; cbn [utf8_lossy_fuel]; [split; [done|cbn; lia]|].
  destruct (utf8_step l) as [[[c n]|n]|] eqn:Hs; [| |split; [done|cbn; lia]].
  - apply utf8_step_char in Hs as [Hc Hn]. by apply (decoded_cons l n).
  - apply utf8_step_skip in Hs. apply (decoded_cons l n); [unfold is_char; lia|cbn; lia|done].
Qed.

Lemma decoded_short l text : decoded l text -> 2 * Z.of_nat (List.length l) < 2 ^ 32 -> short_text text.
Proof. intros [_ Hl] Hs. unfold short_text. lia. Qed.

Lemma decoded_chars l text : decoded l text -> Forall is_char text.
Proof. by intros []. Qed.
