(* ===== verification/Errors.v ===== *)
(** * Shared data types and error values

    The mapping records of src/src/linux/maps_reader.rs and the error enums of
    src/src/linux/errors.rs, src/src/linux/auxv/mod.rs and
    src/src/linux/ptrace_dumper.rs.  A Rust variant [Enum::Variant] is the
    constructor [Enum_Variant]; the payloads are the source's. *)
From Stdlib Require Import ZArith.
From S2P Require Import Prelude Format MemWriter DirSection RustStr.

(** An [OsString] or [PathBuf] is its bytes, a [String] its scalar values. *)
Definition OsString := list byte.
Definition RString := list Z.

(** ** Mapping records *)

(** [procfs_core::process::MMPermissions], the five flags of a maps line. *)
Record MMPermissions := mkPerms {
  READ : bool;
  WRITE : bool;
  EXECUTE : bool;
  SHARED : bool;
  PRIVATE : bool;
}.

#[export] Instance perms_eq_dec : EqDecision MMPermissions.
Proof. solve_decision. Defined.

Definition only_private : MMPermissions := mkPerms false false false false true.

(** [a |= b] *)
Definition perms_union (a b : MMPermissions) : MMPermissions :=
  mkPerms (READ a || READ b) (WRITE a || WRITE b) (EXECUTE a || EXECUTE b)
    (SHARED a || SHARED b) (PRIVATE a || PRIVATE b).

Record SystemMappingInfo := mkSystemMapping {
  sys_start_address : Z;
  sys_end_address : Z;
}.

#[export] Instance system_mapping_eq_dec : EqDecision SystemMappingInfo.
Proof. solve_decision. Defined.

Record MappingInfo := mkMapping {
  start_address : Z;
  size : Z;
  system_mapping_info : SystemMappingInfo;
  offset : Z;
  permissions : MMPermissions;
  name : option OsString;
}.

#[export] Instance mapping_eq_dec : EqDecision MappingInfo.
Proof. solve_decision. Defined.

Record MappingEntry := mkMappingEntry {
  mapping : MappingInfo;
  identifier : list byte;
}.

(** ** Errors *)

Inductive AuxvError :=
  | AuxvError_OpenError (path : RString) (e : IoError)
  | AuxvError_NoAuxvEntryFound (pid : Pid)
  | AuxvError_InvalidFormat
  | AuxvError_IOError (e : IoError).

Inductive ModuleReaderError :=
  | ModuleReaderError_MapFile (path : OsString) (error : IoError)
  | ModuleReaderError_ReadModuleMemory (offset length : Z) (start_address : option Z)
      (error : Errno)
  | ModuleReaderError_Parsing (e : ForeignError)
  | ModuleReaderError_NoProgramHeaderNote
  | ModuleReaderError_NoStrTab
  | ModuleReaderError_NoSectionNote
  | ModuleReaderError_NoProgramHeaders
  | ModuleReaderError_NoSections
  | ModuleReaderError_NoTextSection
  | ModuleReaderError_NoBuildId (program_headers section generated : ModuleReaderError)
  | ModuleReaderError_NoDynStrSection
  | ModuleReaderError_StrTabNoNulByte
  | ModuleReaderError_NoSoNameEntry
  | ModuleReaderError_NoDynamicSection
  | ModuleReaderError_NoSoName (program_headers section : ModuleReaderError).

Inductive MapsReaderError :=
  | MapsReaderError_ELFParsingFailed (e : ForeignError)
  | MapsReaderError_NoSoName (filename : OsString) (e : ModuleReaderError)
  | MapsReaderError_MapEntryMalformed (what : RString)
  | MapsReaderError_UnparsableInteger (e : ForeignError)
  | MapsReaderError_LinuxGateNotConvertable
  | MapsReaderError_NotSafeToOpenMapping (n : OsString)
  | MapsReaderError_FileError (e : IoError)
  | MapsReaderError_MmapSanityCheckFailed
  | MapsReaderError_SymlinkError (a b : OsString).

Inductive CpuInfoError :=
  | CpuInfoError_IOError (e : IoError)
  | CpuInfoError_NotAllProcEntriesFound
  | CpuInfoError_UnparsableInteger
  | CpuInfoError_UnparsableCores (s : RString).

Inductive ThreadInfoError :=
  | ThreadInfoError_IndexOutOfBounds (got have : nat)
  | ThreadInfoError_InvalidPid (file : RString) (ppid tgid : Pid)
  | ThreadInfoError_IOError (e : IoError)
  | ThreadInfoError_UnparsableInteger
  | ThreadInfoError_PtraceError (e : Errno)
  | ThreadInfoError_InvalidProcStatusFile (tid : Pid) (line : RString).

Record CopyFromProcessError := mkCopyError {
  child : Pid;
  src : Z;
  copy_offset : Z;
  copy_length : Z;
  source : Errno;
}.

Inductive DumperError :=
  | DumperError_SysConfError (e : Errno)
  | DumperError_WaitPidError (pid : Pid) (e : Errno)
  | DumperError_PtraceAttachError (pid : Pid) (e : Errno)
  | DumperError_PtraceDetachError (pid : Pid) (e : Errno)
  | DumperError_CopyFromProcessError (e : CopyFromProcessError)
  | DumperError_DetachSkippedThread (pid : Pid)
  | DumperError_SuspendNoThreadsLeft (n : nat)
  | DumperError_NoStackPointerMapping
  | DumperError_TryFromSliceError
  | DumperError_ELFParsingFailed (e : ForeignError)
  | DumperError_ModuleReaderError (e : ModuleReaderError)
  | DumperError_NotSafeToOpenMapping (n : OsString)
  | DumperError_TryFromIntError
  | DumperError_MapsReaderError (e : MapsReaderError).

Inductive AndroidError :=
  | AndroidError_CopyFromProcessError (e : DumperError)
  | AndroidError_TryFromSliceError
  | AndroidError_NoRelFound.

Inductive InitError :=
  | InitError_ReadAuxvFailed (e : AuxvError)
  | InitError_IOError (file : RString) (e : IoError)
  | InitError_PrincipalMappingNotReferenced
  | InitError_AndroidLateInitError (e : AndroidError)
  | InitError_PageSizeError (e : Errno)
  | InitError_CannotPtraceSameProcess.

Inductive SectionAppMemoryError :=
  | SectionAppMemoryError_CopyFromProcessError (e : DumperError)
  | SectionAppMemoryError_MemoryWriterError (e : MemoryWriterError).

Inductive SectionExceptionStreamError :=
  | SectionExceptionStreamError_MemoryWriterError (e : MemoryWriterError).

Inductive SectionHandleDataStreamError :=
  | SectionHandleDataStreamError_IOError (e : IoError)
  | SectionHandleDataStreamError_MemoryWriterError (e : MemoryWriterError)
  | SectionHandleDataStreamError_TryFromIntError.

Inductive SectionMappingsError :=
  | SectionMappingsError_MemoryWriterError (e : MemoryWriterError)
  | SectionMappingsError_GetEffectivePathError (m : MappingInfo) (e : MapsReaderError).

Inductive SectionMemInfoListError :=
  | SectionMemInfoListError_MemoryWriterError (e : MemoryWriterError)
  | SectionMemInfoListError_ProcfsError (e : ForeignError).

Inductive SectionMemListError :=
  | SectionMemListError_MemoryWriterError (e : MemoryWriterError).

Inductive SectionSystemInfoError :=
  | SectionSystemInfoError_MemoryWriterError (e : MemoryWriterError)
  | SectionSystemInfoError_CpuInfoError (e : CpuInfoError).

Inductive SectionThreadListError :=
  | SectionThreadListError_MemoryWriterError (e : MemoryWriterError)
  | SectionThreadListError_TryFromIntError
  | SectionThreadListError_CopyFromProcessError (e : DumperError)
  | SectionThreadListError_ThreadInfoError (e : ThreadInfoError)
  | SectionThreadListError_IOError (e : IoError).

Inductive SectionThreadNamesError :=
  | SectionThreadNamesError_TryFromIntError
  | SectionThreadNamesError_MemoryWriterError (e : MemoryWriterError)
  | SectionThreadNamesError_IOError (e : IoError).

Inductive SectionDsoDebugError :=
  | SectionDsoDebugError_MemoryWriterError (e : MemoryWriterError)
  | SectionDsoDebugError_CouldNotFind (what : RString)
  | SectionDsoDebugError_CopyFromProcessError (e : DumperError)
  | SectionDsoDebugError_FromUTF8Error.

Inductive WriterError :=
  | WriterError_InitError (e : InitError)
  | WriterError_DumperError (e : DumperError)
  | WriterError_SectionAppMemoryError (e : SectionAppMemoryError)
  | WriterError_SectionExceptionStreamError (e : SectionExceptionStreamError)
  | WriterError_SectionHandleDataStreamError (e : SectionHandleDataStreamError)
  | WriterError_SectionMappingsError (e : SectionMappingsError)
  | WriterError_SectionMemListError (e : SectionMemListError)
  | WriterError_SectionSystemInfoError (e : SectionSystemInfoError)
  | WriterError_SectionMemoryInfoListError (e : SectionMemInfoListError)
  | WriterError_SectionThreadListError (e : SectionThreadListError)
  | WriterError_SectionThreadNamesError (e : SectionThreadNamesError)
  | WriterError_SectionDsoDebugError (e : SectionDsoDebugError)
  | WriterError_MemoryWriterError (e : MemoryWriterError)
  | WriterError_FileWriterError (e : FileWriterError)
  | WriterError_SystemTimeError.

Inductive StopProcessError :=
  | StopProcessError_Stop (e : Errno)
  | StopProcessError_State (e : ForeignError)
  | StopProcessError_Timeout.

Inductive ContinueProcessError :=
  | ContinueProcessError_Continue (e : Errno).
