(* ===== verification/Os.v ===== *)
(** * The operating system as the dumper sees it (interface)

    None of the kernel, the file system and the C library is part of this
    repository.  [Os] gathers the queries the code makes of them while the
    target process is stopped: they are functions of their arguments, that is,
    the answers are those of one frozen state of the machine.  Calls that
    change the state of the target (ptrace attach and detach, signals) are in
    the interface of PtraceDumper.v, over an explicit kernel state. *)
From Stdlib Require Import ZArith Lia.
From S2P Require Import Prelude Errors.

(** The answer of a system call: an error on the left. *)
Definition os_res {E A} (r : E + A) : res E A :=
  match r with inl e => Err e | inr a => Ok a end.

Class Os := {
  (** [process_vm_readv] of one region: the bytes transferred. *)
  process_vm_readv : Pid -> Z -> nat -> Errno + list byte;
  (** Opening [/proc/<pid>/mem], and [read_exact_at] on it. *)
  open_mem : Pid -> IoError + unit;
  read_exact_at : Pid -> Z -> nat -> IoError + list byte;
  (** [PTRACE_PEEKDATA]: one word. *)
  ptrace_read : Pid -> Z -> Errno + Z;
  (** Whether the allocator can provide that many bytes. *)
  alloc_succeeds : Z -> bool;
  (** [std::fs::read] of a path. *)
  fs_read : OsString -> IoError + list byte;
  (** [File::open] for reading, with the outcome of each successive [read] on
      an unbounded buffer; after the last one the file is at its end. *)
  fs_open : OsString -> IoError + list (IoError + list byte);
  (** Opening a path and mapping it from an offset. *)
  fs_mmap : OsString -> Z -> IoError + list byte;
  (** [Path::exists]; [Path::is_dir]; [std::fs::read_dir], with the unreadable entries [None]. *)
  fs_exists : OsString -> bool;
  fs_is_dir : OsString -> bool;
  fs_read_dir : OsString -> IoError + list (option OsString);
  (** [std::fs::read_link]; [st_mode] of [std::fs::metadata]. *)
  fs_read_link : OsString -> IoError + OsString;
  fs_metadata_mode : OsString -> IoError + Z;
  (** [std::process::id]; [sysconf(_SC_PAGE_SIZE)]; seconds since the epoch, or
      [None] when the clock is before it. *)
  process_id_self : Z;
  sysconf_page_size : Errno + option Z;
  unix_time : option Z;
}.

(** ** A process memory

    The abstract memory the reading system calls give access to: what is
    mapped and readable at each address. *)
Definition Memory := Z -> option byte.

Definition mem_bytes (mem : Memory) (a : Z) (n : nat) : option (list byte) :=
  mapM (fun i => mem (a + Z.of_nat i)%Z) (seq 0 n).

(** The documented behaviour of the three ways of reading another process:
    [process_vm_readv] transfers a prefix of the region, the other two all or
    nothing, and what they transfer is the memory. *)
Class MemoryOk `{Target} (OS : Os) (pid : Pid) (mem : Memory) : Prop := {
  vm_readv_ok : forall a n bs, process_vm_readv pid a n = inr bs ->
    length bs <= n /\ mem_bytes mem a (length bs) = Some bs;
  read_exact_ok : forall a n bs, read_exact_at pid a n = inr bs ->
    mem_bytes mem a n = Some bs;
  ptrace_read_ok : forall a w, ptrace_read pid a = inr w ->
    mem_bytes mem a size_of_usize = Some (le_split size_of_usize w);
}.

(** While the process is stopped, what is mapped can be read, and there is room
    for a copy of any mapped block. *)
Class MemoryMapped `{Target} (OS : Os) (pid : Pid) (mem : Memory) : Prop := {
  vm_readv_mapped : forall a n bs, 0 < n -> mem_bytes mem a n = Some bs ->
    process_vm_readv pid a n = inr bs;
  alloc_mapped : forall a n bs, 0 < n -> mem_bytes mem a n = Some bs ->
    alloc_succeeds (Z.of_nat n) = true;
}.

(** A machine with one process whose memory is [mem], reachable by
    [process_vm_readv] only, and an empty file system. *)
Definition toy_os (mem : Memory) : Os := {|
  process_vm_readv _ a n :=
    match mem_bytes mem a n with Some bs => inr bs | None => inl 14%Z end;
  open_mem _ := inl (OsError EACCES);
  read_exact_at _ _ _ := inl (OsError EACCES);
  ptrace_read _ _ := inl ESRCH;
  alloc_succeeds _ := true;
  fs_read _ := inl (OsError 2);
  fs_open _ := inl (OsError 2);
  fs_mmap _ _ := inl (OsError 2);
  fs_exists _ := false;
  fs_is_dir _ := false;
  fs_read_dir _ := inl (OsError 2);
  fs_read_link _ := inl (OsError 2);
  fs_metadata_mode _ := inl (OsError 2);
  process_id_self := 1;
  sysconf_page_size := inr (Some 4096%Z);
  unix_time := Some 1700000000%Z;
|}.

(** A memory made of blocks. *)
Definition blocks_memory (blocks : list (Z * list byte)) : Memory := fun a =>
  foldr (fun '(start, bs) rest =>
    if (start <=? a)%Z && (a <? start + Z.of_nat (List.length bs))%Z then bs !! Z.to_nat (a - start)%Z else rest)
    None blocks.

Section mem_bytes_lemmas.
Context (mem : Memory).

Lemma mem_bytes_length a n bs : mem_bytes mem a n = Some bs -> length bs = n.
Proof.
  unfold mem_bytes. rewrite mapM_Some. intros HF.
  apply Forall2_length in HF. by rewrite length_seq in HF.
Qed.

Lemma mem_bytes_lookup a n bs :
  mem_bytes mem a n = Some bs <->
  length bs = n /\ forall i, i < n -> mem (a + Z.of_nat i)%Z = bs !! i.
Proof.
  unfold mem_bytes. rewrite mapM_Some, Forall2_lookup. split.
  - intros HF. assert (Hlen : length bs = n).
    { apply Forall2_lookup, Forall2_length in HF. by rewrite length_seq in HF. }
    split; [done|]. intros i Hi. specialize (HF i).
    rewrite (lookup_seq_lt 0 n i Hi) in HF.
    destruct (lookup_lt_is_Some_2 bs i) as [b Hb]; [lia|].
    rewrite Hb in *. inversion HF; subst. done.
  - intros [Hlen Hf] i. destruct (decide (i < n)) as [Hi|Hi].
    + rewrite (lookup_seq_lt 0 n i Hi). specialize (Hf i Hi).
      destruct (lookup_lt_is_Some_2 bs i) as [b Hb]; [lia|].
      rewrite Hb in *. constructor. done.
    + rewrite (lookup_seq_ge 0 n i) by lia. rewrite lookup_ge_None_2 by lia. constructor.
Qed.

Lemma mem_bytes_app a n m bs cs :
  mem_bytes mem a n = Some bs -> mem_bytes mem (a + Z.of_nat n)%Z m = Some cs ->
  mem_bytes mem a (n + m) = Some (bs ++ cs).
Proof.
  rewrite !mem_bytes_lookup. intros [Hb Hbf] [Hc Hcf]. split.
  - rewrite length_app. lia.
  - intros i Hi. destruct (decide (i < n)).
    + rewrite lookup_app_l by lia. by apply Hbf.
    + rewrite lookup_app_r by lia. rewrite Hb, <- Hcf by lia. f_equal. lia.
Qed.

Lemma mem_bytes_take a n k bs :
  k <= n -> mem_bytes mem a n = Some bs -> mem_bytes mem a k = Some (take k bs).
Proof.
  rewrite !mem_bytes_lookup. intros Hk [Hl Hf]. split.
  - rewrite length_take. lia.
  - intros i Hi. rewrite lookup_take_lt by done. apply Hf. lia.
Qed.

Lemma toy_memory_ok `{Target} pid : MemoryOk (toy_os mem) pid mem.
Proof.
  constructor; simpl; intros; try done.
  destruct (mem_bytes mem a n) eqn:E; simplify_eq.
  apply mem_bytes_length in E as Hl. rewrite Hl. done.
Qed.

Lemma toy_memory_mapped `{Target} pid : MemoryMapped (toy_os mem) pid mem.
Proof. constructor; simpl; intros a n bs _ Hm; by rewrite ?Hm. Qed.
End mem_bytes_lemmas.
