(* ===== verification/MemReader.v ===== *)
(** * Reading the memory of another process (src/src/linux/mem_reader.rs)

    [MemReader] probes for a working way of reading on its first access and
    keeps it.  A destination slice of [n] bytes is the number [n]; an access
    returns the bytes it left at the front of the slice, whose number is the
    [usize] the source returns (what a failed attempt leaves behind in the
    slice is overwritten or dropped by every caller in the repository). *)
From Stdlib Require Import ZArith Lia.
From S2P Require Import Prelude Layout Errors Os.

Local Open Scope Z_scope.

Inductive Style :=
  | VirtualMem
  | File (handle : Pid)
  | Ptrace
  | Unavailable (vmem file ptrace : Errno).

Record MemReader := mkMemReader {
  mr_pid : Pid;
  style : option Style;
}.

Definition MemReader_new (pid : Pid) : MemReader := mkMemReader pid None.
Definition for_virtual_mem (pid : Pid) : MemReader := mkMemReader pid (Some VirtualMem).
Definition for_ptrace (pid : Pid) : MemReader := mkMemReader pid (Some Ptrace).
Definition set_style (s : Style) (r : MemReader) : MemReader := mkMemReader (mr_pid r) (Some s).

Section mem_reader.
Context `{Target} {OS : Os}.

Definition for_file (pid : Pid) : res IoError MemReader :=
  _ ← os_res (open_mem pid); Ok (mkMemReader pid (Some (File pid))).

Definition vmem (pid : Pid) (src : Z) (len : nat) : res Errno (list byte) :=
  os_res (process_vm_readv pid src len).

Definition file (handle : Pid) (src : Z) (len : nat) : res Errno (list byte) :=
  map_err (fun err => match raw_os_error err with Some os => os | None => E2BIG end)
    (os_res (read_exact_at handle src len)).

(** The loop over the whole words of the slice, [n] of them, from [offset]. *)
Fixpoint ptrace_words (pid : Pid) (src : Z) (offset : Z) (n : nat)
    : res (Errno * Z) (list byte) :=
  match n with
  | O => Ok []
  | S n' =>
      a ← add_u usize_bits src offset;
      word ← map_err (fun err => (err, offset)) (os_res (ptrace_read pid a));
      rest ← ptrace_words pid src (offset + Z.of_nat size_of_usize) n';
      Ok (le_split size_of_usize word ++ rest)
  end.

Definition ptrace (pid : Pid) (src : Z) (len : nat) : res (Errno * Z) (list byte) :=
  let words := (len / size_of_usize)%nat in
  let last := (len mod size_of_usize)%nat in
  let offset := Z.of_nat (words * size_of_usize) in
  chunks ← ptrace_words pid src 0 words;
  if (0 <? last)%nat then
    a ← add_u usize_bits src offset;
    word ← map_err (fun err => (err, offset)) (os_res (ptrace_read pid a));
    Ok (chunks ++ take last (le_split size_of_usize word))
  else Ok chunks.

(** The access with a style that is already known. *)
Definition read_with (pid : Pid) (rs : Style) (src : Z) (len : nat)
    : res (Errno * Z) (list byte) :=
  match rs with
  | VirtualMem => map_err (fun s => (s, 0)) (vmem pid src len)
  | File h => map_err (fun s => (s, 0)) (file h src len)
  | Ptrace => ptrace pid src len
  | Unavailable _ _ ptrace => Err (ptrace, 0)
  end.

Definition copy_error (pid : Pid) (src : Z) (len : nat) (e : Errno * Z)
    : CopyFromProcessError := mkCopyError pid src e.2 (Z.of_nat len) e.1.

Definition read (src : Z) (len : nat) : ST MemReader CopyFromProcessError (list byte) :=
  fun r =>
  let pid := mr_pid r in
  match style r with
  | Some rs => (map_err (copy_error pid src len) (read_with pid rs src len), r)
  | None =>
      match vmem pid src len with
      | Panic => (Panic, r)
      | Ok bs => (Ok bs, set_style VirtualMem r)
      | Err vmem =>
          let attempt := match open_mem pid with
                         | inr _ => file pid src len
                         | inl err => match raw_os_error err with
                                      | Some os => Err os
                                      | None => Panic
                                      end
                         end in
          match attempt with
          | Panic => (Panic, r)
          | Ok bs => (Ok bs, set_style (File pid) r)
          | Err file =>
              match ptrace pid src len with
              | Panic => (Panic, r)
              | Ok bs => (Ok bs, set_style Ptrace r)
              | Err (ptrace, _) =>
                  (Err (copy_error pid src len (ptrace, 0)),
                   set_style (Unavailable vmem file ptrace) r)
              end
          end
      end
  end.

(** [length] is non-zero; [isize::MAX] bounds what [Layout::array] accepts. *)
Definition read_to_vec (src length : Z) : ST MemReader CopyFromProcessError (list byte) :=
  fun r =>
  if 2 ^ (usize_bits - 1) - 1 <? length then
    (Err (mkCopyError (mr_pid r) src 0 length EINVAL), r)
  else if negb (alloc_succeeds length) then
    (Err (mkCopyError (mr_pid r) src 0 length ENOMEM), r)
  else read src (Z.to_nat length) r.

(** [PtraceDumper::copy_from_process] *)
Definition copy_from_process (pid : Pid) (src length : Z) : res DumperError (list byte) :=
  if length =? 0 then
    Err (DumperError_CopyFromProcessError (mkCopyError pid src 0 length EINVAL))
  else map_err DumperError_CopyFromProcessError (read_to_vec src length (MemReader_new pid)).1.

End mem_reader.

(** ** What an access returns *)

Section reads.
Context `{TG : Target} {OS : Os} (pid : Pid) (mem : Memory) {MO : MemoryOk OS pid mem}.

Lemma vmem_mem src len bs :
  vmem pid src len = Ok bs ->
  (length bs <= len)%nat /\ mem_bytes mem src (length bs) = Some bs.
Proof.
  unfold vmem, os_res. destruct (process_vm_readv _ _ _) eqn:E; intros; simplify_eq.
  by apply vm_readv_ok in E.
Qed.

Lemma file_mem src len bs : file pid src len = Ok bs -> mem_bytes mem src len = Some bs.
Proof.
  unfold file, os_res. destruct (read_exact_at _ _ _) eqn:E; simpl; intros; simplify_eq.
  by apply read_exact_ok in E.
Qed.

(** The addresses of a block that ends inside the address space do not wrap. *)
Lemma word_address src (off : Z) {E} :
  0 <= src -> 0 <= off -> src + off < 2 ^ usize_bits ->
  add_u (E := E) usize_bits src off = Ok (src + off).
Proof. intros. unfold add_u. apply checked_fits. unfold in_bits. lia. Qed.

Lemma ptrace_words_mem src n : forall k bs,
  0 <= src -> src + Z.of_nat (k + n * size_of_usize) <= 2 ^ usize_bits ->
  ptrace_words pid src (Z.of_nat k) n = Ok bs ->
  mem_bytes mem (src + Z.of_nat k) (n * size_of_usize) = Some bs.
Proof.
  pose proof size_of_usize_pos.
  induction n as [|n IH]; intros k bs Hsrc Hend; cbn [ptrace_words Nat.mul].
  - intros [= <-]. done.
  - rewrite word_address by lia. cbn [mbind res_bind].
    unfold os_res. destruct (ptrace_read _ _) as [|w] eqn:E; [done|].
    cbn [mbind res_bind map_err]. apply ptrace_read_ok in E.
    replace (Z.of_nat k + Z.of_nat size_of_usize) with (Z.of_nat (k + size_of_usize)) by lia.
    destruct (ptrace_words _ _ _ n) as [rest| |] eqn:Er; cbn [mbind res_bind]; try done.
    intros [= <-]. apply mem_bytes_app; [done|]. apply IH in Er; [|lia..].
    rewrite <- Er. f_equal. lia.
Qed.

Lemma ptrace_mem src len bs :
  0 <= src -> src + Z.of_nat len <= 2 ^ usize_bits ->
  ptrace pid src len = Ok bs -> mem_bytes mem src len = Some bs.
Proof.
  intros Hsrc Hend. pose proof size_of_usize_pos as Hw. unfold ptrace.
  pose proof (Nat.div_mod len size_of_usize ltac:(lia)) as Hdm.
  pose proof (Nat.mod_upper_bound len size_of_usize ltac:(lia)) as Hmb.
  set (q := (len / size_of_usize)%nat) in *. set (m := (len mod size_of_usize)%nat) in *.
  destruct (ptrace_words _ _ _ q) as [cs| |] eqn:Ec; cbn [mbind res_bind]; try done.
  apply (ptrace_words_mem src q 0) in Ec; [|lia..].
  rewrite Z.add_0_r in Ec.
  destruct (Nat.ltb_spec 0 m).
  - rewrite word_address by lia. cbn [mbind res_bind]. unfold os_res.
    destruct (ptrace_read _ _) as [|w] eqn:E; [done|]. cbn [mbind res_bind map_err].
    intros [= <-]. apply ptrace_read_ok in E.
    replace len with (q * size_of_usize + m)%nat by lia.
    apply mem_bytes_app; [done|]. apply (mem_bytes_take _ _ size_of_usize); [lia|done].
  - intros [= <-]. rewrite <- Ec. f_equal. lia.
Qed.

(** A reader whose file handle, if any, is for its own process. *)
Definition reader_ok (r : MemReader) : Prop :=
  mr_pid r = pid /\ forall h, style r = Some (File h) -> h = pid.

Lemma read_mem src len r bs r' :
  reader_ok r -> 0 <= src -> src + Z.of_nat len <= 2 ^ usize_bits ->
  read src len r = (Ok bs, r') ->
  (length bs <= len)%nat /\ mem_bytes mem src (length bs) = Some bs /\
  (style r' <> Some VirtualMem -> length bs = len) /\ reader_ok r'.
Proof.
  intros [Hp Hf] Hsrc Hend.
  assert (Hall : forall cs, mem_bytes mem src len = Some cs ->
            (length cs <= len)%nat /\ mem_bytes mem src (length cs) = Some cs /\
            length cs = len).
  { intros cs Hcs. apply mem_bytes_length in Hcs as Hl. rewrite Hl. auto. }
  unfold read. rewrite Hp.
  destruct (style r) as [rs|] eqn:Hs.
  - intros [= Hm <-].
    destruct rs as [|h| |v f p]; cbn [read_with] in Hm; rewrite ?Hs.
    + destruct (vmem _ _ _) eqn:E; simpl in Hm; simplify_eq.
      apply vmem_mem in E as [? ?]. repeat split; [done..| congruence].
    + specialize (Hf h eq_refl). subst h.
      destruct (file _ _ _) eqn:E; simpl in Hm; simplify_eq.
      apply file_mem, Hall in E as (? & ? & ?).
      repeat split; [done..|]. intros h. congruence.
    + destruct (ptrace _ _ _) eqn:E; simpl in Hm; simplify_eq.
      apply ptrace_mem, Hall in E as (? & ? & ?); [|done..].
      repeat split; [done..|]. intros h. congruence.
    + done.
  - unfold reader_ok, set_style. destruct (vmem _ _ _) as [b1|e1|] eqn:E1.
    + intros [= <- <-]. apply vmem_mem in E1 as [? ?]. repeat split; simpl; congruence.
    + destruct (match open_mem pid with inr _ => _ | inl _ => _ end) as [b2|e2|] eqn:E2.
      * intros [= <- <-]. destruct (open_mem pid) as [err|].
        { by destruct (raw_os_error err). }
        apply file_mem, Hall in E2 as (? & ? & ?). repeat split; simpl; congruence.
      * destruct (ptrace _ _ _) as [b3|[e3 o3]|] eqn:E3; try done.
        intros [= <- <-]. apply ptrace_mem, Hall in E3 as (? & ? & ?); [|done..].
        repeat split; simpl; congruence.
      * done.
    + done.
Qed.

Lemma copy_from_process_mem src length bs :
  0 <= src -> 0 <= length -> src + length <= 2 ^ usize_bits ->
  copy_from_process pid src length = Ok bs ->
  length <> 0 /\ (Z.of_nat (List.length bs) <= length) /\
  mem_bytes mem src (List.length bs) = Some bs.
Proof.
  intros Hsrc Hl Hend. unfold copy_from_process.
  destruct (Z.eqb_spec length 0) as [->|Hz]; [done|].
  unfold read_to_vec. case_match; [done|]. case_match; [done|].
  destruct (read src (Z.to_nat length) _) as [[b| |] r'] eqn:E; simpl; try done.
  intros [= <-]. apply read_mem in E as (? & ? & _); [|by split|lia..].
  split; [done|]. split; [lia|done].
Qed.

End reads.

(** A block that is mapped is copied whole. *)
Lemma copy_mapped `{TG : Target} {OS : Os} pid mem `{!MemoryMapped OS pid mem} src len bs :
  0 < len < 2 ^ (usize_bits - 1) -> mem_bytes mem src (Z.to_nat len) = Some bs ->
  copy_from_process pid src len = Ok bs.
Proof.
  intros Hlen Hm. unfold copy_from_process, read_to_vec.
  destruct (Z.eqb_spec len 0); [lia|]. destruct (Z.ltb_spec (2 ^ (usize_bits - 1) - 1) len); [lia|].
  pose proof (alloc_mapped src (Z.to_nat len) bs ltac:(lia) Hm) as Ha.
  rewrite Z2Nat.id in Ha by lia. rewrite Ha. cbn [negb]. unfold read. cbn [style mr_pid MemReader_new].
  unfold vmem. by rewrite (vm_readv_mapped src (Z.to_nat len) bs ltac:(lia) Hm).
Qed.

(** ** Properties *)

(** C26: every way of reading agrees with the memory of the process.  A
    successful [MemReader::read] returns a prefix of the bytes mapped at the
    source address; only [process_vm_readv] may return fewer bytes than asked
    for, and the reader stays attached to its process. *)
Theorem read_refines_memory `{TG : Target} (OS : Os) (pid : Pid) (mem : Memory)
    (MO : MemoryOk OS pid mem) (src : Z) (len : nat) (r r' : MemReader) (bs : list byte) :
  reader_ok pid r -> 0 <= src -> src + Z.of_nat len <= 2 ^ usize_bits ->
  read src len r = (Ok bs, r') ->
  (length bs <= len)%nat /\ mem_bytes mem src (length bs) = Some bs /\
  (style r' <> Some VirtualMem -> length bs = len) /\ reader_ok pid r'.
Proof. apply read_mem; done. Qed.

(** A process with sixteen readable bytes at 4096. *)
Definition toy_mem : Memory := fun a =>
  if (4096 <=? a) && (a <? 4112) then Some (byte.of_Z (a mod 256)) else None.

Lemma read_refines_memory_witness :
  exists bs r', read (H := x64_release) (OS := toy_os toy_mem) 4100 4 (MemReader_new 7)
    = (Ok bs, r') /\ mem_bytes toy_mem 4100 (length bs) = Some bs.
Proof.
  pose (run := read (H := x64_release) (OS := toy_os toy_mem) 4100 4 (MemReader_new 7)).
  assert (Hrun : run = (Ok (byte.of_Z <$> [4; 5; 6; 7]), for_virtual_mem 7))
    by (vm_compute; reflexivity).
  exists (byte.of_Z <$> [4; 5; 6; 7]), (for_virtual_mem 7). split; [exact Hrun|].
  refine (proj1 (proj2 (@read_refines_memory x64_release (toy_os toy_mem) 7 toy_mem
    (@toy_memory_ok toy_mem x64_release 7) 4100 4 (MemReader_new 7) (for_virtual_mem 7) _
    _ _ _ Hrun))); [split; [reflexivity|discriminate] | lia | vm_compute; discriminate].
Defined.

(** The styles a reader can be in after it has probed. *)
Definition probed (r : MemReader) : Prop := style r <> None.

(** The probe happens once.  After any access that returns, the reader has
    a style and no later access changes it; after a failed probe every access
    fails at once with the error of the last method tried. *)
Theorem read_probes_once `{TG : Target} (OS : Os) (src src' : Z) (len len' : nat)
    (r : MemReader) :
  (read src len r).1 <> Panic ->
  probed (read src len r).2 /\
  (read src' len' (read src len r).2).2 = (read src len r).2 /\
  (forall e, style r = None -> (read src len r).1 = Err e ->
   (read src' len' (read src len r).2).1 =
     Err (mkCopyError (mr_pid r) src' 0 (Z.of_nat len') (source e))).
Proof.
  intros Hp. unfold probed.
  assert (Hst : forall r0, style r0 <> None -> (read src' len' r0).2 = r0).
  { intros r0 H0. unfold read. by destruct (style r0). }
  assert (Hprobed : style (read src len r).2 <> None).
  { unfold read in Hp |- *. destruct (style r) eqn:Hs; simpl; [congruence|].
    repeat (case_match; simpl in *; try done). }
  split_and!; [done| by apply Hst |].
  intros e Hs He. unfold read in He. unfold read at 2. rewrite Hs in *.
  repeat (case_match; simpl in *; simplify_eq; try done).
Qed.

Lemma read_probes_once_witness :
  let r := (read (H := x64_release) (OS := toy_os toy_mem) 0 4 (MemReader_new 7)).2 in
  probed r /\
  (read (H := x64_release) (OS := toy_os toy_mem) 4096 4 r).1
    = Err (mkCopyError 7 4096 0 4 ESRCH).
Proof.
  pose proof (@read_probes_once x64_release (toy_os toy_mem) 0 4096 4 4 (MemReader_new 7)) as Hr.
  destruct Hr as (Hp & _ & He); [vm_compute; discriminate|].
  split; [exact Hp|].
  exact (He (mkCopyError 7 0 0 4 ESRCH) eq_refl ltac:(vm_compute; reflexivity)).
Defined.
