(* ===== verification/ModuleReader.v ===== *)
(** * Reading names and build ids out of ELF modules (src/src/linux/module_reader.rs)

    A module is a slice of bytes (a mapped file) or a region of another
    process.  The ELF records come from the crate goblin; its parsers are the
    interface [Goblin].  Offsets and lengths are the source's [u64]. *)
From Stdlib Require Import ZArith Lia String.
From S2P Require Import Prelude RustStr Errors Os MemReader.

Local Open Scope Z_scope.

(** ** goblin *)

Record ElfHeader := mkElfHeader {
  e_ident : list byte;
  e_phoff : Z; e_phentsize : Z; e_phnum : Z;
  e_shoff : Z; e_shentsize : Z; e_shnum : Z; e_shstrndx : Z;
}.

Record ProgramHeader := mkProgramHeader {
  p_type : Z; p_offset : Z; p_vaddr : Z; p_filesz : Z; p_memsz : Z; p_align : Z;
}.

Record SectionHeader := mkSectionHeader {
  sh_name : Z; sh_type : Z; sh_flags : Z; sh_addr : Z; sh_offset : Z; sh_size : Z;
  sh_link : Z; sh_addralign : Z;
}.

Record Dyn := mkDyn { d_tag : Z; d_val : Z }.

Record Note := mkNote { note_name : RString; n_type : Z; desc : list byte }.

(** Constants of the ELF format. *)
Definition PT_LOAD : Z := 1.
Definition PT_DYNAMIC : Z := 2.
Definition PT_NOTE : Z := 4.
Definition SHT_PROGBITS : Z := 1.
Definition SHT_STRTAB : Z := 3.
Definition SHT_DYNAMIC : Z := 6.
Definition SHF_ALLOC : Z := 2.
Definition SHF_EXECINSTR : Z := 4.
Definition DT_NULL : Z := 0.
Definition DT_STRTAB : Z := 5.
Definition DT_STRSZ : Z := 10.
Definition DT_SONAME : Z := 14.
Definition DT_DEBUG : Z := 21.
Definition NT_GNU_BUILD_ID : Z := 3.
Definition SELFMAG : Z := 4.

(** The parsers the sources call.  [gread_dyn data off ctx] is
    [data.gread_with(&mut off, ctx)] and returns the advanced offset;
    [note_iter data size align ctx] lists the items of [NoteDataIterator] from
    offset 0, [None] for an item that is an error. *)
Class Goblin := {
  ElfCtx : Type;
  header_size_big : Z;
  parse_header : list byte -> ForeignError + ElfHeader;
  (** [header.container()?] and [header.endianness()?] *)
  header_ctx : ElfHeader -> ForeignError + ElfCtx;
  parse_program_headers : list byte -> Z -> ElfCtx -> ForeignError + list ProgramHeader;
  parse_section_headers : list byte -> Z -> ElfCtx -> ForeignError + list SectionHeader;
  gread_dyn : list byte -> nat -> ElfCtx -> ForeignError + (Dyn * nat);
  note_iter : list byte -> Z -> Z -> ElfCtx -> list (option Note);
  (** The native program headers, [ProgramHeader::from_bytes], and the in-memory
      representation of [goblin::elf::Dyn]; [None] when the bytes are too few. *)
  SIZEOF_PHDR : Z;
  phdrs_from_bytes : list byte -> Z -> option (list ProgramHeader);
  size_of_Dyn : Z;
  dyn_from_raw : list byte -> option Dyn;
}.

(** What the loop over a dynamic section relies on: a successful read moves
    the offset forward, inside the data. *)
Class GoblinOk (G : Goblin) : Prop :=
  gread_dyn_progress : forall data off ctx d off',
    gread_dyn data off ctx = inr (d, off') -> (off < off' <= List.length data)%nat.

(** ** ProcessMemory *)

Definition NOTE_SECTION_NAME : list byte := bytes_of ".note.gnu.build-id" ++ [Byte.x00].
Definition DYNSTR_NAME : list byte := bytes_of ".dynstr" ++ [Byte.x00].

Record ProcessReader := mkProcessReader {
  pr_inner : MemReader;
  pr_start_address : Z;
}.

Definition ProcessReader_new (pid : Pid) (start_address : Z) : ProcessReader :=
  mkProcessReader (MemReader_new pid) start_address.

Inductive ProcessMemory :=
  | Slice (s : list byte)
  | Process (pr : ProcessReader).

Definition is_process_memory (m : ProcessMemory) : bool :=
  match m with Process _ => true | Slice _ => false end.

Definition absolute (m : ProcessMemory) (addr : Z) : Z :=
  match m with
  | Slice _ => addr
  | Process pr => if pr_start_address pr <=? addr then addr - pr_start_address pr else addr
  end.

Definition checked_add64 (a b : Z) : option Z := if a + b <? 2 ^ 64 then Some (a + b) else None.

Section process_memory.
Context `{Target} {OS : Os}.

Definition pm_read (offset length : Z) : ST ProcessMemory ModuleReaderError (list byte) :=
  fun m =>
  let error start e := ModuleReaderError_ReadModuleMemory offset length start e in
  match m with
  | Process pr =>
      let error := error (Some (pr_start_address pr)) in
      if wrap usize_bits length =? 0 then (Err (error EINVAL), m)
      else match checked_add64 (pr_start_address pr) offset with
           | None => (Err (error EOVERFLOW), m)
           | Some proc_offset =>
               let '(r, inner) := read_to_vec (wrap usize_bits proc_offset)
                                    (wrap usize_bits length) (pr_inner pr) in
               (map_err (fun err => error (source err)) r,
                Process (mkProcessReader inner (pr_start_address pr)))
           end
  | Slice s =>
      let error := error None in
      (match checked_add64 offset length with
       | None => Err (error EOVERFLOW)
       | Some e => ok_or (slice (Z.to_nat (wrap usize_bits offset))
                            (Z.to_nat (wrap usize_bits e)) s) (error EACCES)
       end, m)
  end.

Definition is_executable_section (header : SectionHeader) : bool :=
  (sh_type header =? SHT_PROGBITS) &&
  negb (Z.land (sh_flags header) SHF_ALLOC =? 0) &&
  negb (Z.land (sh_flags header) SHF_EXECINSTR =? 0).

(** [data.chunks(n)]: the last chunk may be shorter. *)
Definition chunks (n : nat) (data : list byte) : list (list byte) :=
  let '(cs, r) := chunks_exact n data in
  match r with [] => cs | _ => cs ++ [r] end.

Definition byte_xor (a b : byte) : byte := byte.of_Z (Z.lxor (byte.unsigned a) (byte.unsigned b)).

(** [bytes.iter_mut().zip(chunk).for_each(|(b, c)| *b ^= *c)] *)
Fixpoint xor_into (bytes chunk : list byte) : list byte :=
  match bytes, chunk with
  | b :: bytes', c :: chunk' => byte_xor b c :: xor_into bytes' chunk'
  | _, _ => bytes
  end.

(** [size_of::<GUID>()] *)
Definition guid_size : nat := 16.

Definition build_id_from_bytes (data : list byte) : list byte :=
  fold_left xor_into (chunks guid_size data) (replicate guid_size Byte.x00).

(** The loop of [section_header_with_name] over the headers. *)
Fixpoint find_section_name (strtab : SectionHeader) (name : list byte)
    (headers : list SectionHeader)
    : ST ProcessMemory ModuleReaderError (option SectionHeader) :=
  match headers with
  | [] => mret None
  | header :: rest =>
      let len := Z.of_nat (List.length name) in
      if sh_size strtab <=? sh_name header then find_section_name strtab name rest
      else
        e ← st_lift (add_u 64 (sh_name header) len);
        if sh_size strtab <=? e then find_section_name strtab name rest
        else
          off ← st_lift (add_u 64 (sh_offset strtab) (sh_name header));
          n ← pm_read off len;
          if bool_decide (name = n) then mret (Some header)
          else find_section_name strtab name rest
  end.

Definition section_header_with_name (section_headers : list SectionHeader)
    (strtab_index : Z) (name : list byte)
    : ST ProcessMemory ModuleReaderError (option SectionHeader) :=
  strtab_section_header ← st_lift (ok_or
    (hdr ← section_headers !! Z.to_nat strtab_index;
     if sh_type hdr =? SHT_STRTAB then Some hdr else None) ModuleReaderError_NoStrTab);
  find_section_name strtab_section_header name section_headers.

End process_memory.

(** ** ModuleReader *)

Record ModuleReader `{Goblin} := mkModuleReader {
  module_memory : ProcessMemory;
  header : ElfHeader;
  context : ElfCtx;
}.

Section module_reader.
Context `{Target} {OS : Os} {G : Goblin}.

Notation M := (ST ModuleReader ModuleReaderError).

Definition set_module_memory (m : ProcessMemory) (r : ModuleReader) : ModuleReader :=
  mkModuleReader _ m (header r) (context r).

Definition on_memory {A} (m : ST ProcessMemory ModuleReaderError A) : M A :=
  st_zoom module_memory set_module_memory m.

Definition parsed {A} (r : ForeignError + A) : res ModuleReaderError A :=
  map_err ModuleReaderError_Parsing (os_res r).

Definition ModuleReader_new (memory : ProcessMemory) : res ModuleReaderError ModuleReader :=
  let '(r, memory') := pm_read 0 header_size_big memory in
  header_data ← r;
  header ← parsed (parse_header header_data);
  context ← parsed (header_ctx header);
  Ok (mkModuleReader _ memory' header context).

(** [DynIter]: one step gives the end, an error or an entry. *)
Definition DynIter_next (data : list byte) (offset : nat) (ctx : ElfCtx)
    : option (res ModuleReaderError (Dyn * nat)) :=
  match gread_dyn data offset ctx with
  | inl e => Some (Err (ModuleReaderError_Parsing e))
  | inr (dyn, offset') => if d_tag dyn =? DT_NULL then None else Some (Ok (dyn, offset'))
  end.

(** [for dyn_ in DynIter::new(data, ctx) { let dyn_ = dyn_?; body }] where the
    body updates [acc] or returns early (on the left). *)
Fixpoint dyn_loop {R Acc} (fuel : nat) (data : list byte) (offset : nat) (ctx : ElfCtx)
    (body : Acc -> Dyn -> R + Acc) (acc : Acc) : option (res ModuleReaderError (R + Acc)) :=
  match fuel with
  | O => None
  | S fuel' =>
      match DynIter_next data offset ctx with
      | None => Some (Ok (inr acc))
      | Some (Err e) => Some (Err e)
      | Some Panic => Some Panic
      | Some (Ok (dyn, offset')) =>
          match body acc dyn with
          | inl r => Some (Ok (inl r))
          | inr acc' => dyn_loop fuel' data offset' ctx body acc'
          end
      end
  end.

(** Every step of the loop consumes at least one byte. *)
Definition for_dyn {R Acc} (data : list byte) (ctx : ElfCtx)
    (body : Acc -> Dyn -> R + Acc) (acc : Acc) : res ModuleReaderError (R + Acc) :=
  match dyn_loop (S (List.length data)) data 0 ctx body acc with
  | Some r => r
  | None => Panic
  end.

Definition read_segment (h : ProgramHeader) : M (list byte) :=
  r ← st_get;
  let '(offset, size) :=
    if is_process_memory (module_memory r) then (p_vaddr h, p_memsz h)
    else (p_offset h, p_filesz h) in
  on_memory (pm_read offset size).

Definition until_nul (l : list byte) : option (list byte) :=
  i ← find_idx (fun b => bool_decide (b = Byte.x00)) l; Some (take i l).

Definition read_name_from_strtab (strtab_offset strtab_size name_offset : Z) : M RString :=
  _ ← st_lift (if name_offset <? strtab_size then Ok tt else Panic);
  off ← st_lift (add_u 64 strtab_offset name_offset);
  len ← st_lift (sub_u 64 strtab_size name_offset);
  name ← on_memory (pm_read off len);
  st_lift (ok_or (to_string_lossy <$> until_nul name) ModuleReaderError_StrTabNoNulByte).

Definition section_offset (r : ModuleReader) (h : SectionHeader) : Z :=
  if is_process_memory (module_memory r) then sh_addr h else sh_offset h.

Definition read_program_headers : M (list ProgramHeader) :=
  r ← st_get;
  let h := header r in
  if e_phoff h =? 0 then st_lift (Err ModuleReaderError_NoProgramHeaders) else
  data ← on_memory (pm_read (e_phoff h) (e_phentsize h * e_phnum h));
  st_lift (parsed (parse_program_headers data (e_phnum h) (context r))).

Definition read_section_headers : M (list SectionHeader) :=
  r ← st_get;
  let h := header r in
  if e_shoff h =? 0 then st_lift (Err ModuleReaderError_NoSections) else
  data ← on_memory (pm_read (e_shoff h) (e_shentsize h * e_shnum h));
  st_lift (parsed (parse_section_headers data (e_shnum h) (context r))).

Definition is_build_id_note (note : Note) : bool :=
  bool_decide (note_name note = str_of "GNU") && (n_type note =? NT_GNU_BUILD_ID).

Fixpoint scan_notes (notes : list (option Note)) : option (list byte) :=
  match notes with
  | [] => None
  | None :: _ => None
  | Some note :: rest => if is_build_id_note note then Some (desc note) else scan_notes rest
  end.

Definition find_build_id_note (offset size alignment : Z) : M (option (list byte)) :=
  r ← st_get;
  notes ← on_memory (pm_read offset size);
  mret (scan_notes (note_iter notes (wrap usize_bits size) (wrap usize_bits alignment)
                      (context r))).

(** [d_tag] of the last entry wins for each of the three. *)
Definition soname_dyn_body (acc : option Z * option Z * option Z) (dyn : Dyn)
    : unit + option Z * option Z * option Z :=
  let '(strtab_addr, strtab_size, soname) := acc in
  if d_tag dyn =? DT_SONAME then inr (strtab_addr, strtab_size, Some (d_val dyn))
  else if d_tag dyn =? DT_STRTAB then inr (Some (d_val dyn), strtab_size, soname)
  else if d_tag dyn =? DT_STRSZ then inr (strtab_addr, Some (d_val dyn), soname)
  else inr acc.

Definition soname_from_program_headers : M RString :=
  program_headers ← read_program_headers;
  dynamic_segment_header ← st_lift (ok_or
    (snd <$> list_find (fun h => p_type h = PT_DYNAMIC) program_headers)
    ModuleReaderError_NoDynamicSection);
  dynamic_section ← read_segment dynamic_segment_header;
  r ← st_get;
  found ← st_lift (for_dyn dynamic_section (context r) soname_dyn_body (None, None, None));
  match found with
  | inl _ => st_lift Panic
  | inr (strtab_addr, strtab_size, soname_strtab_offset) =>
      match strtab_addr, strtab_size, soname_strtab_offset with
      | None, _, _ | _, None, _ => st_lift (Err ModuleReaderError_NoDynStrSection)
      | _, _, None => st_lift (Err ModuleReaderError_NoSoNameEntry)
      | Some addr, Some size, Some offset =>
          if offset <? size then
            read_name_from_strtab (absolute (module_memory r) addr) size offset
          else st_lift (Err ModuleReaderError_NoSoNameEntry)
      end
  end.

(** The first [DT_SONAME] entry whose offset lies in the string table. *)
Definition soname_section_body (dynstr : SectionHeader) (acc : unit) (dyn : Dyn) : Z + unit :=
  if (d_tag dyn =? DT_SONAME) && (d_val dyn <? sh_size dynstr)
  then inl (d_val dyn) else inr tt.

Definition soname_from_sections : M RString :=
  section_headers ← read_section_headers;
  dynamic_section_header ← st_lift (ok_or
    (snd <$> list_find (fun h => sh_type h = SHT_DYNAMIC) section_headers)
    ModuleReaderError_NoDynamicSection);
  r ← st_get;
  let by_name :=
    found ← on_memory (section_header_with_name section_headers (e_shstrndx (header r))
                         DYNSTR_NAME);
    st_lift (ok_or found ModuleReaderError_NoDynStrSection) in
  dynstr_section_header ←
    match section_headers !! Z.to_nat (sh_link dynamic_section_header) with
    | Some h => if sh_type h =? SHT_STRTAB then mret h else by_name
    | None => by_name
    end;
  dynamic_section ← on_memory (pm_read (section_offset r dynamic_section_header)
                                 (sh_size dynamic_section_header));
  found ← st_lift (for_dyn dynamic_section (context r)
                     (soname_section_body dynstr_section_header) tt);
  match found with
  | inl name_offset =>
      read_name_from_strtab (section_offset r dynstr_section_header)
        (sh_size dynstr_section_header) name_offset
  | inr _ => st_lift (Err ModuleReaderError_NoSoNameEntry)
  end.

Fixpoint note_headers_loop (headers : list ProgramHeader) : M (list byte) :=
  match headers with
  | [] => st_lift (Err ModuleReaderError_NoProgramHeaderNote)
  | h :: rest =>
      if negb (p_type h =? PT_NOTE) then note_headers_loop rest
      else
        found ← st_try (find_build_id_note (p_offset h) (p_filesz h) (p_align h));
        match found with
        | inr (Some result) => mret result
        | _ => note_headers_loop rest
        end
  end.

Definition build_id_from_program_headers : M (list byte) :=
  program_headers ← read_program_headers;
  note_headers_loop program_headers.

Definition build_id_from_section : M (list byte) :=
  section_headers ← read_section_headers;
  r ← st_get;
  found ← on_memory (section_header_with_name section_headers (e_shstrndx (header r))
                       NOTE_SECTION_NAME);
  h ← st_lift (ok_or found ModuleReaderError_NoSectionNote);
  note ← find_build_id_note (sh_offset h) (sh_size h) (sh_addralign h);
  st_lift (ok_or note ModuleReaderError_NoSectionNote).

Definition build_id_generate_from_text : M (list byte) :=
  section_headers ← read_section_headers;
  match list_find (fun h => is_executable_section h = true) section_headers with
  | None => st_lift (Err ModuleReaderError_NoTextSection)
  | Some (_, text_header) =>
      let len := Z.min 4096 (sh_size text_header) in
      text_data ← on_memory (pm_read (sh_offset text_header) len);
      mret (build_id_from_bytes text_data)
  end.

(** [BuildId::read_from_module] *)
Definition BuildId_read_from_module (memory : ProcessMemory)
    : res ModuleReaderError (list byte) :=
  reader ← ModuleReader_new memory;
  fst ((a ← st_try build_id_from_program_headers;
   match a with
   | inr v => mret v
   | inl program_headers =>
       b ← st_try build_id_from_section;
       match b with
       | inr v => mret v
       | inl section =>
           c ← st_try build_id_generate_from_text;
           match c with
           | inr v => mret v
           | inl generated =>
               st_lift (Err (ModuleReaderError_NoBuildId program_headers section generated))
           end
       end
   end : M (list byte)) reader).

(** [SoName::read_from_module] *)
Definition SoName_read_from_module (memory : ProcessMemory)
    : res ModuleReaderError RString :=
  reader ← ModuleReader_new memory;
  fst ((a ← st_try soname_from_program_headers;
   match a with
   | inr v => mret v
   | inl program_headers =>
       b ← st_try soname_from_sections;
       match b with
       | inr v => mret v
       | inl section => st_lift (Err (ModuleReaderError_NoSoName program_headers section))
       end
   end : M RString) reader).

(** [ReadFromModule::read_from_file], over the reader of the type. *)
Definition read_from_file {T} (read_from_module : ProcessMemory -> res ModuleReaderError T)
    (path : OsString) : res ModuleReaderError T :=
  map ← map_err (fun error => ModuleReaderError_MapFile path error)
          (os_res (fs_mmap path 0));
  read_from_module (Slice map).

End module_reader.
