(* ===== verification/ElfLayout.v ===== *)
(** * A concrete ELF64 reader for the goblin interface

    Little-endian 64-bit records, enough to instantiate [Goblin] in witnesses;
    with it the module that the tests of src/src/linux/module_reader.rs embed
    (TINY_ELF) gives the values those tests expect. *)
From Stdlib Require Import ZArith Lia String.
From S2P Require Import Prelude RustStr Layout Errors Os MemReader ModuleReader.

Local Open Scope Z_scope.

Definition field (off n : nat) (l : list byte) : Z := le_combine (bytes_at off n l).

Definition elf64_header (l : list byte) : ForeignError + ElfHeader :=
  if bool_decide (64 <= List.length l)%nat && bool_decide (take 4 l = byte.of_Z <$> [127; 69; 76; 70])
  then inr {| e_ident := take 16 l; e_phoff := field 32 8 l; e_phentsize := field 54 2 l;
              e_phnum := field 56 2 l; e_shoff := field 40 8 l; e_shentsize := field 58 2 l;
              e_shnum := field 60 2 l; e_shstrndx := field 62 2 l |}
  else inl (mkForeignError 1).

Definition elf64_ph (l : list byte) : ProgramHeader :=
  {| p_type := field 0 4 l; p_offset := field 8 8 l; p_vaddr := field 16 8 l;
     p_filesz := field 32 8 l; p_memsz := field 40 8 l; p_align := field 48 8 l |}.

Definition elf64_sh (l : list byte) : SectionHeader :=
  {| sh_name := field 0 4 l; sh_type := field 4 4 l; sh_flags := field 8 8 l;
     sh_addr := field 16 8 l; sh_offset := field 24 8 l; sh_size := field 32 8 l;
     sh_link := field 40 4 l; sh_addralign := field 48 8 l |}.

Definition elf64_table {T} (size : nat) (f : list byte -> T) (l : list byte) (n : Z)
    : ForeignError + list T :=
  let cs := (chunks_exact size l).1 in
  if Z.of_nat (List.length cs) <? n then inl (mkForeignError 2)
  else inr (f <$> take (Z.to_nat n) cs).

Definition elf64_dyn (l : list byte) (off : nat) : ForeignError + (Dyn * nat) :=
  if decide (off + 16 <= List.length l)%nat
  then inr (mkDyn (field off 8 l) (field (off + 8) 8 l), off + 16)%nat
  else inl (mkForeignError 3).

Definition align_up (a n : nat) : nat := ((n + a - 1) / a * a)%nat.

Fixpoint elf64_notes (fuel : nat) (align : nat) (l : list byte) : list (option Note) :=
  match fuel with
  | O => []
  | S fuel' =>
      if decide (List.length l < 12)%nat then []
      else
        let namesz := Z.to_nat (field 0 4 l) in
        let descsz := Z.to_nat (field 4 4 l) in
        let d := align_up align (12 + namesz) in
        [Some (mkNote (byte.unsigned <$> bytes_at 12 (namesz - 1) l) (field 8 4 l)
                 (bytes_at d descsz l))] ++
        elf64_notes fuel' align (drop (align_up align (d + descsz)) l)
  end.

Definition elf64 : Goblin := {|
  ElfCtx := unit;
  header_size_big := 64;
  parse_header := elf64_header;
  header_ctx _ := inr tt;
  parse_program_headers l n _ := elf64_table 56 elf64_ph l n;
  parse_section_headers l n _ := elf64_table 64 elf64_sh l n;
  gread_dyn l off _ := elf64_dyn l off;
  note_iter l size align _ :=
    elf64_notes (List.length l) (Nat.max 4 (Z.to_nat align)) (take (Z.to_nat size) l);
  SIZEOF_PHDR := 56;
  phdrs_from_bytes l n :=
    match elf64_table 56 elf64_ph l n with inl _ => None | inr hs => Some hs end;
  size_of_Dyn := 16;
  dyn_from_raw l := match elf64_dyn l 0 with inl _ => None | inr (d, _) => Some d end;
|}.

Lemma elf64_ok : GoblinOk elf64.
Proof.
  intros data off ctx d off'. simpl. unfold elf64_dyn. case_decide; [|done].
  intros [= <- <-]. lia.
Qed.

(** The module embedded in the tests. *)
Definition TINY_ELF : list byte := byte.of_Z <$> [
  127; 69; 76; 70; 2; 1; 1; 0; 0; 0; 0; 0; 0; 0; 0; 0; 2; 0; 62; 0; 1; 0; 0; 0;
  10; 3; 64; 0; 0; 0; 0; 0; 64; 0; 0; 0; 0; 0; 0; 0; 232; 0; 0; 0; 0; 0; 0; 0;
  0; 0; 0; 0; 64; 0; 56; 0; 3; 0; 64; 0; 6; 0; 3; 0; 1; 0; 0; 0; 7; 0; 0; 0;
  10; 3; 0; 0; 0; 0; 0; 0; 10; 3; 64; 0; 0; 0; 0; 0; 0; 0; 0; 0; 0; 0; 0; 0;
  7; 0; 0; 0; 0; 0; 0; 0; 7; 0; 0; 0; 0; 0; 0; 0; 0; 16; 0; 0; 0; 0; 0; 0;
  4; 0; 0; 0; 0; 0; 0; 0; 104; 2; 0; 0; 0; 0; 0; 0; 104; 2; 64; 0; 0; 0; 0; 0;
  0; 0; 0; 0; 0; 0; 0; 0; 32; 0; 0; 0; 0; 0; 0; 0; 32; 0; 0; 0; 0; 0; 0; 0;
  4; 0; 0; 0; 0; 0; 0; 0; 2; 0; 0; 0; 0; 0; 0; 0; 189; 2; 0; 0; 0; 0; 0; 0;
  189; 2; 64; 0; 0; 0; 0; 0; 0; 0; 0; 0; 0; 0; 0; 0; 64; 0; 0; 0; 0; 0; 0; 0;
  64; 0; 0; 0; 0; 0; 0; 0; 4; 0; 0; 0; 0; 0; 0; 0; 0; 0; 0; 0; 0; 0; 0; 0;
  0; 0; 0; 0; 0; 0; 0; 0; 0; 0; 0; 0; 0; 0; 0; 0; 0; 0; 0; 0; 0; 0; 0; 0;
  0; 0; 0; 0; 0; 0; 0; 0; 0; 0; 0; 0; 0; 0; 0; 0; 0; 0; 0; 0; 0; 0; 0; 0;
  0; 0; 0; 0; 0; 0; 0; 0; 1; 0; 0; 0; 1; 0; 0; 0; 6; 0; 0; 0; 0; 0; 0; 0;
  10; 3; 64; 0; 0; 0; 0; 0; 10; 3; 0; 0; 0; 0; 0; 0; 7; 0; 0; 0; 0; 0; 0; 0;
  0; 0; 0; 0; 0; 0; 0; 0; 0; 16; 0; 0; 0; 0; 0; 0; 0; 0; 0; 0; 0; 0; 0; 0;
  7; 0; 0; 0; 7; 0; 0; 0; 0; 0; 0; 0; 0; 0; 0; 0; 104; 2; 64; 0; 0; 0; 0; 0;
  104; 2; 0; 0; 0; 0; 0; 0; 32; 0; 0; 0; 0; 0; 0; 0; 0; 0; 0; 0; 0; 0; 0; 0;
  4; 0; 0; 0; 0; 0; 0; 0; 0; 0; 0; 0; 0; 0; 0; 0; 26; 0; 0; 0; 3; 0; 0; 0;
  0; 0; 0; 0; 0; 0; 0; 0; 136; 2; 64; 0; 0; 0; 0; 0; 136; 2; 0; 0; 0; 0; 0; 0;
  53; 0; 0; 0; 0; 0; 0; 0; 0; 0; 0; 0; 0; 0; 0; 0; 4; 0; 0; 0; 0; 0; 0; 0;
  0; 0; 0; 0; 0; 0; 0; 0; 36; 0; 0; 0; 6; 0; 0; 0; 3; 0; 0; 0; 0; 0; 0; 0;
  189; 2; 64; 0; 0; 0; 0; 0; 189; 2; 0; 0; 0; 0; 0; 0; 64; 0; 0; 0; 0; 0; 0; 0;
  5; 0; 0; 0; 0; 0; 0; 0; 4; 0; 0; 0; 0; 0; 0; 0; 0; 0; 0; 0; 0; 0; 0; 0;
  45; 0; 0; 0; 3; 0; 0; 0; 2; 0; 0; 0; 0; 0; 0; 0; 253; 2; 64; 0; 0; 0; 0; 0;
  253; 2; 0; 0; 0; 0; 0; 0; 13; 0; 0; 0; 0; 0; 0; 0; 0; 0; 0; 0; 0; 0; 0; 0;
  4; 0; 0; 0; 0; 0; 0; 0; 0; 0; 0; 0; 0; 0; 0; 0; 4; 0; 0; 0; 16; 0; 0; 0;
  3; 0; 0; 0; 71; 78; 85; 0; 1; 2; 3; 4; 5; 6; 7; 8; 9; 10; 11; 12; 13; 14; 15; 16;
  0; 46; 116; 101; 120; 116; 0; 46; 110; 111; 116; 101; 46; 103; 110; 117; 46; 98; 117; 105; 108; 100; 45; 105;
  100; 0; 46; 115; 104; 115; 116; 114; 116; 97; 98; 0; 46; 100; 121; 110; 97; 109; 105; 99; 0; 46; 100; 121;
  110; 115; 116; 114; 0; 14; 0; 0; 0; 0; 0; 0; 0; 1; 0; 0; 0; 0; 0; 0; 0; 5; 0; 0;
  0; 0; 0; 0; 0; 253; 2; 0; 0; 0; 0; 0; 0; 10; 0; 0; 0; 0; 0; 0; 0; 13; 0; 0;
  0; 0; 0; 0; 0; 0; 0; 0; 0; 0; 0; 0; 0; 0; 0; 0; 0; 0; 0; 0; 0; 0; 108; 105;
  98; 102; 111; 111; 46; 115; 111; 46; 49; 0; 106; 60; 88; 49; 255; 15; 5].

Definition no_os : Os := toy_os (fun _ => None).

Definition run_on_tiny {A} (f : ST (ModuleReader (H := elf64)) ModuleReaderError A)
    : res ModuleReaderError A :=
  r ← ModuleReader_new (H := x64_release) (OS := no_os) (G := elf64) (Slice TINY_ELF);
  (f r).1.

Example build_id_program_headers :
  run_on_tiny (build_id_from_program_headers (H := x64_release) (OS := no_os) (G := elf64))
    = Ok (byte.of_Z <$> [1; 2; 3; 4; 5; 6; 7; 8; 9; 10; 11; 12; 13; 14; 15; 16]).
Proof. vm_compute. reflexivity. Qed.

Example build_id_section :
  run_on_tiny (build_id_from_section (H := x64_release) (OS := no_os) (G := elf64))
    = Ok (byte.of_Z <$> [1; 2; 3; 4; 5; 6; 7; 8; 9; 10; 11; 12; 13; 14; 15; 16]).
Proof. vm_compute. reflexivity. Qed.

Example build_id_text_hash :
  run_on_tiny (build_id_generate_from_text (H := x64_release) (OS := no_os) (G := elf64))
    = Ok (byte.of_Z <$> [0x6a; 0x3c; 0x58; 0x31; 0xff; 0x0f; 0x05; 0; 0; 0; 0; 0; 0; 0; 0; 0]).
Proof. vm_compute. reflexivity. Qed.

Example soname_program_headers :
  run_on_tiny (soname_from_program_headers (H := x64_release) (OS := no_os) (G := elf64))
    = Ok (str_of "libfoo.so.1").
Proof. vm_compute. reflexivity. Qed.

Example soname_section :
  run_on_tiny (soname_from_sections (H := x64_release) (OS := no_os) (G := elf64))
    = Ok (str_of "libfoo.so.1").
Proof. vm_compute. reflexivity. Qed.
