(* ===== verification/ModuleReaderSpec.v ===== *)
(** * Properties of the module reader

    Reading names and build ids is total on hostile input, a failed attempt
    leaves no trace on a mapped file, and the generated identifier is the
    position-wise exclusive or of the text. *)
From Stdlib Require Import ZArith Lia String.
From S2P Require Import Prelude RustStr Layout Errors Os MemReader ModuleReader.
From S2P Require Import ElfLayout.

Local Open Scope Z_scope.

(** ** Termination of the loop over the dynamic section *)

Section dyn.
Context `{Target} {G : Goblin} {GO : GoblinOk G}.

Lemma dyn_loop_total {R Acc} data ctx (body : Acc -> Dyn -> R + Acc) fuel : forall offset acc,
  (List.length data - offset < fuel)%nat ->
  is_Some (dyn_loop fuel data offset ctx body acc).
Proof.
  induction fuel as [|fuel IH]; intros offset acc Hf; [lia|].
  cbn [dyn_loop]. unfold DynIter_next.
  destruct (gread_dyn data offset ctx) as [e|[d o]] eqn:E; [by eexists|].
  pose proof (gread_dyn_progress _ _ _ _ _ E). destruct (d_tag d =? DT_NULL); [by eexists|].
  destruct (body acc d); [by eexists|]. apply IH. lia.
Qed.

Lemma for_dyn_safe {R Acc} data ctx (body : Acc -> Dyn -> R + Acc) acc :
  for_dyn data ctx body acc <> Panic.
Proof.
  unfold for_dyn.
  destruct (dyn_loop_total data ctx body (S (List.length data)) 0 acc) as [r Hr]; [lia|].
  rewrite Hr. intros ->. revert acc Hr. generalize (S (List.length data)) as fuel.
  generalize 0%nat as offset. intros offset fuel. revert offset.
  induction fuel as [|fuel IH]; intros offset acc; cbn [dyn_loop]; [done|].
  unfold DynIter_next. destruct (gread_dyn data offset ctx) as [e|[d o]]; [done|].
  destruct (d_tag d =? DT_NULL); [done|]. destruct (body acc d); [done|]. apply IH.
Qed.
End dyn.

(** ** Safety *)

Section safety.
Context `{TG : Target} {OS : Os} {G : Goblin} {GO : GoblinOk G}.
Hypothesis release : overflow_checks = false.
Hypothesis open_code : forall pid e, open_mem pid = inl e -> raw_os_error e <> None.

Lemma ptrace_words_safe pid src n : forall off, ptrace_words pid src off n <> Panic.
Proof.
  induction n as [|n IH]; intros off; cbn [ptrace_words]; [done|].
  destruct (add_u _ _ _) eqn:E; cbn; try done.
  - unfold os_res. destruct (ptrace_read _ _); cbn; [done|].
    specialize (IH (off + Z.of_nat size_of_usize)).
    by destruct (ptrace_words _ _ _ _).
  - exfalso. by eapply checked_release.
Qed.

Lemma ptrace_safe pid src len : ptrace pid src len <> Panic.
Proof.
  unfold ptrace. pose proof (ptrace_words_safe pid src (len / size_of_usize) 0).
  destruct (ptrace_words _ _ _ _); cbn; try done.
  case_match; [|done]. destruct (add_u _ _ _) eqn:E; cbn; try done.
  - unfold os_res. by destruct (ptrace_read _ _).
  - exfalso. by eapply checked_release.
Qed.

Lemma read_safe src len : st_safe (read src len).
Proof.
  intros r. pose proof (ptrace_safe (mr_pid r) src len) as Hp.
  unfold read, read_with, vmem, file, os_res.
  repeat (case_match; simplify_eq/=; try done); try (by destruct (ptrace _ _ _)).
  exfalso. by eapply open_code.
Qed.

Lemma pm_read_safe off len : st_safe (pm_read off len).
Proof.
  intros [s|pr]; unfold pm_read; cbn [fst].
  - case_match; [|done]. unfold ok_or. by case_match.
  - case_match; [done|]. case_match; [|done].
    match goal with |- context [read_to_vec ?a ?b ?c] =>
      assert (Hs : (read_to_vec a b c).1 <> Panic);
        [unfold read_to_vec; repeat case_match; [done..|apply read_safe]
        |by destruct (read_to_vec a b c) as [[] ?]]
    end.
Qed.

Lemma add_u_safe {E} bits a b : add_u (E := E) bits a b <> Panic.
Proof. by apply checked_release. Qed.
Lemma sub_u_safe {E} bits a b : sub_u (E := E) bits a b <> Panic.
Proof. by apply sub_u_release. Qed.
Lemma ok_or_safe {E A} (o : option A) (e : E) : ok_or o e <> Panic.
Proof. by destruct o. Qed.
Lemma parsed_safe {A} (r : ForeignError + A) : parsed r <> Panic.
Proof. by destruct r. Qed.

Hint Resolve pm_read_safe add_u_safe sub_u_safe ok_or_safe parsed_safe for_dyn_safe : mdw.

Ltac safe_step :=
  match goal with
  | |- st_safe (_ ≫= _) => apply st_safe_bind; [|intros]
  | |- st_safe (st_lift _) => apply st_safe_lift; first [solve [eauto with mdw] | done]
  | |- st_safe (on_memory _) => apply st_safe_zoom
  | |- st_safe (match ?x with _ => _ end) => destruct x eqn:?
  | |- st_safe (if ?x then _ else _) => destruct x eqn:?
  | |- st_safe _ => solve [eauto with mdw]
  end.
Ltac safe_tac := repeat (cbv zeta; safe_step).

Lemma find_section_name_safe strtab nm headers : st_safe (find_section_name strtab nm headers).
Proof. induction headers; cbn [find_section_name]; safe_tac. Qed.
Hint Resolve find_section_name_safe : mdw.

Lemma section_header_with_name_safe hs i nm : st_safe (section_header_with_name hs i nm).
Proof. unfold section_header_with_name. safe_tac. Qed.
Hint Resolve section_header_with_name_safe : mdw.

Lemma read_program_headers_safe : st_safe read_program_headers.
Proof. unfold read_program_headers. safe_tac. Qed.
Lemma read_section_headers_safe : st_safe read_section_headers.
Proof. unfold read_section_headers. safe_tac. Qed.
Lemma find_build_id_note_safe off size al : st_safe (find_build_id_note off size al).
Proof. unfold find_build_id_note. safe_tac. Qed.
Lemma read_segment_safe h : st_safe (read_segment h).
Proof. unfold read_segment. safe_tac. Qed.
Hint Resolve read_program_headers_safe read_section_headers_safe find_build_id_note_safe
  read_segment_safe : mdw.

(** The assertion of [read_name_from_strtab] holds at both of its callers. *)
Lemma read_name_safe off size n : n < size -> st_safe (read_name_from_strtab off size n).
Proof.
  intros Hn. unfold read_name_from_strtab. rewrite (proj2 (Z.ltb_lt n size) Hn). safe_tac.
Qed.

Lemma note_headers_loop_safe hs : st_safe (note_headers_loop hs).
Proof. induction hs; cbn [note_headers_loop]; safe_tac. Qed.
Hint Resolve note_headers_loop_safe : mdw.

(** [soname_dyn_body] never leaves the loop early. *)
Lemma dyn_loop_no_exit data ctx fuel : forall offset acc r,
  dyn_loop (R := unit) fuel data offset ctx soname_dyn_body acc = Some (Ok (inl r)) -> False.
Proof.
  induction fuel as [|fuel IH]; intros offset acc r; cbn [dyn_loop]; [done|].
  destruct (DynIter_next data offset ctx) as [[[d o]| |]|]; try done.
  destruct (soname_dyn_body acc d) eqn:E; [|apply IH].
  exfalso. unfold soname_dyn_body in E. repeat case_match; done.
Qed.

Lemma soname_from_program_headers_safe : st_safe soname_from_program_headers.
Proof.
  unfold soname_from_program_headers. do 3 (apply st_safe_bind; [safe_tac|intros]).
  apply st_safe_bind; [safe_tac|]. intros r s. unfold mbind, ST_bind, st_lift.
  pose proof (for_dyn_safe a1 (context r) soname_dyn_body (None, None, None)).
  destruct (for_dyn _ _ _ _) as [[u|[[ad sz] so]]| |] eqn:E; try done.
  - exfalso. unfold for_dyn in E. case_match eqn:Ed; [|done]. subst.
    by eapply dyn_loop_no_exit.
  - destruct ad, sz, so; try done.
    destruct (Z.ltb_spec z1 z0); [by apply read_name_safe | done].
Qed.

Lemma dyn_loop_exit data ctx dynstr fuel : forall offset acc v,
  dyn_loop fuel data offset ctx (soname_section_body dynstr) acc = Some (Ok (inl v)) ->
  v < sh_size dynstr.
Proof.
  induction fuel as [|fuel IH]; intros offset acc v; cbn [dyn_loop]; [done|].
  destruct (DynIter_next data offset ctx) as [[[d o]| |]|]; try done.
  destruct (soname_section_body dynstr acc d) eqn:E; [|apply IH].
  intros [= <-]. unfold soname_section_body in E.
  destruct (d_tag d =? DT_SONAME); [|done]. cbn in E.
  destruct (Z.ltb_spec (d_val d) (sh_size dynstr)); congruence.
Qed.

Lemma soname_from_sections_safe : st_safe soname_from_sections.
Proof.
  unfold soname_from_sections. do 5 (apply st_safe_bind; [safe_tac|intros]).
  intros s. unfold mbind, ST_bind, st_lift.
  pose proof (for_dyn_safe a3 (context a1) (soname_section_body a2) tt).
  destruct (for_dyn _ _ _ _) as [[v|u]| |] eqn:E; try done.
  unfold for_dyn in E. case_match eqn:Ed; [|done]. subst.
  apply dyn_loop_exit in Ed. by apply read_name_safe.
Qed.

Lemma build_id_from_program_headers_safe : st_safe build_id_from_program_headers.
Proof. unfold build_id_from_program_headers. safe_tac. Qed.
Lemma build_id_from_section_safe : st_safe build_id_from_section.
Proof. unfold build_id_from_section. safe_tac. Qed.
Lemma build_id_generate_from_text_safe : st_safe build_id_generate_from_text.
Proof. unfold build_id_generate_from_text. safe_tac. Qed.
Hint Resolve soname_from_program_headers_safe soname_from_sections_safe
  build_id_from_program_headers_safe build_id_from_section_safe
  build_id_generate_from_text_safe : mdw.

Lemma ModuleReader_new_safe m : ModuleReader_new m <> Panic.
Proof.
  unfold ModuleReader_new. pose proof (pm_read_safe 0 header_size_big m).
  destruct (pm_read _ _ m) as [[d| |] m']; cbn in *; try done.
  destruct (parse_header d) as [|h]; cbn; [done|]. by destruct (header_ctx h).
Qed.

Lemma BuildId_safe m : BuildId_read_from_module m <> Panic.
Proof.
  unfold BuildId_read_from_module. pose proof (ModuleReader_new_safe m).
  destruct (ModuleReader_new m) as [r| |]; cbn [mbind res_bind]; try done.
  match goal with |- fst (?p r) <> Panic => enough (st_safe p) by eauto end. safe_tac.
Qed.

Lemma SoName_safe m : SoName_read_from_module m <> Panic.
Proof.
  unfold SoName_read_from_module. pose proof (ModuleReader_new_safe m).
  destruct (ModuleReader_new m) as [r| |]; cbn [mbind res_bind]; try done.
  match goal with |- fst (?p r) <> Panic => enough (st_safe p) by eauto end. safe_tac.
Qed.
End safety.

(** C29: reading a build id or an SONAME is total and does not panic in a
    release build, whatever bytes the module holds and whatever the ELF parsers
    make of them, for mapped files and for live process memory. *)
Theorem module_reader_never_panics (TG : Target) (OS : Os) (G : Goblin) (GO : GoblinOk G)
    (m : ProcessMemory) :
  @overflow_checks TG = false ->
  (forall pid e, open_mem pid = inl e -> raw_os_error e <> None) ->
  BuildId_read_from_module m <> Panic /\ SoName_read_from_module m <> Panic.
Proof. intros Hr Ho. split; [by apply BuildId_safe | by apply SoName_safe]. Qed.

Lemma module_reader_never_panics_witness :
  @BuildId_read_from_module x64_release no_os elf64 (Slice TINY_ELF) <> Panic.
Proof.
  exact (proj1 (@module_reader_never_panics x64_release no_os elf64 elf64_ok (Slice TINY_ELF)
    eq_refl ltac:(intros pid e [= <-]; discriminate))).
Defined.

(** ** The generated build id *)

(** The bytes of [data] at the positions congruent to [i] modulo [n]. *)
Definition column (n i : nat) (data : list byte) : list byte :=
  omap (fun k => data !! (i + n * k)%nat) (seq 0 (List.length data)).

Definition xor_all (l : list byte) : byte := foldr byte_xor Byte.x00 l.

Lemma byte_xor_unsigned a b :
  byte.unsigned (byte_xor a b) = Z.lxor (byte.unsigned a) (byte.unsigned b).
Proof.
  unfold byte_xor. rewrite byte.unsigned_of_Z. unfold byte.wrap.
  pose proof (byte.unsigned_range a). pose proof (byte.unsigned_range b).
  rewrite <- (Z.mod_small (byte.unsigned a) (2 ^ 8)) by lia.
  rewrite <- (Z.mod_small (byte.unsigned b) (2 ^ 8)) by lia.
  apply Z.bits_inj'. intros k Hk. rewrite Z.lxor_spec.
  destruct (decide (k < 8)).
  - rewrite !Z.mod_pow2_bits_low, Z.lxor_spec by lia. by rewrite !Z.mod_pow2_bits_low by lia.
  - by rewrite !Z.mod_pow2_bits_high by lia.
Qed.

Lemma byte_xor_assoc a b c : byte_xor (byte_xor a b) c = byte_xor a (byte_xor b c).
Proof. apply byte.unsigned_inj. rewrite !byte_xor_unsigned. apply Z.lxor_assoc. Qed.

Lemma byte_xor_0_r a : byte_xor a Byte.x00 = a.
Proof. apply byte.unsigned_inj. rewrite byte_xor_unsigned. apply Z.lxor_0_r. Qed.

Lemma xor_into_lookup bytes : forall chunk i,
  xor_into bytes chunk !! i =
  match bytes !! i, chunk !! i with Some b, Some c => Some (byte_xor b c) | o, _ => o end.
Proof.
  induction bytes as [|b bytes IH]; intros [|c chunk] [|i]; simpl; try done.
  by destruct (bytes !! i).
Qed.

Lemma chunks_exact_fuel_enough {A} (n : nat) fuel : forall (l : list A) fuel',
  (0 < n)%nat -> (List.length l <= fuel)%nat -> (List.length l <= fuel')%nat ->
  chunks_exact_fuel fuel n l = chunks_exact_fuel fuel' n l.
Proof.
  induction fuel as [|fuel IH]; intros l fuel' Hn Hf Hf'.
  - destruct l; [|simpl in *; lia]. destruct fuel'; [done|]. cbn. by rewrite decide_False by lia.
  - destruct fuel' as [|fuel'].
    { destruct l; [|simpl in *; lia]. cbn. by rewrite decide_False by lia. }
    cbn [chunks_exact_fuel]. case_decide; [|done].
    rewrite (IH (drop n l) fuel'); [done|done|rewrite length_drop; lia..].
Qed.

Lemma chunks_long n data :
  (0 < n)%nat -> (n <= List.length data)%nat ->
  chunks n data = take n data :: chunks n (drop n data).
Proof.
  intros Hn Hl. unfold chunks, chunks_exact.
  destruct (List.length data) as [|m] eqn:E; [lia|]. cbn [chunks_exact_fuel].
  rewrite decide_True by lia.
  rewrite (chunks_exact_fuel_enough n m (drop n data) (List.length (drop n data)))
    by (rewrite ?length_drop; lia).
  destruct (chunks_exact_fuel _ n (drop n data)) as [cs [|x r]]; done.
Qed.

Lemma chunks_short n data :
  (List.length data < n)%nat -> chunks n data = match data with [] => [] | _ => [data] end.
Proof.
  intros Hl. unfold chunks, chunks_exact.
  destruct data as [|x data]; [done|]. cbn [chunks_exact_fuel List.length].
  rewrite decide_False by (simpl in *; lia). done.
Qed.

Lemma omap_seq_beyond {A} (f : nat -> option A) n k :
  (forall j, (n <= j)%nat -> f j = None) -> omap f (seq n k) = [].
Proof.
  revert n. induction k as [|k IH]; intros n Hf; [done|]. simpl. rewrite Hf by lia.
  apply IH. intros j Hj. apply Hf. lia.
Qed.

Lemma column_enough n i data m :
  (0 < n)%nat -> (List.length data <= m)%nat ->
  omap (fun k => data !! (i + n * k)%nat) (seq 0 m) = column n i data.
Proof.
  intros Hn Hm. unfold column.
  replace m with (List.length data + (m - List.length data))%nat by lia.
  rewrite seq_app, omap_app, (omap_seq_beyond _ (0 + List.length data)), app_nil_r; [done|].
  intros j Hj. apply lookup_ge_None_2. nia.
Qed.

Lemma column_cons n i data :
  (i < n)%nat -> (0 < List.length data)%nat ->
  column n i data = option_list (data !! i) ++ column n i (drop n data).
Proof.
  intros Hi Hl. unfold column at 1. destruct (List.length data) as [|m] eqn:E; [lia|].
  cbn [seq]. rewrite <- (column_enough n i (drop n data) m) by (rewrite ?length_drop; lia).
  rewrite <- fmap_S_seq. cbn [omap list_omap]. rewrite Nat.mul_0_r, Nat.add_0_r.
  assert (Htl : omap (fun k => data !! (i + n * k)%nat) (S <$> seq 0 m)
                = omap (fun k => drop n data !! (i + n * k)%nat) (seq 0 m)).
  { generalize (seq 0 m) as ks. intros ks. induction ks as [|k ks IHk]; [done|].
    cbn. rewrite IHk, lookup_drop. by replace (i + n * S k)%nat with (n + (i + n * k))%nat by lia. }
  rewrite Htl. by destruct (data !! i).
Qed.

Lemma xor_chunks n : (0 < n)%nat -> forall data acc i a,
  acc !! i = Some a -> (i < n)%nat ->
  fold_left xor_into (chunks n data) acc !! i = Some (byte_xor a (xor_all (column n i data))).
Proof.
  intros Hn data. remember (List.length data) as m eqn:Hm. revert data Hm.
  induction m as [m IH] using lt_wf_ind. intros data -> acc i a Ha Hi.
  destruct (decide (n <= List.length data)%nat) as [Hl|Hl].
  - rewrite chunks_long by lia. cbn [fold_left]. rewrite column_cons by lia.
    destruct (lookup_lt_is_Some_2 data i) as [c Hc]; [lia|].
    rewrite (IH (List.length (drop n data)) ltac:(rewrite length_drop; lia) _ eq_refl
               _ i (byte_xor a c)).
    + rewrite Hc. cbn. by rewrite byte_xor_assoc.
    + rewrite xor_into_lookup, Ha, lookup_take_lt, Hc by lia. done.
    + done.
  - rewrite chunks_short by lia. destruct data as [|x data].
    { cbn. rewrite byte_xor_0_r. done. }
    cbn [fold_left]. rewrite column_cons by (simpl; lia).
    rewrite (drop_ge (x :: data)) by lia. rewrite app_nil_r, xor_into_lookup, Ha.
    destruct ((x :: data) !! i); cbn; by rewrite ?byte_xor_0_r.
Qed.

Lemma length_xor_into bytes chunk : List.length (xor_into bytes chunk) = List.length bytes.
Proof. revert chunk. induction bytes; intros [|c chunk]; simpl; auto. Qed.

Lemma length_fold_xor cs : forall acc,
  List.length (fold_left xor_into cs acc) = List.length acc.
Proof. induction cs; intros; simpl; [done|]. rewrite IHcs. apply length_xor_into. Qed.

(** the generated build id always has the size of a GUID, and its byte [i]
    is the exclusive or of the text bytes at the positions congruent to [i]
    modulo 16, a last partial chunk included. *)
Theorem build_id_from_bytes_columns (data : list byte) :
  List.length (build_id_from_bytes data) = guid_size /\
  forall i, (i < guid_size)%nat ->
    build_id_from_bytes data !! i = Some (xor_all (column guid_size i data)).
Proof.
  unfold build_id_from_bytes. split; [by rewrite length_fold_xor, length_replicate|].
  intros i Hi. rewrite (xor_chunks guid_size ltac:(unfold guid_size; lia) data _ i Byte.x00); [|..|done].
  - f_equal. apply byte.unsigned_inj. by rewrite byte_xor_unsigned, Z.lxor_0_l.
  - by apply lookup_replicate.
Qed.

(** ** Attempts on a mapped file *)

(** A reader over a slice is never changed. *)
Definition slice_kept {G : Goblin} (r r' : ModuleReader) : Prop :=
  match module_memory r with Slice _ => r' = r | Process _ => True end.

Section slices.
Context `{TG : Target} {OS : Os} {G : Goblin}.

#[local] Instance slice_kept_preorder : PreOrder slice_kept.
Proof.
  split; unfold slice_kept.
  - intros r. by destruct (module_memory r).
  - intros r1 r2 r3. destruct (module_memory r1) eqn:E; [|done].
    intros ->. by rewrite E.
Qed.

(** A memory-level operation that leaves slices alone. *)
Definition keeps_slice {A} (m : ST ProcessMemory ModuleReaderError A) : Prop :=
  forall s, (m (Slice s)).2 = Slice s.

Lemma keeps_pm_read off len : keeps_slice (pm_read off len).
Proof. done. Qed.

Lemma keeps_bind {A B} (m : ST ProcessMemory ModuleReaderError A)
    (f : A -> ST ProcessMemory ModuleReaderError B) :
  keeps_slice m -> (forall a, keeps_slice (f a)) -> keeps_slice (m ≫= f).
Proof.
  intros Hm Hf s. specialize (Hm s). unfold mbind, ST_bind.
  destruct (m (Slice s)) as [[a|e|] s1]; simpl in *; subst; [apply Hf|done..].
Qed.

Lemma keeps_find_section_name strtab nm hs : keeps_slice (find_section_name strtab nm hs).
Proof.
  induction hs; cbn [find_section_name]; [done|]. case_match; [done|].
  apply keeps_bind; [done|]. intros e. case_match; [done|].
  apply keeps_bind; [done|]. intros off. apply keeps_bind; [apply keeps_pm_read|].
  intros n. by case_match.
Qed.

Lemma keeps_section_header_with_name hs i nm : keeps_slice (section_header_with_name hs i nm).
Proof.
  unfold section_header_with_name. apply keeps_bind; [done|]. intros.
  apply keeps_find_section_name.
Qed.

Lemma kept_on_memory {A} (m : ST ProcessMemory ModuleReaderError A) :
  keeps_slice m -> st_rel slice_kept (on_memory m).
Proof.
  intros Hm r. unfold slice_kept, on_memory, st_zoom.
  destruct (module_memory r) eqn:E; [|done]. specialize (Hm s).
  destruct (m (Slice s)) as [x m']. simpl in *. subst. unfold set_module_memory.
  rewrite <- E. by destruct r.
Qed.

Hint Resolve keeps_pm_read keeps_section_header_with_name kept_on_memory : mdw.

Ltac kept_step :=
  match goal with
  | |- st_rel _ (_ ≫= _) => apply st_rel_bind; [exact _| |intros]
  | |- st_rel _ (match ?x with _ => _ end) => destruct x
  | |- st_rel _ (if ?x then _ else _) => destruct x
  | |- st_rel _ (on_memory _) => apply kept_on_memory; solve [eauto with mdw]
  | |- st_rel _ (mret _) => apply st_rel_ret; exact _
  | |- st_rel _ (st_lift _) => apply st_rel_lift; exact _
  | |- st_rel _ st_get => apply st_rel_get; exact _
  | |- st_rel _ (st_try _) => apply st_rel_try
  | |- st_rel _ _ => solve [eauto with mdw]
  end.
Ltac kept_tac := repeat (cbv zeta; kept_step).

Lemma kept_program_headers : st_rel slice_kept read_program_headers.
Proof. unfold read_program_headers. kept_tac. Qed.
Lemma kept_section_headers : st_rel slice_kept read_section_headers.
Proof. unfold read_section_headers. kept_tac. Qed.
Lemma kept_find_note off size al : st_rel slice_kept (find_build_id_note off size al).
Proof. unfold find_build_id_note. kept_tac. Qed.
Hint Resolve kept_program_headers kept_section_headers kept_find_note : mdw.

Lemma kept_note_loop hs : st_rel slice_kept (note_headers_loop hs).
Proof. induction hs; cbn [note_headers_loop]; kept_tac. Qed.
Hint Resolve kept_note_loop : mdw.

Lemma kept_by_headers : st_rel slice_kept build_id_from_program_headers.
Proof. unfold build_id_from_program_headers. kept_tac. Qed.
Lemma kept_by_section : st_rel slice_kept build_id_from_section.
Proof. unfold build_id_from_section. kept_tac. Qed.
Lemma kept_soname_headers : st_rel slice_kept soname_from_program_headers.
Proof.
  unfold soname_from_program_headers, read_segment, read_name_from_strtab. kept_tac.
Qed.

Lemma kept_state {A} (m : ST ModuleReader ModuleReaderError A) r s :
  st_rel slice_kept m -> module_memory r = Slice s -> (m r).2 = r.
Proof. intros Hm Hs. specialize (Hm r). unfold slice_kept in Hm. by rewrite Hs in Hm. Qed.

Lemma new_slice s r : ModuleReader_new (Slice s) = Ok r -> module_memory r = Slice s.
Proof.
  unfold ModuleReader_new. destruct (pm_read 0 header_size_big (Slice s)) as [x m'] eqn:E.
  assert (m' = Slice s) as -> by (unfold pm_read in E; simplify_eq; done).
  destruct x as [d| |]; cbn; try done. destruct (parse_header d) as [|h]; cbn; [done|].
  destruct (header_ctx h); cbn; [done|]. by intros [= <-].
Qed.

Lemma try_run {A} (m : ST ModuleReader ModuleReaderError A) r s {E'} :
  st_rel slice_kept m -> module_memory r = Slice s ->
  st_try (E' := E') m r =
    (match (m r).1 with Ok a => Ok (inr a) | Err e => Ok (inl e) | Panic => Panic end, r).
Proof.
  intros Hm Hs. pose proof (kept_state m r s Hm Hs) as H2. unfold st_try.
  destruct (m r) as [[a|e|] r1]; simpl in *; by subst.
Qed.
End slices.

(** on a mapped file the strategies for the build id and for the SONAME are
    tried in order on the same, unchanged module, the first success is the
    result, and when all fail the error carries the reason of each. *)
Theorem module_attempts_in_order `{TG : Target} (OS : Os) (G : Goblin) (s : list byte)
    (r : ModuleReader) :
  ModuleReader_new (Slice s) = Ok r ->
  BuildId_read_from_module (Slice s) =
    or_else (build_id_from_program_headers r).1 (fun e1 =>
    or_else (build_id_from_section r).1 (fun e2 =>
    or_else (build_id_generate_from_text r).1 (fun e3 =>
      Err (ModuleReaderError_NoBuildId e1 e2 e3)))) /\
  SoName_read_from_module (Slice s) =
    or_else (soname_from_program_headers r).1 (fun e1 =>
    or_else (soname_from_sections r).1 (fun e2 =>
      Err (ModuleReaderError_NoSoName e1 e2))).
Proof.
  intros Hr. pose proof (new_slice s r Hr) as Hs.
  unfold BuildId_read_from_module, SoName_read_from_module. rewrite Hr. cbn [mbind res_bind].
  unfold mbind, ST_bind.
  rewrite (try_run _ r s kept_by_headers Hs), (try_run _ r s kept_soname_headers Hs). split.
  - destruct (build_id_from_program_headers r).1 as [|e1|]; simpl; [done| |done].
    rewrite (try_run _ r s kept_by_section Hs).
    destruct (build_id_from_section r).1 as [|e2|]; simpl; [done| |done].
    unfold st_try. by destruct (build_id_generate_from_text r) as [[|e3|] r'].
  - destruct (soname_from_program_headers r).1 as [|e1|]; simpl; [done| |done].
    unfold st_try. by destruct (soname_from_sections r) as [[|e2|] r'].
Qed.

Definition is_ok {E A} (r : res E A) : bool := match r with Ok _ => true | _ => false end.

Lemma module_attempts_witness :
  exists r, ModuleReader_new (H := x64_release) (OS := no_os) (G := elf64) (Slice TINY_ELF) = Ok r
  /\ SoName_read_from_module (H := x64_release) (OS := no_os) (G := elf64) (Slice TINY_ELF)
     = or_else (soname_from_program_headers (H := x64_release) (OS := no_os) r).1 (fun e1 =>
       or_else (soname_from_sections (H := x64_release) (OS := no_os) r).1 (fun e2 =>
         Err (ModuleReaderError_NoSoName e1 e2))).
Proof.
  assert (Hok : is_ok (ModuleReader_new (H := x64_release) (OS := no_os) (G := elf64)
                         (Slice TINY_ELF)) = true) by (vm_compute; reflexivity).
  destruct (ModuleReader_new (H := x64_release) (OS := no_os) (G := elf64) (Slice TINY_ELF))
    as [r| |] eqn:Hr; [|discriminate Hok|discriminate Hok].
  exists r. split; [reflexivity|].
  exact (proj2 (@module_attempts_in_order x64_release no_os elf64 TINY_ELF r Hr)).
Defined.

(** a name read from a string table is the text from its offset up to the
    first NUL, and every byte read for it, the NUL included, lies inside the
    table. *)
Theorem strtab_name_bounded `{TG : Target} (OS : Os) (G : Goblin) (s : list byte)
    (r : ModuleReader) (off size n : Z) (text : RString) :
  module_memory r = Slice s ->
  0 <= off -> 0 <= n -> off + size < 2 ^ usize_bits ->
  (read_name_from_strtab off size n r).1 = Ok text ->
  exists k, n + Z.of_nat k < size /\
    slice (Z.to_nat (off + n)) (Z.to_nat (off + n) + k) s
      = Some (bytes_at (Z.to_nat (off + n)) k s) /\
    text = to_string_lossy (bytes_at (Z.to_nat (off + n)) k s) /\
    s !! (Z.to_nat (off + n) + k)%nat = Some Byte.x00 /\
    Byte.x00 ∉ bytes_at (Z.to_nat (off + n)) k s.
Proof.
  intros Hs Hoff Hn Hfit. unfold read_name_from_strtab.
  destruct (Z.ltb_spec n size) as [Hlt|]; [|done].
  assert (Hb : 2 ^ usize_bits <= 2 ^ 64) by (unfold usize_bits; case_match; done).
  assert (Hb0 : 0 < 2 ^ usize_bits) by (unfold usize_bits; case_match; done).
  unfold mbind, ST_bind, st_lift, add_u.
  rewrite (checked_fits 64) by (unfold in_bits; lia). rewrite sub_u_ok by lia.
  unfold on_memory, st_zoom, pm_read, checked_add64. rewrite Hs.
  rewrite (proj2 (Z.ltb_lt _ _)) by lia. unfold ok_or.
  rewrite !wrap_small by (unfold in_bits; lia).
  destruct (slice _ _ s) as [nm|] eqn:Esl; [|done]. simpl.
  apply slice_some in Esl as (H1 & H2 & ->).
  replace (Z.to_nat (off + n + (size - n)) - Z.to_nat (off + n))%nat
    with (Z.to_nat (size - n)) by lia.
  unfold until_nul. destruct (find_idx _ _) as [k|] eqn:Ek; [|done]. cbn. intros [= <-].
  apply find_idx_spec in Ek as (b & Hk & Hb0' & Hbefore).
  apply bool_decide_eq_true in Hb0'. subst b.
  rewrite lookup_bytes_at in Hk. case_decide as Hkl; [|done].
  assert (Htk : take k (bytes_at (Z.to_nat (off + n)) (Z.to_nat (size - n)) s)
                = bytes_at (Z.to_nat (off + n)) k s).
  { unfold bytes_at. rewrite take_take. f_equal. lia. }
  rewrite Htk in *. exists k. split_and!; [lia| |done|done|].
  - rewrite slice_ok by lia. f_equal. f_equal. lia.
  - intros Hin. apply list_elem_of_lookup_1 in Hin as [j Hj].
    specialize (Hbefore j). rewrite lookup_bytes_at in Hj. case_decide; [|done].
    specialize (Hbefore Byte.x00 ltac:(lia)).
    rewrite lookup_bytes_at, decide_True in Hbefore by lia. by specialize (Hbefore Hj).
Qed.

Lemma strtab_name_bounded_witness :
  exists k, 1 + Z.of_nat k < 13 /\ str_of "libfoo.so.1" =
    to_string_lossy (bytes_at (Z.to_nat (765 + 1)) k TINY_ELF).
Proof.
  pose (r := mkModuleReader elf64 (Slice TINY_ELF) (mkElfHeader [] 0 0 0 0 0 0 0) tt).
  destruct (@strtab_name_bounded x64_release no_os elf64 TINY_ELF r 765 13 1
    (str_of "libfoo.so.1") eq_refl ltac:(lia) ltac:(lia) ltac:(vm_compute; reflexivity)
    ltac:(vm_compute; reflexivity)) as (k & Hk & _ & Ht & _).
  exists k. split; [exact Hk|exact Ht].
Defined.
