(* ===== verification/MapsReader.v ===== *)
(** * The mappings of the target (src/src/linux/maps_reader.rs)

    [aggregate] folds the lines of /proc/<pid>/maps into the list of modules;
    the other operations are the questions the dumper asks of one mapping.  The
    parsed lines come from the crate procfs-core ([MemoryMap] below is its
    record).  Addresses are [usize] values in [Z], with the profile's overflow
    behaviour at every sum and difference. *)
From Stdlib Require Import ZArith Lia String.
From S2P Require Import Prelude RustStr Layout Errors Os MemReader ModuleReader.

Local Open Scope Z_scope.

(** ** procfs-core *)

Inductive MMapPath :=
  | Path (p : OsString)
  | Heap
  | Stack
  | TStack (i : Z)
  | Vdso
  | Vvar
  | Vsyscall
  | Rollup
  | Vsys (i : Z)
  | Other (n : RString)
  | Anonymous.

Record MemoryMap := mkMemoryMap {
  address : Z * Z;
  perms : MMPermissions;
  mm_offset : Z;
  pathname : MMapPath;
}.

(** ** Names *)

Definition LINUX_GATE_LIBRARY_NAME : OsString := bytes_of "linux-gate.so".
Definition DELETED_SUFFIX : list byte := bytes_of " (deleted)".

Definition is_mapping_a_path (pathname : option OsString) : bool :=
  match pathname with
  | Some x => existsb is_slash x
  | None => false
  end.

Definition sanitize_path (pathname : OsString) : OsString :=
  match strip_suffix DELETED_SUFFIX pathname with
  | Some bytes => bytes
  | None => pathname
  end.

(** The [match mm.pathname] of [aggregate]. *)
Definition mapping_name (p : MMapPath) : option OsString :=
  match p with
  | Path p => Some (sanitize_path p)
  | Heap => Some (bytes_of "[heap]")
  | Stack => Some (bytes_of "[stack]")
  | TStack i => Some (utf8_encode (str_of "[stack:" ++ fmt_dec i ++ str_of "]"))
  | Vdso => Some (bytes_of "[vdso]")
  | Vvar => Some (bytes_of "[vvar]")
  | Vsyscall => Some (bytes_of "[vsyscall]")
  | Rollup => Some (bytes_of "[rollup]")
  | Vsys i => Some (utf8_encode (str_of "/SYSV" ++ fmt_hex32 i))
  | Other n => Some (utf8_encode (str_of "[" ++ n ++ str_of "]"))
  | Anonymous => None
  end.

Definition name_is_path (m : MappingInfo) : bool := is_mapping_a_path (name m).

Definition is_empty_page (m : MappingInfo) : bool :=
  (offset m =? 0) && bool_decide (permissions m = only_private) && bool_decide (name m = None).

Definition is_executable (m : MappingInfo) : bool := EXECUTE (permissions m).
Definition is_readable (m : MappingInfo) : bool := READ (permissions m).
Definition is_writable (m : MappingInfo) : bool := WRITE (permissions m).

Definition contains_address (m : MappingInfo) (address : Z) : bool :=
  (sys_start_address (system_mapping_info m) <=? address) &&
  (address <? sys_end_address (system_mapping_info m)).

Definition is_interesting (m : MappingInfo) : bool :=
  bool_decide (is_Some (name m)) &&
  ((offset m =? 0) || is_executable m) &&
  (4096 <=? size m).

Definition is_mapped_file_safe_to_open (name : option OsString) : bool :=
  match name with
  | Some name => negb (starts_with (bytes_of "/dev/") name)
  | None => true
  end.

Section maps.
Context `{Target} {E : Type}.

Definition end_address (m : MappingInfo) : res E Z := add_u usize_bits (start_address m) (size m).

(** The early return makes the later sums of the list unevaluated. *)
Fixpoint is_contained_in (m : MappingInfo) (user_mapping_list : list MappingEntry) : res E bool :=
  match user_mapping_list with
  | [] => Ok false
  | user :: rest =>
      if start_address (mapping user) <=? start_address m then
        a ← add_u usize_bits (start_address m) (size m);
        b ← add_u usize_bits (start_address (mapping user)) (size (mapping user));
        if a <=? b then Ok true else is_contained_in m rest
      else is_contained_in m rest
  end.

End maps.

(** ** [MappingInfo::aggregate] *)

Definition with_end (m : MappingInfo) (size sys_end : Z) (p : MMPermissions) : MappingInfo :=
  mkMapping (start_address m) size
    (mkSystemMapping (sys_start_address (system_mapping_info m)) sys_end)
    (offset m) (perms_union (permissions m) p) (name m).

Definition with_size (m : MappingInfo) (size : Z) : MappingInfo :=
  mkMapping (start_address m) size (system_mapping_info m) (offset m) (permissions m) (name m).

Section aggregate.
Context `{Target}.

Notation R := (res MapsReaderError).

Definition try_usize (x : Z) : R Z :=
  if x <=? usize_max then Ok x else Err MapsReaderError_LinuxGateNotConvertable.

(** [!is_path && linux_gate_loc != 0 && start_address == linux_gate_loc.try_into()?] *)
Definition is_linux_gate (linux_gate_loc : Z) (is_path : bool) (start_addr : Z) : R bool :=
  if negb is_path && negb (linux_gate_loc =? 0)
  then l ← try_usize linux_gate_loc; Ok (start_addr =? l)
  else Ok false.

(** What the two merging rules against the last module make of it. *)
Definition merge_last (prev : MappingInfo) (start_addr end_addr off : Z)
    (pathname : option OsString) (mm_perms : MMPermissions) : R (option MappingInfo) :=
  prev_end ← end_address prev;
  if (start_addr =? prev_end) && bool_decide (is_Some pathname) &&
     bool_decide (pathname = name prev) then
    size ← sub_u usize_bits end_addr (start_address prev);
    Ok (Some (with_end prev size end_addr mm_perms))
  else if (start_addr =? prev_end) && is_executable prev && name_is_path prev &&
          ((off =? 0) || (off =? prev_end)) && bool_decide (mm_perms = only_private) then
    size ← sub_u usize_bits end_addr (start_address prev);
    Ok (Some (with_size prev size))
  else Ok None.

(** Whether the last module is an empty page between the one before it and the
    new line; each sum is computed only when what precedes it holds. *)
Definition empty_page_between (prev_prev prev : MappingInfo) (start_addr : Z) : R bool :=
  if negb (name_is_path prev_prev) then Ok false else
  e1 ← end_address prev_prev;
  if negb ((e1 =? start_address prev) && is_empty_page prev) then Ok false else
  e2 ← end_address prev;
  Ok (e2 =? start_addr).

(** One turn of the loop; [infos] is the vector with its last element first. *)
Definition aggregate_step (linux_gate_loc : Z) (infos : list MappingInfo) (mm : MemoryMap)
    : R (list MappingInfo) :=
  start_addr ← try_usize (fst (address mm));
  end_addr ← try_usize (snd (address mm));
  off ← try_usize (mm_offset mm);
  let pathname := mapping_name (pathname mm) in
  let is_path := is_mapping_a_path pathname in
  gate ← is_linux_gate linux_gate_loc is_path start_addr;
  let pathname := if gate : bool then Some LINUX_GATE_LIBRARY_NAME else pathname in
  let off := if gate : bool then 0 else off in
  let push :=
    size ← sub_u usize_bits end_addr start_addr;
    Ok (mkMapping start_addr size (mkSystemMapping start_addr end_addr) off (perms mm) pathname
        :: infos) in
  match infos with
  | [] => push
  | prev :: infos' =>
      merged ← merge_last prev start_addr end_addr off pathname (perms mm);
      match merged, infos' with
      | Some prev', _ => Ok (prev' :: infos')
      | None, [] => push
      | None, prev_prev :: infos'' =>
          empty_page ← empty_page_between prev_prev prev start_addr;
          if (empty_page : bool) && bool_decide (pathname = name prev_prev) then
            size ← sub_u usize_bits end_addr (start_address prev_prev);
            Ok (with_end prev_prev size end_addr (perms mm) :: infos'')
          else push
      end
  end.

Fixpoint aggregate_loop (linux_gate_loc : Z) (infos : list MappingInfo)
    (memory_maps : list MemoryMap) : R (list MappingInfo) :=
  match memory_maps with
  | [] => Ok infos
  | mm :: rest =>
      infos' ← aggregate_step linux_gate_loc infos mm;
      aggregate_loop linux_gate_loc infos' rest
  end.

Definition aggregate (memory_maps : list MemoryMap) (linux_gate_loc : Z)
    : R (list MappingInfo) :=
  infos ← aggregate_loop linux_gate_loc [] memory_maps; Ok (rev infos).

End aggregate.

(** ** Pointers on a stack *)

(** [(x + size_of::<usize>() - 1) & !(size_of::<usize>() - 1)] *)
Definition align_word {E} `{Target} (x : Z) : res E Z :=
  let w := Z.of_nat size_of_usize in
  s ← add_u usize_bits x w;
  t ← sub_u usize_bits s 1;
  Ok (Z.land t (Z.lnot (w - 1))).

(** The [while] loop from [offset]; [fuel] bounds the number of turns (each
    advances by a word and the slice is left by a panic, so one more than the
    length is enough). *)
Fixpoint pointer_loop {E} `{Target} (fuel : nat) (low_addr high_addr : Z)
    (stack_copy : list byte) (offset : Z) : res E bool :=
  match fuel with
  | O => Panic
  | S fuel' =>
      let len := Z.of_nat (List.length stack_copy) in
      limit ← sub_u usize_bits len (Z.of_nat size_of_usize);
      if offset <=? limit then
        if len <? offset then Panic
        else
          let rest := drop (Z.to_nat offset) stack_copy in
          if (List.length rest <? size_of_usize)%nat then Ok false
          else
            let addr := le_combine (take size_of_usize rest) in
            if (low_addr <=? addr) && (addr <=? high_addr) then Ok true
            else
              offset' ← add_u usize_bits offset (Z.of_nat size_of_usize);
              pointer_loop fuel' low_addr high_addr stack_copy offset'
      else Ok false
  end.

Definition stack_has_pointer_to_mapping {E} `{Target} (m : MappingInfo)
    (stack_copy : list byte) (sp_offset : Z) : res E bool :=
  let low_addr := sys_start_address (system_mapping_info m) in
  let high_addr := sys_end_address (system_mapping_info m) in
  offset ← align_word sp_offset;
  pointer_loop (S (List.length stack_copy)) low_addr high_addr stack_copy offset.

(** ** [SoVersion] *)

Record SoVersion := mkSoVersion {
  major : Z;
  minor : Z;
  patch : Z;
  prerelease : Z;
}.

(** [s.parse::<u32>().unwrap_or_default()] *)
Definition parse_or_zero (s : RString) : Z :=
  match parse_uint 32 10 s with Some v => v | None => 0 end.

(** [comp[pre + 1..]] where [pre] is the byte index of the last character that
    is not a digit: the index after a character of several bytes is not a
    character boundary, and slicing there panics. *)
Definition after_last_nondigit {E} (comp : RString) : res E (option RString) :=
  match rfind_idx (fun c => negb (is_ascii_digit c)) comp with
  | None => Ok None
  | Some i => if (nth i comp 0 <? 128) then Ok (Some (drop (S i) comp)) else Panic
  end.

(** The loop over the components of the version; [comps] are the four fields. *)
Fixpoint so_components {E} (i : nat) (parts : list RString) (comps : list Z) : res E (list Z) :=
  match parts with
  | [] => Ok comps
  | comp :: rest =>
      if decide (i <= 1)%nat then
        so_components (S i) rest (<[i := parse_or_zero comp]> comps)
      else if decide (4 <= i)%nat then Ok comps
      else
        match find_idx (fun c => negb (is_ascii_digit c)) comp with
        | Some pend =>
            let comps := match parse_uint 32 10 (take pend comp) with
                         | Some v => <[i := v]> comps
                         | None => comps
                         end in
            if decide (3 <= i)%nat then Ok comps
            else
              tl ← after_last_nondigit comp;
              match tl ≫= parse_uint 32 10 with
              | Some pre => Ok (<[S i := pre]> comps)
              | None => so_components (S i) rest comps
              end
        | None => so_components (S i) rest (<[i := parse_or_zero comp]> comps)
        end
  end.

Definition SoVersion_parse {E} (so_path : OsString) : res E (option SoVersion) :=
  match file_name so_path with
  | None => Ok None
  | Some filename =>
      match split_once (str_of ".so.") (to_string_lossy filename) with
      | None => Ok None
      | Some (_, version) =>
          comps ← so_components 0 (split_on (Z.eqb 46) version) [0; 0; 0; 0];
          Ok (Some (mkSoVersion (nth 0 comps 0) (nth 1 comps 0) (nth 2 comps 0) (nth 3 comps 0)))
      end
  end.

Definition so_version {E} (m : MappingInfo) : res E (option SoVersion) :=
  match name m with None => Ok None | Some n => SoVersion_parse n end.

(** ** Files behind mappings *)

Section files.
Context `{Target} {OS : Os} {G : Goblin}.

Definition get_mmap (name : option OsString) (offset : Z) : res MapsReaderError (list byte) :=
  if negb (is_mapped_file_safe_to_open name) then
    Err (MapsReaderError_NotSafeToOpenMapping (default [] name))
  else
    let filename := default [] name in
    mapped_file ← map_err MapsReaderError_FileError (os_res (fs_mmap filename offset));
    if (Z.of_nat (List.length mapped_file) =? 0) ||
       (Z.of_nat (List.length mapped_file) <? SELFMAG)
    then Err MapsReaderError_MmapSanityCheckFailed
    else Ok mapped_file.

Definition so_name (m : MappingInfo) : res MapsReaderError RString :=
  mapped_file ← get_mmap (name m) (offset m);
  map_err (MapsReaderError_NoSoName (default [] (name m)))
    (SoName_read_from_module (Slice mapped_file)).

Definition get_mapping_effective_path_name_and_version (m : MappingInfo)
    (soname : option RString)
    : res MapsReaderError (OsString * RString * option SoVersion) :=
  let file_path := default [] (name m) in
  found ← match soname with
          | Some s => Ok (Some s)
          | None => res_ok (so_name m)
          end;
  match found with
  | None =>
      let fname := match file_name file_path with
                   | Some s => to_string_lossy s
                   | None => []
                   end in
      v ← so_version m;
      Ok (file_path, fname, v)
  | Some fname =>
      let file_path :=
        if is_executable m && negb (offset m =? 0)
        then path_push file_path (utf8_encode fname)
        else path_set_file_name file_path (utf8_encode fname) in
      v ← so_version m;
      Ok (file_path, fname, v)
  end.

End files.
