(* ===== verification/MapsReaderSpec.v ===== *)
(** * Properties of the mappings reader

    [aggregate] neither loses nor invents addresses, keeps the modules ordered
    and disjoint and never overflows; the stack scan finds exactly the aligned
    words that point into a mapping; the version parser is total on ASCII names.
    The examples are the tests of src/src/linux/maps_reader.rs. *)
From Stdlib Require Import ZArith Lia String.
From S2P Require Import Prelude RustStr Layout Errors Os MemReader ModuleReader.
From S2P Require Import MapsReader.

Local Open Scope Z_scope.

(** ** Well-formed lines and modules *)

Section spec.
Context `{Target}.

(** One line of the kernel's file: a non-empty range of representable addresses. *)
Definition line_ok (mm : MemoryMap) : Prop :=
  0 <= fst (address mm) < snd (address mm) /\ snd (address mm) <= usize_max /\
  0 <= mm_offset mm <= usize_max.

(** The kernel lists the mappings in increasing order and without overlap. *)
Fixpoint lines_from (lo : Z) (mms : list MemoryMap) : Prop :=
  match mms with
  | [] => True
  | mm :: rest => line_ok mm /\ lo <= fst (address mm) /\ lines_from (snd (address mm)) rest
  end.

Definition in_line (a : Z) (mm : MemoryMap) : Prop :=
  fst (address mm) <= a < snd (address mm).

(** A module the rest of the dumper can rely on. *)
Record module_ok (m : MappingInfo) : Prop := {
  mo_start : 0 <= start_address m;
  mo_sys_start : sys_start_address (system_mapping_info m) = start_address m;
  mo_sys_end : start_address m < sys_end_address (system_mapping_info m);
  mo_sys_size : sys_end_address (system_mapping_info m) <= start_address m + size m;
  mo_fits : start_address m + size m <= usize_max;
}.

Definition in_module (a : Z) (m : MappingInfo) : Prop :=
  start_address m <= a < start_address m + size m.

(** The modules in increasing order, from [lo]. *)
Fixpoint modules_from (lo : Z) (ms : list MappingInfo) : Prop :=
  match ms with
  | [] => True
  | m :: rest => module_ok m /\ lo <= start_address m /\
                 modules_from (start_address m + size m) rest
  end.

(** The same for the reversed vector of the loop: everything ends by [hi]. *)
Fixpoint modules_to (hi : Z) (infos : list MappingInfo) : Prop :=
  match infos with
  | [] => True
  | m :: rest => module_ok m /\ start_address m + size m <= hi /\
                 modules_to (start_address m) rest
  end.

Lemma end_address_ok {E} m : module_ok m -> end_address (E := E) m = Ok (start_address m + size m).
Proof.
  intros [? ? ? ? ?]. unfold end_address, add_u. apply checked_fits.
  unfold in_bits, usize_max in *. lia.
Qed.

Lemma try_usize_ok x : x <= usize_max -> try_usize x = Ok x.
Proof. intros Hx. unfold try_usize. by rewrite (proj2 (Z.leb_le x usize_max) Hx). Qed.

Lemma is_linux_gate_ok gate is_path start :
  gate <= usize_max -> exists b, is_linux_gate gate is_path start = Ok b.
Proof.
  intros Hg. unfold is_linux_gate. rewrite try_usize_ok by done.
  by destruct (negb is_path && negb (gate =? 0)); eexists.
Qed.

Definition covers (infos : list MappingInfo) (a : Z) : Prop := Exists (in_module a) infos.

(** A turn of the loop keeps the order and adds exactly the line's range. *)
Record step_result (hi : Z) (mm : MemoryMap) (infos infos' : list MappingInfo) : Prop := {
  sr_ordered : modules_to hi infos';
  sr_covers : forall a, covers infos' a <-> covers infos a \/ in_line a mm;
}.

Lemma covers_cons m infos a : covers (m :: infos) a <-> in_module a m \/ covers infos a.
Proof. apply Exists_cons. Qed.

Lemma modules_to_weaken hi hi' infos : hi <= hi' -> modules_to hi infos -> modules_to hi' infos.
Proof. destruct infos; simpl; [done|]. intros ? (? & ? & ?). split_and!; [done|lia|done]. Qed.

Section one_step.
Context (mm : MemoryMap) (Hline : line_ok mm).
Let start := fst (address mm).
Let stop := snd (address mm).

Lemma push_result off nm infos :
  modules_to start infos ->
  step_result stop mm infos
    (mkMapping start (stop - start) (mkSystemMapping start stop) off (perms mm) nm :: infos).
Proof.
  destruct Hline as (? & ? & ?). subst start stop. intros Hi. constructor.
  - cbn [modules_to start_address size]. split_and!.
    + constructor; simpl; lia.
    + simpl. lia.
    + done.
  - intros a. rewrite covers_cons. unfold in_module, in_line. simpl.
    split; intros [?|?]; [right; lia | by left | by right | left; lia].
Qed.

(** Replacing [m] and what was read since by one module that ends with the line. *)
Lemma extend_result m m' skipped infos :
  module_ok m -> modules_to (start_address m) infos ->
  (forall a, covers (skipped ++ m :: infos) a <->
     start_address m <= a < start \/ covers infos a) ->
  start_address m <= start ->
  module_ok m' -> start_address m' = start_address m ->
  size m' = stop - start_address m ->
  step_result stop mm (skipped ++ m :: infos) (m' :: infos).
Proof.
  destruct Hline as (? & ? & ?). subst start stop. intros Hm Hi Hc Hle Hm' Hs Hz. constructor.
  - cbn [modules_to]. rewrite Hs, Hz. split_and!; [done|lia|done].
  - intros a. rewrite covers_cons, Hc. unfold in_module, in_line. rewrite Hs, Hz.
    split; [intros [?|?] | intros [[?|?]|?]]; try tauto.
    + destruct (decide (a < fst (address mm))); [left; left|right]; lia.
    + left. lia.
    + left. lia.
Qed.

Lemma with_end_ok m : module_ok m -> start_address m + size m <= start ->
  module_ok (with_end m (stop - start_address m) stop (perms mm)).
Proof.
  destruct Hline as (? & ? & ?). subst start stop. intros [] ?.
  constructor; simpl; lia.
Qed.

Lemma with_size_ok m : module_ok m -> start_address m + size m <= start ->
  module_ok (with_size m (stop - start_address m)).
Proof.
  destruct Hline as (? & ? & ?). subst start stop. intros [] ?.
  constructor; simpl; lia.
Qed.

Lemma merge_last_ok prev off nm infos :
  module_ok prev -> modules_to (start_address prev) infos ->
  start_address prev + size prev <= start ->
  match merge_last prev start stop off nm (perms mm) with
  | Ok (Some prev') => step_result stop mm (prev :: infos) (prev' :: infos)
  | Ok None => True
  | _ => False
  end.
Proof.
  intros Hp Hi Hle. unfold merge_last. rewrite end_address_ok by done.
  cbn [mbind res_bind].
  assert (Hsub : sub_u (E := MapsReaderError) usize_bits stop (start_address prev)
                 = Ok (stop - start_address prev)).
  { apply sub_u_ok. destruct Hline as (? & ? & ?), Hp. subst start stop. lia. }
  assert (Hext : forall m', start_address prev + size prev = start ->
            module_ok m' -> start_address m' = start_address prev ->
            size m' = stop - start_address prev ->
            step_result stop mm (prev :: infos) (m' :: infos)).
  { intros m' Heq Hm' Hs' Hz'. apply (extend_result prev m' []); try done.
    - intros a. rewrite app_nil_l, covers_cons. unfold in_module. rewrite Heq. done.
    - destruct Hp. lia. }
  destruct (Z.eqb_spec start (start_address prev + size prev)) as [Heq|];
    cbn [andb]; [|done].
  destruct (bool_decide (is_Some nm) && bool_decide (nm = name prev)).
  - rewrite Hsub. apply Hext; [lia|by apply with_end_ok|done|done].
  - match goal with |- context [if ?c then _ else _] => destruct c end; [|done].
    rewrite Hsub. apply Hext; [lia|by apply with_size_ok|done|done].
Qed.

Lemma empty_page_ok prev_prev prev :
  module_ok prev_prev -> module_ok prev ->
  exists b, empty_page_between prev_prev prev start = Ok b /\
    (b = true -> start_address prev_prev + size prev_prev = start_address prev /\
                 start_address prev + size prev = start).
Proof.
  intros Hpp Hp. unfold empty_page_between. rewrite !end_address_ok by done. cbn [mbind res_bind].
  destruct (name_is_path prev_prev); simpl; [|by exists false].
  destruct (Z.eqb_spec (start_address prev_prev + size prev_prev) (start_address prev));
    simpl; [|by exists false].
  destruct (is_empty_page prev); simpl; [|by exists false].
  eexists. split; [done|]. intros Hb. apply Z.eqb_eq in Hb. done.
Qed.

Local Ltac found := eexists; split; [reflexivity|done].

Lemma aggregate_step_ok gate infos :
  gate <= usize_max -> modules_to start infos ->
  exists infos', aggregate_step gate infos mm = Ok infos' /\ step_result stop mm infos infos'.
Proof.
  intros Hg Hi. pose proof Hline as (Hl1 & Hl2 & Hl3). unfold start, stop in *. unfold aggregate_step.
  rewrite !try_usize_ok by lia. cbn [mbind res_bind].
  destruct (is_linux_gate_ok gate (is_mapping_a_path (mapping_name (pathname mm)))
              (fst (address mm)) Hg) as [b ->]. cbn [mbind res_bind].
  rewrite sub_u_ok by lia. cbn [mbind res_bind].
  cbv zeta beta. set (nm := if b then Some LINUX_GATE_LIBRARY_NAME else mapping_name (pathname mm)).
  set (off := if b then 0 else mm_offset mm).
  pose proof (push_result off nm infos Hi) as Hpush.
  destruct infos as [|prev infos']; [found|].
  cbn [modules_to] in Hi. destruct Hi as (Hp & Hple & Hi').
  pose proof (merge_last_ok prev off nm infos' Hp Hi' Hple) as Hm.
  unfold start, stop in Hm.
  destruct (merge_last prev _ _ off nm _) as [[prev'|]| |]; cbn [mbind res_bind]; try done;
    [found|].
  destruct infos' as [|pp infos'']; [found|].
  cbn [modules_to] in Hi'. destruct Hi' as (Hpp & Hpple & Hi'').
  destruct (empty_page_ok pp prev Hpp Hp) as (b' & Hbe & Hb').
  unfold start in Hbe, Hb'. rewrite Hbe. cbn [mbind res_bind].
  destruct b'; simpl; [|found]. case_bool_decide; [|found].
  specialize (Hb' eq_refl) as [He1 He2]. rewrite sub_u_ok by (destruct Hpp, Hp; lia).
  eexists. split; [done|].
  apply (extend_result pp _ [prev]); try done.
  - intros a. simpl. rewrite !covers_cons. unfold in_module. rewrite He1, He2.
    destruct Hpp, Hp. split; [|intros [?|?]; [|tauto]]; try (intros [?|[?|?]]; [left; lia|left; lia|tauto]).
    destruct (decide (a < start_address prev)); [right; left|left]; lia.
  - destruct Hpp, Hp. lia.
  - apply with_end_ok; [done|]. destruct Hp. lia.
Qed.
End one_step.

Lemma aggregate_loop_ok gate mms : forall infos lo,
  gate <= usize_max -> modules_to lo infos -> lines_from lo mms ->
  exists infos' hi, aggregate_loop gate infos mms = Ok infos' /\ modules_to hi infos' /\
    forall a, covers infos' a <-> covers infos a \/ Exists (in_line a) mms.
Proof.
  induction mms as [|mm mms IH]; intros infos lo Hg Hi Hl; cbn [aggregate_loop].
  - exists infos, lo. split_and!; [done|done|]. intros a. rewrite Exists_nil. tauto.
  - cbn [lines_from] in Hl. destruct Hl as (Hline & Hlo & Hrest).
    destruct (aggregate_step_ok mm Hline gate infos Hg) as (i1 & -> & [Ho Hc]);
      [by apply (modules_to_weaken lo)|].
    cbn [mbind res_bind]. destruct (IH i1 _ Hg Ho Hrest) as (i2 & hi & -> & Hi2 & Hc2).
    exists i2, hi. split_and!; [done|done|]. intros a. rewrite Hc2, Hc, Exists_cons. tauto.
Qed.

Lemma modules_from_snoc ms : forall lo m,
  modules_from lo ms -> module_ok m -> lo <= start_address m ->
  Forall (fun m' => start_address m' + size m' <= start_address m) ms ->
  modules_from lo (ms ++ [m]).
Proof.
  induction ms as [|x ms IH]; intros lo m Hms Hm Hlo Hf; simpl in *.
  - split_and!; done.
  - destruct Hms as (? & ? & ?). inversion Hf; subst. split_and!; [done|done|].
    by apply IH.
Qed.

Lemma modules_to_rev infos : forall hi,
  modules_to hi infos ->
  modules_from 0 (rev infos) /\ Forall (fun m => start_address m + size m <= hi) (rev infos).
Proof.
  induction infos as [|m infos IH]; intros hi; cbn [modules_to rev].
  - split; [done|constructor].
  - intros (Hm & Hle & Hrest). destruct (IH _ Hrest) as [Hf Hb]. split.
    + apply modules_from_snoc; [done|done|by destruct Hm|done].
    + apply list.Forall_app. split; [|by constructor].
      eapply Forall_impl; [exact Hb|]. simpl. intros x ?. destruct Hm. lia.
Qed.

Lemma aggregate_ok mms gate :
  gate <= usize_max -> lines_from 0 mms ->
  exists infos, aggregate mms gate = Ok infos /\ modules_from 0 infos /\
    forall a, Exists (in_module a) infos <-> Exists (in_line a) mms.
Proof.
  intros Hg Hl. unfold aggregate.
  destruct (aggregate_loop_ok gate mms [] 0 Hg I Hl) as (infos & hi & -> & Hi & Hc).
  exists (rev infos). split; [done|]. split; [by apply (modules_to_rev infos hi)|].
  intros a. specialize (Hc a). unfold covers in Hc. rewrite (Exists_nil (in_module a)) in Hc.
  assert (Hrev : Exists (in_module a) (rev infos) <-> Exists (in_module a) infos).
  { rewrite !Exists_exists. by setoid_rewrite list_elem_of_In; setoid_rewrite <- in_rev. }
  rewrite Hrev, Hc. tauto.
Qed.
End spec.

(** C20: on the lines the kernel gives (increasing, without overlap),
    [aggregate] succeeds without overflow in every profile; the modules are
    ordered and disjoint, each starts and ends as the system mapping says or
    beyond its end, and together they cover exactly the addresses of the lines:
    the merging rules neither lose nor invent memory. *)
Theorem aggregate_partitions (TG : Target) (mms : list MemoryMap) (linux_gate_loc : Z) :
  linux_gate_loc <= usize_max -> lines_from 0 mms ->
  exists infos, aggregate mms linux_gate_loc = Ok infos /\ modules_from 0 infos /\
    forall a, Exists (in_module a) infos <-> Exists (in_line a) mms.
Proof. apply aggregate_ok. Qed.

(** ** Test data *)

Definition rp := mkPerms true false false false true.
Definition rxp := mkPerms true false true false true.
Definition rwp := mkPerms true true false false true.
Definition line (a b : Z) (p : MMPermissions) (off : Z) (path : MMapPath) : MemoryMap :=
  mkMemoryMap (a, b) p off path.

(** The lines of [test_merged_reserved_mappings_within_module]. *)
Definition libxul : MMapPath :=
  Path (bytes_of "/data/app/org.mozilla.firefox-1/lib/x86/libxul.so").
Definition libxul_lines : list MemoryMap :=
  [ line 0x9b4a0000 0x9b931000 rp 0 libxul;
    line 0x9b931000 0x9bcae000 only_private 0 Anonymous;
    line 0x9bcae000 0xa116b000 rxp 0x490000 libxul;
    line 0xa116b000 0xa4562000 rp 0x594d000 libxul;
    line 0xa4562000 0xa4563000 only_private 0 Anonymous;
    line 0xa4563000 0xa4840000 rp 0x8d44000 libxul;
    line 0xa4840000 0xa4873000 rwp 0x9021000 libxul ].

Example aggregate_libxul_lines :
  aggregate (H := x64_debug) libxul_lines 0xa4876000 =
  Ok [mkMapping 0x9b4a0000 155004928 (mkSystemMapping 0x9b4a0000 0xa4873000) 0
        (mkPerms true true true false true)
        (Some (bytes_of "/data/app/org.mozilla.firefox-1/lib/x86/libxul.so"))].
Proof. vm_compute. reflexivity. Qed.

(** The lines of [test_merged] with the anonymous tail of a library and the gate. *)
Definition cat : MMapPath := Path (bytes_of "/usr/bin/cat").
Definition cat_lines : list MemoryMap :=
  [ line 0x5597483fc000 0x5597483fe000 rp 0 cat;
    line 0x5597483fe000 0x559748402000 rxp 0x2000 cat;
    line 0x559748402000 0x559748404000 rp 0x6000 cat;
    line 0x559748404000 0x559748405000 rp 0x7000 cat;
    line 0x559748405000 0x559748406000 rwp 0x8000 cat;
    line 0x559749b0e000 0x559749b2f000 rwp 0 Heap;
    line 0x7efd968d3000 0x7efd968f5000 rwp 0 Anonymous;
    line 0x7ffc6e0f7000 0x7ffc6e0f9000 rxp 0 Vdso ].

Example aggregate_cat_lines :
  aggregate (H := x64_debug) cat_lines 0x7ffc6e0f7000 =
  Ok [ mkMapping 0x5597483fc000 40960 (mkSystemMapping 0x5597483fc000 0x559748406000) 0
         (mkPerms true true true false true) (Some (bytes_of "/usr/bin/cat"));
       mkMapping 0x559749b0e000 135168 (mkSystemMapping 0x559749b0e000 0x559749b2f000) 0
         rwp (Some (bytes_of "[heap]"));
       mkMapping 0x7efd968d3000 139264 (mkSystemMapping 0x7efd968d3000 0x7efd968f5000) 0
         rwp None;
       mkMapping 0x7ffc6e0f7000 8192 (mkSystemMapping 0x7ffc6e0f7000 0x7ffc6e0f9000) 0
         rxp (Some (bytes_of "linux-gate.so")) ].
Proof. vm_compute. reflexivity. Qed.

Lemma libxul_lines_ok : @lines_from x64_release 0 libxul_lines.
Proof. repeat split; vm_compute; discriminate. Qed.

Lemma aggregate_partitions_witness :
  exists infos, aggregate (H := x64_release) libxul_lines 0 = Ok infos /\
    @modules_from x64_release 0 infos /\
    forall a, Exists (in_module a) infos <-> Exists (in_line a) libxul_lines.
Proof.
  exact (@aggregate_partitions x64_release libxul_lines 0 ltac:(vm_compute; discriminate)
           libxul_lines_ok).
Defined.

(** ** The stack scan *)

Section stack_scan.
Context `{TG : Target}.

Notation w := (Z.of_nat size_of_usize).

Lemma word_pow : exists k, 0 <= k /\ w = 2 ^ k.
Proof.
  unfold size_of_usize. destruct pointer_width; [exists 2|exists 3]; split; done.
Qed.

Lemma align_word_ok {E} x :
  0 <= x -> x + w < 2 ^ usize_bits ->
  align_word (E := E) x = Ok ((x + w - 1) / w * w).
Proof.
  intros Hx Hb. pose proof size_of_usize_pos. unfold align_word, add_u.
  rewrite checked_fits by (unfold in_bits; lia). cbn [mbind res_bind].
  rewrite sub_u_ok by lia. cbn [mbind res_bind]. f_equal.
  destruct word_pow as (k & Hk & ->).
  rewrite <- Z.ldiff_land. replace (2 ^ k - 1) with (Z.ones k) by (rewrite Z.ones_equiv; lia).
  rewrite Z.ldiff_ones_r, Z.shiftr_div_pow2, Z.shiftl_mul_pow2 by lia. done.
Qed.

Lemma align_word_spec x :
  let o := (x + w - 1) / w * w in (w | o) /\ x <= o < x + w.
Proof.
  pose proof size_of_usize_pos. intros o. split; [apply Z.divide_factor_r|].
  subst o. generalize dependent size_of_usize. intros n Hn.
  pose proof (Z.div_mod (x + Z.of_nat n - 1) (Z.of_nat n) ltac:(lia)).
  pose proof (Z.mod_pos_bound (x + Z.of_nat n - 1) (Z.of_nat n) ltac:(lia)). lia.
Qed.

Lemma multiple_above (n : nat) (o x p : Z) :
  (0 < n)%nat -> (Z.of_nat n | o) -> (Z.of_nat n | p) ->
  o < x + Z.of_nat n -> x <= p -> o <= p.
Proof.
  intros Hn [i ->] [j ->] ? ?. destruct (decide (i <= j)); [nia|].
  assert (j + 1 <= i) by lia. nia.
Qed.

Lemma next_multiple (o p : Z) :
  (w | o) -> (w | p) -> o < p -> o + w <= p.
Proof.
  pose proof size_of_usize_pos as Hw. intros Ho Hp Hlt.
  apply (multiple_above size_of_usize _ (o + 1)); [done| |done|lia|lia].
  by apply Z.divide_add_r; [|reflexivity].
Qed.

(** An aligned word of the copy, at or above [lo], whose value is in the range. *)
Definition points_into (low high : Z) (stack : list byte) (lo : Z) : Prop :=
  exists o, (w | o) /\ lo <= o /\ o + w <= Z.of_nat (List.length stack) /\
    low <= le_combine (bytes_at (Z.to_nat o) size_of_usize stack) <= high.

Lemma pointer_loop_ok {E} low high stack fuel : forall o,
  0 <= o -> (w | o) -> w <= Z.of_nat (List.length stack) ->
  Z.of_nat (List.length stack) < 2 ^ usize_bits ->
  Z.of_nat (List.length stack) - o < Z.of_nat fuel -> (0 < fuel)%nat ->
  exists b, pointer_loop (E := E) fuel low high stack o = Ok b /\
    (b = true <-> points_into low high stack o).
Proof.
  pose proof size_of_usize_pos as Hw.
  induction fuel as [|fuel IH]; intros o Ho Hdiv Hlen Hbits Hfuel Hpos; [lia|].
  cbn [pointer_loop]. rewrite sub_u_ok by lia. cbn [mbind res_bind].
  destruct (Z.leb_spec o (Z.of_nat (List.length stack) - w)) as [Hle|Hgt].
  - rewrite (proj2 (Z.ltb_ge _ _)) by lia.
    rewrite (proj2 (Nat.ltb_ge _ _)) by (rewrite length_drop; lia).
    fold (bytes_at (Z.to_nat o) size_of_usize stack).
    destruct ((low <=? _) && _) eqn:Ein.
    + apply andb_prop in Ein as [?%Z.leb_le ?%Z.leb_le].
      exists true. split; [done|]. split; [intros _|done].
      exists o. split_and!; [done|lia|lia|lia|lia].
    + unfold add_u. rewrite checked_fits by (unfold in_bits; lia). cbn [mbind res_bind].
      assert (Hdiv' : (w | o + w)) by (by apply Z.divide_add_r; [|reflexivity]).
      destruct (IH (o + w)) as (b & -> & Hb); [lia|done|lia|lia|lia|lia|].
      exists b. split; [done|]. rewrite Hb. split.
      * intros (p & ? & ? & ? & ?). exists p. split_and!; [done|lia|done|lia|lia].
      * intros (p & Hp & Hp2 & ? & ?). exists p. split_and!; [done| |done|lia|lia].
        destruct (decide (p = o)) as [->|].
        { apply andb_false_iff in Ein as [?%Z.leb_gt|?%Z.leb_gt]; lia. }
        by apply next_multiple; [..|lia].
  - exists false. split; [done|]. split; [done|].
    intros (p & ? & ? & ? & ?). lia.
Qed.
End stack_scan.

(** [stack_has_pointer_to_mapping] answers for every stack copy of at least
    one word, and answers yes exactly when some word-aligned word of the copy
    at or above the stack pointer holds an address between the start and the
    end of the mapping, the end included. *)
Theorem stack_pointer_scan_exact `{TG : Target} (m : MappingInfo) (stack : list byte)
    (sp_offset : Z) :
  0 <= sp_offset -> sp_offset + Z.of_nat size_of_usize < 2 ^ usize_bits ->
  Z.of_nat size_of_usize <= Z.of_nat (List.length stack) < 2 ^ usize_bits ->
  exists b, stack_has_pointer_to_mapping (E := DumperError) m stack sp_offset = Ok b /\
    (b = true <-> points_into (sys_start_address (system_mapping_info m))
                    (sys_end_address (system_mapping_info m)) stack sp_offset).
Proof.
  intros Hs Hfit [Hl Hb]. unfold stack_has_pointer_to_mapping.
  rewrite align_word_ok by done. cbn [mbind res_bind].
  destruct (align_word_spec sp_offset) as [Hdiv Hr].
  set (o := (sp_offset + Z.of_nat size_of_usize - 1) / _ * _) in *.
  destruct (pointer_loop_ok (E := DumperError) (sys_start_address (system_mapping_info m))
    (sys_end_address (system_mapping_info m)) stack (S (List.length stack)) o)
    as (b & -> & Hp); [lia|done|lia|lia|lia|lia|].
  exists b. split; [done|]. rewrite Hp.
  split; intros (p & Hdp & ? & ? & ?); exists p; split_and!; try done; try lia.
  apply (multiple_above size_of_usize _ sp_offset); [apply size_of_usize_pos|done|done|lia|lia].
Qed.

Definition one_word_mapping : MappingInfo :=
  mkMapping 0x1000 0x1000 (mkSystemMapping 0x1000 0x2000) 0 rxp None.

Lemma stack_pointer_scan_witness :
  exists b, stack_has_pointer_to_mapping (H := x64_release) (E := DumperError) one_word_mapping
      (le_split 8 0x7000 ++ le_split 8 0x2000) 3 = Ok b /\
    (b = true <-> @points_into x64_release 0x1000 0x2000
                    (le_split 8 0x7000 ++ le_split 8 0x2000) 3).
Proof.
  exact (@stack_pointer_scan_exact x64_release one_word_mapping
    (le_split 8 0x7000 ++ le_split 8 0x2000) 3 ltac:(lia)
    ltac:(vm_compute; reflexivity) ltac:(split; vm_compute; [discriminate|reflexivity])).
Defined.

(** ** Versions *)

Definition so (s : string) : res DumperError (option SoVersion) := SoVersion_parse (bytes_of s).

Example so_version_examples :
  so "/home/alex/bin/firefox/libmozsandbox.so" = Ok None /\
  so "/usr/lib/libstdc++.so.6.0.32" = Ok (Some (mkSoVersion 6 0 32 0)) /\
  so "/usr/lib/libcairo-gobject.so.2.11800.0" = Ok (Some (mkSoVersion 2 11800 0 0)) /\
  so "/usr/lib/libm.so.6" = Ok (Some (mkSoVersion 6 0 0 0)) /\
  so "/usr/lib/libgmodule-2.0.so.0.7800.0" = Ok (Some (mkSoVersion 0 7800 0 0)) /\
  so "/usr/lib/libabsl_time_zone.so.20220623.0.0" = Ok (Some (mkSoVersion 20220623 0 0 0)) /\
  so "/usr/lib/libdbus-1.so.3.34.2rc5" = Ok (Some (mkSoVersion 3 34 2 5)) /\
  so "/usr/lib/libdbus-1.so.3.34.2rc" = Ok (Some (mkSoVersion 3 34 2 0)) /\
  so "/usr/lib/libdbus-1.so.3.34.rc5" = Ok (Some (mkSoVersion 3 34 0 5)) /\
  so "/usr/lib/libtoto.so.AAA" = Ok (Some (mkSoVersion 0 0 0 0)) /\
  so "/usr/lib/libsemver-1.so.1.2.alpha.1" = Ok (Some (mkSoVersion 1 2 0 1)) /\
  so "/usr/lib/libboop.so.1.2.3.4.5" = Ok (Some (mkSoVersion 1 2 3 4)) /\
  so "/usr/lib/libboop.so.1.2.3pre4.5" = Ok (Some (mkSoVersion 1 2 3 4)).
Proof. repeat split; vm_compute; reflexivity. Qed.

Definition is_ascii (c : Z) : Prop := 0 <= c < 128.

Lemma split_on_elems {A} (p : A -> bool) (P : A -> Prop) l :
  Forall P l -> Forall (Forall P) (split_on p l).
Proof.
  induction 1 as [|x l Hx Hl IH]; simpl; [repeat constructor|].
  destruct (p x); [by constructor|].
  destruct (split_on p l); inversion IH; subst; repeat constructor; done.
Qed.

Lemma split_once_elems `{EqDecision A} (P : A -> Prop) (p l a b : list A) :
  Forall P l -> split_once p l = Some (a, b) -> Forall P b.
Proof.
  intros Hl. revert a b. induction Hl as [|x l Hx Hl IH]; intros a b; cbn [split_once].
  - case_match; [|done]. intros [= <- <-]. by apply Forall_drop.
  - case_match; [intros [= <- <-]; by apply Forall_drop; constructor|].
    destruct (split_once p l) as [[a' b']|]; simpl; [|done].
    intros [= <- <-]. by eapply IH.
Qed.

Lemma lossy_ascii l : Forall (fun b => byte.unsigned b < 128) l ->
  to_string_lossy l = byte.unsigned <$> l.
Proof.
  unfold to_string_lossy. induction 1 as [|b l Hb Hl IH]; [done|].
  cbn [List.length utf8_lossy_fuel utf8_step]. rewrite (proj2 (Z.ltb_lt _ _) Hb).
  change (drop 1 (b :: l)) with l. by rewrite IH.
Qed.

Lemma parse_digits_bits bound radix s : forall acc v,
  0 <= acc < bound -> 0 <= radix -> parse_digits radix bound acc s = Some v -> 0 <= v < bound.
Proof.
  induction s as [|c s IH]; intros acc v Hacc Hr; simpl; [by intros [= <-]|].
  destruct (digit_val radix c) as [d|] eqn:Ed; simpl; [|done].
  destruct (Z.ltb_spec (acc * radix + d) bound); [|done]. apply IH; [|done].
  split; [|done]. unfold digit_val, is_ascii_digit in Ed.
  assert (0 <= d); [|nia].
  repeat case_match; simpl in Ed; simplify_eq; try case_match; simplify_eq;
    rewrite ?andb_true_iff, ?Z.leb_le in *; lia.
Qed.

Lemma parse_uint_bits s v : parse_uint 32 10 s = Some v -> in_bits 32 v.
Proof.
  unfold parse_uint, in_bits. intros Hs. repeat case_match; try done;
    (eapply parse_digits_bits; [| |exact Hs]; lia).
Qed.

Lemma parse_or_zero_bits s : in_bits 32 (parse_or_zero s).
Proof.
  unfold parse_or_zero. destruct (parse_uint 32 10 s) eqn:E; [by eapply parse_uint_bits|].
  unfold in_bits. lia.
Qed.

Lemma after_last_nondigit_ascii {E} comp :
  Forall is_ascii comp -> exists o, after_last_nondigit (E := E) comp = Ok o.
Proof.
  intros Hc. unfold after_last_nondigit. destruct (rfind_idx _ comp) as [i|]; [|by eexists].
  assert (nth i comp 0 < 128) as H.
  { destruct (nth_in_or_default i comp 0) as [Hi| ->]; [|lia].
    apply list_elem_of_In in Hi. rewrite list.Forall_forall in Hc. apply Hc in Hi.
    unfold is_ascii in Hi. lia. }
  rewrite (proj2 (Z.ltb_lt _ _) H). by eexists.
Qed.

Lemma so_components_ok {E} parts : forall i comps,
  Forall (Forall is_ascii) parts -> Forall (in_bits 32) comps ->
  exists r, so_components (E := E) i parts comps = Ok r /\ Forall (in_bits 32) r.
Proof.
  induction parts as [|comp parts IH]; intros i comps Hp Hc; cbn [so_components]; [by eexists|].
  inversion Hp; subst. pose proof (parse_or_zero_bits comp).
  case_decide; [by apply IH; [|apply Forall_insert]|].
  case_decide; [by eexists|].
  destruct (find_idx _ comp) as [pend|]; [|by apply IH; [|apply Forall_insert]].
  set (comps1 := match parse_uint 32 10 (take pend comp) with Some v => _ | None => comps end).
  assert (Hc1 : Forall (in_bits 32) comps1).
  { subst comps1. case_match eqn:E1; [|done]. apply Forall_insert; [done|].
    by eapply parse_uint_bits. }
  case_decide; [by eexists|].
  destruct (after_last_nondigit_ascii (E := E) comp) as [o ->]; [done|]. cbn [mbind res_bind].
  destruct (o ≫= parse_uint 32 10) as [pre|] eqn:Eo; [|by apply IH].
  eexists. split; [done|]. apply Forall_insert; [done|].
  destruct o; simpl in Eo; [|done]. by eapply parse_uint_bits.
Qed.

(** parsing the version out of the name of a shared object terminates
    without a panic on every ASCII path, and each of the four numbers is a
    32-bit value, whatever the digits in the name. *)
Theorem so_version_ascii_total (path : OsString) :
  Forall (fun b => byte.unsigned b < 128) path ->
  exists v, SoVersion_parse (E := DumperError) path = Ok v /\
    forall sv, v = Some sv -> in_bits 32 (major sv) /\ in_bits 32 (minor sv) /\
      in_bits 32 (patch sv) /\ in_bits 32 (prerelease sv).
Proof.
  intros Hp. unfold SoVersion_parse.
  destruct (file_name path) as [fname|] eqn:Ef; [|by eexists].
  assert (Hf : Forall (fun b => byte.unsigned b < 128) fname).
  { unfold file_name in Ef. destruct (last (path_components path)) as [c|] eqn:El; [|done].
    simpl in Ef. case_decide; simplify_eq. apply last_Some_elem_of in El.
    unfold path_components in El. apply list_elem_of_filter in El as [_ El].
    pose proof (split_on_elems is_slash _ path Hp) as Hs. rewrite list.Forall_forall in Hs.
    by apply Hs. }
  rewrite lossy_ascii by done.
  destruct (split_once _ _) as [[pre version]|] eqn:Es; [|by eexists].
  assert (Hv : Forall is_ascii version).
  { eapply split_once_elems; [|exact Es]. apply Forall_fmap.
    eapply Forall_impl; [exact Hf|]. intros b Hb. unfold is_ascii. simpl in *.
    pose proof (byte.unsigned_range b). lia. }
  destruct (so_components_ok (E := DumperError) (split_on (Z.eqb 46) version) 0 [0; 0; 0; 0])
    as (comps & -> & Hc); [by apply split_on_elems|repeat constructor; done|].
  cbn [mbind res_bind]. eexists. split; [done|]. intros sv [= <-]. simpl.
  assert (Hn : forall i, in_bits 32 (nth i comps 0)).
  { intros i. destruct (nth_in_or_default i comps 0) as [Hi| ->]; [|unfold in_bits; lia].
    rewrite list.Forall_forall in Hc. apply Hc. by apply list_elem_of_In. }
  auto.
Qed.

Lemma so_version_ascii_witness :
  exists v, SoVersion_parse (E := DumperError) (bytes_of "/usr/lib/libdbus-1.so.3.34.2rc5") = Ok v.
Proof.
  destruct (so_version_ascii_total (bytes_of "/usr/lib/libdbus-1.so.3.34.2rc5")
    ltac:(repeat constructor; vm_compute; reflexivity)) as (v & Hv & _).
  exists v. exact Hv.
Defined.

(** a mapped file whose third version component ends in a character of
    several bytes stops the dump: the version parser cuts the name inside that
    character and panics.  Here the name ends in a byte that is not UTF-8. *)
Theorem so_version_panics_inside_character :
  SoVersion_parse (E := DumperError) (bytes_of "/usr/lib/libx.so.1.2." ++ [Byte.xff]) = Panic.
Proof. vm_compute. reflexivity. Qed.
