(* ===== verification/Auxv.v ===== *)
(** * The auxiliary vector (src/src/linux/auxv/mod.rs, src/src/linux/auxv/reader.rs)

    [ProcfsAuxvIter] decodes the key-value pairs of /proc/<pid>/auxv from a
    reader that may deliver the file in fragments of any size;
    [AuxvDumpInfo] keeps the four values the dumper needs. *)
From Stdlib Require Import ZArith Lia String.
From S2P Require Import Prelude RustStr Layout Errors Os.

Local Open Scope Z_scope.

Definition AT_NULL : Z := 0.
Definition AT_PHDR : Z := 3.
Definition AT_PHNUM : Z := 5.
Definition AT_ENTRY : Z := 9.
Definition AT_SYSINFO_EHDR : Z := 33.

Record AuxvPair := mkAuxvPair { key : Z; value : Z }.

Record DirectAuxvDumpInfo := mkDirectAuxv {
  d_program_header_count : Z;
  d_program_header_address : Z;
  d_linux_gate_address : Z;
  d_entry_address : Z;
}.

Record AuxvDumpInfo := mkAuxv {
  program_header_count : option Z;
  program_header_address : option Z;
  linux_gate_address : option Z;
  entry_address : option Z;
}.

Definition default_auxv : AuxvDumpInfo := mkAuxv None None None None.

(** [(v > 0).then_some(v)] *)
Definition then_some (v : Z) : option Z := if 0 <? v then Some v else None.

(** [AuxvDumpInfo::from(DirectAuxvDumpInfo)] *)
Definition auxv_from (f : DirectAuxvDumpInfo) : AuxvDumpInfo :=
  mkAuxv (then_some (d_program_header_count f)) (then_some (d_program_header_address f))
    (then_some (d_linux_gate_address f)) (then_some (d_entry_address f)).

Definition get_program_header_count (a : AuxvDumpInfo) : option Z := program_header_count a.
Definition get_program_header_address (a : AuxvDumpInfo) : option Z := program_header_address a.
Definition get_linux_gate_address (a : AuxvDumpInfo) : option Z := linux_gate_address a.
Definition get_entry_address (a : AuxvDumpInfo) : option Z := entry_address a.

Definition is_complete (a : AuxvDumpInfo) : bool :=
  bool_decide (is_Some (program_header_count a)) &&
  bool_decide (is_Some (program_header_address a)) &&
  bool_decide (is_Some (linux_gate_address a)) &&
  bool_decide (is_Some (entry_address a)).

(** ** The reader *)

Definition Input := list (IoError + list byte).

(** [Read::read] on a buffer of [n] bytes. *)
Definition input_read (n : nat) (input : Input) : res IoError (list byte) * Input :=
  match input with
  | [] => (Ok [], [])
  | inl e :: rest => (Err e, rest)
  | inr bs :: rest =>
      if decide (List.length bs <= n)%nat then (Ok bs, rest)
      else (Ok (take n bs), inr (drop n bs) :: rest)
  end.

Record ProcfsAuxvIter := mkAuxvIter {
  pair_size : nat;
  buf : list byte;
  input : Input;
  keep_going : bool;
}.

Section reader.
Context `{Target}.

Definition ProcfsAuxvIter_new (input : Input) : ProcfsAuxvIter :=
  mkAuxvIter (2 * size_of_usize) [] input true.

(** The [while read_bytes < self.pair_size] loop with what it has read so far;
    every turn reads at least one byte or leaves. *)
Fixpoint fill_buf (fuel : nat) (pair_size : nat) (got : list byte) (input : Input)
    : res AuxvError (list byte) * Input :=
  match fuel with
  | O => (Panic, input)
  | S fuel' =>
      if decide (List.length got < pair_size)%nat then
        match input_read (pair_size - List.length got) input with
        | (Ok [], input') => (Err AuxvError_InvalidFormat, input')
        | (Ok bs, input') => fill_buf fuel' pair_size (got ++ bs) input'
        | (Err e, input') => (Err (AuxvError_IOError e), input')
        | (Panic, input') => (Panic, input')
        end
      else (Ok got, input)
  end.

(** [read_long(&mut reader)]: the value and what is left of the slice. *)
Definition read_long (reader : list byte) : res IoError (Z * list byte) :=
  if decide (size_of_usize <= List.length reader)%nat
  then Ok (le_combine (take size_of_usize reader), drop size_of_usize reader)
  else Err UnexpectedEof.

(** [Iterator::next] *)
Definition auxv_next (it : ProcfsAuxvIter)
    : option (res AuxvError AuxvPair) * ProcfsAuxvIter :=
  if negb (keep_going it) then (None, it)
  else
    let '(r, input') := fill_buf (S (pair_size it)) (pair_size it) [] (input it) in
    match r with
    | Panic => (Some Panic, mkAuxvIter (pair_size it) [] input' false)
    | Err e => (Some (Err e), mkAuxvIter (pair_size it) [] input' false)
    | Ok got =>
        let stop := mkAuxvIter (pair_size it) got input' false in
        match (k ← read_long got; v ← read_long k.2; Ok (k.1, v.1)) with
        | Panic => (Some Panic, stop)
        | Err e => (Some (Err (AuxvError_IOError e)), stop)
        | Ok (aux_key, aux_val) =>
            if aux_key =? AT_NULL then (None, stop)
            else (Some (Ok (mkAuxvPair aux_key aux_val)),
                  mkAuxvIter (pair_size it) got input' true)
        end
    end.

(** [.filter_map(Result::ok)] run to the end.  A successful step takes bytes
    from the input; any other outcome clears [keep_going]. *)
Fixpoint auxv_pairs (fuel : nat) (it : ProcfsAuxvIter) : option (list AuxvPair) :=
  match fuel with
  | O => None
  | S fuel' =>
      match auxv_next it with
      | (None, _) => Some []
      | (Some (Ok p), it') => cons p <$> auxv_pairs fuel' it'
      | (Some (Err _), it') => auxv_pairs fuel' it'
      | (Some Panic, _) => None
      end
  end.

End reader.

Definition input_size (i : Input) : nat :=
  sum_list ((fun x => match x with inl _ => 0 | inr bs => List.length bs end)%nat <$> i).

(** ** Filling in the missing values *)

Definition fill (o : option Z) (v : Z) : option Z := match o with None => Some v | _ => o end.

Definition fill_field (a : AuxvDumpInfo) (p : AuxvPair) : AuxvDumpInfo :=
  let '(mkAuxv c h g e) := a in
  if key p =? AT_PHNUM then mkAuxv (fill c (value p)) h g e
  else if key p =? AT_PHDR then mkAuxv c (fill h (value p)) g e
  else if key p =? AT_SYSINFO_EHDR then mkAuxv c h (fill g (value p)) e
  else if key p =? AT_ENTRY then mkAuxv c h g (fill e (value p))
  else a.

Definition proc_path (pid : Pid) (tail : string) : RString :=
  str_of "/proc/" ++ fmt_dec pid ++ str_of tail.

Section filling.
Context `{Target} {OS : Os}.

Definition try_filling_missing_info (pid : Pid) : ST AuxvDumpInfo AuxvError unit := fun a =>
  if is_complete a then (Ok tt, a)
  else
    let auxv_path := proc_path pid "/auxv" in
    match fs_open (utf8_encode auxv_path) with
    | inl e => (Err (AuxvError_OpenError auxv_path e), a)
    | inr input =>
        match auxv_pairs (S (S (input_size input))) (ProcfsAuxvIter_new input) with
        | None => (Panic, a)
        | Some pairs => (Ok tt, fold_left fill_field pairs a)
        end
    end.

End filling.

(** ** The reader against the bytes of the file *)

(** What the file says: the pairs before the terminating zero key, read from
    the plain bytes; a truncated pair ends the list. *)
Fixpoint pairs_of_bytes `{Target} (fuel : nat) (l : list byte) : list AuxvPair :=
  match fuel with
  | O => []
  | S fuel' =>
      if decide (List.length l < 2 * size_of_usize)%nat then []
      else
        let k := le_combine (take size_of_usize l) in
        let v := le_combine (bytes_at size_of_usize size_of_usize l) in
        if k =? AT_NULL then []
        else mkAuxvPair k v :: pairs_of_bytes fuel' (drop (2 * size_of_usize) l)
  end.

(** A delivery of the bytes without errors and without empty fragments. *)
Definition delivers (i : Input) (l : list byte) : Prop :=
  exists frags, i = (inr <$> frags) /\ Forall (fun f => f <> []) frags /\ concat frags = l.

Lemma input_read_delivers n i l : (0 < n)%nat -> delivers i l ->
  exists bs i' l', input_read n i = (Ok bs, i') /\ delivers i' l' /\ l = bs ++ l' /\
    (List.length bs <= n)%nat /\ (bs = [] -> l = []).
Proof.
  intros Hn (frags & -> & Hne & <-). destruct frags as [|f frags]; simpl.
  - exists [], [], []. split_and!; [done| |done|simpl; lia|done]. exists []. by split_and!.
  - inversion Hne; subst. case_decide.
    + exists f, (inr <$> frags), (concat frags).
      split_and!; [done|by exists frags|done|done|done].
    + exists (take n f), (inr <$> (drop n f :: frags)), (drop n f ++ concat frags).
      split_and!; [done| |by rewrite app_assoc, take_drop|rewrite length_take; lia|].
      * exists (drop n f :: frags). split_and!; [done| |done]. constructor; [|done].
        intros E. apply (f_equal List.length) in E. rewrite length_drop in E. simpl in E. lia.
      * intros E. apply (f_equal List.length) in E. rewrite length_take in E. simpl in E. lia.
Qed.

Lemma fill_buf_delivers size : forall fuel got i l,
  (size - List.length got < fuel)%nat -> (List.length got <= size)%nat -> delivers i l ->
  if decide (size <= List.length got + List.length l)%nat
  then exists i', fill_buf fuel size got i = (Ok (got ++ take (size - List.length got) l), i') /\
         delivers i' (drop (size - List.length got) l)
  else exists i', fill_buf fuel size got i = (Err AuxvError_InvalidFormat, i').
Proof.
  induction fuel as [|fuel IH]; intros got i l Hf Hg Hd; [lia|]. cbn [fill_buf].
  destruct (decide (List.length got < size)%nat) as [Hlt|Hge].
  - destruct (input_read_delivers (size - List.length got) i l ltac:(lia) Hd)
      as (bs & i' & l' & -> & Hd' & -> & Hl & Hnil).
    destruct bs as [|b bs].
    { specialize (Hnil eq_refl). simpl in *. subst. rewrite decide_False by (simpl; lia).
      by eexists. }
    specialize (IH (got ++ b :: bs) i' l').
    rewrite length_app in IH. specialize (IH ltac:(simpl in *; lia) ltac:(simpl in *; lia) Hd').
    rewrite length_app. destruct (decide (size <= _)%nat) as [Hs|Hs];
      [rewrite decide_True by lia|rewrite decide_False by lia; done].
    destruct IH as (i2 & -> & Hd2). exists i2. split.
    + f_equal. f_equal. rewrite <- app_assoc. f_equal.
      rewrite take_app_ge by lia. f_equal. f_equal. lia.
    + rewrite drop_app_ge by lia. eapply eq_rect; [exact Hd2|]. f_equal. lia.
  - rewrite decide_True by lia. exists i.
    replace (size - List.length got)%nat with 0%nat by lia.
    rewrite take_0, app_nil_r, drop_0. done.
Qed.

Lemma delivers_size i l : delivers i l -> input_size i = List.length l.
Proof.
  intros (frags & -> & _ & <-). unfold input_size. induction frags as [|f frags IH]; [done|].
  simpl. rewrite length_app. f_equal. exact IH.
Qed.

Section decode.
Context `{TG : Target}.

Lemma auxv_pairs_delivers fuel : forall i l b fuel',
  (S (List.length l) < fuel)%nat -> (List.length l < fuel')%nat -> delivers i l ->
  auxv_pairs fuel (mkAuxvIter (2 * size_of_usize) b i true) = Some (pairs_of_bytes fuel' l).
Proof.
  pose proof size_of_usize_pos as Hw.
  induction fuel as [|fuel IH]; intros i l b fuel' Hf Hf' Hd; [lia|].
  destruct fuel' as [|fuel']; [lia|].
  cbn [auxv_pairs pairs_of_bytes]. unfold auxv_next. cbn [keep_going negb pair_size Auxv.input].
  pose proof (fill_buf_delivers (2 * size_of_usize) (S (2 * size_of_usize)) [] i l) as Hfill.
  specialize (Hfill ltac:(simpl; lia) ltac:(simpl; lia) Hd). cbn [List.length] in Hfill.
  rewrite Nat.sub_0_r, Nat.add_0_l in Hfill.
  destruct (decide (2 * size_of_usize <= List.length l)%nat) as [Hle|Hgt].
  - destruct Hfill as (i' & -> & Hd'). rewrite decide_False by lia. rewrite app_nil_l.
    unfold read_long. rewrite decide_True by (rewrite length_take; lia).
    cbn [mbind res_bind fst snd].
    rewrite decide_True by (rewrite length_drop, length_take; lia).
    cbn [mbind res_bind fst snd].
    assert (Hk : take size_of_usize (take (2 * size_of_usize) l) = take size_of_usize l)
      by (rewrite take_take; f_equal; lia).
    assert (Hv : take size_of_usize (drop size_of_usize (take (2 * size_of_usize) l))
                 = bytes_at size_of_usize size_of_usize l).
    { unfold bytes_at. rewrite skipn_firstn_comm.
      rewrite take_take. f_equal. lia. }
    rewrite Hk, Hv. destruct (_ =? AT_NULL); [done|].
    rewrite (IH i' (drop (2 * size_of_usize) l) _ fuel');
      [done|rewrite length_drop; lia|rewrite length_drop; lia|done].
  - destruct Hfill as (i' & ->). rewrite decide_True by lia.
    destruct fuel as [|fuel]; [lia|]. done.
Qed.
End decode.

(** C40: however the kernel fragments the file, decoding /proc/<pid>/auxv gives
    the pairs of its bytes up to the terminating zero key; a truncated file
    gives the complete pairs before the cut. *)
Theorem auxv_fragmentation_independent `{TG : Target} (i : Input) (l : list byte) :
  delivers i l ->
  auxv_pairs (S (S (input_size i))) (ProcfsAuxvIter_new i)
    = Some (pairs_of_bytes (S (List.length l)) l).
Proof.
  intros Hd. rewrite (delivers_size i l Hd). apply auxv_pairs_delivers; [lia|lia|done].
Qed.

Definition tiny_auxv : list byte :=
  le_split 8 33 ++ le_split 8 0x7ffc6e0f7000 ++ le_split 8 9 ++ le_split 8 0x400000 ++
  le_split 8 0 ++ le_split 8 0.

Definition tiny_frags : list (list byte) := [take 5 tiny_auxv; take 20 (drop 5 tiny_auxv);
  drop 25 tiny_auxv].

Lemma auxv_fragmentation_witness :
  delivers (inr <$> tiny_frags) tiny_auxv /\
  auxv_pairs (H := x64_release) 50 (ProcfsAuxvIter_new (H := x64_release) (inr <$> tiny_frags))
    = Some [mkAuxvPair 33 0x7ffc6e0f7000; mkAuxvPair 9 0x400000].
Proof.
  assert (Hd : delivers (inr <$> tiny_frags) tiny_auxv).
  { exists tiny_frags. split; [reflexivity|].
    split; [repeat constructor; vm_compute; discriminate|vm_compute; reflexivity]. }
  split; [exact Hd|].
  exact (@auxv_fragmentation_independent x64_release (inr <$> tiny_frags) tiny_auxv Hd).
Defined.

(** ** First value wins *)

Definition first_value (k : Z) (ps : list AuxvPair) : option Z :=
  match list_find (fun p => key p = k) ps with Some (_, p) => Some (value p) | None => None end.

Definition or_first (o : option Z) (k : Z) (ps : list AuxvPair) : option Z :=
  match o with Some v => Some v | None => first_value k ps end.

Lemma or_first_cons o k p ps :
  or_first o k (p :: ps) = or_first (if key p =? k then fill o (value p) else o) k ps.
Proof.
  unfold or_first, first_value, fill. simpl.
  destruct o; [by destruct (key p =? k)|]. destruct (Z.eqb_spec (key p) k).
  - rewrite decide_True by done. done.
  - rewrite decide_False by done. by destruct (list_find _ ps) as [[]|].
Qed.

Lemma fill_fields ps : forall a,
  fold_left fill_field ps a =
  mkAuxv (or_first (program_header_count a) AT_PHNUM ps)
    (or_first (program_header_address a) AT_PHDR ps)
    (or_first (linux_gate_address a) AT_SYSINFO_EHDR ps)
    (or_first (entry_address a) AT_ENTRY ps).
Proof.
  induction ps as [|p ps IH]; intros [c h g e]; cbn [fold_left].
  - unfold or_first, first_value. simpl. by destruct c, h, g, e.
  - rewrite IH, !or_first_cons. unfold fill_field. cbn [program_header_count
      program_header_address linux_gate_address entry_address].
    unfold AT_PHNUM, AT_PHDR, AT_SYSINFO_EHDR, AT_ENTRY.
    destruct (Z.eqb_spec (key p) 5) as [E|]; [by rewrite ?E|].
    destruct (Z.eqb_spec (key p) 3) as [E|]; [by rewrite ?E|].
    destruct (Z.eqb_spec (key p) 33) as [E|]; [by rewrite ?E|].
    destruct (Z.eqb_spec (key p) 9) as [E|]; [by rewrite ?E|]. done.
Qed.

(** [try_filling_missing_info] never replaces a value the caller supplied;
    every missing field takes the first value the file gives for its key, and
    stays missing when the file has none. *)
Theorem auxv_filling `{TG : Target} (OS : Os) (pid : Pid) (a : AuxvDumpInfo) (i : Input)
    (l : list byte) :
  fs_open (utf8_encode (proc_path pid "/auxv")) = inr i -> delivers i l ->
  let ps := pairs_of_bytes (S (List.length l)) l in
  try_filling_missing_info pid a =
    (Ok tt, mkAuxv (or_first (program_header_count a) AT_PHNUM ps)
              (or_first (program_header_address a) AT_PHDR ps)
              (or_first (linux_gate_address a) AT_SYSINFO_EHDR ps)
              (or_first (entry_address a) AT_ENTRY ps)).
Proof.
  intros Ho Hd ps. unfold try_filling_missing_info, ProcfsAuxvIter_new. rewrite Ho.
  rewrite (delivers_size i l Hd).
  rewrite (auxv_pairs_delivers (S (S (List.length l))) i l _ (S (List.length l)))
    by (done || lia). rewrite fill_fields.
  destruct (is_complete a) eqn:Ec; [|done].
  unfold is_complete in Ec. rewrite !andb_true_iff, !bool_decide_eq_true in Ec.
  destruct Ec as [[[[? H1] [? H2]] [? H3]] [? H4]].
  destruct a; simpl in *. subst. done.
Qed.

Definition auxv_os : Os := {|
  process_vm_readv _ _ _ := inl EACCES; open_mem _ := inl (OsError EACCES);
  read_exact_at _ _ _ := inl (OsError EACCES); ptrace_read _ _ := inl ESRCH;
  alloc_succeeds _ := true; fs_read _ := inl (OsError 2);
  fs_open _ := inr (inr <$> tiny_frags); fs_mmap _ _ := inl (OsError 2);
  fs_exists _ := false; fs_is_dir _ := false; fs_read_dir _ := inl (OsError 2);
  fs_read_link _ := inl (OsError 2); fs_metadata_mode _ := inl (OsError 2);
  process_id_self := 1; sysconf_page_size := inr (Some 4096); unix_time := Some 0;
|}.

Lemma auxv_filling_witness :
  try_filling_missing_info (H := x64_release) (OS := auxv_os) 7 (mkAuxv None None None (Some 1))
    = (Ok tt, mkAuxv None None (Some 0x7ffc6e0f7000) (Some 1)).
Proof.
  assert (Hd : delivers (inr <$> tiny_frags) tiny_auxv).
  { exists tiny_frags. split; [reflexivity|].
    split; [repeat constructor; vm_compute; discriminate|vm_compute; reflexivity]. }
  exact (@auxv_filling x64_release auxv_os 7 (mkAuxv None None None (Some 1))
           (inr <$> tiny_frags) tiny_auxv eq_refl Hd).
Defined.
