(* ===== verification/Arch.v ===== *)
(** * The processor interface

    What the dumper asks of a target architecture: the CPU context record of
    the minidump, the crash context handed over by the signal handler, and the
    registers of a stopped thread.  The sources select one implementation at
    compile time (src/src/linux/thread_info.rs, src/src/linux/crash_context.rs,
    src/src/minidump_cpu.rs); here it is a class, against which the dumper
    and the streams are modelled.  X86_64.v, X86_32.v and ArmArch.v
    give its instances. *)
From Stdlib Require Import ZArith.
From S2P Require Import Prelude Format RustStr Errors Os.

(** The fields of [signalfd_siginfo] the writer uses. *)
Record SigInfo := mkSigInfo {
  ssi_signo : Z;
  ssi_code : Z;
  ssi_addr : Z;
}.

Class Arch := {
  (** [RawContextCPU], its serialization and its [Default]. *)
  RawContextCPU : Type;
  context_pod :: Pod RawContextCPU;
  default_cpu : RawContextCPU;
  (** [CrashContext] *)
  CrashContext : Type;
  siginfo : CrashContext -> SigInfo;
  cc_get_instruction_pointer : CrashContext -> Z;
  cc_get_stack_pointer : CrashContext -> Z;
  cc_fill_cpu_context : CrashContext -> RawContextCPU -> option RawContextCPU;
  (** [ThreadInfo]: [create] for a thread of a process. *)
  ThreadInfo : Type;
  ti_create : Pid -> Pid -> res ThreadInfoError ThreadInfo;
  ti_stack_pointer : ThreadInfo -> Z;
  ti_get_instruction_pointer : ThreadInfo -> Z;
  ti_fill_cpu_context : ThreadInfo -> RawContextCPU -> option RawContextCPU;
  (** The seccomp test at the end of [suspend_thread]; constantly [false] where
      the source compiles it out. *)
  skip_thread : Pid -> bool;
  (** [write_cpu_information] and [os_information] of [dumper_cpu_info]. *)
  write_cpu_information : MDRawSystemInfo -> res CpuInfoError MDRawSystemInfo;
  os_information : Z * RString;
}.

Class ArchOk (A : Arch) : Prop := context_pod_ok :: PodOk RawContextCPU.
