(* ===== verification/Contexts.v ===== *)
(** * The context records (interface)

    The register records of the minidump format, one per processor, from the
    crate [minidump-common]; src/src/minidump_cpu.rs selects one of them as
    [RawContextCPU].  As in Format.v the records carry the fields the sources
    use, and how they become bytes is an interface. *)
From Stdlib Require Import ZArith Lia.
From S2P Require Import Prelude Format.

Local Open Scope Z_scope.

(** ** x86-64 *)

Record CONTEXT_AMD64 := mkContext {
  context_flags : Z;
  c_cs : Z; c_ds : Z; c_es : Z; c_fs : Z; c_gs : Z; c_ss : Z; c_eflags : Z;
  dr0 : Z; dr1 : Z; dr2 : Z; dr3 : Z; dr6 : Z; dr7 : Z;
  rax : Z; rcx : Z; rdx : Z; rbx : Z; rsp : Z; rbp : Z; rsi : Z; rdi : Z;
  r8 : Z; r9 : Z; r10 : Z; r11 : Z; r12 : Z; r13 : Z; r14 : Z; r15 : Z; rip : Z;
  float_save : list byte;
}.

Record XMM_SAVE_AREA32 := mkXmm {
  control_word : Z; status_word : Z; tag_word : Z; error_opcode : Z; error_offset : Z;
  error_selector : Z; data_offset : Z; data_selector : Z; mx_csr : Z; mx_csr_mask : Z;
  float_registers : list Z; xmm_registers : list Z;
}.

Class Amd64Format := {
  pod_context_amd64 :: Pod CONTEXT_AMD64;
  pod_xmm :: Pod XMM_SAVE_AREA32;
  float_save_len : nat;
  CONTEXT_AMD64_FULL : Z;
  CONTEXT_AMD64_SEGMENTS : Z;
}.

(** The records fill their slots, and the save area fits the bytes reserved
    for it. *)
Class Amd64FormatOk (AF : Amd64Format) : Prop := {
  ok_context_amd64 :: PodOk CONTEXT_AMD64;
  ok_xmm :: PodOk XMM_SAVE_AREA32;
  xmm_prefix : forall (v : XMM_SAVE_AREA32) dst, (size_with XMM_SAVE_AREA32 <= length dst)%nat ->
    try_into_ctx v dst =
      Ok (encode v ++ drop (size_with XMM_SAVE_AREA32) dst, size_with XMM_SAVE_AREA32);
  xmm_fits : (0 < size_with XMM_SAVE_AREA32 <= float_save_len)%nat;
}.

Definition default_context {AF : Amd64Format} : CONTEXT_AMD64 :=
  mkContext 0 0 0 0 0 0 0 0 0 0 0 0 0 0 0 0 0 0 0 0 0 0 0 0 0 0 0 0 0 0 0
    (replicate float_save_len Byte.x00).


(** ** AArch64 *)

Definition GP_REG_COUNT : nat := 31.
Definition FP_REG_COUNT : nat := 32.

Record CONTEXT_ARM64_OLD := mkContextArm64 {
  a64_context_flags : Z;
  iregs : list Z;
  a64_sp : Z;
  a64_pc : Z;
  cpsr : Z;
  fpsr : Z;
  fpcr : Z;
  float_regs : list Z;
}.

Class Arm64Format := {
  pod_context_arm64 :: Pod CONTEXT_ARM64_OLD;
  CONTEXT_ARM64_OLD_FULL : Z;
}.

Class Arm64FormatOk (AF : Arm64Format) : Prop := ok_context_arm64 :: PodOk CONTEXT_ARM64_OLD.

Definition default_context_arm64 : CONTEXT_ARM64_OLD :=
  mkContextArm64 0 (replicate GP_REG_COUNT 0) 0 0 0 0 0 (replicate FP_REG_COUNT 0).

(** ** 32-bit x86 *)

Record FLOATING_SAVE_AREA_X86 := mkFloatX86 {
  x86_control_word : Z; x86_status_word : Z; x86_tag_word : Z; x86_error_offset : Z;
  x86_error_selector : Z; x86_data_offset : Z; x86_data_selector : Z;
  register_area : list byte;
}.

Record CONTEXT_X86 := mkContextX86 {
  x86_context_flags : Z;
  x86_dr0 : Z; x86_dr1 : Z; x86_dr2 : Z; x86_dr3 : Z; x86_dr6 : Z; x86_dr7 : Z;
  x86_float_save : FLOATING_SAVE_AREA_X86;
  x86_gs : Z; x86_fs : Z; x86_es : Z; x86_ds : Z;
  edi : Z; esi : Z; ebx : Z; edx : Z; ecx : Z; eax : Z; ebp : Z; eip : Z;
  x86_cs : Z; x86_eflags : Z; esp : Z; x86_ss : Z;
  extended_registers : list byte;
}.

Class X86Format := {
  pod_context_x86 :: Pod CONTEXT_X86;
  register_area_len : nat;
  extended_registers_len : nat;
  CONTEXT_X86_FULL : Z;
  CONTEXT_X86_FLOATING_POINT : Z;
  CONTEXT_X86_ALL : Z;
}.

(** Eight registers of ten bytes, and the area of the instruction FXSAVE. *)
Class X86FormatOk (XF : X86Format) : Prop := {
  ok_context_x86 :: PodOk CONTEXT_X86;
  register_area_80 : register_area_len = 80%nat;
  extended_registers_512 : extended_registers_len = 512%nat;
}.

Definition default_context_x86 {XF : X86Format} : CONTEXT_X86 :=
  mkContextX86 0 0 0 0 0 0 0
    (mkFloatX86 0 0 0 0 0 0 0 (replicate register_area_len Byte.x00))
    0 0 0 0 0 0 0 0 0 0 0 0 0 0 0 0 (replicate extended_registers_len Byte.x00).

(** ** 32-bit ARM *)

Record FLOATING_SAVE_AREA_ARM := mkFloatArm {
  fpscr : Z;
  arm_float_regs : list Z;
}.

Record CONTEXT_ARM := mkContextArm {
  arm_context_flags : Z;
  arm_iregs : list Z;
  arm_ctx_cpsr : Z;
  arm_float_save : FLOATING_SAVE_AREA_ARM;
}.

Class ArmFormat := {
  pod_context_arm :: Pod CONTEXT_ARM;
  CONTEXT_ARM_FULL : Z;
}.

Class ArmFormatOk (AF : ArmFormat) : Prop := ok_context_arm :: PodOk CONTEXT_ARM.

Definition default_context_arm : CONTEXT_ARM :=
  mkContextArm 0 (replicate 16 0) 0 (mkFloatArm 0 (replicate 32 0)).
