(* ===== verification/ThreadInfo.v ===== *)
(** * Thread information (src/src/linux/thread_info.rs)

    What every architecture shares: the parent and group of a thread from its
    status file, the copying of register blocks, and the conversions of the
    ptrace requests.  The requests themselves are system calls, gathered in the
    classes of the architectures. *)
From Stdlib Require Import ZArith Lia String.
From S2P Require Import Prelude RustStr Layout Errors Os Auxv.

Local Open Scope Z_scope.

(** ** Buffered lines *)

Section lines.

(** The bytes the successive reads deliver up to the end of the file, and the
    error that stopped them, if any; an interrupted read is repeated. *)
Fixpoint read_all (reads : list (IoError + list byte)) : list byte * option IoError :=
  match reads with
  | [] => ([], None)
  | inl e :: rest => if decide (raw_os_error e = Some EINTR) then read_all rest else ([], Some e)
  | inr [] :: _ => ([], None)
  | inr bs :: rest => let '(l, e) := read_all rest in (bs ++ l, e)
  end.

Definition decode_line (l : list byte) : IoError + RString :=
  match from_utf8 l with Some s => inr s | None => inl IoOther end.

(** [BufReader::new(file).lines()]: an unterminated last line counts, unless a
    read error cut it short. *)
Definition buf_lines (reads : list (IoError + list byte)) : list (IoError + RString) :=
  let '(l, err) := read_all reads in
  let '(full, rest) := split_lines l in
  ((fun x => decode_line (strip_cr x)) <$> full) ++
  match err with
  | Some e => [inl e]
  | None => match rest with [] => [] | _ => [decode_line rest] end
  end.
End lines.

(** ** copy_u32_registers *)

(** The bytes of the source over the front of the destination. *)
Fixpoint u128s (n : nat) (l : list byte) : list Z :=
  match n with
  | O => []
  | S n' => le_combine (take 16 l) :: u128s n' (drop 16 l)
  end.

Definition copy_u32_registers (dst src : list Z) : list Z :=
  let d := dst ≫= le_split 16 in
  let s := src ≫= le_split 4 in
  let to_copy := Nat.min (List.length d) (List.length s) in
  u128s (List.length dst) (splice 0 (take to_copy s) d).

(** ** CommonThreadInfo *)

Section common.
Context {OS : Os}.

(** The values found so far, from the given lines on. *)
Fixpoint status_loop (tid : Pid) (ls : list (IoError + RString)) (ppid tgid : Pid)
    : res ThreadInfoError (Pid * Pid) :=
  match ls with
  | [] => Ok (ppid, tgid)
  | inl e :: _ => Err (ThreadInfoError_IOError e)
  | inr l :: ls' =>
      match str_split_at 6 l with
      | None => Err (ThreadInfoError_InvalidProcStatusFile tid l)
      | Some (start, value) =>
          if decide (start = str_of "Tgid:" ++ [9]) then
            tgid ← ok_or (parse_int 32 value) ThreadInfoError_UnparsableInteger;
            status_loop tid ls' ppid tgid
          else if decide (start = str_of "PPid:" ++ [9]) then
            ppid ← ok_or (parse_int 32 value) ThreadInfoError_UnparsableInteger;
            status_loop tid ls' ppid tgid
          else status_loop tid ls' ppid tgid
      end
  end.

Definition get_ppid_and_tgid (tid : Pid) : res ThreadInfoError (Pid * Pid) :=
  let status_path := proc_path tid "/status" in
  status_file ← map_err ThreadInfoError_IOError (os_res (fs_open (utf8_encode status_path)));
  found ← status_loop tid (buf_lines status_file) (-1) (-1);
  let '(ppid, tgid) := found in
  if (ppid =? -1) || (tgid =? -1)
  then Err (ThreadInfoError_InvalidPid status_path ppid tgid)
  else Ok (ppid, tgid).
End common.

(** [Errno::result(res)?] of a request that fills a structure. *)
Definition ptrace_get_data {T} (r : Errno + T) : res ThreadInfoError T :=
  map_err ThreadInfoError_PtraceError (os_res r).

(** [PTRACE_PEEKUSER] returns its datum and errno, cleared before the call: -1
    is an error only when errno was set. *)
Definition ptrace_peek (r : Z * Errno) : res Errno Z :=
  let '(ret, errno) := r in
  if (ret =? -1) && negb (errno =? UnknownErrno) then Err errno else Ok ret.

(** ** Theory *)

Lemma le_combine_app_add (a b : list byte) :
  le_combine (a ++ b) = le_combine a + 2 ^ (8 * Z.of_nat (List.length a)) * le_combine b.
Proof.
  rewrite le_combine_app. pose proof (le_combine_bound a) as Ha.
  set (n := Z.of_nat (List.length a)) in *. set (x := le_combine a) in *.
  assert (Hn : 0 <= n * 8) by lia. rewrite (Z.mul_comm 8 n).
  assert (Hx : 0 <= x < 2 ^ (n * 8)) by (rewrite (Z.mul_comm n 8); exact Ha).
  assert (Hland : Z.land x (Z.shiftl (le_combine b) (n * 8)) = 0).
  { apply Z.bits_inj'. intros i Hi. rewrite Z.land_spec, Z.bits_0.
    destruct (Z.lt_ge_cases i (n * 8)) as [Hlt|Hge].
    - by rewrite Z.shiftl_spec_low, andb_false_r.
    - rewrite <- (Z.mod_small x (2 ^ (n * 8))) by exact Hx.
      by rewrite Z.mod_pow2_bits_high by lia. }
  pose proof (Z.add_lor_land x (Z.shiftl (le_combine b) (n * 8))) as Hadd.
  rewrite Hland, Z.shiftl_mul_pow2 in * by lia. lia.
Qed.

Lemma le_combine_u32 w rest :
  in_bits 32 w -> le_combine (le_split 4 w ++ rest) = w + 2 ^ 32 * le_combine rest.
Proof.
  intros Hw. rewrite le_combine_app_add, le_combine_split, length_le_split.
  rewrite Z.mod_small; [done|]. exact Hw.
Qed.

Lemma length_bind_split n (l : list Z) : List.length (l ≫= le_split n) = (List.length l * n)%nat.
Proof.
  induction l as [|x l IH]; [done|]. csimpl. rewrite length_app, length_le_split, IH. lia.
Qed.

(** [parse_int] reads back what [fmt_dec] shows. *)
Lemma parse_fmt_digits fuel : forall n tl, 0 <= n < 10 ^ Z.of_nat fuel ->
  exists k, 0 <= k /\ forall a bound, 0 <= a -> a * 10 ^ k + n < bound ->
    parse_digits 10 bound a (fmt_digits fuel 10 n tl) = parse_digits 10 bound (a * 10 ^ k + n) tl.
Proof.
  induction fuel as [|fuel IH]; intros n tl Hn.
  { exists 0. split; [lia|]. intros a bound _ _. cbn [fmt_digits].
    by replace (a * 10 ^ 0 + n) with a by lia. }
  assert (Hd : forall d, 0 <= d < 10 -> digit_val 10 (if d <? 10 then 48 + d else 87 + d) = Some d).
  { intros d Hd. rewrite (proj2 (Z.ltb_lt d 10)) by lia. unfold digit_val, is_ascii_digit.
    rewrite (proj2 (Z.leb_le 48 (48 + d))), (proj2 (Z.leb_le (48 + d) 57)) by lia. cbn.
    replace (48 + d - 48) with d by lia. by rewrite (proj2 (Z.ltb_lt d 10)) by lia. }
  pose proof (Z.mod_pos_bound n 10 ltac:(lia)) as Hm. pose proof (Z.div_mod n 10 ltac:(lia)) as Hdm.
  cbn [fmt_digits]. cbv zeta. destruct (Z.eqb_spec (n / 10) 0) as [Hz|Hz].
  - exists 1. split; [lia|]. intros a bound Ha Hb. cbn [parse_digits]. rewrite Hd by done.
    cbn [mbind option_bind]. replace (a * 10 ^ 1 + n) with (a * 10 + n mod 10) in * by lia.
    by rewrite (proj2 (Z.ltb_lt _ _) Hb).
  - destruct (IH (n / 10) ((if n mod 10 <? 10 then 48 + n mod 10 else 87 + n mod 10) :: tl))
      as (k & Hk & Hrun).
    { split; [apply Z.div_pos; lia|]. apply Z.div_lt_upper_bound; [lia|].
      rewrite Nat2Z.inj_succ, Z.pow_succ_r in Hn by lia. lia. }
    exists (k + 1). split; [lia|]. intros a bound Ha Hb. rewrite Z.pow_add_r in * by lia.
    assert (Hpos : 0 <= a * 10 ^ k) by (apply Z.mul_nonneg_nonneg; lia).
    assert (0 <= n / 10) by (apply Z.div_pos; lia).
    rewrite Hrun by lia. cbn [parse_digits]. rewrite Hd by done. cbn [mbind option_bind].
    replace (a * (10 ^ k * 10 ^ 1) + n) with ((a * 10 ^ k + n / 10) * 10 + n mod 10) in * by lia.
    by rewrite (proj2 (Z.ltb_lt _ _) Hb).
Qed.

Lemma fmt_digits_head fuel : forall n tl, 0 <= n -> fuel <> O ->
  exists c l, fmt_digits fuel 10 n tl = c :: l /\ 48 <= c <= 57.
Proof.
  induction fuel as [|fuel IH]; intros n tl Hn Hf; [done|]. cbn [fmt_digits]. cbv zeta.
  pose proof (Z.mod_pos_bound n 10 ltac:(lia)) as Hm.
  rewrite (proj2 (Z.ltb_lt (n mod 10) 10)) by lia.
  destruct (Z.eqb_spec (n / 10) 0) as [Hz|Hz]; [do 2 eexists; split; [done|lia]|].
  destruct fuel; [do 2 eexists; split; [done|lia]|]. apply IH; [apply Z.div_pos; lia|done].
Qed.

Lemma parse_fmt_dec n : 0 <= n < 2 ^ 31 -> parse_int 32 (fmt_dec n) = Some n.
Proof.
  intros Hn. unfold fmt_dec. rewrite (proj2 (Z.ltb_ge n 0)) by lia.
  destruct (parse_fmt_digits 20 n []) as (k & _ & Hrun); [lia|].
  destruct (fmt_digits_head 20 n []) as (c & l & Hcl & Hc); [lia|done|].
  specialize (Hrun 0 (2 ^ 31) ltac:(lia) ltac:(lia)). rewrite Hcl in *.
  unfold parse_int. change (32 - 1) with 31.
  destruct c as [|c|c]; [lia| |lia].
  assert (Hp : parse_digits 10 (2 ^ 31) 0 (Z.pos c :: l) = Some n) by (rewrite Hrun; done).
  repeat (destruct c as [c|c|]; try exact Hp; try lia).
Qed.

Lemma u128s_words n : forall src i, Forall (in_bits 32) src -> List.length src = (4 * n)%nat ->
  (i < n)%nat ->
  exists a b c d, src !! (4 * i)%nat = Some a /\ src !! (4 * i + 1)%nat = Some b /\
    src !! (4 * i + 2)%nat = Some c /\ src !! (4 * i + 3)%nat = Some d /\
    u128s n (src ≫= le_split 4) !! i = Some (a + 2 ^ 32 * b + 2 ^ 64 * c + 2 ^ 96 * d).
Proof.
  induction n as [|n IH]; intros src i Hw Hl Hi; [lia|].
  destruct src as [|a [|b [|c [|d src]]]]; cbn [List.length] in Hl; try lia.
  repeat match goal with HF : Forall _ (_ :: _) |- _ => inversion HF; clear HF; subst end.
  cbn [u128s].
  set (block := le_split 4 a ++ le_split 4 b ++ le_split 4 c ++ le_split 4 d).
  assert (Hb : (a :: b :: c :: d :: src) ≫= le_split 4 = block ++ (src ≫= le_split 4))
    by (subst block; rewrite <- !app_assoc; reflexivity).
  assert (Hlb : List.length block = 16%nat)
    by (subst block; by rewrite !length_app, !length_le_split).
  rewrite Hb.
  rewrite take_app_length', drop_app_length' by done.
  destruct i as [|i].
  - exists a, b, c, d. split_and!; try done. cbn [lookup list_lookup]. f_equal. subst block.
    rewrite <- (app_nil_r (le_split 4 d)), !le_combine_u32 by done.
    change (le_combine []) with 0. lia.
  - destruct (IH src i) as (a' & b' & c' & d' & L1 & L2 & L3 & L4 & L5); [done|lia|lia|].
    exists a', b', c', d'.
    replace (4 * S i)%nat with (S (S (S (S (4 * i))))) by lia.
    split_and!; [exact L1|exact L2|exact L3|exact L4|exact L5].
Qed.

Lemma length_u128s n l : List.length (u128s n l) = n.
Proof. revert l. induction n; intros l; cbn; by rewrite ?IHn. Qed.

(** [copy_u32_registers], which reinterprets memory in the source, is the
    obvious conversion: when the source has four 32-bit words for each 128-bit
    register, register [i] of the result consists of words [4i] to [4i+3], least
    significant first; the number of registers never changes. *)
Theorem copy_u32_registers_words (dst src : list Z) (i : nat) :
  Forall (in_bits 32) src -> List.length src = (4 * List.length dst)%nat ->
  (i < List.length dst)%nat ->
  List.length (copy_u32_registers dst src) = List.length dst /\
  exists a b c d, src !! (4 * i)%nat = Some a /\ src !! (4 * i + 1)%nat = Some b /\
    src !! (4 * i + 2)%nat = Some c /\ src !! (4 * i + 3)%nat = Some d /\
    copy_u32_registers dst src !! i = Some (a + 2 ^ 32 * b + 2 ^ 64 * c + 2 ^ 96 * d).
Proof.
  intros Hw Hl Hi. unfold copy_u32_registers. split; [apply length_u128s|].
  rewrite !length_bind_split, take_ge by (rewrite length_bind_split; lia).
  unfold splice. rewrite length_bind_split, drop_ge by (rewrite length_bind_split; lia).
  cbn [take app]. rewrite app_nil_r. by apply u128s_words.
Qed.

Lemma copy_u32_registers_words_witness :
  copy_u32_registers [0; 0] [1; 2; 3; 4; 5; 6; 7; 8] !! 1%nat =
    Some (5 + 2 ^ 32 * 6 + 2 ^ 64 * 7 + 2 ^ 96 * 8).
Proof.
  destruct (copy_u32_registers_words [0; 0] [1; 2; 3; 4; 5; 6; 7; 8] 1
    ltac:(repeat constructor; unfold in_bits; lia) eq_refl ltac:(cbn; lia))
    as (_ & a & b & c & d & Ha & Hb & Hc & Hd & Hr).
  injection Ha as <-. injection Hb as <-. injection Hc as <-. injection Hd as <-. exact Hr.
Defined.

(** ** The status file *)

(** A line that says nothing about the two ids but is long enough. *)
Definition other_line (l : RString) : Prop :=
  exists start value, str_split_at 6 l = Some (start, value) /\
    start <> str_of "Tgid:" ++ [9] /\ start <> str_of "PPid:" ++ [9].

Definition tgid_line (n : Z) : RString := str_of "Tgid:" ++ [9] ++ fmt_dec n.
Definition ppid_line (n : Z) : RString := str_of "PPid:" ++ [9] ++ fmt_dec n.

Lemma str_split_ascii p s :
  Forall (fun c => c < 128) p -> str_split_at (List.length p) (p ++ s) = Some (p, s).
Proof.
  induction 1 as [|c p Hc _ IH]; [by destruct s|]. cbn [List.length app str_split_at].
  unfold utf8_encode_char. rewrite (proj2 (Z.ltb_lt c 128) Hc).
  cbn [fmap list_fmap List.length]. rewrite decide_True by lia.
  replace (S (List.length p) - 1)%nat with (List.length p) by lia. by rewrite IH.
Qed.

Lemma split_tgid n : str_split_at 6 (tgid_line n) = Some (str_of "Tgid:" ++ [9], fmt_dec n).
Proof.
  unfold tgid_line. rewrite app_assoc. apply (str_split_ascii (str_of "Tgid:" ++ [9])).
  repeat constructor.
Qed.

Lemma split_ppid n : str_split_at 6 (ppid_line n) = Some (str_of "PPid:" ++ [9], fmt_dec n).
Proof.
  unfold ppid_line. rewrite app_assoc. apply (str_split_ascii (str_of "PPid:" ++ [9])).
  repeat constructor.
Qed.

Section status.
Context (tid : Pid).

Lemma status_other ls rest ppid tgid :
  Forall other_line ls ->
  status_loop tid ((inr <$> ls) ++ rest) ppid tgid = status_loop tid rest ppid tgid.
Proof.
  induction 1 as [|l ls (start & value & Hl & H1 & H2) _ IH]; [done|].
  cbn [fmap list_fmap app status_loop]. rewrite Hl. by rewrite !decide_False by done.
Qed.

Lemma status_tgid rest ppid tgid n : 0 <= n < 2 ^ 31 ->
  status_loop tid (inr (tgid_line n) :: rest) ppid tgid = status_loop tid rest ppid n.
Proof.
  intros Hn. cbn [status_loop]. rewrite split_tgid, decide_True by done.
  by rewrite parse_fmt_dec.
Qed.

Lemma status_ppid rest ppid tgid n : 0 <= n < 2 ^ 31 ->
  status_loop tid (inr (ppid_line n) :: rest) ppid tgid = status_loop tid rest n tgid.
Proof.
  intros Hn. cbn [status_loop]. rewrite split_ppid, decide_False, decide_True by done.
  by rewrite parse_fmt_dec.
Qed.
End status.

(** the parent and group of a thread are read back from its status file: the
    ids the kernel printed are found wherever their lines stand among others of
    at least six bytes. *)
Theorem get_ppid_and_tgid_finds (OS : Os) (tid ppid tgid : Pid)
    (reads : list (IoError + list byte)) (ls1 ls2 ls3 : list RString) :
  fs_open (utf8_encode (proc_path tid "/status")) = inr reads ->
  buf_lines reads = inr <$> (ls1 ++ [tgid_line tgid] ++ ls2 ++ [ppid_line ppid] ++ ls3) ->
  Forall other_line (ls1 ++ ls2 ++ ls3) -> 0 <= ppid < 2 ^ 31 -> 0 <= tgid < 2 ^ 31 ->
  get_ppid_and_tgid tid = Ok (ppid, tgid).
Proof.
  intros Hopen Hls Ho Hp Ht. rewrite !Forall_app in Ho. destruct Ho as (Ho1 & Ho2 & Ho3).
  unfold get_ppid_and_tgid. rewrite Hopen. cbn [os_res map_err mbind res_bind]. rewrite Hls.
  rewrite !fmap_app, status_other by done. cbn [fmap list_fmap app].
  rewrite status_tgid by done. rewrite status_other by done. rewrite status_ppid by done.
  rewrite <- (app_nil_r (inr <$> ls3)), status_other by done. cbn [status_loop mbind res_bind].
  by rewrite (proj2 (Z.eqb_neq ppid (-1))), (proj2 (Z.eqb_neq tgid (-1))) by lia.
Qed.

(** A machine with nothing but the given files. *)
Definition files_os (files : OsString -> IoError + list (IoError + list byte)) : Os := {|
  process_vm_readv _ _ _ := inl 14;
  open_mem _ := inl (OsError EACCES);
  read_exact_at _ _ _ := inl (OsError EACCES);
  ptrace_read _ _ := inl ESRCH;
  alloc_succeeds _ := true;
  fs_read _ := inl (OsError 2);
  fs_open := files;
  fs_mmap _ _ := inl (OsError 2);
  fs_exists _ := false;
  fs_is_dir _ := false;
  fs_read_dir _ := inl (OsError 2);
  fs_read_link _ := inl (OsError 2);
  fs_metadata_mode _ := inl (OsError 2);
  process_id_self := 1;
  sysconf_page_size := inr (Some 4096);
  unix_time := Some 0;
|}.

(** Every file has the given reads. *)
Definition one_file_os (reads : list (IoError + list byte)) : Os := files_os (fun _ => inr reads).

Definition line (s : string) : list byte := bytes_of s ++ [Byte.x0a].

Definition sample_status : list (IoError + list byte) :=
  [inr (line "Name:	worker" ++ bytes_of "Tgid:	4"); inr (line "2" ++ line "PPid:	1")].

Lemma get_ppid_and_tgid_finds_witness :
  @get_ppid_and_tgid (one_file_os sample_status) 43 = Ok (1, 42).
Proof.
  assert (Hls : buf_lines sample_status = inr <$>
    ([str_of "Name:	worker"] ++ [tgid_line 42] ++ [] ++ [ppid_line 1] ++ []))
    by (vm_compute; reflexivity).
  assert (Ho : Forall other_line ([str_of "Name:	worker"] ++ [] ++ [])).
  { constructor; [|constructor]. exists (str_of "Name:	"), (str_of "worker").
    split; [reflexivity|]. split; vm_compute; discriminate. }
  exact (@get_ppid_and_tgid_finds (one_file_os sample_status) 43 1 42 sample_status
    [str_of "Name:	worker"] [] [] eq_refl Hls Ho ltac:(lia) ltac:(lia)).
Defined.

Lemma split_lines_first x rest :
  Byte.x0a ∉ x -> exists full r, split_lines (x ++ Byte.x0a :: rest) = (x :: full, r).
Proof.
  induction x as [|b x IH]; intros Hx; cbn [app split_lines].
  - destruct (split_lines rest) as [full r]. rewrite decide_True by done. eauto.
  - rewrite elem_of_cons in Hx. destruct IH as (full & r & ->); [tauto|].
    rewrite decide_False by (intros ->; tauto). eauto.
Qed.

(** a thread name that is not valid UTF-8 hides the ids.  The kernel prints
    the name of a thread as it is, in the first line; when its bytes are not
    UTF-8 the line reader fails there, and the ids that follow are never looked
    at, whatever they are. *)
Theorem status_name_not_utf8 (OS : Os) (tid : Pid) (name rest : list byte) :
  fs_open (utf8_encode (proc_path tid "/status")) =
    inr [inr (bytes_of "Name:	" ++ name ++ Byte.x0a :: rest)] ->
  Byte.x0a ∉ name -> from_utf8 (strip_cr (bytes_of "Name:	" ++ name)) = None ->
  get_ppid_and_tgid tid = Err (ThreadInfoError_IOError IoOther).
Proof.
  intros Hopen Hnl Hutf. unfold get_ppid_and_tgid. rewrite Hopen.
  cbn [os_res map_err mbind res_bind]. rewrite app_assoc in *.
  set (l := bytes_of "Name:	" ++ name) in *.
  assert (Hl : Byte.x0a ∉ l).
  { subst l. rewrite elem_of_app. intros [Hin|?]; [|done]. revert Hin.
    apply (bool_decide_unpack _). vm_compute. exact I. }
  destruct (split_lines_first l rest Hl) as (full & r & Hsplit).
  unfold buf_lines. replace (read_all _) with (l ++ Byte.x0a :: rest, @None IoError);
    [|subst l; cbn [read_all app bytes_of]; by rewrite app_nil_r].
  rewrite Hsplit. cbn [fmap list_fmap app status_loop]. unfold decode_line at 1. rewrite Hutf. done.
Qed.

Lemma status_name_not_utf8_witness :
  @get_ppid_and_tgid (one_file_os [inr (bytes_of "Name:	" ++ [Byte.xff] ++ Byte.x0a ::
    line "Tgid:	42" ++ line "PPid:	1")]) 42 = Err (ThreadInfoError_IOError IoOther).
Proof.
  apply (@status_name_not_utf8 (one_file_os [inr (bytes_of "Name:	" ++ [Byte.xff] ++ Byte.x0a ::
    line "Tgid:	42" ++ line "PPid:	1")]) 42 [Byte.xff] (line "Tgid:	42" ++ line "PPid:	1")).
  - reflexivity.
  - apply (bool_decide_unpack _). vm_compute. exact I.
  - vm_compute. reflexivity.
Defined.
