(* ===== verification/CpuInfo.v ===== *)
(** * Processor and system description (src/src/linux/dumper_cpu_info.rs,
      src/src/linux/dumper_cpu_info/x86_mips.rs)

    The x86 variant: /proc/cpuinfo is read into a table of four entries.  The
    table loop is shown to compute what a direct search of the file would. *)
From Stdlib Require Import ZArith Lia String.
From S2P Require Import Prelude Format RustStr Layout Errors Os Auxv ThreadInfo.

Local Open Scope Z_scope.

(** [uname(2)], and constants of minidump-common. *)
Class Platform := {
  uname : Errno + (list byte * list byte * list byte * list byte);
  PlatformId_Linux : Z;
  PlatformId_Android : Z;
  PROCESSOR_ARCHITECTURE_AMD64 : Z;
  PROCESSOR_ARCHITECTURE_INTEL : Z;
}.

Definition space : RString := [32].

(** [machine] is the name of the target architecture. *)
Definition os_information_of `{TG : Target} {P : Platform} (machine : RString) : Z * RString :=
  let platform_id := if target_android then PlatformId_Android else PlatformId_Linux in
  let shown bs := match from_utf8 bs with Some s => s | None => str_of "<unknown>" end in
  let info :=
    match uname with
    | inl _ =>
        let os := if platform_id =? PlatformId_Linux then str_of "Linux" else str_of "Android" in
        os ++ str_of " <unknown> <unknown> " ++ machine
    | inr (sysname, release, version, machine) =>
        shown sysname ++ space ++ shown release ++ space ++ shown version ++ space ++ shown machine
    end in
  (platform_id, info).

Record CpuInfoEntry := mkEntry {
  info_name : RString;
  entry_value : Z;
  found : bool;
}.

Definition cpu_info_table : list CpuInfoEntry :=
  [mkEntry (str_of "processor") (-1) false; mkEntry (str_of "model") 0 false;
   mkEntry (str_of "stepping") 0 false; mkEntry (str_of "cpu family") 0 false].

Definition vendor_id_name : RString := str_of "vendor_id".

(** The field and the value of a line, unless the line is skipped. *)
Definition cpu_line (line : RString) : option (RString * RString) :=
  if decide (trim line = []) then None
  else match trim <$> split_on (Z.eqb 58) line with
       | field :: value :: _ => Some (field, value)
       | _ => None
       end.

(** The loop over the table for one line, and the vendor found so far. *)
Fixpoint update_table (is_first_entry : bool) (field value : RString)
    (table : list CpuInfoEntry) (vendor_id : RString) : list CpuInfoEntry * RString :=
  match table with
  | [] => ([], vendor_id)
  | entry :: table' =>
      let vendor vendor_id :=
        if bool_decide (field = vendor_id_name) && bool_decide (value <> []) then value
        else vendor_id in
      if negb is_first_entry && found entry then
        let '(t, v) := update_table false field value table' vendor_id in (entry :: t, v)
      else if decide (field = info_name entry) then
        match parse_int 32 value with
        | Some x =>
            let '(t, v) := update_table false field value table' (vendor vendor_id) in
            (mkEntry (info_name entry) x true :: t, v)
        | None =>
            let '(t, v) := update_table false field value table' vendor_id in (entry :: t, v)
        end
      else
        let '(t, v) := update_table false field value table' (vendor vendor_id) in (entry :: t, v)
  end.

Fixpoint cpu_lines (ls : list (IoError + RString)) (table : list CpuInfoEntry)
    (vendor_id : RString) : res CpuInfoError (list CpuInfoEntry * RString) :=
  match ls with
  | [] => Ok (table, vendor_id)
  | inl e :: _ => Err (CpuInfoError_IOError e)
  | inr line :: ls' =>
      match cpu_line line with
      | None => cpu_lines ls' table vendor_id
      | Some (field, value) =>
          let '(table, vendor_id) := update_table true field value table vendor_id in
          cpu_lines ls' table vendor_id
      end
  end.

Section write.
Context `{TG : Target} {OS : Os}.

(** [x += 1] on an [i32] *)
Definition inc_i32 {E} (x : Z) : res E Z :=
  if (x =? 2 ^ 31 - 1) && overflow_checks then Panic else Ok (swrap 32 (x + 1)).

Definition entry_at {E} (i : nat) (table : list CpuInfoEntry) : res E Z :=
  or_panic (entry_value <$> table !! i).

(** The fields of the record from the complete table. *)
Definition fill_system_info (sys_info : MDRawSystemInfo) (table : list CpuInfoEntry)
    (vendor_id : RString) : res CpuInfoError MDRawSystemInfo :=
  processor ← entry_at 0 table;
  number ← inc_i32 processor;
  level ← entry_at 3 table;
  model ← entry_at 1 table;
  stepping ← entry_at 2 table;
  let vendor := utf8_encode vendor_id in
  let vendor_len := Nat.min 12 (List.length vendor) in
  data ← (if decide (List.length (cpu_data sys_info) < vendor_len)%nat then Panic
          else Ok (splice 0 (take vendor_len vendor) (cpu_data sys_info)));
  Ok (mkSystemInfo (processor_architecture sys_info) (wrap 16 level)
        (wrap 16 (Z.lor (Z.shiftl model 8) stepping)) (wrap 8 number) (product_type sys_info)
        (major_version sys_info) (minor_version sys_info) (build_number sys_info)
        (platform_id sys_info) (csd_version_rva sys_info) data).

(** [architecture] is the constant of the target. *)
Definition write_cpu_information_of (architecture : Z) (sys_info : MDRawSystemInfo)
    : res CpuInfoError MDRawSystemInfo :=
  let sys_info := mkSystemInfo (wrap 16 architecture) (processor_level sys_info)
    (processor_revision sys_info) (number_of_processors sys_info) (product_type sys_info)
    (major_version sys_info) (minor_version sys_info) (build_number sys_info)
    (platform_id sys_info) (csd_version_rva sys_info) (cpu_data sys_info) in
  cpuinfo_file ← map_err CpuInfoError_IOError
                   (os_res (fs_open (utf8_encode (str_of "/proc/cpuinfo"))));
  result ← cpu_lines (buf_lines cpuinfo_file) cpu_info_table [];
  let '(table, vendor_id) := result in
  if negb (forallb found table) then Err CpuInfoError_NotAllProcEntriesFound
  else fill_system_info sys_info table vendor_id.
End write.

(** ** What the loop computes *)

(** The integers given for a field, in order. *)
Definition ints_of (name : RString) (ps : list (RString * RString)) : list Z :=
  omap (fun '(f, v) => if decide (f = name) then parse_int 32 v else None) ps.

(** The non-empty vendors, in order. *)
Definition vendors_of (ps : list (RString * RString)) : list RString :=
  omap (fun '(f, v) => if decide (f = vendor_id_name /\ v <> []) then Some v else None) ps.

(** One entry after one line: the first entry of the table takes every value,
    the others only their first. *)
Definition update_entry (is_first_entry : bool) (field value : RString) (e : CpuInfoEntry)
    : CpuInfoEntry :=
  if negb is_first_entry && found e then e
  else if decide (field = info_name e) then
    match parse_int 32 value with Some x => mkEntry (info_name e) x true | None => e end
  else e.

Definition is_vendor (field value : RString) : bool :=
  bool_decide (field = vendor_id_name) && bool_decide (value <> []).

Lemma update_table_rest field value table : forall v,
  update_table false field value table v =
  (update_entry false field value <$> table, (update_table false field value table v).2).
Proof.
  induction table as [|e table IH]; intros v; [done|].
  cbn [update_table fmap list_fmap]. cbv zeta. unfold update_entry at 1. cbn [negb andb].
  destruct (found e); [|case_decide; [destruct (parse_int 32 value)|]];
    (match goal with |- context [update_table false field value table ?v'] =>
       rewrite (IH v'); destruct (update_table false field value table v') end); done.
Qed.

(** The vendor does not change any more once the line has set it. *)
Lemma update_vendor_rest field value table : forall v,
  (is_vendor field value = true -> v = value) ->
  (update_table false field value table v).2 = v.
Proof.
  induction table as [|e table IH]; intros v Hv; [done|]. cbn [update_table]. cbv zeta.
  fold (is_vendor field value).
  assert (Hif : (if is_vendor field value then value else v) = v)
    by (destruct (is_vendor field value); [symmetry; by apply Hv|done]).
  specialize (IH v Hv).
  destruct (found e); [|case_decide; [destruct (parse_int 32 value)|]]; rewrite ?Hif;
    cbn [negb andb]; destruct (update_table false field value table v); done.
Qed.

Lemma update_table_first field value e table v :
  info_name e <> vendor_id_name ->
  update_table true field value (e :: table) v =
  (update_entry true field value e :: (update_entry false field value <$> table),
   if is_vendor field value then value else v).
Proof.
  intros Hname. cbn [update_table]. cbv zeta. fold (is_vendor field value).
  unfold update_entry at 1. cbn [negb andb].
  assert (Hrest : forall w, (is_vendor field value = true -> w = value) ->
    update_table false field value table w = (update_entry false field value <$> table, w)).
  { intros w Hw. by rewrite update_table_rest, (update_vendor_rest _ _ _ _ Hw). }
  case_decide as Hf; [destruct (parse_int 32 value) as [x|]|].
  - rewrite Hrest; [done|]. by destruct (is_vendor field value).
  - assert (Hno : is_vendor field value = false).
    { unfold is_vendor. rewrite bool_decide_eq_false_2; [done|]. congruence. }
    rewrite Hno. rewrite Hrest; [done|]. by rewrite Hno.
  - rewrite Hrest; [done|]. by destruct (is_vendor field value).
Qed.

(** An entry after all lines. *)
Definition entry_after (is_first_entry : bool) (ps : list (RString * RString)) (e : CpuInfoEntry)
    : CpuInfoEntry :=
  fold_left (fun e p => update_entry is_first_entry p.1 p.2 e) ps e.

Definition vendor_after (ps : list (RString * RString)) (v : RString) : RString :=
  fold_left (fun v p => if is_vendor p.1 p.2 then p.2 else v) ps v.

Lemma update_entry_name b f x e : info_name (update_entry b f x e) = info_name e.
Proof. unfold update_entry. by repeat case_match. Qed.

Lemma cpu_lines_run ls : forall e table v, info_name e <> vendor_id_name ->
  cpu_lines (inr <$> ls) (e :: table) v =
  let ps := omap cpu_line ls in
  Ok (entry_after true ps e :: (entry_after false ps <$> table), vendor_after ps v).
Proof.
  induction ls as [|l ls IH]; intros e table v He; cbn [fmap list_fmap cpu_lines omap list_omap].
  { cbn. by rewrite list_fmap_id. }
  destruct (cpu_line l) as [[f x]|]; [|by apply IH].
  rewrite update_table_first by done. rewrite IH by (by rewrite update_entry_name).
  cbv zeta. f_equal. cbn [entry_after fold_left fst snd]. f_equal. f_equal.
  rewrite <- list_fmap_compose. done.
Qed.

(** What the folds compute. *)
Lemma entry_after_last ps : forall e,
  entry_after true ps e = match last (ints_of (info_name e) ps) with
                          | Some x => mkEntry (info_name e) x true
                          | None => e
                          end.
Proof.
  induction ps as [|[f v] ps IH]; intros e; [done|].
  unfold entry_after in *. cbn [fold_left fst snd]. rewrite IH, update_entry_name.
  unfold ints_of. cbn [omap list_omap]. fold (ints_of (info_name e) ps).
  unfold update_entry. cbn [negb andb].
  case_decide; [|done]. destruct (parse_int 32 v) as [x|]; [|done].
  destruct (ints_of (info_name e) ps) as [|y l] eqn:El; [done|]. rewrite last_cons_cons.
  destruct (last (y :: l)) eqn:E; [done|]. by apply last_None in E.
Qed.

Lemma entry_after_first ps : forall e,
  entry_after false ps e = if found e then e
    else match head (ints_of (info_name e) ps) with
         | Some x => mkEntry (info_name e) x true
         | None => e
         end.
Proof.
  induction ps as [|[f v] ps IH]; intros e; [by destruct (found e)|].
  unfold entry_after in *. cbn [fold_left fst snd]. rewrite IH, update_entry_name.
  unfold ints_of. cbn [omap list_omap]. fold (ints_of (info_name e) ps).
  unfold update_entry. destruct (found e) eqn:Hf; cbn [negb andb]; [by rewrite Hf|].
  case_decide; [|by rewrite Hf]. destruct (parse_int 32 v) as [x|]; [done|by rewrite Hf].
Qed.

Lemma vendor_after_last ps : forall v,
  vendor_after ps v = default v (last (vendors_of ps)).
Proof.
  induction ps as [|[f x] ps IH]; intros v; [done|].
  unfold vendor_after in *. cbn [fold_left fst snd]. rewrite IH.
  unfold vendors_of. cbn [omap list_omap]. fold (vendors_of ps). unfold is_vendor.
  destruct (decide (f = vendor_id_name /\ x <> [])) as [[-> Hx]|Hn].
  - rewrite !bool_decide_eq_true_2 by done. rewrite decide_True by done. cbn [andb].
    destruct (vendors_of ps) as [|y l]; [done|]. rewrite last_cons_cons.
    destruct (last (y :: l)) eqn:E; [done|]. by apply last_None in E.
  - rewrite decide_False by done.
    destruct (bool_decide_reflect (f = vendor_id_name)), (bool_decide_reflect (x <> []));
      cbn [andb]; try done. by destruct Hn.
Qed.

(** the processor description, for every /proc/cpuinfo that can be read.  The
    table loop computes what a search of the file would: the number of
    processors is one more than the last processor id listed, model, stepping
    and family are the first ones given, and the vendor is the last non-empty
    one, cut to twelve bytes; without one of the four numbers the record is
    refused. *)
Theorem cpu_information_search `{TG : Target} (OS : Os) (architecture : Z)
    (sys_info : MDRawSystemInfo) (reads : list (IoError + list byte)) (ls : list RString) :
  fs_open (utf8_encode (str_of "/proc/cpuinfo")) = inr reads -> buf_lines reads = inr <$> ls ->
  List.length (cpu_data sys_info) = 24%nat ->
  let ps := omap cpu_line ls in
  let vendor := take 12 (utf8_encode (default [] (last (vendors_of ps)))) in
  write_cpu_information_of architecture sys_info =
  match last (ints_of (str_of "processor") ps), head (ints_of (str_of "model") ps),
        head (ints_of (str_of "stepping") ps), head (ints_of (str_of "cpu family") ps) with
  | Some processor, Some model, Some stepping, Some family =>
      if (processor =? 2 ^ 31 - 1) && overflow_checks then Panic
      else Ok (mkSystemInfo (wrap 16 architecture) (wrap 16 family)
                 (wrap 16 (Z.lor (Z.shiftl model 8) stepping)) (wrap 8 (processor + 1))
                 (product_type sys_info) (major_version sys_info) (minor_version sys_info)
                 (build_number sys_info) (platform_id sys_info) (csd_version_rva sys_info)
                 (vendor ++ drop (List.length vendor) (cpu_data sys_info)))
  | _, _, _, _ => Err CpuInfoError_NotAllProcEntriesFound
  end.
Proof.
  intros Hopen Hls Hdata ps vendor. unfold write_cpu_information_of. cbv zeta. rewrite Hopen.
  cbn [os_res map_err mbind res_bind]. rewrite Hls. unfold cpu_info_table.
  rewrite cpu_lines_run by done. cbv zeta. fold ps. cbn [mbind res_bind fmap list_fmap].
  rewrite entry_after_last, !entry_after_first, vendor_after_last. cbn [info_name found forallb].
  destruct (last (ints_of (str_of "processor") ps)) as [processor|]; [|done].
  destruct (head (ints_of (str_of "model") ps)) as [model|]; [|done].
  destruct (head (ints_of (str_of "stepping") ps)) as [stepping|]; [|done].
  destruct (head (ints_of (str_of "cpu family") ps)) as [family|]; [|done].
  cbn [found forallb andb negb]. unfold fill_system_info, entry_at, inc_i32.
  cbn [lookup list_lookup fmap option_fmap option_map entry_value or_panic mbind res_bind cpu_data
    processor_architecture product_type major_version minor_version build_number platform_id
    csd_version_rva].
  destruct ((processor =? 2 ^ 31 - 1) && overflow_checks); [done|]. cbn [mbind res_bind].
  assert (Hv : forall l : list byte, take (Nat.min 12 (List.length l)) l = take 12 l).
  { intros l. destruct (decide (12 <= List.length l)%nat).
    - by rewrite Nat.min_l by lia.
    - rewrite Nat.min_r by lia. by rewrite !take_ge by lia. }
  rewrite Hv. fold vendor. rewrite decide_False by lia. cbn [mbind res_bind].
  rewrite wrap_swrap by lia. done.
Qed.

(** Two processors. *)
Definition sample_cpuinfo : list (IoError + list byte) :=
  [inr (line "processor	: 0" ++ line "vendor_id	: GenuineIntel" ++ line "cpu family	: 6" ++
        line "model		: 142"); inl (OsError EINTR);
   inr (line "stepping	: 10" ++ line "" ++ line "processor	: 1" ++ line "model		: 7" ++
        line "flags		:")].

Definition sample_platform : Platform := {|
  uname := inr (bytes_of "Linux", bytes_of "6.1", bytes_of "#1", bytes_of "x86_64");
  PlatformId_Linux := 0x8201;
  PlatformId_Android := 0x8203;
  PROCESSOR_ARCHITECTURE_AMD64 := 9;
  PROCESSOR_ARCHITECTURE_INTEL := 0;
|}.

Definition blank_info : MDRawSystemInfo := mkSystemInfo 0 0 0 0 0 0 0 0 0 0 (replicate 24 Byte.x00).

Lemma cpu_information_search_witness :
  @write_cpu_information_of x64_debug (one_file_os sample_cpuinfo) 9 blank_info =
  Ok (mkSystemInfo 9 6 (142 * 256 + 10) 2 0 0 0 0 0 0
        (bytes_of "GenuineIntel" ++ replicate 12 Byte.x00)).
Proof.
  pose (ls := omap (fun x => match x with inr s => Some s | inl _ => None end)
                (buf_lines sample_cpuinfo)).
  rewrite (@cpu_information_search x64_debug (one_file_os sample_cpuinfo) 9 blank_info sample_cpuinfo
    ls eq_refl ltac:(vm_compute; reflexivity) eq_refl).
  vm_compute. reflexivity.
Defined.
