(* ===== verification/X86_64.v ===== *)
(** * The x86-64 architecture (src/src/linux/thread_info/x86.rs,
      src/src/linux/crash_context/x86_64.rs)

    The registers of a stopped thread and those the signal handler saved, both
    turned into the context record of the minidump format.  With these the
    interface of Arch.v is implemented for x86-64 ([x86_64_arch]). *)
From Stdlib Require Import ZArith Lia String.
From S2P Require Import Prelude Format Layout RustStr Errors Os Auxv Arch.
From S2P Require Import Contexts ThreadInfo CpuInfo.

Local Open Scope Z_scope.

(** ** libc: the structures of the kernel *)

Record user_regs_struct := mkUserRegs {
  u_r15 : Z; u_r14 : Z; u_r13 : Z; u_r12 : Z; u_rbp : Z; u_rbx : Z; u_r11 : Z; u_r10 : Z;
  u_r9 : Z; u_r8 : Z; u_rax : Z; u_rcx : Z; u_rdx : Z; u_rsi : Z; u_rdi : Z; u_rip : Z;
  u_cs : Z; u_eflags : Z; u_rsp : Z; u_ss : Z; u_ds : Z; u_es : Z; u_fs : Z; u_gs : Z;
}.

(** The floating point state, in the layout of FXSAVE; the signal handler hands
    over the same. *)
Record user_fpregs_struct := mkFpRegs {
  cwd : Z; swd : Z; ftw : Z; fop : Z; fp_rip : Z; fp_rdp : Z; mxcsr : Z; mxcr_mask : Z;
  st_space : list Z; xmm_space : list Z;
}.

(** The indices into [gregs] of a signal context. *)
Inductive Greg :=
  | REG_R8 | REG_R9 | REG_R10 | REG_R11 | REG_R12 | REG_R13 | REG_R14 | REG_R15
  | REG_RDI | REG_RSI | REG_RBP | REG_RBX | REG_RDX | REG_RAX | REG_RCX | REG_RSP | REG_RIP
  | REG_EFL | REG_CSGSFS.

(** The ptrace requests, by thread.  [peek_user_call] returns the datum and
    errno, and takes the offset into [struct user]; it is the same request on
    32-bit x86. *)
Class X86Peek := {
  peek_user_call : Pid -> Z -> Z * Errno;
  offset_of_u_debugreg : Z;
}.

Class Amd64Ptrace := {
  amd64_peek :: X86Peek;
  getregset_call : Pid -> Errno + user_regs_struct;
  getregs_call : Pid -> Errno + user_regs_struct;
  getfpregset_call : Pid -> Errno + user_fpregs_struct;
  getfpregs_call : Pid -> Errno + user_fpregs_struct;
}.

(** ** The debug registers *)

Definition NUM_DEBUG_REGISTERS : nat := 8.

Definition peek_user {XP : X86Peek} (pid : Pid) (addr : Z) : res Errno Z :=
  ptrace_peek (peek_user_call pid addr).

(** The loop over the debug registers, of [elem_offset] bytes each; [cast] is
    the conversion of the word to the type of a debug register. *)
Fixpoint read_dregs {XP : X86Peek} (elem_offset : Z) (cast : Z -> Z) (tid : Pid) (idxs : list nat)
    : res ThreadInfoError (list Z) :=
  match idxs with
  | [] => Ok []
  | idx :: idxs' =>
      chunk ← map_err ThreadInfoError_PtraceError
                (peek_user tid (offset_of_u_debugreg + Z.of_nat idx * elem_offset));
      rest ← read_dregs elem_offset cast tid idxs';
      Ok (cast chunk :: rest)
  end.

Section x86_64.
Context `{TG : Target} {OS : Os} {P : Platform} {AF : Amd64Format} {AP : Amd64Ptrace}.

(** [dst.pwrite_with(v, 0, Endian::Little)] *)
Definition pwrite_start {T} `{Pod T} (v : T) (dst : list byte) : option (list byte) :=
  match dst with
  | [] => None
  | _ => match try_into_ctx v dst with Ok (dst', _) => Some dst' | _ => None end
  end.

(** The save area both sources fill in the same way. *)
Definition float_save_of (fs : user_fpregs_struct) : XMM_SAVE_AREA32 :=
  mkXmm (cwd fs) (swd fs) (wrap 8 (ftw fs)) (fop fs) (wrap 32 (fp_rip fs)) 0
    (wrap 32 (fp_rdp fs)) 0 (mxcsr fs) (mxcr_mask fs)
    (copy_u32_registers (replicate 8 0) (st_space fs))
    (copy_u32_registers (replicate 16 0) (xmm_space fs)).

(** ** CrashContext *)

Record CrashContextAmd64 := mkCrashContext {
  cc_siginfo : SigInfo;
  gregs : Greg -> Z;
  float_state : user_fpregs_struct;
}.

Definition crash_get_instruction_pointer (c : CrashContextAmd64) : Z :=
  wrap usize_bits (gregs c REG_RIP).

Definition crash_get_stack_pointer (c : CrashContextAmd64) : Z :=
  wrap usize_bits (gregs c REG_RSP).

(** [None]: the save area does not fit. *)
Definition crash_fill_cpu_context (c : CrashContextAmd64) (out : CONTEXT_AMD64)
    : option CONTEXT_AMD64 :=
  let g := gregs c in
  let u64 r := wrap 64 (g r) in
  save ← pwrite_start (float_save_of (float_state c)) (float_save out);
  Some (mkContext CONTEXT_AMD64_FULL
    (wrap 16 (Z.land (g REG_CSGSFS) 0xffff)) (c_ds out) (c_es out)
    (wrap 16 (Z.land (Z.shiftr (g REG_CSGSFS) 32) 0xffff))
    (wrap 16 (Z.land (Z.shiftr (g REG_CSGSFS) 16) 0xffff)) (c_ss out)
    (wrap 32 (g REG_EFL)) (dr0 out) (dr1 out) (dr2 out) (dr3 out) (dr6 out) (dr7 out)
    (u64 REG_RAX) (u64 REG_RCX) (u64 REG_RDX) (u64 REG_RBX) (u64 REG_RSP) (u64 REG_RBP)
    (u64 REG_RSI) (u64 REG_RDI) (u64 REG_R8) (u64 REG_R9) (u64 REG_R10) (u64 REG_R11)
    (u64 REG_R12) (u64 REG_R13) (u64 REG_R14) (u64 REG_R15) (u64 REG_RIP) save).

(** ** ThreadInfo *)

Record ThreadInfoX86 := mkThreadInfo {
  stack_pointer : Z;
  tgid : Pid;
  ppid : Pid;
  regs : user_regs_struct;
  fpregs : user_fpregs_struct;
  dregs : list Z;
}.

Definition getregset (pid : Pid) : res ThreadInfoError user_regs_struct :=
  ptrace_get_data (getregset_call pid).
Definition getregs (pid : Pid) : res ThreadInfoError user_regs_struct :=
  ptrace_get_data (getregs_call pid).
Definition getfpregset (pid : Pid) : res ThreadInfoError user_fpregs_struct :=
  ptrace_get_data (getfpregset_call pid).
Definition getfpregs (pid : Pid) : res ThreadInfoError user_fpregs_struct :=
  ptrace_get_data (getfpregs_call pid).

Definition create_impl (_pid tid : Pid) : res ThreadInfoError ThreadInfoX86 :=
  ids ← get_ppid_and_tgid tid;
  let '(ppid, tgid) := ids in
  regs ← or_else (getregset tid) (fun _ => getregs tid);
  fpregs ← or_else (getfpregset tid) (fun _ => getfpregs tid);
  dregs ← read_dregs 8 (wrap 64) tid (seq 0 NUM_DEBUG_REGISTERS);
  Ok (mkThreadInfo (wrap usize_bits (u_rsp regs)) tgid ppid regs fpregs dregs).

Definition info_get_instruction_pointer (t : ThreadInfoX86) : Z :=
  wrap usize_bits (u_rip (regs t)).

Definition info_fill_cpu_context (t : ThreadInfoX86) (out : CONTEXT_AMD64)
    : option CONTEXT_AMD64 :=
  let r := regs t in
  d0 ← dregs t !! 0%nat; d1 ← dregs t !! 1%nat; d2 ← dregs t !! 2%nat; d3 ← dregs t !! 3%nat;
  d6 ← dregs t !! 6%nat; d7 ← dregs t !! 7%nat;
  save ← pwrite_start (float_save_of (fpregs t)) (float_save out);
  Some (mkContext (Z.lor CONTEXT_AMD64_FULL CONTEXT_AMD64_SEGMENTS)
    (wrap 16 (u_cs r)) (wrap 16 (u_ds r)) (wrap 16 (u_es r)) (wrap 16 (u_fs r))
    (wrap 16 (u_gs r)) (wrap 16 (u_ss r)) (wrap 32 (u_eflags r)) d0 d1 d2 d3 d6 d7
    (u_rax r) (u_rcx r) (u_rdx r) (u_rbx r) (u_rsp r) (u_rbp r) (u_rsi r) (u_rdi r)
    (u_r8 r) (u_r9 r) (u_r10 r) (u_r11 r) (u_r12 r) (u_r13 r) (u_r14 r) (u_r15 r) (u_rip r) save).

(** The seccomp test of [suspend_thread]. *)
Definition amd64_skip_thread (tid : Pid) : bool :=
  match getregs tid with Ok regs => u_rsp regs =? 0 | _ => true end.

#[export] Instance x86_64_arch : Arch := {|
  RawContextCPU := CONTEXT_AMD64;
  context_pod := pod_context_amd64;
  default_cpu := default_context;
  CrashContext := CrashContextAmd64;
  siginfo := cc_siginfo;
  cc_get_instruction_pointer := crash_get_instruction_pointer;
  cc_get_stack_pointer := crash_get_stack_pointer;
  cc_fill_cpu_context := crash_fill_cpu_context;
  ThreadInfo := ThreadInfoX86;
  ti_create := create_impl;
  ti_stack_pointer := stack_pointer;
  ti_get_instruction_pointer := info_get_instruction_pointer;
  ti_fill_cpu_context := info_fill_cpu_context;
  skip_thread := amd64_skip_thread;
  write_cpu_information := write_cpu_information_of PROCESSOR_ARCHITECTURE_AMD64;
  os_information := os_information_of (str_of "x86_64");
|}.

Lemma x86_64_arch_ok : Amd64FormatOk AF -> ArchOk x86_64_arch.
Proof. intros HF. apply ok_context_amd64. Qed.
End x86_64.

(** ** Theory *)

Section theory.
Context `{TG : Target} {OS : Os} {AF : Amd64Format} {AFO : Amd64FormatOk AF} {AP : Amd64Ptrace}.

Lemma pwrite_default v : exists save,
  pwrite_start v (float_save default_context) = Some save /\
  length save = float_save_len /\ take (size_with XMM_SAVE_AREA32) save = encode v.
Proof.
  destruct (@xmm_fits AF AFO) as [Hpos Hfit]. unfold default_context. cbn [float_save]. unfold pwrite_start.
  assert (Hlen : length (replicate float_save_len Byte.x00) = float_save_len)
    by apply length_replicate.
  destruct (replicate float_save_len Byte.x00) as [|b l] eqn:Hr; [cbn in Hlen; lia|].
  rewrite xmm_prefix by lia. eexists. split; [done|]. split.
  - rewrite length_app, length_drop, encode_length. lia.
  - by rewrite take_app_length' by (by rewrite encode_length).
Qed.

(** The packed segment registers of a signal context. *)
Definition pack_segments (cs gs fs ss : Z) : Z :=
  swrap 64 (cs + gs * 2 ^ 16 + fs * 2 ^ 32 + ss * 2 ^ 48).

Lemma unpack_segments cs gs fs ss :
  in_bits 16 cs -> in_bits 16 gs -> in_bits 16 fs -> in_bits 16 ss ->
  let w := pack_segments cs gs fs ss in
  Z.land w 0xffff = cs /\ Z.land (Z.shiftr w 16) 0xffff = gs /\
  Z.land (Z.shiftr w 32) 0xffff = fs.
Proof.
  intros Hcs Hgs Hfs Hss w. unfold in_bits in Hcs, Hgs, Hfs, Hss.
  assert (Hw : exists k, w = cs + gs * 2 ^ 16 + fs * 2 ^ 32 + ss * 2 ^ 48 - k * 2 ^ 64).
  { subst w. unfold pack_segments, swrap, wrap. rewrite Z.mod_small by lia.
    case_match; [exists 0|exists 1]; lia. }
  destruct Hw as [k ->]. change 0xffff with (Z.ones 16).
  rewrite !Z.land_ones, !Z.shiftr_div_pow2 by lia.
  split_and!.
  - symmetry. apply (Z.mod_unique_pos _ _ (gs + fs * 2 ^ 16 + ss * 2 ^ 32 - k * 2 ^ 48)); lia.
  - replace (_ / 2 ^ 16) with (gs + fs * 2 ^ 16 + ss * 2 ^ 32 - k * 2 ^ 48)
      by (apply (Z.div_unique_pos _ _ _ cs); lia).
    symmetry. apply (Z.mod_unique_pos _ _ (fs + ss * 2 ^ 16 - k * 2 ^ 32)); lia.
  - replace (_ / 2 ^ 32) with (fs + ss * 2 ^ 16 - k * 2 ^ 32)
      by (apply (Z.div_unique_pos _ _ _ (cs + gs * 2 ^ 16)); lia).
    symmetry. apply (Z.mod_unique_pos _ _ (ss - k * 2 ^ 16)); lia.
Qed.

(** A signal context and a thread that hold the same registers; the signed
    words of the former are those of the latter reinterpreted. *)
Record same_registers (c : CrashContextAmd64) (t : ThreadInfoX86) : Prop := {
  same_float : float_state c = fpregs t;
  same_flags : wrap 32 (gregs c REG_EFL) = wrap 32 (u_eflags (regs t));
  same_segments : gregs c REG_CSGSFS =
    pack_segments (u_cs (regs t)) (u_gs (regs t)) (u_fs (regs t)) (u_ss (regs t));
  same_words : Forall (fun '(r, v) => gregs c r = swrap 64 v /\ in_bits 64 v)
    [(REG_RAX, u_rax (regs t)); (REG_RCX, u_rcx (regs t)); (REG_RDX, u_rdx (regs t));
     (REG_RBX, u_rbx (regs t)); (REG_RSP, u_rsp (regs t)); (REG_RBP, u_rbp (regs t));
     (REG_RSI, u_rsi (regs t)); (REG_RDI, u_rdi (regs t)); (REG_R8, u_r8 (regs t));
     (REG_R9, u_r9 (regs t)); (REG_R10, u_r10 (regs t)); (REG_R11, u_r11 (regs t));
     (REG_R12, u_r12 (regs t)); (REG_R13, u_r13 (regs t)); (REG_R14, u_r14 (regs t));
     (REG_R15, u_r15 (regs t)); (REG_RIP, u_rip (regs t))];
  segments_16 : Forall (in_bits 16)
    [u_cs (regs t); u_gs (regs t); u_fs (regs t); u_ss (regs t)];
}.

Lemma wrap_greg g v : g = swrap 64 v -> in_bits 64 v -> wrap 64 g = v.
Proof. intros -> Hv. rewrite wrap_swrap by lia. by apply wrap_small. Qed.

End theory.

(** The debug registers, whatever they hold. *)
Lemma read_dregs_ok {XP : X86Peek} size cast tid idxs :
  (forall i ret errno, i ∈ idxs ->
     peek_user_call tid (offset_of_u_debugreg + Z.of_nat i * size) = (ret, errno) ->
     ret <> -1 \/ errno = UnknownErrno) ->
  read_dregs size cast tid idxs =
    Ok ((fun i => cast (peek_user_call tid (offset_of_u_debugreg + Z.of_nat i * size)).1) <$> idxs).
Proof.
  induction idxs as [|i idxs IH]; intros Hp; [done|]. cbn [read_dregs fmap list_fmap].
  unfold peek_user, ptrace_peek.
  destruct (peek_user_call tid _) as [ret errno] eqn:E.
  replace ((ret =? -1) && negb (errno =? UnknownErrno)) with false.
  - cbn [map_err mbind res_bind]. rewrite IH; [done|]. intros j r e Hj. apply Hp. by right.
  - destruct (Hp i ret errno) as [Hr|Hr]; [by left|done| |].
    + by rewrite (proj2 (Z.eqb_neq _ _) Hr).
    + subst errno. by rewrite andb_false_r.
Qed.

(** C36: the two sources of registers agree.  For a thread and a signal context
    that hold the same registers, both ways of filling the minidump context
    succeed and give the same general registers, instruction pointer, flags,
    code segment, fs, gs and floating point area (the packed segment word and
    the signed words of the signal context are decoded correctly); they differ
    in the context flags, in ds, es and ss and in the debug registers, which a
    signal context does not have. *)
Theorem contexts_agree `{TG : Target} (AF : Amd64Format) (AFO : Amd64FormatOk AF)
    (c : CrashContextAmd64) (t : ThreadInfoX86) :
  same_registers c t -> length (dregs t) = NUM_DEBUG_REGISTERS ->
  crash_get_instruction_pointer c = info_get_instruction_pointer t /\
  exists b, info_fill_cpu_context t default_context = Some b /\
    crash_fill_cpu_context c default_context =
      Some (mkContext CONTEXT_AMD64_FULL (c_cs b) 0 0 (c_fs b) (c_gs b) 0 (c_eflags b)
              0 0 0 0 0 0 (rax b) (rcx b) (rdx b) (rbx b) (rsp b) (rbp b) (rsi b) (rdi b)
              (r8 b) (r9 b) (r10 b) (r11 b) (r12 b) (r13 b) (r14 b) (r15 b) (rip b)
              (float_save b)).
Proof.
  intros [Hf Hfl Hseg Hw H16] Hd.
  repeat match goal with HF : Forall _ (_ :: _) |- _ => inversion HF; clear HF; subst end.
  repeat match goal with HF : _ = swrap 64 _ /\ in_bits 64 _ |- _ => destruct HF end.
  destruct (unpack_segments (u_cs (regs t)) (u_gs (regs t)) (u_fs (regs t)) (u_ss (regs t)))
    as (Hcs & Hgs & Hfs); [done..|].
  split.
  { unfold crash_get_instruction_pointer, info_get_instruction_pointer.
    match goal with HH : gregs c REG_RIP = _ |- _ => rewrite HH end.
    apply wrap_swrap. unfold usize_bits. destruct pointer_width; lia. }
  destruct (pwrite_default (float_save_of (fpregs t))) as (save & Hsave & _).
  destruct (dregs t) as [|d0 [|d1 [|d2 [|d3 [|d4 [|d5 [|d6 [|d7 [|]]]]]]]]] eqn:Hdr; try done.
  unfold info_fill_cpu_context, crash_fill_cpu_context. rewrite Hdr, Hf, Hsave, Hseg, Hcs, Hgs, Hfs.
  eexists. split; [reflexivity|]. cbn [mbind option_bind]. f_equal.
  rewrite Hfl. f_equal; by apply wrap_greg.
Qed.

(** reading a thread.  When its status file gives the ids, one of the two
    requests for each register set answers and no peek fails, [create] returns
    the thread with the registers of the first request that answered and all
    eight debug registers; a debug register that holds all ones (returned as -1
    with errno clear) is data, not an error. *)
Theorem create_reads_registers `{TG : Target} (OS : Os) (AP : Amd64Ptrace) (pid tid ppid tgid : Pid)
    (r : user_regs_struct) (f : user_fpregs_struct) :
  get_ppid_and_tgid tid = Ok (ppid, tgid) ->
  (getregset_call tid = inr r \/ (exists e, getregset_call tid = inl e) /\ getregs_call tid = inr r) ->
  (getfpregset_call tid = inr f \/
     (exists e, getfpregset_call tid = inl e) /\ getfpregs_call tid = inr f) ->
  (forall i ret errno, (i < 8)%nat ->
     peek_user_call tid (offset_of_u_debugreg + Z.of_nat i * 8) = (ret, errno) ->
     ret <> -1 \/ errno = UnknownErrno) ->
  create_impl pid tid =
    Ok (mkThreadInfo (wrap usize_bits (u_rsp r)) tgid ppid r f
          ((fun i => wrap 64 (peek_user_call tid (offset_of_u_debugreg + Z.of_nat i * 8)).1) <$>
             seq 0 8)).
Proof.
  intros Hids Hr Hf Hp. unfold create_impl. rewrite Hids. cbn [mbind res_bind].
  assert (Hregs : or_else (getregset tid) (fun _ => getregs tid) = Ok r).
  { unfold getregset, getregs, ptrace_get_data. destruct Hr as [->|[[e ->] ->]]; done. }
  assert (Hfp : or_else (getfpregset tid) (fun _ => getfpregs tid) = Ok f).
  { unfold getfpregset, getfpregs, ptrace_get_data. destruct Hf as [->|[[e ->] ->]]; done. }
  rewrite Hregs. cbn [mbind res_bind]. rewrite Hfp. cbn [mbind res_bind].
  rewrite read_dregs_ok; [done|]. intros i ret errno Hi. apply Hp.
  apply elem_of_seq in Hi. unfold NUM_DEBUG_REGISTERS in Hi. lia.
Qed.

(** ** A concrete machine *)

Definition enc_context (c : CONTEXT_AMD64) : list byte :=
  replicate 48 Byte.x00 ++ le_split 4 (context_flags c) ++ le_split 4 0 ++
  ([c_cs c; c_ds c; c_es c; c_fs c; c_gs c; c_ss c] ≫= le_split 2) ++ le_split 4 (c_eflags c) ++
  ([dr0 c; dr1 c; dr2 c; dr3 c; dr6 c; dr7 c; rax c; rcx c; rdx c; rbx c; rsp c; rbp c; rsi c;
    rdi c; r8 c; r9 c; r10 c; r11 c; r12 c; r13 c; r14 c; r15 c; rip c] ≫= le_split 8) ++
  resize 512 Byte.x00 (float_save c) ++ replicate 464 Byte.x00.

Definition enc_xmm (x : XMM_SAVE_AREA32) : list byte :=
  le_split 2 (control_word x) ++ le_split 2 (status_word x) ++ le_split 1 (tag_word x) ++
  le_split 1 0 ++ le_split 2 (error_opcode x) ++ le_split 4 (error_offset x) ++
  le_split 2 (error_selector x) ++ le_split 2 0 ++ le_split 4 (data_offset x) ++
  le_split 2 (data_selector x) ++ le_split 2 0 ++ le_split 4 (mx_csr x) ++
  le_split 4 (mx_csr_mask x) ++ resize 128 Byte.x00 (float_registers x ≫= le_split 16) ++
  resize 256 Byte.x00 (xmm_registers x ≫= le_split 16) ++ replicate 96 Byte.x00.

#[export] Instance amd64_layout : Amd64Format := {|
  pod_context_amd64 := pod_of 1232 enc_context;
  pod_xmm := pod_of 512 enc_xmm;
  float_save_len := 512;
  CONTEXT_AMD64_FULL := 0x10000b;
  CONTEXT_AMD64_SEGMENTS := 0x100004;
|}.

#[export] Instance amd64_layout_ok : Amd64FormatOk amd64_layout.
Proof.
  split.
  - apply pod_of_ok. intros v. unfold enc_context.
    by rewrite !length_app, !length_bind_split, !length_le_split, length_resize, !length_replicate.
  - apply pod_of_ok. intros v. unfold enc_xmm.
    by rewrite !length_app, !length_le_split, !length_resize, !length_replicate.
  - intros v dst Hd. cbn [pod_xmm amd64_layout size_with try_into_ctx pod_of] in *.
    rewrite decide_True by done. by rewrite pod_of_encode.
  - cbn. lia.
Qed.

#[local] Existing Instance x64_debug.

Definition sample_regs : user_regs_struct :=
  mkUserRegs 15 14 13 12 0x7ffd1000 11 10 9 8 7 (2 ^ 64 - 1) 5 4 3 2 0x400000
    0x33 0x246 0x7ffd0000 0x2b 0 0 0x53 0x63.

Definition sample_fpregs : user_fpregs_struct :=
  mkFpRegs 0x37f 0 0 0 0 0 0x1f80 0xffff (replicate 32 7) (replicate 64 9).

(** [PTRACE_GETREGSET] is not available; the first debug register holds all
    ones. *)
Local Instance sample_ptrace : Amd64Ptrace := {|
  getregset_call _ := inl 22;
  getregs_call _ := inr sample_regs;
  getfpregset_call _ := inr sample_fpregs;
  getfpregs_call _ := inl 22;
  amd64_peek := {|
    peek_user_call _ a := if a =? 848 then (-1, UnknownErrno) else (a, UnknownErrno);
    offset_of_u_debugreg := 848;
  |};
|}.

Definition sample_thread : ThreadInfoX86 :=
  mkThreadInfo 0x7ffd0000 42 1 sample_regs sample_fpregs
    [2 ^ 64 - 1; 856; 864; 872; 880; 888; 896; 904].

Definition sample_crash : CrashContextAmd64 := {|
  cc_siginfo := mkSigInfo 11 1 0;
  gregs r := match r with
    | REG_R8 => 7 | REG_R9 => 8 | REG_R10 => 9 | REG_R11 => 10 | REG_R12 => 12 | REG_R13 => 13
    | REG_R14 => 14 | REG_R15 => 15 | REG_RDI => 2 | REG_RSI => 3 | REG_RBP => 0x7ffd1000
    | REG_RBX => 11 | REG_RDX => 4 | REG_RAX => -1 | REG_RCX => 5 | REG_RSP => 0x7ffd0000
    | REG_RIP => 0x400000 | REG_EFL => 0x246
    | REG_CSGSFS => 0x2b005300630033
    end;
  float_state := sample_fpregs;
|}.

Lemma contexts_agree_witness :
  exists b, info_fill_cpu_context sample_thread default_context = Some b /\
    crash_fill_cpu_context sample_crash default_context =
      Some (mkContext 0x10000b (c_cs b) 0 0 (c_fs b) (c_gs b) 0 (c_eflags b)
              0 0 0 0 0 0 (rax b) (rcx b) (rdx b) (rbx b) (rsp b) (rbp b) (rsi b) (rdi b)
              (r8 b) (r9 b) (r10 b) (r11 b) (r12 b) (r13 b) (r14 b) (r15 b) (rip b)
              (float_save b)).
Proof.
  assert (Hs : same_registers sample_crash sample_thread).
  { split; [reflexivity..| |];
      repeat (constructor; [vm_compute; repeat split; discriminate|]); constructor. }
  exact (proj2 (contexts_agree amd64_layout amd64_layout_ok sample_crash sample_thread Hs eq_refl)).
Defined.

Lemma create_reads_registers_witness :
  @create_impl x64_debug (one_file_os sample_status) sample_ptrace 42 43 = Ok sample_thread.
Proof.
  assert (Hids : @get_ppid_and_tgid (one_file_os sample_status) 43 = Ok (1, 42))
    by (vm_compute; reflexivity).
  rewrite (create_reads_registers (one_file_os sample_status) sample_ptrace 42 43 1 42 sample_regs
    sample_fpregs Hids).
  - vm_compute. reflexivity.
  - right. split; [by exists 22|reflexivity].
  - by left.
  - intros i ret errno _. cbn. case_match; intros [= <- <-]; by right.
Defined.
