(* ===== verification/X86_32.v ===== *)
(** * The 32-bit x86 architecture (src/src/linux/thread_info/x86.rs,
      src/src/linux/crash_context/x86.rs)

    The interface of Arch.v for 32-bit x86.  The area of extended registers,
    written piece by piece with a running offset, is shown to be the image the
    instruction FXSAVE leaves, and the two sources of registers to agree. *)
From Stdlib Require Import ZArith Lia String.
From S2P Require Import Prelude Format Layout RustStr Errors Os Auxv Arch.
From S2P Require Import Contexts ThreadInfo CpuInfo X86_64.

Local Open Scope Z_scope.

(** ** The structures of the kernel *)

(** Fields of type [c_long], which has 32 bits. *)
Record user_regs_x86 := mkRegsX86 {
  u_ebx : Z; u_ecx : Z; u_edx : Z; u_esi : Z; u_edi : Z; u_ebp : Z; u_eax : Z;
  u_xds : Z; u_xes : Z; u_xfs : Z; u_xgs : Z; u_orig_eax : Z; u_eip : Z; u_xcs : Z;
  u_eflags32 : Z; u_esp : Z; u_xss : Z;
}.

Record user_fpregs_x86 := mkFpRegsX86 {
  fp_cwd : Z; fp_swd : Z; fp_twd : Z; fp_fip : Z; fp_fcs : Z; fp_foo : Z; fp_fos : Z;
  fp_st_space : list Z;
}.

Record user_fpxregs_x86 := mkFpxRegs {
  fx_cwd : Z; fx_swd : Z; fx_twd : Z; fx_fop : Z; fx_fip : Z; fx_fcs : Z; fx_foo : Z; fx_fos : Z;
  fx_mxcsr : Z; fx_st_space : list Z; fx_xmm_space : list Z;
}.

(** The indices into [gregs] of a signal context. *)
Inductive Greg32 :=
  | REG_GS | REG_FS | REG_ES | REG_DS | REG_EDI | REG_ESI | REG_EBP | REG_ESP | REG_EBX | REG_EDX
  | REG_ECX | REG_EAX | REG_EIP | REG_CS | REG_EFL32 | REG_UESP | REG_SS.

(** The floating point state of a signal context; a register [_libc_fpreg] is
    its four significand words and its exponent. *)
Record libc_fpstate := mkFpState {
  fs_cw : Z; fs_sw : Z; fs_tag : Z; fs_ipoff : Z; fs_cssel : Z; fs_dataoff : Z; fs_datasel : Z;
  fs_st : list (list Z * Z);
}.

Class X86Ptrace := {
  x86_peek :: X86Peek;
  x86_getregset_call : Pid -> Errno + user_regs_x86;
  x86_getregs_call : Pid -> Errno + user_regs_x86;
  x86_getfpregset_call : Pid -> Errno + user_fpregs_x86;
  x86_getfpregs_call : Pid -> Errno + user_fpregs_x86;
  x86_getfpxregs_call : Pid -> Errno + user_fpxregs_x86;
}.

Section x86.
(** [fxsr] is [cfg!(target_feature = "fxsr")]. *)
Context `{TG : Target} {OS : Os} {P : Platform} {XF : X86Format} {XP : X86Ptrace} (fxsr : bool).

(** ** CrashContext *)

Record CrashContextX86 := mkCrashX86 {
  ccx_siginfo : SigInfo;
  gregs32 : Greg32 -> Z;
  ccx_float_state : libc_fpstate;
}.

Definition crash_x86_get_instruction_pointer (c : CrashContextX86) : Z :=
  wrap usize_bits (gregs32 c REG_EIP).

Definition crash_x86_get_stack_pointer (c : CrashContextX86) : Z :=
  wrap usize_bits (gregs32 c REG_ESP).

(** The memory of the registers [_st]. *)
Definition st_bytes (st : list (list Z * Z)) : list byte :=
  st ≫= (fun '(significand, exponent) => (significand ≫= le_split 2) ++ le_split 2 exponent).

(** [None]: the assertion fails, or the lengths of the two slices differ. *)
Definition crash_x86_fill_cpu_context (c : CrashContextX86) (out : CONTEXT_X86)
    : option CONTEXT_X86 :=
  let g r := wrap 32 (gregs32 c r) in
  let fs := ccx_float_state c in
  let st := st_bytes (fs_st fs) in
  if overflow_checks && negb (length (fs_st fs) * 10 =? 80)%nat then None
  else if negb (length st =? length (register_area (x86_float_save out)))%nat then None
  else Some (mkContextX86 (Z.lor CONTEXT_X86_FULL CONTEXT_X86_FLOATING_POINT)
    (x86_dr0 out) (x86_dr1 out) (x86_dr2 out) (x86_dr3 out) (x86_dr6 out) (x86_dr7 out)
    (mkFloatX86 (fs_cw fs) (fs_sw fs) (fs_tag fs) (fs_ipoff fs) (fs_cssel fs) (fs_dataoff fs)
       (fs_datasel fs) st)
    (g REG_GS) (g REG_FS) (g REG_ES) (g REG_DS) (g REG_EDI) (g REG_ESI) (g REG_EBX) (g REG_EDX)
    (g REG_ECX) (g REG_EAX) (g REG_EBP) (g REG_EIP) (g REG_CS) (g REG_EFL32) (g REG_UESP)
    (g REG_SS) (extended_registers out)).

(** ** ThreadInfo *)

Record ThreadInfoX86_32 := mkThreadInfo32 {
  stack_pointer32 : Z;
  tgid32 : Pid;
  ppid32 : Pid;
  regs32 : user_regs_x86;
  fpregs32 : user_fpregs_x86;
  dregs32 : list Z;
  fpxregs32 : user_fpxregs_x86;
}.

Definition x86_getregset (pid : Pid) : res ThreadInfoError user_regs_x86 :=
  ptrace_get_data (x86_getregset_call pid).
Definition x86_getregs (pid : Pid) : res ThreadInfoError user_regs_x86 :=
  ptrace_get_data (x86_getregs_call pid).
Definition x86_getfpregset (pid : Pid) : res ThreadInfoError user_fpregs_x86 :=
  ptrace_get_data (x86_getfpregset_call pid).
Definition x86_getfpregs (pid : Pid) : res ThreadInfoError user_fpregs_x86 :=
  ptrace_get_data (x86_getfpregs_call pid).
Definition getfpxregs (pid : Pid) : res ThreadInfoError user_fpxregs_x86 :=
  ptrace_get_data (x86_getfpxregs_call pid).

(** [std::mem::zeroed] *)
Definition zeroed_fpxregs : user_fpxregs_x86 :=
  mkFpxRegs 0 0 0 0 0 0 0 0 0 (replicate 32 0) (replicate 32 0).

Definition x86_create_impl (_pid tid : Pid) : res ThreadInfoError ThreadInfoX86_32 :=
  ids ← get_ppid_and_tgid tid;
  let '(ppid, tgid) := ids in
  regs ← or_else (x86_getregset tid) (fun _ => x86_getregs tid);
  fpregs ← or_else (x86_getfpregset tid) (fun _ => x86_getfpregs tid);
  fpxregs ← (if fxsr then getfpxregs tid else Ok zeroed_fpxregs);
  dregs ← read_dregs 4 (swrap 32) tid (seq 0 NUM_DEBUG_REGISTERS);
  Ok (mkThreadInfo32 (wrap usize_bits (u_esp regs)) tgid ppid regs fpregs dregs fpxregs).

Definition x86_info_get_instruction_pointer (t : ThreadInfoX86_32) : Z :=
  wrap usize_bits (u_eip (regs32 t)).

(** [pwrite_with] of the bytes of a number at an offset. *)
Definition pwrite_at (bs : list byte) (offset : nat) (dst : list byte) : option (list byte) :=
  if decide (offset < length dst /\ offset + length bs <= length dst)%nat
  then Some (splice offset bs dst) else None.

(** The loop over the floating point registers, which stops at the end of the
    area. *)
Fixpoint write_register_area (idx : nat) (blocks : list Z) (ra : list byte) : option (list byte) :=
  match blocks with
  | [] => Some ra
  | block :: blocks' =>
      let offset := (idx * 4)%nat in
      if decide (length ra <= offset)%nat then Some ra
      else ra' ← pwrite_at (le_split 4 block) offset ra; write_register_area (S idx) blocks' ra'
  end.

(** [write_er!] for several numbers: the area and the offset behind them. *)
Fixpoint write_er (pieces : list (list byte)) (s : list byte * nat) : option (list byte * nat) :=
  match pieces with
  | [] => Some s
  | bs :: pieces' =>
      area ← pwrite_at bs (snd s) (fst s);
      write_er pieces' (area, snd s + length bs)%nat
  end.

Definition fill_extended_registers (f : user_fpregs_x86) (x : user_fpxregs_x86) (er : list byte)
    : option (list byte) :=
  '(er, _) ← write_er [le_split 2 (fp_cwd f); le_split 2 (fp_swd f); le_split 2 (fp_twd f);
                       le_split 2 (fx_fop x); le_split 4 (fx_fip x); le_split 4 (fx_fcs x);
                       le_split 4 (fp_foo f); le_split 4 (fp_fos f); le_split 4 (fx_mxcsr x)] (er, 0%nat);
  '(er, offset) ← write_er (le_split 4 <$> fx_st_space x) (er, 32%nat);
  if overflow_checks && negb (offset =? 160)%nat then None
  else '(er, _) ← write_er (le_split 4 <$> fx_xmm_space x) (er, offset); Some er.

Definition x86_info_fill_cpu_context (t : ThreadInfoX86_32) (out : CONTEXT_X86)
    : option CONTEXT_X86 :=
  let r := regs32 t in
  let f := fpregs32 t in
  let g := wrap 32 in
  d0 ← dregs32 t !! 0%nat; d3 ← dregs32 t !! 3%nat; d1 ← dregs32 t !! 1%nat;
  d2 ← dregs32 t !! 2%nat; d6 ← dregs32 t !! 6%nat; d7 ← dregs32 t !! 7%nat;
  ra ← write_register_area 0 (fp_st_space f) (register_area (x86_float_save out));
  er ← fill_extended_registers f (fpxregs32 t) (extended_registers out);
  Some (mkContextX86 CONTEXT_X86_ALL (g d0) (g d1) (g d2) (g d3) (g d6) (g d7)
    (mkFloatX86 (g (fp_cwd f)) (g (fp_swd f)) (g (fp_twd f)) (g (fp_fip f)) (g (fp_fcs f))
       (g (fp_foo f)) (g (fp_fos f)) ra)
    (g (u_xgs r)) (g (u_xfs r)) (g (u_xes r)) (g (u_xds r)) (g (u_edi r)) (g (u_esi r))
    (g (u_ebx r)) (g (u_edx r)) (g (u_ecx r)) (g (u_eax r)) (g (u_ebp r)) (g (u_eip r))
    (g (u_xcs r)) (g (u_eflags32 r)) (g (u_esp r)) (g (u_xss r)) er).

(** The seccomp test of [suspend_thread]. *)
Definition x86_skip_thread (tid : Pid) : bool :=
  match x86_getregs tid with Ok regs => u_esp regs =? 0 | _ => true end.

Definition x86_arch : Arch := {|
  RawContextCPU := CONTEXT_X86;
  context_pod := pod_context_x86;
  default_cpu := default_context_x86;
  CrashContext := CrashContextX86;
  siginfo := ccx_siginfo;
  cc_get_instruction_pointer := crash_x86_get_instruction_pointer;
  cc_get_stack_pointer := crash_x86_get_stack_pointer;
  cc_fill_cpu_context := crash_x86_fill_cpu_context;
  ThreadInfo := ThreadInfoX86_32;
  ti_create := x86_create_impl;
  ti_stack_pointer := stack_pointer32;
  ti_get_instruction_pointer := x86_info_get_instruction_pointer;
  ti_fill_cpu_context := x86_info_fill_cpu_context;
  skip_thread := x86_skip_thread;
  write_cpu_information := write_cpu_information_of PROCESSOR_ARCHITECTURE_INTEL;
  os_information := os_information_of (str_of "x86");
|}.

Lemma x86_arch_ok : X86FormatOk XF -> ArchOk x86_arch.
Proof. intros HF. apply ok_context_x86. Qed.
End x86.

(** ** The extended registers *)

(** Writing pieces one behind the other is writing their concatenation. *)
Lemma write_er_spec pieces : forall area off,
  Forall (fun bs => bs <> []) pieces -> (off + length (concat pieces) <= length area)%nat ->
  write_er pieces (area, off) =
    Some (splice off (concat pieces) area, (off + length (concat pieces))%nat).
Proof.
  induction pieces as [|bs pieces IH]; intros area off Hne Hfit.
  { cbn. by rewrite splice_nil, Nat.add_0_r. }
  inversion Hne as [|? ? Hbs Hne']; subst. cbn [concat] in Hfit |- *. rewrite length_app in Hfit |- *.
  assert (0 < length bs)%nat by (destruct bs; [done|cbn; lia]).
  cbn [write_er fst snd]. unfold pwrite_at. rewrite decide_True by lia. cbn [mbind option_bind].
  rewrite IH by (try done; rewrite length_splice; lia).
  rewrite splice_splice by lia. do 2 f_equal. lia.
Qed.

Lemma concat_le_split n (l : list Z) : concat (le_split n <$> l) = l ≫= le_split n.
Proof. induction l as [|x l IH]; [done|]. cbn. by rewrite IH. Qed.

Lemma le_split_nonempty n (l : list Z) : n <> O -> Forall (fun bs => bs <> []) (le_split n <$> l).
Proof.
  intros Hn. apply Forall_fmap, Forall_forall. intros x _ He. cbn in He.
  apply (f_equal length) in He. rewrite length_le_split in He. cbn in He. lia.
Qed.

(** The words written in front of the registers. *)
Definition control_words (f : user_fpregs_x86) (x : user_fpxregs_x86) : list byte :=
  le_split 2 (fp_cwd f) ++ le_split 2 (fp_swd f) ++ le_split 2 (fp_twd f) ++ le_split 2 (fx_fop x) ++
  le_split 4 (fx_fip x) ++ le_split 4 (fx_fcs x) ++ le_split 4 (fp_foo f) ++ le_split 4 (fp_fos f) ++
  le_split 4 (fx_mxcsr x).

Lemma fill_extended `{TG : Target} f x er :
  length er = 512%nat -> length (fx_st_space x) = 32%nat -> length (fx_xmm_space x) = 32%nat ->
  fill_extended_registers f x er =
    Some (splice 32 ((fx_st_space x ++ fx_xmm_space x) ≫= le_split 4) (splice 0 (control_words f x) er)).
Proof.
  intros Her Hst Hxmm. unfold fill_extended_registers.
  set (head := [le_split 2 _; _; _; _; _; _; _; _; _]).
  assert (Hc : concat head = control_words f x) by (unfold head, control_words; cbn [concat]; by rewrite app_nil_r).
  assert (Hl : length (control_words f x) = 28%nat)
    by (unfold control_words; by rewrite !length_app, !length_le_split).
  assert (Hn : forall l : list Z, length (l ≫= le_split 4) = (length l * 4)%nat)
    by (intros l; apply length_bind_split).
  rewrite write_er_spec; [|by repeat constructor|rewrite Hc, Hl; lia]. cbn [mbind option_bind].
  rewrite Hc. rewrite write_er_spec;
    [|by apply le_split_nonempty|rewrite concat_le_split, Hn, length_splice by lia; lia].
  cbn [mbind option_bind]. rewrite concat_le_split, Hn, Hst. change (32 + 32 * 4)%nat with 160%nat.
  rewrite Nat.eqb_refl, andb_false_r.
  rewrite write_er_spec; [|by apply le_split_nonempty|rewrite concat_le_split, Hn, !length_splice;
    rewrite ?Hn; rewrite ?length_splice by lia; lia].
  cbn [mbind option_bind]. rewrite concat_le_split, bind_app. f_equal.
  replace 160%nat with (32 + length (fx_st_space x ≫= le_split 4))%nat by (rewrite Hn; lia).
  apply splice_splice. rewrite !Hn, length_splice by lia. lia.
Qed.

(** The loop over the floating point registers copies their bytes. *)
Lemma write_register_area_spec blocks : forall idx ra,
  ((idx + length blocks) * 4 = length ra)%nat ->
  write_register_area idx blocks ra = Some (splice (idx * 4) (blocks ≫= le_split 4) ra).
Proof.
  induction blocks as [|b blocks IH]; intros idx ra Hl; cbn [write_register_area].
  { cbn. by rewrite splice_nil. }
  cbn [length] in Hl. rewrite decide_False by lia. unfold pwrite_at.
  assert (H4 : length (le_split 4 b) = 4%nat) by apply length_le_split.
  rewrite decide_True by lia. cbn [mbind option_bind].
  rewrite IH by (rewrite length_splice; lia). f_equal.
  replace (S idx * 4)%nat with (idx * 4 + length (le_split 4 b))%nat by lia.
  rewrite splice_splice; [done|]. rewrite length_bind_split. lia.
Qed.

Lemma splice_whole {A} (a l : list A) : length a = length l -> splice 0 a l = a.
Proof. intros Hl. unfold splice. cbn. rewrite drop_ge by lia. apply app_nil_r. Qed.

(** ** Properties *)

(** The area where FXSAVE puts a field (offset, length) and a register (offset of
    the first one, 16 bytes each). *)
Inductive FxField := FCW | FSW | FOP | FIP | FCS | FDP | FDS | MXCSR.

Definition fx_slot (i : FxField) : nat * nat :=
  match i with
  | FCW => (0, 2) | FSW => (2, 2) | FOP => (6, 2) | FIP => (8, 4) | FCS => (12, 4)
  | FDP => (16, 4) | FDS => (20, 4) | MXCSR => (24, 4)
  end%nat.

Definition FX_FTW : nat := 4.
Definition FX_MXCSR_MASK : nat := 28.
Definition FX_ST : nat := 32.
Definition FX_XMM : nat := 160.
Definition FX_END : nat := 288.

(** The value of a field of a thread whose registers were read by
    PTRACE_GETFPREGS and PTRACE_GETFPXREGS. *)
Definition fx_value (f : user_fpregs_x86) (x : user_fpxregs_x86) (i : FxField) : Z :=
  match i with
  | FCW => fp_cwd f | FSW => fp_swd f | FOP => fx_fop x | FIP => fx_fip x | FCS => fx_fcs x
  | FDP => fp_foo f | FDS => fp_fos f | MXCSR => fx_mxcsr x
  end.

Lemma bytes_at_words i n (l : list Z) :
  bytes_at (4 * i) (4 * n) (l ≫= le_split 4) = bytes_at i n l ≫= le_split 4.
Proof.
  assert (Hd : forall k (l : list Z), drop (4 * k) (l ≫= le_split 4) = drop k l ≫= le_split 4).
  { intros k. induction k as [|k IH]; intros [|v l']; try done.
    replace (4 * S k)%nat with (length (le_split 4 v) + 4 * k)%nat by (rewrite length_le_split; lia).
    cbn [mbind list_bind]. by rewrite drop_app_add, IH. }
  assert (Ht : forall k (l : list Z), take (4 * k) (l ≫= le_split 4) = take k l ≫= le_split 4).
  { intros k. induction k as [|k IH]; intros [|v l']; try done.
    replace (4 * S k)%nat with (length (le_split 4 v) + 4 * k)%nat by (rewrite length_le_split; lia).
    cbn [mbind list_bind]. rewrite take_app_add. cbn [take mbind list_bind]. by rewrite IH. }
  unfold bytes_at. by rewrite Hd, Ht.
Qed.

(** C37: the extended registers of a thread of 32-bit x86.  Writing the control
    words, the floating point registers and the vector registers one after the
    other with a running offset never runs out of the area, and leaves where the
    instruction FXSAVE would put them: the control and status words, opcode,
    instruction and data pointers with their selectors, MXCSR, and each of the
    eight floating point and vector registers.  It differs from FXSAVE in the tag
    word, which is the 16-bit one with two bits per register and not the
    abridged one, and in the mask of MXCSR, which is not written; neither is
    anything behind the vector registers. *)
Theorem extended_registers_image `{TG : Target} (f : user_fpregs_x86) (x : user_fpxregs_x86)
    (er : list byte) :
  length er = 512%nat -> length (fx_st_space x) = 32%nat -> length (fx_xmm_space x) = 32%nat ->
  exists out, fill_extended_registers f x er = Some out /\ length out = 512%nat /\
    (forall i, bytes_at (fx_slot i).1 (fx_slot i).2 out = le_split (fx_slot i).2 (fx_value f x i)) /\
    (forall i, (i < 8)%nat ->
       bytes_at (FX_ST + 16 * i) 16 out = bytes_at (4 * i) 4 (fx_st_space x) ≫= le_split 4 /\
       bytes_at (FX_XMM + 16 * i) 16 out = bytes_at (4 * i) 4 (fx_xmm_space x) ≫= le_split 4) /\
    bytes_at FX_FTW 2 out = le_split 2 (fp_twd f) /\
    bytes_at FX_MXCSR_MASK 4 out = bytes_at FX_MXCSR_MASK 4 er /\ drop FX_END out = drop FX_END er.
Proof.
  intros Her Hst Hxmm.
  assert (Hl : length (control_words f x) = 28%nat)
    by (unfold control_words; by rewrite !length_app, !length_le_split).
  exists (control_words f x ++ bytes_at 28 4 er ++ (fx_st_space x ≫= le_split 4) ++
          (fx_xmm_space x ≫= le_split 4) ++ drop 288 er).
  assert (Hm : length (bytes_at 28 4 er) = 4%nat) by (apply length_bytes_at; lia).
  split_and!.
  - rewrite fill_extended by done. f_equal.
    assert (Hsp : splice 0 (control_words f x) er = control_words f x ++ drop 28 er)
      by (unfold splice; by rewrite Hl).
    rewrite bind_app, Hsp. unfold splice. rewrite length_app, !length_bind_split, Hst, Hxmm.
    rewrite take_app_ge, drop_app_ge by lia. rewrite Hl, drop_drop, <- !app_assoc. done.
  - rewrite !length_app, Hl, Hm, !length_bind_split, Hst, Hxmm, length_drop. lia.
  - intros []; reflexivity.
  - intros i Hi. unfold FX_ST, FX_XMM. split.
    + rewrite app_assoc, bytes_at_app_r by (rewrite length_app; lia). rewrite length_app, Hl, Hm.
      rewrite bytes_at_app_l by (rewrite length_bind_split; lia).
      rewrite <- bytes_at_words. f_equal; lia.
    + rewrite 2!app_assoc, bytes_at_app_r by (rewrite !length_app, length_bind_split; lia).
      rewrite !length_app, length_bind_split, Hl, Hm, Hst.
      rewrite bytes_at_app_l by (rewrite length_bind_split; lia).
      rewrite <- bytes_at_words. f_equal; lia.
  - reflexivity.
  - unfold FX_MXCSR_MASK. rewrite bytes_at_app_r by lia. rewrite Hl, bytes_at_app_l by lia.
    by apply bytes_at_all.
  - unfold FX_END. rewrite 3!app_assoc, drop_app_length'; [done|].
    rewrite !length_app, !length_bind_split. lia.
Qed.

Definition sample_fpregs32 : user_fpregs_x86 :=
  mkFpRegsX86 0x37f 0 0xffff 0x1000 0x73 0x2000 0x7b (seqZ 1 20).
Definition sample_fpxregs : user_fpxregs_x86 :=
  mkFpxRegs 0 0 0 5 6 7 0 0 0x1f80 (seqZ 1 32) (seqZ 33 32).

(** An empty stack of registers has the tag word 0xffff; FXSAVE would store 0. *)
Lemma extended_registers_image_witness :
  exists out, @fill_extended_registers x64_debug sample_fpregs32 sample_fpxregs (replicate 512 Byte.x00)
    = Some out /\ bytes_at 24 4 out = le_split 4 0x1f80 /\ bytes_at 4 2 out = [Byte.xff; Byte.xff].
Proof.
  destruct (@extended_registers_image x64_debug sample_fpregs32 sample_fpxregs (replicate 512 Byte.x00)
    eq_refl eq_refl eq_refl) as (out & Hout & _ & Hf & _ & Htag & _).
  exists out. split; [exact Hout|]. split; [exact (Hf MXCSR)|exact Htag].
Defined.

(** A signal context and a thread that hold the same registers. *)
Record same_registers_x86 (c : CrashContextX86) (t : ThreadInfoX86_32) : Prop := {
  same_gregs32 : Forall (fun '(r, v) => wrap 32 (gregs32 c r) = wrap 32 v)
    [(REG_GS, u_xgs (regs32 t)); (REG_FS, u_xfs (regs32 t)); (REG_ES, u_xes (regs32 t));
     (REG_DS, u_xds (regs32 t)); (REG_EDI, u_edi (regs32 t)); (REG_ESI, u_esi (regs32 t));
     (REG_EBX, u_ebx (regs32 t)); (REG_EDX, u_edx (regs32 t)); (REG_ECX, u_ecx (regs32 t));
     (REG_EAX, u_eax (regs32 t)); (REG_EBP, u_ebp (regs32 t)); (REG_EIP, u_eip (regs32 t));
     (REG_CS, u_xcs (regs32 t)); (REG_EFL32, u_eflags32 (regs32 t));
     (REG_UESP, u_esp (regs32 t)); (REG_SS, u_xss (regs32 t))];
  same_float32 :
    let s := ccx_float_state c in let f := fpregs32 t in
    [fs_cw s; fs_sw s; fs_tag s; fs_ipoff s; fs_cssel s; fs_dataoff s; fs_datasel s] =
    wrap 32 <$> [fp_cwd f; fp_swd f; fp_twd f; fp_fip f; fp_fcs f; fp_foo f; fp_fos f];
  same_st32 : st_bytes (fs_st (ccx_float_state c)) = fp_st_space (fpregs32 t) ≫= le_split 4;
}.

(** the two sources of registers agree on 32-bit x86.  For a thread and a
    signal context that hold the same registers both ways of filling the
    minidump context succeed and give the same general, segment and floating
    point registers (the register area is copied as a block from one and word by
    word from the other); the signal context has no debug registers and its
    extended registers stay zero. *)
Theorem x86_contexts_agree `{TG : Target} (XF : X86Format) (XFO : X86FormatOk XF)
    (c : CrashContextX86) (t : ThreadInfoX86_32) :
  same_registers_x86 c t -> length (fs_st (ccx_float_state c)) = 8%nat ->
  length (fp_st_space (fpregs32 t)) = 20%nat -> length (dregs32 t) = NUM_DEBUG_REGISTERS ->
  length (fx_st_space (fpxregs32 t)) = 32%nat -> length (fx_xmm_space (fpxregs32 t)) = 32%nat ->
  exists b, x86_info_fill_cpu_context t default_context_x86 = Some b /\
    crash_x86_fill_cpu_context c default_context_x86 =
      Some (mkContextX86 (Z.lor CONTEXT_X86_FULL CONTEXT_X86_FLOATING_POINT) 0 0 0 0 0 0
              (x86_float_save b) (x86_gs b) (x86_fs b) (x86_es b) (x86_ds b) (edi b) (esi b) (ebx b)
              (edx b) (ecx b) (eax b) (ebp b) (eip b) (x86_cs b) (x86_eflags b) (esp b) (x86_ss b)
              (replicate 512 Byte.x00)).
Proof.
  intros [Hg Hf Hst] H8 H20 Hd Hs Hx. destruct XFO as [_ H80 H512].
  destruct (dregs32 t) as [|d0 [|d1 [|d2 [|d3 [|d4 [|d5 [|d6 [|d7 [|]]]]]]]]] eqn:Hdr; try done.
  unfold x86_info_fill_cpu_context. rewrite Hdr. cbn [lookup list_lookup mbind option_bind].
  unfold default_context_x86. cbn [x86_float_save register_area extended_registers].
  rewrite write_register_area_spec by (rewrite length_replicate, H80; lia).
  cbn [mbind option_bind]. rewrite fill_extended by (rewrite ?length_replicate; done).
  cbn [mbind option_bind]. eexists. split; [reflexivity|].
  unfold crash_x86_fill_cpu_context. rewrite H8, andb_false_r. cbn [x86_float_save register_area].
  rewrite Hst, length_replicate, H80, length_bind_split, H20. cbn [Nat.mul Nat.add Nat.eqb negb].
  cbn [fmap list_fmap] in Hf. injection Hf as -> -> -> -> -> -> ->.
  rewrite !Forall_cons in Hg. destruct_and! Hg. cbn [extended_registers].
  rewrite splice_whole by (rewrite length_bind_split, H20, length_replicate; done).
  rewrite H512. f_equal. f_equal; done.
Qed.

(** ** A concrete machine *)

Definition enc_context_x86 (c : CONTEXT_X86) : list byte :=
  let f := x86_float_save c in
  ([x86_context_flags c; x86_dr0 c; x86_dr1 c; x86_dr2 c; x86_dr3 c; x86_dr6 c; x86_dr7 c;
    x86_control_word f; x86_status_word f; x86_tag_word f; x86_error_offset f;
    x86_error_selector f; x86_data_offset f; x86_data_selector f] ≫= le_split 4) ++
  resize 80 Byte.x00 (register_area f) ++ le_split 4 0 ++
  ([x86_gs c; x86_fs c; x86_es c; x86_ds c; edi c; esi c; ebx c; edx c; ecx c; eax c; ebp c; eip c;
    x86_cs c; x86_eflags c; esp c; x86_ss c] ≫= le_split 4) ++
  resize 512 Byte.x00 (extended_registers c).

Definition x86_layout : X86Format := {|
  pod_context_x86 := pod_of 716 enc_context_x86;
  register_area_len := 80;
  extended_registers_len := 512;
  CONTEXT_X86_FULL := 0x10007;
  CONTEXT_X86_FLOATING_POINT := 0x10008;
  CONTEXT_X86_ALL := 0x1003f;
|}.

Lemma x86_layout_ok : X86FormatOk x86_layout.
Proof.
  split; [|done..]. apply pod_of_ok. intros v. unfold enc_context_x86.
  by rewrite !length_app, !length_bind_split, length_le_split, !length_resize.
Qed.

Definition x86_debug : Target := {| pointer_width := W32; overflow_checks := true; target_android := false |}.

Definition sample_thread32 : ThreadInfoX86_32 :=
  mkThreadInfo32 0xbfff0000 42 1
    (mkRegsX86 1 2 3 4 5 6 (-1) 0x7b 0x7b 0 0x33 (-1) 0x8048000 0x73 0x246 (swrap 32 0xbfff0000) 0x7b)
    (mkFpRegsX86 (-0xfc81) (-0x10000) (-1) 0 0 0 0 (replicate 20 0x10001))
    [0; 0; 0; 0; 0; 0; -0xf010; 0x400] sample_fpxregs.

Definition sample_crash32 : CrashContextX86 := {|
  ccx_siginfo := mkSigInfo 11 1 0;
  gregs32 r := match r with
    | REG_GS => 0x33 | REG_FS => 0 | REG_ES => 0x7b | REG_DS => 0x7b | REG_EDI => 5 | REG_ESI => 4
    | REG_EBP => 6 | REG_ESP | REG_UESP => swrap 32 0xbfff0000 | REG_EBX => 1 | REG_EDX => 3
    | REG_ECX => 2 | REG_EAX => -1 | REG_EIP => 0x8048000 | REG_CS => 0x73 | REG_EFL32 => 0x246
    | REG_SS => 0x7b
    end;
  ccx_float_state := mkFpState 0xffff037f 0xffff0000 0xffffffff 0 0 0 0
    (replicate 8 ([1; 1; 1; 1], 1));
|}.

Lemma x86_contexts_agree_witness :
  exists b, @x86_info_fill_cpu_context x86_debug x86_layout sample_thread32
      (@default_context_x86 x86_layout) = Some b /\
    option_map (fun c => (eax c, esp c, x86_float_save c))
      (@crash_x86_fill_cpu_context x86_debug x86_layout sample_crash32
         (@default_context_x86 x86_layout)) =
    Some (eax b, esp b, x86_float_save b).
Proof.
  assert (Hs : same_registers_x86 sample_crash32 sample_thread32)
    by (split; [repeat constructor|vm_compute; reflexivity..]).
  destruct (@x86_contexts_agree x86_debug x86_layout x86_layout_ok sample_crash32 sample_thread32 Hs
    eq_refl eq_refl eq_refl eq_refl eq_refl) as (b & Hb & Hc).
  exists b. split; [exact Hb|]. rewrite Hc. reflexivity.
Defined.
