(* ===== verification/ArmCpuInfo.v ===== *)
(** * Processor description on ARM (src/src/linux/dumper_cpu_info/arm.rs)

    The sets of processors from two sysfs files, and the processor id, level
    and capabilities from /proc/cpuinfo, for 32-bit and 64-bit ARM.  The set
    parser is shown to read back what the kernel prints; the cpuinfo parser is
    shown to find nothing in a file of the format its own comment describes. *)
From Stdlib Require Import ZArith Lia String.
From stdpp Require Import gmap.
From S2P Require Import Prelude Format RustStr Layout Errors Os Auxv ThreadInfo.

Local Open Scope Z_scope.

(** Constants of minidump-common; [MDCPUInformationARMElfHwCaps]. *)
Inductive HwCap :=
  | HWCAP_SWP | HWCAP_HALF | HWCAP_THUMB | HWCAP_26BIT | HWCAP_FAST_MULT | HWCAP_FPA | HWCAP_VFP
  | HWCAP_EDSP | HWCAP_JAVA | HWCAP_IWMMXT | HWCAP_CRUNCH | HWCAP_THUMBEE | HWCAP_NEON
  | HWCAP_VFPv3 | HWCAP_VFPv3D16 | HWCAP_TLS | HWCAP_VFPv4 | HWCAP_IDIVA | HWCAP_IDIVT
  | HWCAP_IDIV.

Class ArmPlatform := {
  PROCESSOR_ARCHITECTURE_ARM : Z;
  PROCESSOR_ARCHITECTURE_ARM64_OLD : Z;
  hwcap_bits : HwCap -> Z;
}.

(** [target_arch]: [arm] or [aarch64]. *)
Inductive ArmTarget := Arm32 | Arm64.

#[export] Instance ArmTarget_eq_dec : EqDecision ArmTarget.
Proof. solve_decision. Defined.

(** ** parse_cpus_from_sysfile *)

(** [Read::read_to_string] *)
Definition read_to_string (reads : list (IoError + list byte)) : IoError + RString :=
  match read_all reads with
  | (_, Some e) => inl e
  | (l, None) => match from_utf8 l with Some s => inr s | None => inl IoOther end
  end.

(** The cores of one item, [x..=y] for a range. *)
Definition item_cores (cores : list Z) : res CpuInfoError (gset Z) :=
  match cores with
  | [x] => Ok {[ x ]}
  | [x; y] => Ok (list_to_set (seqZ x (y - x + 1)))
  | _ => Err (CpuInfoError_UnparsableCores
           (str_of "[" ++ foldr (fun c s => fmt_dec c ++ match s with
                                                         | [] => []
                                                         | _ => str_of ", " ++ s
                                                         end) [] cores ++ str_of "]"))
  end.

Fixpoint cpu_items (items : list RString) (r : gset Z) : res CpuInfoError (gset Z) :=
  match items with
  | [] => Ok r
  | i :: items' =>
      let i := trim i in
      if decide (i = []) then cpu_items items' r
      else
        cores ← ok_or (mapM (parse_uint 32 10) (split_on (Z.eqb 45) i))
                  CpuInfoError_UnparsableInteger;
        s ← item_cores cores;
        cpu_items items' (r ∪ s)
  end.

Definition parse_cpus_from_sysfile (file : list (IoError + list byte))
    : res CpuInfoError (gset Z) :=
  content ← map_err CpuInfoError_IOError (os_res (read_to_string file));
  cpu_items (split_on (Z.eqb 44) content) ∅.

(** ** write_cpu_information *)

Record ArmCpuEntry := mkArmEntry {
  ae_field : RString;
  ae_format : Z;
  bit_lshift : Z;
  bit_length : Z;
}.

Definition cpu_id_entries : list ArmCpuEntry :=
  [mkArmEntry (str_of "CPU implementer") 120 24 8; mkArmEntry (str_of "CPU variant") 120 20 4;
   mkArmEntry (str_of "CPU part") 120 4 12; mkArmEntry (str_of "CPU revision") 100 0 4].

(** The ELF capabilities are listed in the "Features" entry as textual tags. *)
Definition cpu_features_entries : list (string * HwCap) :=
  [("swp", HWCAP_SWP); ("half", HWCAP_HALF); ("thumb", HWCAP_THUMB); ("bit26", HWCAP_26BIT);
   ("fastmult", HWCAP_FAST_MULT); ("fpa", HWCAP_FPA); ("vfp", HWCAP_VFP); ("edsp", HWCAP_EDSP);
   ("java", HWCAP_JAVA); ("iwmmxt", HWCAP_IWMMXT); ("crunch", HWCAP_CRUNCH);
   ("thumbee", HWCAP_THUMBEE); ("neon", HWCAP_NEON); ("vfpv3", HWCAP_VFPv3);
   ("vfpv3d16", HWCAP_VFPv3D16); ("tls", HWCAP_TLS); ("vfpv4", HWCAP_VFPv4);
   ("idiva", HWCAP_IDIVA); ("idivt", HWCAP_IDIVT); ("idiv", HWCAP_IDIV)]%string.

(** The inner loop: the first entry with the tag. *)
Definition tag_hwcaps {AP : ArmPlatform} (tag : RString) : Z :=
  match List.find (fun e => bool_decide (str_of (fst e) = tag)) cpu_features_entries with
  | Some (_, hwcaps) => hwcap_bits hwcaps
  | None => 0
  end.

Definition parse_features {AP : ArmPlatform} (t : ArmTarget) (val : RString) : Z :=
  match t with
  | Arm32 => fold_left (fun ehwc tag => Z.lor ehwc (tag_hwcaps tag)) (split_whitespace val) 0
  | Arm64 => 0
  end.

(** [str::trim_start_matches] of ["0x"] *)
Fixpoint trim_0x_fuel (fuel : nat) (s : RString) : RString :=
  match fuel with
  | O => s
  | S fuel' => if starts_with (str_of "0x") s then trim_0x_fuel fuel' (drop 2 s) else s
  end.
Definition trim_0x (s : RString) : RString := trim_0x_fuel (length s) s.

(** [&s[2..s.len() - 2]]; [None] is a panic. *)
Definition strip_parens (s : RString) : option RString :=
  let n := length (utf8_encode s) in
  if decide (n < 4)%nat then None
  else
    '(_, rest) ← str_split_at 2 s;
    '(mid, _) ← str_split_at (n - 4) rest;
    Some mid.

Section arm.
Context `{TG : Target} {OS : Os} {AP : ArmPlatform} (t : ArmTarget).

(** The bits an entry contributes for its value. *)
Definition entry_bits (entry : ArmCpuEntry) (val : RString) : Z :=
  let rr := if starts_with (str_of "0x") val || (ae_format entry =? 120)
            then parse_uint usize_bits 16 (trim_0x val)
            else parse_uint usize_bits 10 val in
  match rr with
  | Some result =>
      wrap 32 (wrap usize_bits
        (Z.shiftl (Z.land result (Z.shiftl 1 (bit_length entry) - 1)) (bit_lshift entry)))
  | None => 0
  end.

Definition line_cpuid (field : RString) (value : option RString) (cpuid : Z) : Z :=
  match value with
  | None => cpuid
  | Some val =>
      fold_left (fun cpuid entry =>
        if decide (field = ae_field entry) then Z.lor cpuid (entry_bits entry val) else cpuid)
        cpu_id_entries cpuid
  end.

(** The level after a line; [inr tt] leaves the line ([continue]). *)
Definition line_level (field : RString) (value : option RString) (level : Z)
    : res CpuInfoError (Z + unit) :=
  match t with
  | Arm32 =>
      if decide (field = str_of "Processor") then
        match v ← value; last (split_whitespace v) with
        | Some val =>
            mid ← or_panic (strip_parens val);
            Ok (inl (default 5 (parse_uint 16 10 mid)))
        | None => Ok (inl level)
        end
      else Ok (inl level)
  | Arm64 =>
      if decide (field = str_of "CPU architecture") then
        match v ← value; parse_uint 16 10 v with
        | Some v => Ok (inl v)
        | None => Ok (inr tt)
        end
      else Ok (inl level)
  end.

Record ArmInfo := mkArmInfo { arm_cpuid : Z; elf_hwcaps : Z; arm_level : Z }.

(** The field and the value of a line. *)
Definition field_value (line : RString) : RString * option RString :=
  match find_idx (Z.eqb 58) line with
  | Some ind => (take ind line, Some (drop (S ind) line))
  | None => (line, None)
  end.

Definition arm_line (line : RString) (i : ArmInfo) : res CpuInfoError ArmInfo :=
  if decide (trim line = []) then Ok i
  else
    let '(field, value) := field_value line in
    let cpuid := line_cpuid field value (arm_cpuid i) in
    level ← line_level field value (arm_level i);
    match level with
    | inr _ => Ok (mkArmInfo cpuid (elf_hwcaps i) (arm_level i))
    | inl level =>
        let hwcaps := if decide (field = str_of "Features") then
                        match value with Some val => parse_features t val | None => elf_hwcaps i end
                      else elf_hwcaps i in
        Ok (mkArmInfo cpuid hwcaps level)
    end.

Fixpoint arm_lines (ls : list (IoError + RString)) (i : ArmInfo) : res CpuInfoError ArmInfo :=
  match ls with
  | [] => Ok i
  | inl e :: _ => Err (CpuInfoError_IOError e)
  | inr line :: ls' => i' ← arm_line line i; arm_lines ls' i'
  end.

Definition open_path (p : string) : IoError + list (IoError + list byte) :=
  fs_open (utf8_encode (str_of p)).

(** [unwrap_or_default] of a parsed set. *)
Definition cpus_or_empty (file : list (IoError + list byte)) : res CpuInfoError (gset Z) :=
  s ← res_ok (parse_cpus_from_sysfile file); Ok (default ∅ s).

Definition count_processors : res CpuInfoError Z :=
  match open_path "/sys/devices/system/cpu/present" with
  | inl _ => Ok 0
  | inr present_file =>
      cpus_present ← cpus_or_empty present_file;
      match open_path "/sys/devices/system/cpu/possible" with
      | inl _ => Ok 0
      | inr possible_file =>
          cpus_possible ← cpus_or_empty possible_file;
          Ok (wrap 8 (Z.min 255 (Z.of_nat (base.size (cpus_present ∩ cpus_possible)))))
      end
  end.

Definition architecture : Z :=
  wrap 16 match t with
          | Arm64 => PROCESSOR_ARCHITECTURE_ARM64_OLD
          | Arm32 => PROCESSOR_ARCHITECTURE_ARM
          end.

(** The record with the given processor fields. *)
Definition with_cpu (s : MDRawSystemInfo) (level number : Z) (data : list byte) : MDRawSystemInfo :=
  mkSystemInfo architecture level 42 number (product_type s) (major_version s) (minor_version s)
    (build_number s) (platform_id s) (csd_version_rva s) data.

Definition arm_write_cpu_information (sys_info : MDRawSystemInfo)
    : res CpuInfoError MDRawSystemInfo :=
  number ← count_processors;
  match open_path "/proc/cpuinfo" with
  | inl _ => Ok (with_cpu sys_info 1 number (cpu_data sys_info))
  | inr cpuinfo_file =>
      i ← arm_lines (buf_lines cpuinfo_file) (mkArmInfo 0 0 1);
      (** [pwrite_with] of the two words *)
      (if decide (length (cpu_data sys_info) < 8)%nat then Panic else Ok ());;
      Ok (with_cpu sys_info (arm_level i) number
            (splice 0 (le_split 4 (arm_cpuid i) ++ le_split 4 (elf_hwcaps i)) (cpu_data sys_info)))
  end.
End arm.

(** ** Reading back what the kernel prints *)

(** A set of processors as the kernel lists it: single cores and ranges,
    separated by commas, and a line feed. *)
Definition kernel_item (r : Z * Z) : RString :=
  if decide (fst r = snd r) then fmt_dec (fst r) else fmt_dec (fst r) ++ 45 :: fmt_dec (snd r).

Fixpoint kernel_list (rs : list (Z * Z)) : RString :=
  match rs with
  | [] => [10]
  | [r] => kernel_item r ++ [10]
  | r :: rs' => kernel_item r ++ 44 :: kernel_list rs'
  end.

Definition range_ok (r : Z * Z) : Prop := 0 <= fst r <= snd r /\ snd r < 2 ^ 32.

Definition range_cores (r : Z * Z) : gset Z := list_to_set (seqZ (fst r) (snd r - fst r + 1)).

Lemma split_on_none {A} (p : A -> bool) a : Forall (fun x => p x = false) a -> split_on p a = [a].
Proof. induction 1 as [|x a Hx _ IH]; [done|]. cbn [split_on]. by rewrite Hx, IH. Qed.

Lemma split_on_sep {A} (p : A -> bool) a x l :
  Forall (fun x => p x = false) a -> p x = true -> split_on p (a ++ x :: l) = a :: split_on p l.
Proof.
  intros Ha Hx. induction Ha as [|y a Hy _ IH]; cbn [app split_on]; [by rewrite Hx|].
  by rewrite Hy, IH.
Qed.

Lemma trim_start_plain s : Forall (fun c => is_whitespace c = false) s -> trim_start s = s.
Proof. destruct 1 as [|c s Hc _]; [done|]. cbn. by rewrite Hc. Qed.

Lemma trim_plain s : Forall (fun c => is_whitespace c = false) s -> trim s = s.
Proof.
  intros Hs. unfold trim, trim_end. rewrite (trim_start_plain s) by done.
  rewrite trim_start_plain by (by apply Forall_rev). apply rev_involutive.
Qed.

Lemma trim_newline s : Forall (fun c => is_whitespace c = false) s -> trim (s ++ [10]) = s.
Proof.
  intros Hs. unfold trim, trim_end. destruct s as [|c s]; [done|].
  cbn [app trim_start]. inversion Hs as [|? ? Hc Hs']; subst. rewrite Hc.
  rewrite app_comm_cons, rev_app_distr. cbn [rev app trim_start].
  change (is_whitespace 10) with true. cbv iota.
  rewrite trim_start_plain by (apply Forall_app; split; [by apply Forall_rev|by constructor]).
  change (rev s ++ [c]) with (rev (c :: s)). apply rev_involutive.
Qed.

Lemma fmt_digits_digits fuel : forall n tl, 0 <= n ->
  Forall (fun c => 48 <= c <= 57) tl -> Forall (fun c => 48 <= c <= 57) (fmt_digits fuel 10 n tl).
Proof.
  induction fuel as [|fuel IH]; intros n tl Hn Htl; [done|]. cbn [fmt_digits]. cbv zeta.
  pose proof (Z.mod_pos_bound n 10 ltac:(lia)) as Hm.
  rewrite (proj2 (Z.ltb_lt (n mod 10) 10)) by lia.
  assert (Hc : Forall (fun c => 48 <= c <= 57) ((48 + n mod 10) :: tl)) by (constructor; [lia|done]).
  destruct (n / 10 =? 0); [done|]. apply IH; [apply Z.div_pos; lia|done].
Qed.

Lemma fmt_dec_digits n : 0 <= n -> Forall (fun c => 48 <= c <= 57) (fmt_dec n).
Proof.
  intros Hn. unfold fmt_dec. rewrite (proj2 (Z.ltb_ge n 0)) by lia. by apply fmt_digits_digits.
Qed.

Lemma parse_uint_fmt_dec n : 0 <= n < 2 ^ 32 -> parse_uint 32 10 (fmt_dec n) = Some n.
Proof.
  intros Hn. unfold fmt_dec. rewrite (proj2 (Z.ltb_ge n 0)) by lia.
  destruct (parse_fmt_digits 20 n []) as (k & _ & Hrun); [lia|].
  destruct (fmt_digits_head 20 n []) as (c & l & Hcl & Hc); [lia|done|].
  specialize (Hrun 0 (2 ^ 32) ltac:(lia) ltac:(lia)). rewrite Hcl in *. unfold parse_uint.
  assert (Hp : parse_digits 10 (2 ^ 32) 0 (c :: l) = Some n) by (rewrite Hrun; done).
  destruct c as [|c|c]; [lia| |lia]. repeat (destruct c as [c|c|]; try exact Hp; try lia).
Qed.

(** The characters of an item: no comma and no white space. *)
Lemma kernel_item_chars r : range_ok r ->
  Forall (fun c => c = 45 \/ 48 <= c <= 57) (kernel_item r) /\ kernel_item r <> [].
Proof.
  intros [Hr Hlt]. assert (Hdig : forall n, 0 <= n -> Forall (fun c => c = 45 \/ 48 <= c <= 57) (fmt_dec n)).
  { intros n Hn. eapply Forall_impl; [by apply fmt_dec_digits|]. cbn. lia. }
  assert (Hne : fmt_dec (fst r) <> []).
  { unfold fmt_dec. rewrite (proj2 (Z.ltb_ge _ 0)) by lia.
    destruct (fmt_digits_head 20 (fst r) []) as (c & l & -> & _); [lia|done|done]. }
  unfold kernel_item. case_decide.
  - split; [apply Hdig; lia|done].
  - split; [|by destruct (fmt_dec (fst r))].
    apply Forall_app. split; [apply Hdig; lia|]. constructor; [by left|apply Hdig; lia].
Qed.

Lemma no_whitespace_item s : Forall (fun c => c = 45 \/ 48 <= c <= 57) s ->
  Forall (fun c => is_whitespace c = false) s.
Proof.
  intros H. eapply Forall_impl; [exact H|]. cbn. intros c Hc. unfold is_whitespace.
  repeat (apply orb_false_iff; split); try (apply Z.eqb_neq; lia);
    apply andb_false_iff; rewrite !Z.leb_gt; lia.
Qed.

Lemma kernel_item_parse r : range_ok r ->
  mapM (parse_uint 32 10) (split_on (Z.eqb 45) (kernel_item r)) =
    Some (if decide (fst r = snd r) then [fst r] else [fst r; snd r]) /\
  item_cores (if decide (fst r = snd r) then [fst r] else [fst r; snd r]) = Ok (range_cores r).
Proof.
  intros [Hr Hlt]. unfold kernel_item, range_cores.
  assert (Hdig : forall n, 0 <= n -> Forall (fun c => (45 =? c) = false) (fmt_dec n)).
  { intros n Hn. eapply Forall_impl; [by apply fmt_dec_digits|]. cbv beta. intros c Hc. apply Z.eqb_neq. lia. }
  case_decide as Heq.
  - rewrite split_on_none by (apply Hdig; lia). cbn [mapM mbind option_bind mret option_ret].
    rewrite parse_uint_fmt_dec by lia. split; [done|]. cbn [item_cores].
    f_equal. apply set_eq. intros c.
    rewrite elem_of_singleton, elem_of_list_to_set, elem_of_seqZ. lia.
  - rewrite split_on_sep by (try done; apply Hdig; lia). rewrite split_on_none by (apply Hdig; lia).
    cbn [mapM mbind option_bind mret option_ret]. by rewrite !parse_uint_fmt_dec by lia.
Qed.

Lemma cpu_items_item r items acc : range_ok r -> forall i,
  trim i = kernel_item r -> cpu_items (i :: items) acc = cpu_items items (acc ∪ range_cores r).
Proof.
  intros Hr i Hi. cbn [cpu_items]. cbv zeta. rewrite Hi.
  destruct (kernel_item_chars r Hr) as [_ Hne]. rewrite decide_False by done.
  destruct (kernel_item_parse r Hr) as [-> Hc]. cbn [ok_or mbind res_bind]. by rewrite Hc.
Qed.

Lemma cpu_items_kernel rs : Forall range_ok rs -> forall acc,
  cpu_items (split_on (Z.eqb 44) (kernel_list rs)) acc = Ok (acc ∪ ⋃ (range_cores <$> rs)).
Proof.
  induction 1 as [|r rs Hr Hrs IH]; intros acc.
  { cbn. f_equal. set_solver. }
  destruct (kernel_item_chars r Hr) as [Hch _].
  assert (Hcomma : Forall (fun c => (44 =? c) = false) (kernel_item r)).
  { eapply Forall_impl; [exact Hch|]. cbv beta. intros c Hc. apply Z.eqb_neq. lia. }
  destruct rs as [|r' rs].
  - cbn [kernel_list]. rewrite split_on_none by (apply Forall_app; split; [done|by repeat constructor]).
    rewrite (cpu_items_item r) by (try done; by apply trim_newline, no_whitespace_item).
    cbn. f_equal. set_solver.
  - change (kernel_list (r :: r' :: rs)) with (kernel_item r ++ 44 :: kernel_list (r' :: rs)).
    rewrite split_on_sep by done.
    rewrite (cpu_items_item r) by (try done; by apply trim_plain, no_whitespace_item).
    rewrite IH. f_equal. cbn. set_solver.
Qed.

Lemma elem_of_range_cores c r : c ∈ range_cores r <-> fst r <= c <= snd r.
Proof. unfold range_cores. rewrite elem_of_list_to_set, elem_of_seqZ. lia. Qed.

(** The cores of a list of ranges. *)
Definition in_ranges (rs : list (Z * Z)) (c : Z) : Prop := Exists (fun r => fst r <= c <= snd r) rs.

Lemma parse_cpus_kernel file rs :
  Forall range_ok rs -> read_to_string file = inr (kernel_list rs) ->
  exists s, parse_cpus_from_sysfile file = Ok s /\ forall c, c ∈ s <-> in_ranges rs c.
Proof.
  intros Hrs Hfile. unfold parse_cpus_from_sysfile. rewrite Hfile. cbn [os_res map_err mbind res_bind].
  rewrite (cpu_items_kernel rs Hrs). eexists. split; [done|]. intros c.
  rewrite elem_of_union, elem_of_union_list. unfold in_ranges. rewrite Exists_exists. split.
  - intros [?|(X & HX & Hc)]; [set_solver|]. apply list_elem_of_fmap in HX as (r & -> & Hr).
    exists r. split; [done|]. by apply elem_of_range_cores.
  - intros (r & Hr & Hc). right. exists (range_cores r). split; [|by apply elem_of_range_cores].
    apply list_elem_of_fmap. eauto.
Qed.

(** ** The format of /proc/cpuinfo *)

(** A line the way the kernel prints it: blank, or a name, white space, a colon
    and a value.  The one entry without white space before the colon is the
    architecture, which has white space behind it. *)
Definition kernel_line (l : RString) : Prop :=
  trim l = [] \/
  (exists name ws value, l = name ++ ws :: 58 :: value /\ 58 ∉ name /\ is_whitespace ws = true) \/
  (exists ws value, l = str_of "CPU architecture:" ++ ws :: value /\ is_whitespace ws = true).

Lemma kernel_line_tab name value :
  bool_decide (58 ∉ name) = true -> kernel_line (name ++ 9 :: 58 :: value).
Proof. intros Hn%bool_decide_eq_true. right; left. by exists name, 9, value. Qed.

Lemma find_idx_app {A} (p : A -> bool) a x l :
  Forall (fun y => p y = false) a -> p x = true -> find_idx p (a ++ x :: l) = Some (length a).
Proof.
  intros Ha Hx. induction Ha as [|y a Hy _ IH]; cbn; [by rewrite Hx|]. by rewrite Hy, IH.
Qed.

Lemma field_value_colon a v : 58 ∉ a -> field_value (a ++ 58 :: v) = (a, Some v).
Proof.
  intros Ha. unfold field_value. rewrite find_idx_app.
  - rewrite take_app_length. f_equal. f_equal. change (58 :: v) with ([58] ++ v).
    by rewrite app_assoc, drop_app_length' by (rewrite length_app; cbn; lia).
  - apply Forall_forall. intros y Hy. apply Z.eqb_neq. by intros <-.
  - done.
Qed.

(** A field that ends in white space is none of those the code looks for. *)
Lemma spaced_field name ws s c :
  last s = Some c -> is_whitespace c = false -> is_whitespace ws = true -> name ++ [ws] <> s.
Proof. intros Hl Hc Hw <-. rewrite last_snoc in Hl. congruence. Qed.

Lemma parse_uint_space bits ws v : is_whitespace ws = true -> parse_uint bits 10 (ws :: v) = None.
Proof.
  intros Hw. assert (Hne : ws <> 43) by (intros ->; discriminate).
  assert (Hd : digit_val 10 ws = None).
  { unfold digit_val, is_ascii_digit. revert Hw. unfold is_whitespace. intros Hw.
    assert (Hr : ~ (48 <= ws <= 57) /\ ~ (97 <= ws <= 102) /\ ~ (65 <= ws <= 70)).
    { repeat setoid_rewrite orb_true_iff in Hw. rewrite !andb_true_iff, !Z.leb_le, !Z.eqb_eq in Hw.
      lia. }
    destruct (Z.leb_spec 48 ws), (Z.leb_spec ws 57), (Z.leb_spec 97 ws), (Z.leb_spec ws 102),
      (Z.leb_spec 65 ws), (Z.leb_spec ws 70); cbn; try done; lia. }
  unfold parse_uint. destruct ws as [|ws|ws]; cbn [parse_digits]; try (by rewrite Hd).
  repeat (destruct ws as [ws|ws|]; try (by rewrite Hd)); done.
Qed.

Section cpuinfo.
Context `{TG : Target} {OS : Os} {AP : ArmPlatform} (t : ArmTarget).

Lemma arm_line_kernel l i : kernel_line l -> arm_line t l i = Ok i.
Proof.
  intros [Hb|[(name & ws & v & -> & Hn & Hw)|(ws & v & -> & Hw)]]; unfold arm_line.
  - by rewrite decide_True.
  - case_decide; [done|]. replace (name ++ ws :: 58 :: v) with ((name ++ [ws]) ++ 58 :: v)
      by (by rewrite <- app_assoc).
    rewrite field_value_colon; [|intros [?|Hin]%elem_of_app; [done|]; apply list_elem_of_singleton in Hin;
      subst ws; discriminate].
    cbv beta iota zeta. unfold line_cpuid, cpu_id_entries. cbn [fold_left ae_field].
    unfold line_level.
    destruct i, t; by repeat rewrite decide_False by (by eapply spaced_field).
  - case_decide; [done|].
    change (str_of "CPU architecture:" ++ ws :: v)
      with (str_of "CPU architecture" ++ 58 :: ws :: v).
    rewrite field_value_colon by (apply (bool_decide_unpack _); vm_compute; exact I).
    cbv beta iota zeta. unfold line_cpuid, cpu_id_entries. cbn [fold_left ae_field].
    repeat rewrite (decide_False (P := str_of _ = str_of _)) by (vm_compute; discriminate).
    destruct i, t; unfold line_level; [by rewrite !decide_False by (vm_compute; discriminate)|].
    rewrite decide_True by done. cbn [mbind option_bind]. by rewrite parse_uint_space.
Qed.

Lemma arm_lines_kernel ls i : Forall kernel_line ls -> arm_lines t (inr <$> ls) i = Ok i.
Proof.
  induction 1 as [|l ls Hl _ IH]; [done|]. cbn [fmap list_fmap arm_lines].
  rewrite arm_line_kernel by done. exact IH.
Qed.
End cpuinfo.

(** ** The fields the code recognises *)

Lemma trim_start_snoc l c : is_whitespace c = false -> trim_start (l ++ [c]) <> [].
Proof.
  intros Hc. induction l as [|x l IH]; cbn; [by rewrite Hc|]. by destruct (is_whitespace x).
Qed.

Lemma trim_visible c s : is_whitespace c = false -> trim (c :: s) <> [].
Proof.
  intros Hc. unfold trim, trim_end. cbn [trim_start]. rewrite Hc. cbn [rev]. intros Hr.
  apply (trim_start_snoc (rev s) c Hc). rewrite <- (rev_involutive (trim_start _)), Hr. done.
Qed.

Lemma lor_disjoint k a b : 0 <= k -> 0 <= b < 2 ^ k -> Z.lor (a * 2 ^ k) b = a * 2 ^ k + b.
Proof.
  intros Hk Hb. symmetry. apply Z.add_nocarry_lor, Z.bits_inj'. intros i Hi.
  rewrite Z.land_spec, Z.bits_0, <- Z.shiftl_mul_pow2 by done.
  destruct (Z.lt_ge_cases i k).
  - by rewrite Z.shiftl_spec_low by done.
  - rewrite <- (Z.mod_small b (2 ^ k)), Z.mod_pow2_bits_high by lia. apply andb_false_r.
Qed.

Lemma cpuid_parts i v p r : 0 <= v < 2 ^ 4 -> 0 <= p < 2 ^ 12 -> 0 <= r < 2 ^ 4 ->
  Z.lor (Z.lor (Z.lor (Z.lor 0 (i * 2 ^ 24)) (v * 2 ^ 20)) (p * 2 ^ 4)) (r * 2 ^ 0) =
  i * 2 ^ 24 + v * 2 ^ 20 + p * 2 ^ 4 + r.
Proof.
  intros Hv Hp Hr. rewrite Z.lor_0_l, Z.mul_1_r, (lor_disjoint 24) by lia.
  replace (i * 2 ^ 24 + v * 2 ^ 20) with ((i * 2 ^ 4 + v) * 2 ^ 20) by lia.
  rewrite (lor_disjoint 20) by lia.
  replace ((i * 2 ^ 4 + v) * 2 ^ 20 + p * 2 ^ 4) with (((i * 2 ^ 4 + v) * 2 ^ 16 + p) * 2 ^ 4) by lia.
  apply lor_disjoint; lia.
Qed.

Section fields.
Context `{TG : Target} {AP : ArmPlatform} (t : ArmTarget).

Lemma entry_bits_value entry val x :
  (if starts_with (str_of "0x") val || (ae_format entry =? 120)
   then parse_uint usize_bits 16 (trim_0x val) else parse_uint usize_bits 10 val) = Some x ->
  0 <= bit_length entry -> 0 <= bit_lshift entry -> bit_length entry + bit_lshift entry <= 32 ->
  entry_bits entry val = x mod 2 ^ bit_length entry * 2 ^ bit_lshift entry.
Proof.
  intros Hp Hl Hs Hw. unfold entry_bits. cbv zeta. rewrite Hp.
  replace (Z.shiftl 1 (bit_length entry) - 1) with (Z.ones (bit_length entry))
    by (unfold Z.ones; lia).
  rewrite Z.land_ones, Z.shiftl_mul_pow2 by done.
  pose proof (Z.mod_pos_bound x (2 ^ bit_length entry) ltac:(lia)) as Hm.
  assert (Hb : in_bits 32 (x mod 2 ^ bit_length entry * 2 ^ bit_lshift entry)).
  { pose proof (Z.pow_le_mono_r 2 (bit_length entry + bit_lshift entry) 32 ltac:(lia) Hw).
    rewrite Z.pow_add_r in * by done. unfold in_bits.
    split; [apply Z.mul_nonneg_nonneg; lia|]. nia. }
  rewrite (wrap_small usize_bits); [by apply wrap_small|]. unfold in_bits, usize_bits in *.
  destruct pointer_width; lia.
Qed.

(** A line of one of the four entries. *)
Lemma arm_line_entry entry val x i : entry ∈ cpu_id_entries ->
  (if starts_with (str_of "0x") val || (ae_format entry =? 120)
   then parse_uint usize_bits 16 (trim_0x val) else parse_uint usize_bits 10 val) = Some x ->
  arm_line t (ae_field entry ++ 58 :: val) i =
  Ok (mkArmInfo (Z.lor (arm_cpuid i) (x mod 2 ^ bit_length entry * 2 ^ bit_lshift entry))
        (elf_hwcaps i) (arm_level i)).
Proof.
  intros Hin Hp. unfold arm_line.
  assert (Hf : 58 ∉ ae_field entry /\ (exists s, ae_field entry = 67 :: s) /\
    0 <= bit_length entry /\ 0 <= bit_lshift entry /\ bit_length entry + bit_lshift entry <= 32).
  { unfold cpu_id_entries in Hin. rewrite !elem_of_cons, elem_of_nil in Hin.
    destruct Hin as [->|[->|[->|[->|[]]]]];
      (split; [apply (bool_decide_unpack _); vm_compute; exact I|]; split; [by eexists|cbn; lia]). }
  destruct Hf as (Hcol & (s & Hs) & Hl & Hsh & Hw).
  rewrite decide_False by (rewrite Hs; by apply trim_visible).
  rewrite field_value_colon by done. cbv beta iota zeta.
  replace (line_level t (ae_field entry) (Some val) (arm_level i)) with
    (Ok (E := CpuInfoError) (inl (B := unit) (arm_level i))).
  2: { unfold cpu_id_entries in Hin. rewrite !elem_of_cons, elem_of_nil in Hin. unfold line_level.
       destruct Hin as [->|[->|[->|[->|[]]]]]; by destruct t. }
  cbn [mbind res_bind]. rewrite (decide_False (P := ae_field entry = str_of "Features"))
    by (rewrite Hs; discriminate). f_equal. f_equal.
  rewrite <- (entry_bits_value entry val x Hp Hl Hsh Hw). unfold line_cpuid.
  unfold cpu_id_entries in *. rewrite !elem_of_cons, elem_of_nil in Hin.
  by destruct Hin as [->|[->|[->|[->|[]]]]].
Qed.
End fields.

(** ** Properties *)

(** the number of processors.  When the kernel lists the present and the
    possible processors in the two files, the number written is the number of
    cores that are in both lists, at most 255: every range and single core is
    read back, and a core listed twice counts once. *)
Theorem arm_processor_count (OS : Os) (present possible : list (Z * Z))
    (present_file possible_file : list (IoError + list byte)) :
  open_path "/sys/devices/system/cpu/present" = inr present_file ->
  open_path "/sys/devices/system/cpu/possible" = inr possible_file ->
  read_to_string present_file = inr (kernel_list present) ->
  read_to_string possible_file = inr (kernel_list possible) ->
  Forall range_ok present -> Forall range_ok possible ->
  exists s : gset Z, (forall c, c ∈ s <-> in_ranges present c /\ in_ranges possible c) /\
    count_processors = Ok (Z.min 255 (Z.of_nat (base.size s))).
Proof.
  intros H1 H2 Hp Hq Hrp Hrq. destruct (parse_cpus_kernel _ _ Hrp Hp) as (sp & Hsp & Hin).
  destruct (parse_cpus_kernel _ _ Hrq Hq) as (sq & Hsq & Hin').
  exists (sp ∩ sq). split; [intros c; by rewrite elem_of_intersection, Hin, Hin'|].
  unfold count_processors. rewrite H1, H2. unfold cpus_or_empty. rewrite Hsp, Hsq.
  cbn [res_ok mbind res_bind default]. rewrite wrap_small; [done|]. unfold in_bits. lia.
Qed.

(** C39: /proc/cpuinfo is not understood.  Neither the field names nor the values
    are trimmed, so for every file whose lines have the format the kernel
    prints (white space before the colon, or behind it for the architecture),
    on 32-bit and on 64-bit ARM, nothing is found: the level keeps its
    placeholder 1 and the processor id and the capabilities are zero. *)
Theorem arm_cpuinfo_ignored `{TG : Target} (OS : Os) (AP : ArmPlatform) (t : ArmTarget)
    (s : MDRawSystemInfo) (file : list (IoError + list byte)) (ls : list RString) (number : Z) :
  open_path "/proc/cpuinfo" = inr file -> buf_lines file = inr <$> ls -> Forall kernel_line ls ->
  count_processors = Ok number -> (8 <= length (cpu_data s))%nat ->
  exists s', arm_write_cpu_information t s = Ok s' /\ processor_level s' = 1 /\
    number_of_processors s' = number /\
    cpu_data s' = replicate 8 Byte.x00 ++ drop 8 (cpu_data s).
Proof.
  intros Hopen Hls Hk Hn Hlen. unfold arm_write_cpu_information. rewrite Hn, Hopen, Hls.
  cbn [mbind res_bind]. rewrite arm_lines_kernel by done. cbn [mbind res_bind].
  rewrite decide_False by lia. eexists. split; [reflexivity|]. by split_and!.
Qed.

(** the id, for the fields the code does recognise.  From the four fields
    written without white space the parts are put together with the
    implementer, the variant, the part number and the revision at their bits,
    whatever the widths of the parsed numbers. *)
Theorem arm_cpuid_assembled `{TG : Target} (AP : ArmPlatform) (t : ArmTarget)
    (vi vv vp vr : RString) (i v p r : Z) :
  parse_uint usize_bits 16 (trim_0x vi) = Some i -> parse_uint usize_bits 16 (trim_0x vv) = Some v ->
  parse_uint usize_bits 16 (trim_0x vp) = Some p -> parse_uint usize_bits 10 vr = Some r ->
  starts_with (str_of "0x") vr = false ->
  arm_lines t (inr <$> [str_of "CPU implementer:" ++ vi; str_of "CPU variant:" ++ vv;
                        str_of "CPU part:" ++ vp; str_of "CPU revision:" ++ vr])
    (mkArmInfo 0 0 1) =
  Ok (mkArmInfo (i mod 2 ^ 8 * 2 ^ 24 + v mod 2 ^ 4 * 2 ^ 20 + p mod 2 ^ 12 * 2 ^ 4 + r mod 2 ^ 4)
        0 1).
Proof.
  intros Hi Hv Hp Hr H0. cbn [fmap list_fmap arm_lines].
  pose proof (fun n => arm_line_entry t (mkArmEntry (str_of "CPU implementer") 120 24 8) vi i n
    ltac:(by left)) as E1.
  pose proof (fun n => arm_line_entry t (mkArmEntry (str_of "CPU variant") 120 20 4) vv v n
    ltac:(by right; left)) as E2.
  pose proof (fun n => arm_line_entry t (mkArmEntry (str_of "CPU part") 120 4 12) vp p n
    ltac:(by do 2 right; left)) as E3.
  pose proof (fun n => arm_line_entry t (mkArmEntry (str_of "CPU revision") 100 0 4) vr r n
    ltac:(by do 3 right; left)) as E4.
  rewrite orb_true_r in E1, E2, E3. rewrite H0 in E4.
  change (str_of "CPU implementer:" ++ vi) with (str_of "CPU implementer" ++ 58 :: vi).
  change (str_of "CPU variant:" ++ vv) with (str_of "CPU variant" ++ 58 :: vv).
  change (str_of "CPU part:" ++ vp) with (str_of "CPU part" ++ 58 :: vp).
  change (str_of "CPU revision:" ++ vr) with (str_of "CPU revision" ++ 58 :: vr).
  cbn [ae_field bit_length bit_lshift] in *.
  rewrite E1 by done. cbn [mbind res_bind arm_cpuid elf_hwcaps arm_level]. rewrite E2 by done.
  cbn [mbind res_bind arm_cpuid elf_hwcaps arm_level]. rewrite E3 by done.
  cbn [mbind res_bind arm_cpuid elf_hwcaps arm_level]. rewrite E4 by done.
  cbn [mbind res_bind arm_cpuid elf_hwcaps arm_level]. do 2 f_equal.
  apply cpuid_parts; apply Z.mod_pos_bound; lia.
Qed.

(** a word that is too short.  On 32-bit ARM the level is cut out of the last
    word of the "Processor" line by position; a last word of fewer than four
    bytes, which can be any text, makes the slice panic and ends the dump. *)
Theorem arm_processor_panics `{TG : Target} (AP : ArmPlatform) (v w : RString) (i : ArmInfo)
    (rest : list (IoError + RString)) :
  last (split_whitespace v) = Some w -> (length (utf8_encode w) < 4)%nat ->
  arm_lines Arm32 (inr (str_of "Processor:" ++ v) :: rest) i = Panic.
Proof.
  intros Hw Hlen. cbn [arm_lines]. unfold arm_line.
  rewrite decide_False by exact (trim_visible 80 (str_of "rocessor:" ++ v) eq_refl).
  change (str_of "Processor:" ++ v) with (str_of "Processor" ++ 58 :: v).
  rewrite field_value_colon by (apply (bool_decide_unpack _); vm_compute; exact I).
  cbv beta iota zeta. unfold line_level.
  rewrite (decide_True (P := str_of "Processor" = str_of "Processor")) by done.
  cbn [mbind option_bind].
  rewrite Hw. unfold strip_parens. rewrite (decide_True (P := (length (utf8_encode w) < 4)%nat)) by done. done.
Qed.

(** ** A concrete machine *)

Definition arm_files (p : OsString) : IoError + list (IoError + list byte) :=
  if decide (p = bytes_of "/sys/devices/system/cpu/present") then inr [inr (line "0-3,6")]
  else if decide (p = bytes_of "/sys/devices/system/cpu/possible") then inr [inr (line "0-7")]
  else if decide (p = bytes_of "/proc/cpuinfo") then
    inr [inr (line "processor	: 0" ++ line "BogoMIPS	: 48.00" ++ line "Features	: fp asimd");
         inr (line "CPU implementer	: 0x41" ++ line "CPU architecture: 8" ++ line "CPU variant	: 0x0" ++
              line "CPU part	: 0xd08" ++ line "CPU revision	: 3" ++ line "")]
  else inl (OsError 2).

#[local] Instance arm_platform : ArmPlatform := {|
  PROCESSOR_ARCHITECTURE_ARM := 5;
  PROCESSOR_ARCHITECTURE_ARM64_OLD := 0x8003;
  hwcap_bits _ := 1;
|}.

Lemma arm_processor_count_witness :
  exists s : gset Z, (forall c, c ∈ s <-> in_ranges [(0, 3); (6, 6)] c /\ in_ranges [(0, 7)] c) /\
    @count_processors (files_os arm_files) = Ok (Z.min 255 (Z.of_nat (base.size s))).
Proof.
  assert (Hr : Forall range_ok [(0, 3); (6, 6)] /\ Forall range_ok [(0, 7)]).
  { rewrite !Forall_cons, !Forall_nil. unfold range_ok. cbn [fst snd]. lia. }
  refine (@arm_processor_count (files_os arm_files) [(0, 3); (6, 6)] [(0, 7)]
    [inr (line "0-3,6")] [inr (line "0-7")] _ _ _ _ (proj1 Hr) (proj2 Hr));
    vm_compute; reflexivity.
Defined.

Lemma arm_cpuinfo_ignored_witness :
  exists s', @arm_write_cpu_information x64_release (files_os arm_files) arm_platform Arm64
      (mkSystemInfo 0 0 0 0 0 0 0 0 0 0 (replicate 24 Byte.x01)) = Ok s' /\
    processor_level s' = 1 /\ number_of_processors s' = 5 /\
    cpu_data s' = replicate 8 Byte.x00 ++ replicate 16 Byte.x01.
Proof.
  refine (@arm_cpuinfo_ignored x64_release (files_os arm_files) arm_platform Arm64
    (mkSystemInfo 0 0 0 0 0 0 0 0 0 0 (replicate 24 Byte.x01)) _
    [str_of "processor	: 0"; str_of "BogoMIPS	: 48.00"; str_of "Features	: fp asimd";
     str_of "CPU implementer	: 0x41"; str_of "CPU architecture: 8"; str_of "CPU variant	: 0x0";
     str_of "CPU part	: 0xd08"; str_of "CPU revision	: 3"; []] 5 eq_refl _ _ _ _).
  - vm_compute. reflexivity.
  - apply Forall_forall. intros l Hl. rewrite !elem_of_cons, elem_of_nil in Hl.
    destruct Hl as [->|[->|[->|[->|[->|[->|[->|[->|[->|[]]]]]]]]]].
    + by apply (kernel_line_tab (str_of "processor") (str_of " 0")).
    + by apply (kernel_line_tab (str_of "BogoMIPS") (str_of " 48.00")).
    + by apply (kernel_line_tab (str_of "Features") (str_of " fp asimd")).
    + by apply (kernel_line_tab (str_of "CPU implementer") (str_of " 0x41")).
    + right; right. by exists 32, (str_of "8").
    + by apply (kernel_line_tab (str_of "CPU variant") (str_of " 0x0")).
    + by apply (kernel_line_tab (str_of "CPU part") (str_of " 0xd08")).
    + by apply (kernel_line_tab (str_of "CPU revision") (str_of " 3")).
    + by left.
  - vm_compute. reflexivity.
  - cbn. lia.
Defined.

Lemma arm_cpuid_assembled_witness :
  @arm_lines x64_release arm_platform Arm64 (inr <$> [str_of "CPU implementer:0x41"; str_of "CPU variant:0x1";
    str_of "CPU part:0xd0c"; str_of "CPU revision:3"]) (mkArmInfo 0 0 1) =
  Ok (mkArmInfo 0x4110d0c3 0 1).
Proof.
  exact (@arm_cpuid_assembled x64_release arm_platform Arm64 (str_of "0x41") (str_of "0x1") (str_of "0xd0c")
    (str_of "3") 0x41 0x1 0xd0c 3 eq_refl eq_refl eq_refl eq_refl eq_refl).
Defined.

Lemma arm_processor_panics_witness :
  @arm_lines x64_release arm_platform Arm32 [inr (str_of "Processor: v7")] (mkArmInfo 0 0 1) = Panic.
Proof.
  apply (@arm_processor_panics x64_release arm_platform (str_of " v7") (str_of "v7")); [reflexivity|].
  vm_compute. lia.
Defined.
