(* ===== verification/ArmArch.v ===== *)
(** * The ARM architectures (src/src/linux/thread_info/arm.rs,
      src/src/linux/thread_info/aarch64.rs, src/src/linux/crash_context/arm.rs,
      src/src/linux/crash_context/aarch64.rs)

    The interface of Arch.v for 32-bit and 64-bit ARM. *)
From Stdlib Require Import ZArith Lia String.
From S2P Require Import Prelude Format Layout RustStr Errors Os Auxv Arch.
From S2P Require Import Contexts ThreadInfo CpuInfo ArmCpuInfo.

Local Open Scope Z_scope.

(** [dst[..n].copy_from_slice(&src[..n])]; [None] when a slice is too short. *)
Definition copy_slice {A} (n : nat) (dst src : list A) : option (list A) :=
  if decide (n <= length dst /\ n <= length src)%nat then Some (splice 0 (take n src) dst) else None.

(** ** AArch64 *)

Module Aarch64.

(** [libc::user_regs_struct] *)
Record user_regs_struct := mkRegs { regs : list Z; sp : Z; pc : Z; pstate : Z }.

Record user_fpsimd_struct := mkFpsimd { vregs : list Z; fpsr : Z; fpcr : Z }.

Class Ptrace := {
  getregset_call : Pid -> Errno + user_regs_struct;
  getregs_call : Pid -> Errno + user_regs_struct;
  getfpregset_call : Pid -> Errno + user_fpsimd_struct;
  getfpregs_call : Pid -> Errno + user_fpsimd_struct;
}.

(** [uc_mcontext] has the fields of [user_regs_struct]. *)
Record CrashContextAarch64 := mkCrash {
  cc_siginfo : SigInfo;
  uc_mcontext : user_regs_struct;
  float_state : user_fpsimd_struct;
}.

Record ThreadInfoAarch64 := mkThreadInfo {
  stack_pointer : Z;
  tgid : Pid;
  ppid : Pid;
  ti_regs : user_regs_struct;
  ti_fpregs : user_fpsimd_struct;
}.

Section aarch64.
Context `{TG : Target} {OS : Os} {P : Platform} {AF : Arm64Format} {AP : ArmPlatform} {PT : Ptrace}.

Definition crash_get_instruction_pointer (c : CrashContextAarch64) : Z :=
  wrap usize_bits (pc (uc_mcontext c)).
Definition crash_get_stack_pointer (c : CrashContextAarch64) : Z :=
  wrap usize_bits (sp (uc_mcontext c)).

(** Both sources fill the context in the same way. *)
Definition fill_context (r : user_regs_struct) (f : user_fpsimd_struct) (out : CONTEXT_ARM64_OLD)
    : option CONTEXT_ARM64_OLD :=
  iregs ← copy_slice GP_REG_COUNT (iregs out) (regs r);
  float_regs ← copy_slice FP_REG_COUNT (float_regs out) (vregs f);
  Some (mkContextArm64 (wrap 64 CONTEXT_ARM64_OLD_FULL) iregs (sp r) (pc r) (wrap 32 (pstate r))
          (fpsr f) (fpcr f) float_regs).

Definition crash_fill_cpu_context (c : CrashContextAarch64) (out : CONTEXT_ARM64_OLD)
    : option CONTEXT_ARM64_OLD :=
  fill_context (uc_mcontext c) (float_state c) out.

Definition getregset (pid : Pid) : res ThreadInfoError user_regs_struct :=
  ptrace_get_data (getregset_call pid).
Definition getregs (pid : Pid) : res ThreadInfoError user_regs_struct :=
  ptrace_get_data (getregs_call pid).
Definition getfpregset (pid : Pid) : res ThreadInfoError user_fpsimd_struct :=
  ptrace_get_data (getfpregset_call pid).
Definition getfpregs (pid : Pid) : res ThreadInfoError user_fpsimd_struct :=
  ptrace_get_data (getfpregs_call pid).

Definition create_impl (_pid tid : Pid) : res ThreadInfoError ThreadInfoAarch64 :=
  ids ← get_ppid_and_tgid tid;
  let '(ppid, tgid) := ids in
  regs ← or_else (getregset tid) (fun _ => getregs tid);
  fpregs ← or_else (getfpregset tid) (fun _ => getfpregs tid);
  Ok (mkThreadInfo (wrap usize_bits (sp regs)) tgid ppid regs fpregs).

Definition info_get_instruction_pointer (t : ThreadInfoAarch64) : Z :=
  wrap usize_bits (pc (ti_regs t)).

Definition info_fill_cpu_context (t : ThreadInfoAarch64) (out : CONTEXT_ARM64_OLD)
    : option CONTEXT_ARM64_OLD :=
  fill_context (ti_regs t) (ti_fpregs t) out.

Definition aarch64_arch : Arch := {|
  RawContextCPU := CONTEXT_ARM64_OLD;
  context_pod := pod_context_arm64;
  default_cpu := default_context_arm64;
  CrashContext := CrashContextAarch64;
  siginfo := cc_siginfo;
  cc_get_instruction_pointer := crash_get_instruction_pointer;
  cc_get_stack_pointer := crash_get_stack_pointer;
  cc_fill_cpu_context := crash_fill_cpu_context;
  ThreadInfo := ThreadInfoAarch64;
  ti_create := create_impl;
  ti_stack_pointer := stack_pointer;
  ti_get_instruction_pointer := info_get_instruction_pointer;
  ti_fill_cpu_context := info_fill_cpu_context;
  skip_thread _ := false;
  write_cpu_information := arm_write_cpu_information Arm64;
  os_information := os_information_of (str_of "aarch64");
|}.

Lemma aarch64_arch_ok : Arm64FormatOk AF -> ArchOk aarch64_arch.
Proof. intros HF. apply ok_context_arm64. Qed.
End aarch64.
End Aarch64.

(** ** 32-bit ARM *)

Module Arm.

Record user_fpregs_struct := mkFpRegs { fpregs : list Z; fpscr : Z }.
Record user_regs_struct := mkRegs { uregs : list Z }.

Class Ptrace := {
  getregs_call : Pid -> Errno + user_regs_struct;
  getvfpregs_call : Pid -> Errno + user_fpregs_struct;
}.

(** [uc_mcontext] *)
Record mcontext := mkMcontext {
  arm_r0 : Z; arm_r1 : Z; arm_r2 : Z; arm_r3 : Z; arm_r4 : Z; arm_r5 : Z; arm_r6 : Z; arm_r7 : Z;
  arm_r8 : Z; arm_r9 : Z; arm_r10 : Z; arm_fp : Z; arm_ip : Z; arm_sp : Z; arm_lr : Z; arm_pc : Z;
  arm_cpsr : Z;
}.

Record CrashContextArm := mkCrash {
  cc_siginfo : SigInfo;
  uc_mcontext : mcontext;
}.

Record ThreadInfoArm := mkThreadInfo {
  stack_pointer : Z;
  tgid : Pid;
  ppid : Pid;
  ti_regs : user_regs_struct;
  ti_fpregs : user_fpregs_struct;
}.

Section arm.
Context `{TG : Target} {OS : Os} {P : Platform} {AF : ArmFormat} {AP : ArmPlatform} {PT : Ptrace}.

Definition crash_get_instruction_pointer (c : CrashContextArm) : Z :=
  wrap usize_bits (arm_pc (uc_mcontext c)).
Definition crash_get_stack_pointer (c : CrashContextArm) : Z :=
  wrap usize_bits (arm_sp (uc_mcontext c)).

(** The registers by number. *)
Definition gregs_of (g : mcontext) : list Z :=
  [arm_r0 g; arm_r1 g; arm_r2 g; arm_r3 g; arm_r4 g; arm_r5 g; arm_r6 g; arm_r7 g; arm_r8 g;
   arm_r9 g; arm_r10 g; arm_fp g; arm_ip g; arm_sp g; arm_lr g; arm_pc g].

(** The floating point registers are left alone. *)
Definition crash_fill_cpu_context (c : CrashContextArm) (out : CONTEXT_ARM) : option CONTEXT_ARM :=
  iregs ← copy_slice 16 (arm_iregs out) (gregs_of (uc_mcontext c));
  Some (mkContextArm CONTEXT_ARM_FULL iregs (arm_cpsr (uc_mcontext c)) (arm_float_save out)).

Definition getregs (pid : Pid) : res ThreadInfoError user_regs_struct :=
  ptrace_get_data (getregs_call pid).
Definition getfpregs (pid : Pid) : res ThreadInfoError user_fpregs_struct :=
  ptrace_get_data (getvfpregs_call pid).

Definition create_impl (_pid tid : Pid) : res ThreadInfoError ThreadInfoArm :=
  ids ← get_ppid_and_tgid tid;
  let '(ppid, tgid) := ids in
  regs ← getregs tid;
  fpregs ← or_else (getfpregs tid) (fun _ => Ok (mkFpRegs (replicate 32 0) 0));
  r13 ← or_panic (uregs regs !! 13%nat);
  Ok (mkThreadInfo (wrap usize_bits r13) tgid ppid regs fpregs).

Definition info_get_instruction_pointer (t : ThreadInfoArm) : Z :=
  wrap usize_bits (nth 15 (uregs (ti_regs t)) 0).

Definition info_fill_cpu_context (t : ThreadInfoArm) (out : CONTEXT_ARM) : option CONTEXT_ARM :=
  let u := uregs (ti_regs t) in
  iregs ← (if decide (length (arm_iregs out) = 16)%nat then copy_slice 16 (arm_iregs out) u else None);
  cpsr ← u !! 16%nat;
  Some (mkContextArm CONTEXT_ARM_FULL iregs cpsr
          (mkFloatArm (fpscr (ti_fpregs t)) (fpregs (ti_fpregs t)))).

Definition arm_arch : Arch := {|
  RawContextCPU := CONTEXT_ARM;
  context_pod := pod_context_arm;
  default_cpu := default_context_arm;
  CrashContext := CrashContextArm;
  siginfo := cc_siginfo;
  cc_get_instruction_pointer := crash_get_instruction_pointer;
  cc_get_stack_pointer := crash_get_stack_pointer;
  cc_fill_cpu_context := crash_fill_cpu_context;
  ThreadInfo := ThreadInfoArm;
  ti_create := create_impl;
  ti_stack_pointer := stack_pointer;
  ti_get_instruction_pointer := info_get_instruction_pointer;
  ti_fill_cpu_context := info_fill_cpu_context;
  skip_thread _ := false;
  write_cpu_information := arm_write_cpu_information Arm32;
  os_information := os_information_of (str_of "arm");
|}.

Lemma arm_arch_ok : ArmFormatOk AF -> ArchOk arm_arch.
Proof. intros HF. apply ok_context_arm. Qed.
End arm.
End Arm.

(** ** Properties *)

Lemma copy_slice_whole {A} n (dst src : list A) :
  length dst = n -> length src = n -> copy_slice n dst src = Some src.
Proof.
  intros Hd Hs. unfold copy_slice. rewrite decide_True by lia. f_equal. unfold splice.
  rewrite (take_ge src) by lia. rewrite drop_ge by lia. cbn. apply app_nil_r.
Qed.

Lemma copy_slice_front {A} n (dst src : list A) :
  length dst = n -> (n <= length src)%nat -> copy_slice n dst src = Some (take n src).
Proof.
  intros Hd Hs. unfold copy_slice. rewrite decide_True by lia. f_equal. unfold splice.
  rewrite length_take, drop_ge by lia. cbn. apply app_nil_r.
Qed.

(** Registers in the widths the kernel gives them. *)
Record aarch64_registers (r : Aarch64.user_regs_struct) (f : Aarch64.user_fpsimd_struct) : Prop := {
  regs_31 : length (Aarch64.regs r) = 31%nat;
  regs_64 : Forall (in_bits 64) (Aarch64.sp r :: Aarch64.pc r :: Aarch64.regs r);
  vregs_32 : length (Aarch64.vregs f) = 32%nat;
  vregs_128 : Forall (in_bits 128) (Aarch64.vregs f);
  fpsr_32 : in_bits 32 (Aarch64.fpsr f);
  fpcr_32 : in_bits 32 (Aarch64.fpcr f);
}.

(** A context with arrays of the right size and every register in its width. *)
Record context_arm64_typed (c : CONTEXT_ARM64_OLD) : Prop := {
  typed_iregs : length (iregs c) = GP_REG_COUNT /\ Forall (in_bits 64) (iregs c);
  typed_words : in_bits 64 (a64_sp c) /\ in_bits 64 (a64_pc c) /\ in_bits 32 (cpsr c) /\
    in_bits 32 (fpsr c) /\ in_bits 32 (fpcr c);
  typed_float : length (float_regs c) = FP_REG_COUNT /\ Forall (in_bits 128) (float_regs c);
}.

(** C38: the context on AArch64.  For registers in their widths both sources fill
    the context without a panic, the result is the same and well typed (31
    general and 32 vector registers, every value in its width), and it holds
    every register the kernel reported in its place: the general registers, stack
    pointer and instruction pointer, the low 32 bits of the processor state, the
    vector registers and the floating point status and control registers; the
    flags say that the context is complete. *)
Theorem aarch64_context_typed `{TG : Target} (AF : Arm64Format)
    (c : Aarch64.CrashContextAarch64) (t : Aarch64.ThreadInfoAarch64) :
  aarch64_registers (Aarch64.ti_regs t) (Aarch64.ti_fpregs t) ->
  Aarch64.uc_mcontext c = Aarch64.ti_regs t -> Aarch64.float_state c = Aarch64.ti_fpregs t ->
  exists b, Aarch64.info_fill_cpu_context t default_context_arm64 = Some b /\
    Aarch64.crash_fill_cpu_context c default_context_arm64 = Some b /\ context_arm64_typed b /\
    iregs b = Aarch64.regs (Aarch64.ti_regs t) /\ float_regs b = Aarch64.vregs (Aarch64.ti_fpregs t) /\
    a64_sp b = Aarch64.sp (Aarch64.ti_regs t) /\ a64_pc b = Aarch64.pc (Aarch64.ti_regs t) /\
    cpsr b = wrap 32 (Aarch64.pstate (Aarch64.ti_regs t)) /\
    fpsr b = Aarch64.fpsr (Aarch64.ti_fpregs t) /\ fpcr b = Aarch64.fpcr (Aarch64.ti_fpregs t) /\
    a64_context_flags b = wrap 64 CONTEXT_ARM64_OLD_FULL.
Proof.
  intros [H31 H64 H32 H128 Hs Hc] Hr Hf.
  unfold Aarch64.info_fill_cpu_context, Aarch64.crash_fill_cpu_context. rewrite Hr, Hf.
  unfold Aarch64.fill_context, default_context_arm64. cbn [iregs float_regs].
  rewrite copy_slice_whole by done. cbn [mbind option_bind]. rewrite copy_slice_whole by done.
  cbn [mbind option_bind]. eexists. split; [reflexivity|]. split; [reflexivity|].
  rewrite !Forall_cons in H64. destruct H64 as (Hsp & Hpc & H64).
  split_and!; try done. split; cbn; [done| |done]. split_and!; try done. by apply wrap_in_bits.
Qed.

(** A signal context and a thread that hold the same general registers. *)
Definition same_registers_arm (c : Arm.CrashContextArm) (t : Arm.ThreadInfoArm) : Prop :=
  exists rest, Arm.uregs (Arm.ti_regs t) =
    Arm.gregs_of (Arm.uc_mcontext c) ++ Arm.arm_cpsr (Arm.uc_mcontext c) :: rest.

(** the context on 32-bit ARM.  For the same registers both sources give the
    same sixteen general registers, status register, stack pointer and
    instruction pointer; the floating point registers are those of the thread in
    one and stay zero in the other, as the signal context does not carry them. *)
Theorem arm_contexts_agree `{TG : Target} (AF : ArmFormat) (c : Arm.CrashContextArm)
    (t : Arm.ThreadInfoArm) :
  same_registers_arm c t ->
  Arm.crash_get_instruction_pointer c = Arm.info_get_instruction_pointer t /\
  exists b, Arm.info_fill_cpu_context t default_context_arm = Some b /\
    arm_iregs b = Arm.gregs_of (Arm.uc_mcontext c) /\
    arm_float_save b = mkFloatArm (Arm.fpscr (Arm.ti_fpregs t)) (Arm.fpregs (Arm.ti_fpregs t)) /\
    Arm.crash_fill_cpu_context c default_context_arm =
      Some (mkContextArm (arm_context_flags b) (arm_iregs b) (arm_ctx_cpsr b)
              (mkFloatArm 0 (replicate 32 0))).
Proof.
  intros [rest Hu].
  unfold Arm.info_get_instruction_pointer, Arm.info_fill_cpu_context, Arm.crash_fill_cpu_context.
  rewrite Hu. split; [done|]. rewrite decide_True by done.
  rewrite copy_slice_front by (try done; rewrite length_app; cbn; lia).
  cbn [mbind option_bind lookup list_lookup app Arm.gregs_of]. eexists. split; [reflexivity|].
  split_and!; [done..|]. by rewrite copy_slice_whole.
Qed.

(** ** Witnesses *)

Definition sample_regs64 : Aarch64.user_regs_struct :=
  Aarch64.mkRegs (seqZ 100 31) 0x7ff0 0x400000 0x60000000.
Definition sample_fpsimd : Aarch64.user_fpsimd_struct :=
  Aarch64.mkFpsimd (replicate 32 (2 ^ 127)) 0x10 0.

Definition arm64_plain : Arm64Format := {|
  pod_context_arm64 := pod_of 796 (fun _ => replicate 796 Byte.x00);
  CONTEXT_ARM64_OLD_FULL := 0x80000003;
|}.

Lemma forallb_in_bits n l :
  forallb (fun x => (0 <=? x) && (x <? 2 ^ n)) l = true -> Forall (in_bits n) l.
Proof.
  intros H. apply Forall_forall. intros x Hx%list_elem_of_In. rewrite forallb_forall in H.
  apply H, andb_true_iff in Hx. unfold in_bits. lia.
Qed.

Lemma aarch64_context_typed_witness :
  exists b, @Aarch64.info_fill_cpu_context arm64_plain
      (Aarch64.mkThreadInfo 0x7ff0 42 1 sample_regs64 sample_fpsimd) default_context_arm64 = Some b /\
    context_arm64_typed b /\ iregs b = seqZ 100 31.
Proof.
  assert (Hr : aarch64_registers sample_regs64 sample_fpsimd).
  { split; try done; apply forallb_in_bits; vm_compute; reflexivity. }
  destruct (@aarch64_context_typed x64_release arm64_plain
    (Aarch64.mkCrash (mkSigInfo 11 1 0) sample_regs64 sample_fpsimd)
    (Aarch64.mkThreadInfo 0x7ff0 42 1 sample_regs64 sample_fpsimd) Hr eq_refl eq_refl)
    as (b & Hb & _ & Ht & Hi & _).
  exists b. split; [exact Hb|]. split; [exact Ht|exact Hi].
Defined.

Definition arm_plain : ArmFormat := {|
  pod_context_arm := pod_of 368 (fun _ => replicate 368 Byte.x00);
  CONTEXT_ARM_FULL := 0x40000007;
|}.

Lemma arm_contexts_agree_witness :
  exists b, @Arm.info_fill_cpu_context arm_plain
      (Arm.mkThreadInfo 0x7ff0 42 1 (Arm.mkRegs (seqZ 1 18))
         (Arm.mkFpRegs (replicate 32 7) 0x10)) default_context_arm = Some b /\
    arm_iregs b = seqZ 1 16.
Proof.
  assert (Hs : same_registers_arm
    (Arm.mkCrash (mkSigInfo 11 1 0) (Arm.mkMcontext 1 2 3 4 5 6 7 8 9 10 11 12 13 14 15 16 17))
    (Arm.mkThreadInfo 0x7ff0 42 1 (Arm.mkRegs (seqZ 1 18)) (Arm.mkFpRegs (replicate 32 7) 0x10)))
    by (exists [18]; reflexivity).
  destruct (@arm_contexts_agree x64_release arm_plain _ _ Hs) as (_ & b & Hb & Hi & _).
  exists b. split; [exact Hb|exact Hi].
Defined.
