(* ===== verification/UnitTests.v ===== *)
(** * The unit tests of the repository, run on the model

    The [#[cfg(test)]] modules of src/src/linux/maps_reader.rs,
    src/src/linux/module_reader.rs and src/src/linux/dumper_cpu_info/arm.rs,
    translated one function for one function.  A test is a computation without a
    result; it passes when it returns [Ok tt], and a failed assertion, [expect]
    or index is [Panic], as in the code.  The tests run the very definitions the
    rest of the library reasons about, in the profile tests are built with
    (overflow checks on), so that the expectations the authors wrote down are
    facts of the model.  The text of /proc/<pid>/maps is read by the crate
    procfs-core; the lines below are the records it gives for the text in the
    tests. *)
From Stdlib Require Import ZArith Lia String.
From stdpp Require Import gmap sets.
From S2P Require Import Prelude RustStr Layout Errors Os MemReader ModuleReader ElfLayout MapsReader.
From S2P Require Import ThreadInfo CpuInfo ArmCpuInfo MapsReaderSpec.

Local Open Scope Z_scope.

(** ** The test harness *)

Definition Test := res Empty_set unit.

Definition assert_eq {A} `{EqDecision A} (l r : A) : Test :=
  if decide (l = r) then Ok tt else Panic.

Definition assert_that (b : bool) : Test := if b then Ok tt else Panic.

(** [Result::expect], [Result::unwrap] *)
Definition expect {E A} (m : res E A) : res Empty_set A :=
  match m with Ok a => Ok a | Err _ | Panic => Panic end.

(** [Result::expect_err] *)
Definition expect_err {E A} (m : res E A) : res Empty_set E :=
  match m with Err e => Ok e | Ok _ | Panic => Panic end.

(** A [for] loop whose body may panic. *)
Definition for_each {A} (l : list A) (body : A -> Test) : Test :=
  foldr (fun x rest => _ ← body x; rest) (Ok tt) l.

#[export] Instance SoVersion_eq_dec : EqDecision SoVersion.
Proof. solve_decision. Defined.

(** ** maps_reader *)
Module MapsReaderTests.

Definition rs : MMPermissions := mkPerms true false false true false.
Definition xp : MMPermissions := mkPerms false false true false true.
Definition rwxp : MMPermissions := mkPerms true true true false true.
Definition path (s : string) : MMapPath := Path (bytes_of s).
Definition libc : MMapPath := path "/lib64/libc-2.32.so".
Definition ld : MMapPath := path "/lib64/ld-2.32.so".

(** [unwrap_or_default] turns an error into no mapping at all. *)
Definition get_mappings_for (map : list MemoryMap) (linux_gate_loc : Z)
    : res Empty_set (list MappingInfo) :=
  infos ← res_ok (aggregate (H := x64_debug) map linux_gate_loc);
  Ok (default [] infos).

Definition LINES : list MemoryMap :=
  [line 0x5597483fc000 0x5597483fe000 rp 0 cat;
    line 0x5597483fe000 0x559748402000 rxp 0x2000 cat;
    line 0x559748402000 0x559748404000 rp 0x6000 cat;
    line 0x559748404000 0x559748405000 rp 0x7000 cat;
    line 0x559748405000 0x559748406000 rwp 0x8000 cat;
    line 0x559749b0e000 0x559749b2f000 rwp 0 Heap;
    line 0x7efd968d3000 0x7efd968f5000 rwp 0 Anonymous;
    line 0x7efd968f5000 0x7efd9694a000 rp 0 (path "/usr/lib/locale/en_US.utf8/LC_CTYPE");
    line 0x7efd9694a000 0x7efd96bc2000 rp 0 (path "/usr/lib/locale/en_US.utf8/LC_COLLATE");
    line 0x7efd96bc2000 0x7efd96bc4000 rwp 0 Anonymous;
    line 0x7efd96bc4000 0x7efd96bea000 rp 0 libc;
    line 0x7efd96bea000 0x7efd96d39000 rxp 0x26000 libc;
    line 0x7efd96d39000 0x7efd96d85000 rp 0x175000 libc;
    line 0x7efd96d85000 0x7efd96d86000 only_private 0x1c1000 libc;
    line 0x7efd96d86000 0x7efd96d89000 rp 0x1c1000 libc;
    line 0x7efd96d89000 0x7efd96d8c000 rwp 0x1c4000 libc;
    line 0x7efd96d8c000 0x7efd96d92000 only_private 0 Anonymous;
    line 0x7efd96da0000 0x7efd96da1000 rp 0 (path "/usr/lib/locale/en_US.utf8/LC_NUMERIC");
    line 0x7efd96da1000 0x7efd96da2000 rp 0 (path "/usr/lib/locale/en_US.utf8/LC_TIME");
    line 0x7efd96da2000 0x7efd96da3000 rp 0 (path "/usr/lib/locale/en_US.utf8/LC_MONETARY");
    line 0x7efd96da3000 0x7efd96da4000 rp 0 (path "/usr/lib/locale/en_US.utf8/LC_MESSAGES/SYS_LC_MESSAGES");
    line 0x7efd96da4000 0x7efd96da5000 rp 0 (path "/usr/lib/locale/en_US.utf8/LC_PAPER");
    line 0x7efd96da5000 0x7efd96da6000 rp 0 (path "/usr/lib/locale/en_US.utf8/LC_NAME");
    line 0x7efd96da6000 0x7efd96da7000 rp 0 (path "/usr/lib/locale/en_US.utf8/LC_ADDRESS");
    line 0x7efd96da7000 0x7efd96da8000 rp 0 (path "/usr/lib/locale/en_US.utf8/LC_TELEPHONE");
    line 0x7efd96da8000 0x7efd96da9000 rp 0 (path "/usr/lib/locale/en_US.utf8/LC_MEASUREMENT");
    line 0x7efd96da9000 0x7efd96db0000 rs 0 (path "/usr/lib64/gconv/gconv-modules.cache");
    line 0x7efd96db0000 0x7efd96db1000 rp 0 (path "/usr/lib/locale/en_US.utf8/LC_IDENTIFICATION");
    line 0x7efd96db1000 0x7efd96db2000 rp 0 ld;
    line 0x7efd96db2000 0x7efd96dd3000 rxp 0x1000 ld;
    line 0x7efd96dd3000 0x7efd96ddc000 rp 0x22000 ld;
    line 0x7efd96ddc000 0x7efd96ddd000 rp 0x2a000 ld;
    line 0x7efd96ddd000 0x7efd96ddf000 rwp 0x2b000 ld;
    line 0x7ffc6dfda000 0x7ffc6dffb000 rwp 0 Stack;
    line 0x7ffc6e0f3000 0x7ffc6e0f7000 rp 0 Vvar;
    line 0x7ffc6e0f7000 0x7ffc6e0f9000 rxp 0 Vdso;
    line 0xffffffffff600000 0xffffffffff601000 xp 0 Vsyscall].

Definition LINUX_GATE_LOC : Z := 0x7ffc6e0f7000.

Definition get_all_mappings : res Empty_set (list MappingInfo) :=
  get_mappings_for LINES LINUX_GATE_LOC.

(** Only /usr/bin/cat and [heap], and an anonymous line: the text of the test
    repeats the first seven lines of [LINES]. *)
Definition test_merged : Test :=
  mappings ← get_mappings_for (take 7 LINES) 0x7ffc6e0f7000;
  _ ← assert_eq (length mappings) 3%nat;
  let cat_map :=
    mkMapping 0x5597483fc000 40960 (mkSystemMapping 0x5597483fc000 0x559748406000) 0
      rwxp (Some (bytes_of "/usr/bin/cat")) in
  m0 ← or_panic (mappings !! 0%nat);
  _ ← assert_eq m0 cat_map;
  let heap_map :=
    mkMapping 0x559749b0e000 135168 (mkSystemMapping 0x559749b0e000 0x559749b2f000) 0
      rwp (Some (bytes_of "[heap]")) in
  m1 ← or_panic (mappings !! 1%nat);
  _ ← assert_eq m1 heap_map;
  let empty_map :=
    mkMapping 0x7efd968d3000 139264 (mkSystemMapping 0x7efd968d3000 0x7efd968f5000) 0
      rwp None in
  m2 ← or_panic (mappings !! 2%nat);
  assert_eq m2 empty_map.

Definition test_linux_gate_parsing : Test :=
  mappings ← get_all_mappings;
  let gate_map :=
    mkMapping 0x7ffc6e0f7000 8192 (mkSystemMapping 0x7ffc6e0f7000 0x7ffc6e0f9000) 0
      rxp (Some (bytes_of "linux-gate.so")) in
  m21 ← or_panic (mappings !! 21%nat);
  assert_eq m21 gate_map.

Definition found_items : list (option OsString) :=
  [Some (bytes_of "/usr/bin/cat");
   Some (bytes_of "[heap]");
   None;
   Some (bytes_of "/usr/lib/locale/en_US.utf8/LC_CTYPE");
   Some (bytes_of "/usr/lib/locale/en_US.utf8/LC_COLLATE");
   None;
   Some (bytes_of "/lib64/libc-2.32.so");
   Some (bytes_of "/usr/lib/locale/en_US.utf8/LC_NUMERIC");
   Some (bytes_of "/usr/lib/locale/en_US.utf8/LC_TIME");
   Some (bytes_of "/usr/lib/locale/en_US.utf8/LC_MONETARY");
   Some (bytes_of "/usr/lib/locale/en_US.utf8/LC_MESSAGES/SYS_LC_MESSAGES");
   Some (bytes_of "/usr/lib/locale/en_US.utf8/LC_PAPER");
   Some (bytes_of "/usr/lib/locale/en_US.utf8/LC_NAME");
   Some (bytes_of "/usr/lib/locale/en_US.utf8/LC_ADDRESS");
   Some (bytes_of "/usr/lib/locale/en_US.utf8/LC_TELEPHONE");
   Some (bytes_of "/usr/lib/locale/en_US.utf8/LC_MEASUREMENT");
   Some (bytes_of "/usr/lib64/gconv/gconv-modules.cache");
   Some (bytes_of "/usr/lib/locale/en_US.utf8/LC_IDENTIFICATION");
   Some (bytes_of "/lib64/ld-2.32.so");
   Some (bytes_of "[stack]");
   Some (bytes_of "[vvar]");
   Some (bytes_of "linux-gate.so");
   Some (bytes_of "[vsyscall]")].

(** The reserved range behind libc has no entry, and the name of the vdso is
    replaced. *)
Definition test_reading_all : Test :=
  mappings ← get_all_mappings;
  assert_eq (name <$> mappings) found_items.

(** The size includes the reserved range behind the library, the system's own
    range does not. *)
Definition test_merged_reserved_mappings : Test :=
  mappings ← get_all_mappings;
  let gate_map :=
    mkMapping 0x7efd96bc4000 1892352 (mkSystemMapping 0x7efd96bc4000 0x7efd96d8c000) 0
      rwxp (Some (bytes_of "/lib64/libc-2.32.so")) in
  m6 ← or_panic (mappings !! 6%nat);
  assert_eq m6 gate_map.

Definition test_merged_reserved_mappings_within_module : Test :=
  mappings ← get_mappings_for libxul_lines 0xa4876000;
  let gate_map :=
    mkMapping 0x9b4a0000 155004928 (mkSystemMapping 0x9b4a0000 0xa4873000) 0
      rwxp (Some (bytes_of "/data/app/org.mozilla.firefox-1/lib/x86/libxul.so")) in
  m0 ← or_panic (mappings !! 0%nat);
  assert_eq m0 gate_map.

Definition mozgtk : string :=
  "/home/martin/Documents/mozilla/devel/mozilla-central/obj/widget/gtk/mozgtk/gtk3/libmozgtk.so".
Definition mozgtk_lines : list MemoryMap :=
  [line 0x7f0b97b6f000 0x7f0b97b70000 rp 0 (path mozgtk);
   line 0x7f0b97b70000 0x7f0b97b71000 rxp 0 (path mozgtk);
   line 0x7f0b97b71000 0x7f0b97b73000 rp 0 (path mozgtk);
   line 0x7f0b97b73000 0x7f0b97b74000 rwp 0x1000 (path mozgtk)].

(** The library is not on the machine that runs the test: its name comes from
    the path. *)
Definition test_get_mapping_effective_name : Test :=
  mappings ← get_mappings_for mozgtk_lines 0x7ffe091bf000;
  _ ← assert_eq (length mappings) 1%nat;
  m0 ← or_panic (mappings !! 0%nat);
  found ← expect (get_mapping_effective_path_name_and_version (H := x64_debug) (OS := no_os)
                    (G := elf64) m0 None);
  let '(file_path, file_name, _) := found in
  _ ← assert_eq file_name (str_of "libmozgtk.so");
  assert_eq file_path (bytes_of mozgtk).

Definition test_cases : list (string * SoVersion) :=
  [("/usr/lib/x86_64-linux-gnu/libstdc++.so.6.0.32"%string, mkSoVersion 6 0 32 0);
   ("/usr/lib/x86_64-linux-gnu/libcairo-gobject.so.2.11800.0"%string, mkSoVersion 2 11800 0 0);
   ("/usr/lib/x86_64-linux-gnu/libm.so.6"%string, mkSoVersion 6 0 0 0);
   ("/usr/lib/x86_64-linux-gnu/libpthread.so.0"%string, mkSoVersion 0 0 0 0);
   ("/usr/lib/x86_64-linux-gnu/libgmodule-2.0.so.0.7800.0"%string, mkSoVersion 0 7800 0 0);
   ("/usr/lib/x86_64-linux-gnu/libabsl_time_zone.so.20220623.0.0"%string, mkSoVersion 20220623 0 0 0);
   ("/usr/lib/x86_64-linux-gnu/libdbus-1.so.3.34.2rc5"%string, mkSoVersion 3 34 2 5);
   ("/usr/lib/x86_64-linux-gnu/libdbus-1.so.3.34.2rc"%string, mkSoVersion 3 34 2 0);
   ("/usr/lib/x86_64-linux-gnu/libdbus-1.so.3.34.rc5"%string, mkSoVersion 3 34 0 5);
   ("/usr/lib/x86_64-linux-gnu/libtoto.so.AAA"%string, mkSoVersion 0 0 0 0);
   ("/usr/lib/x86_64-linux-gnu/libsemver-1.so.1.2.alpha.1"%string, mkSoVersion 1 2 0 1);
   ("/usr/lib/x86_64-linux-gnu/libboop.so.1.2.3.4.5"%string, mkSoVersion 1 2 3 4);
   ("/usr/lib/x86_64-linux-gnu/libboop.so.1.2.3pre4.5"%string, mkSoVersion 1 2 3 4)].

Definition test_elf_file_so_version : Test :=
  none ← expect (SoVersion_parse (E := DumperError)
                   (bytes_of "/home/alex/bin/firefox/libmozsandbox.so"));
  _ ← assert_that (bool_decide (none = None));
  for_each test_cases (fun '(path, expected) =>
    parsed ← expect (SoVersion_parse (E := DumperError) (bytes_of path));
    actual ← or_panic parsed;
    assert_eq actual expected).

(** A name in quotes, which the source writes with escapes. *)
Definition quoted : list byte :=
  byte.of_Z 34 :: bytes_of "libmoz     gtk.so (deleted)" ++ [byte.of_Z 34].

Definition test_whitespaces_in_name : Test :=
  mappings ← get_mappings_for
    [line 0x10000000 0x20000000 rp 0 (path "libmoz    gtk.so");
     line 0x30000000 0x40000000 rp 0 (Path quoted);
     line 0x30000000 0x40000000 rp 0 Anonymous] 0x7ffe091bf000;
  _ ← assert_eq (length mappings) 3%nat;
  m0 ← or_panic (mappings !! 0%nat);
  _ ← assert_eq (name m0) (Some (bytes_of "libmoz    gtk.so"));
  m1 ← or_panic (mappings !! 1%nat);
  _ ← assert_eq (name m1) (Some quoted);
  m2 ← or_panic (mappings !! 2%nat);
  assert_eq (name m2) None.

Definition tests : list Test :=
  [test_merged; test_linux_gate_parsing; test_reading_all; test_merged_reserved_mappings;
   test_merged_reserved_mappings_within_module; test_get_mapping_effective_name;
   test_elf_file_so_version; test_whitespaces_in_name].

End MapsReaderTests.

(** ** module_reader *)
Module ModuleReaderTests.

Definition EXPECTED_ID : list byte :=
  byte.of_Z <$> [1; 2; 3; 4; 5; 6; 7; 8; 9; 10; 11; 12; 13; 14; 15; 16].

(** [ModuleReader::new(TINY_ELF.into()).unwrap()] and one lookup. *)
Definition on_tiny {A} (f : ST (ModuleReader (H := elf64)) ModuleReaderError A)
    : res Empty_set A :=
  reader ← expect (ModuleReader_new (H := x64_debug) (OS := no_os) (G := elf64) (Slice TINY_ELF));
  expect (f reader).1.

Definition test_build_id_program_headers : Test :=
  id ← on_tiny (build_id_from_program_headers (H := x64_debug) (OS := no_os) (G := elf64));
  assert_eq id EXPECTED_ID.

Definition test_build_id_section : Test :=
  id ← on_tiny (build_id_from_section (H := x64_debug) (OS := no_os) (G := elf64));
  assert_eq id EXPECTED_ID.

Definition test_build_id_text_hash : Test :=
  id ← on_tiny (build_id_generate_from_text (H := x64_debug) (OS := no_os) (G := elf64));
  assert_eq id
    (byte.of_Z <$> [0x6a; 0x3c; 0x58; 0x31; 0xff; 0x0f; 0x05; 0; 0; 0; 0; 0; 0; 0; 0; 0]).

Definition test_soname_program_headers : Test :=
  soname ← on_tiny (soname_from_program_headers (H := x64_debug) (OS := no_os) (G := elf64));
  assert_eq soname (str_of "libfoo.so.1").

Definition test_soname_section : Test :=
  soname ← on_tiny (soname_from_sections (H := x64_debug) (OS := no_os) (G := elf64));
  assert_eq soname (str_of "libfoo.so.1").

Definition tests : list Test :=
  [test_build_id_program_headers; test_build_id_section; test_build_id_text_hash;
   test_soname_program_headers; test_soname_section].

End ModuleReaderTests.

(** ** dumper_cpu_info/arm *)
Module ArmTests.

(** The reads of a file with the given content and, when asked for, a newline
    at its end. *)
Definition new_file (content : string) (newline : bool) : list (IoError + list byte) :=
  [inr (bytes_of content ++ if newline then [byte.of_Z 10] else [])].

Definition cpus_of (content : string) (newline : bool) : res Empty_set (gset Z) :=
  expect (parse_cpus_from_sysfile (new_file content newline)).

(** [(a..=b).collect()] *)
Definition range (a b : Z) : gset Z := list_to_set (seqZ a (b - a + 1)).

Definition test_empty_count : Test :=
  set ← cpus_of "" false; assert_eq (base.size set) 0%nat.

Definition test_one_cpu : Test :=
  set ← cpus_of "10" false; assert_eq set (list_to_set [10]).

Definition test_one_cpu_newline : Test :=
  set ← cpus_of "10" true; assert_eq set (list_to_set [10]).

Definition test_two_cpus : Test :=
  set ← cpus_of "1,10" true; assert_eq set (list_to_set [1; 10]).

Definition test_two_cpus_with_range : Test :=
  set ← cpus_of "1-2" true; assert_eq set (list_to_set [1; 2]).

Definition test_ten_cpus_with_range : Test :=
  set ← cpus_of "9-18" true; assert_eq set (range 9 18).

Definition test_multiple_items : Test :=
  set ← cpus_of "0, 2-4, 128" true; assert_eq set (list_to_set [0; 2; 3; 4; 128]).

Definition test_intersects_with : Test :=
  set1 ← cpus_of "9-19" true;
  _ ← assert_eq set1 (range 9 19);
  set2 ← cpus_of "16-24" true;
  _ ← assert_eq set2 (range 16 24);
  assert_eq (set1 ∩ set2) (range 16 19).

Definition test_intersects_with_discontinuous : Test :=
  set1 ← cpus_of "0, 2-4, 7, 10" true;
  _ ← assert_eq set1 (list_to_set [0; 2; 3; 4; 7; 10]);
  set2 ← cpus_of "0-2, 5, 8-10" true;
  _ ← assert_eq set2 (list_to_set [0; 1; 2; 5; 8; 9; 10]);
  assert_eq (set1 ∩ set2) (list_to_set [0; 2; 10]).

Definition test_bad_input : Test :=
  _ ← expect_err (parse_cpus_from_sysfile (new_file "abc" true)); Ok tt.

Definition test_bad_input_range : Test :=
  _ ← expect_err (parse_cpus_from_sysfile (new_file "1-abc" true)); Ok tt.

Definition tests : list Test :=
  [test_empty_count; test_one_cpu; test_one_cpu_newline; test_two_cpus; test_two_cpus_with_range;
   test_ten_cpus_with_range; test_multiple_items; test_intersects_with;
   test_intersects_with_discontinuous; test_bad_input; test_bad_input_range].

End ArmTests.

(** ** Every test passes *)

(** The whole suite as one run: every test of the three modules passes on the
    model. *)
Theorem unit_tests_pass :
  for_each (MapsReaderTests.tests ++ ModuleReaderTests.tests ++ ArmTests.tests) id = Ok tt.
Proof. vm_compute. reflexivity. Qed.
