(* ===== verification/PtraceDumper.v ===== *)
(** * The dumper of a stopped process (src/src/linux/ptrace_dumper.rs)

    [PtraceDumper] stops the process, attaches to its threads, knows its
    mappings and answers questions about stacks.  The calls that change the
    state of the target go through the interface [Kernel], over an explicit
    kernel state.  Loops without a bound in the source take a number of turns
    [fuel]; a run that needs more turns has the outcome [Panic], like every
    other run that does not return. *)
From Stdlib Require Import ZArith Lia String.
From S2P Require Import Prelude RustStr Layout Errors Os MemReader ModuleReader.
From S2P Require Import MapsReader Auxv Arch.

Local Open Scope Z_scope.

(** ** The kernel *)

Inductive WaitStatus :=
  | Stopped (signal : Z)
  | OtherStatus.

Definition SIGSTOP : Z := 19.
Definition SIGCONT : Z := 18.

(** [Stat::from_file(..)?.state()] tells whether the process is stopped. *)
Class Kernel (K : Type) := {
  ptrace_attach : Pid -> ST K Errno unit;
  ptrace_detach_call : Pid -> ST K Errno unit;
  ptrace_cont : Pid -> Z -> ST K Errno unit;
  waitpid : Pid -> ST K Errno WaitStatus;
  kill : Pid -> Z -> ST K Errno unit;
  proc_stopped : OsString -> ST K ForeignError bool;
  instant_now : K -> Z * K;
  sleep : Z -> K -> K;
}.

(** procfs-core's parser of /proc/<pid>/maps: on an opened file (an error
    opening it, or the parsed lines, if they parse), and opening it itself. *)
Class Procfs := {
  memory_maps_from : OsString -> IoError + (ForeignError + list MemoryMap);
  memory_maps_from_file : OsString -> ForeignError + list MemoryMap;
}.

Record Thread := mkTask {
  tid : Pid;
  thread_name : option RString;
}.

Record PtraceDumper := mkDumper {
  pid : Pid;
  threads_suspended : bool;
  threads : list Thread;
  auxv : AuxvDumpInfo;
  mappings : list MappingInfo;
  page_size : Z;
}.

Definition set_threads_suspended (b : bool) (d : PtraceDumper) : PtraceDumper :=
  mkDumper (pid d) b (threads d) (auxv d) (mappings d) (page_size d).
Definition set_threads (ts : list Thread) (d : PtraceDumper) : PtraceDumper :=
  mkDumper (pid d) (threads_suspended d) ts (auxv d) (mappings d) (page_size d).
Definition set_auxv (a : AuxvDumpInfo) (d : PtraceDumper) : PtraceDumper :=
  mkDumper (pid d) (threads_suspended d) (threads d) a (mappings d) (page_size d).
Definition set_mappings (ms : list MappingInfo) (d : PtraceDumper) : PtraceDumper :=
  mkDumper (pid d) (threads_suspended d) (threads d) (auxv d) ms (page_size d).
Definition set_page_size (n : Z) (d : PtraceDumper) : PtraceDumper :=
  mkDumper (pid d) (threads_suspended d) (threads d) (auxv d) (mappings d) n.

(** ** Attaching and detaching *)

Section ptrace.
Context {K : Type} `{Kernel K}.

Definition ptrace_detach (child : Pid) : ST K DumperError unit := fun k =>
  match ptrace_detach_call child k with
  | (Ok _, k') => (Ok tt, k')
  | (Err e, k') => if e =? ESRCH then (Ok tt, k')
                   else (Err (DumperError_PtraceDetachError child e), k')
  | (Panic, k') => (Panic, k')
  end.

(** The [loop] of [suspend_thread]. *)
Fixpoint wait_loop (fuel : nat) (child : Pid) : ST K DumperError unit := fun k =>
  match fuel with
  | O => (Panic, k)
  | S fuel' =>
      match waitpid child k with
      | (Ok (Stopped status), k1) =>
          if status =? SIGSTOP then (Ok tt, k1)
          else match ptrace_cont child status k1 with
               | (Ok _, k2) => wait_loop fuel' child k2
               | (Err err, k2) => (Err (DumperError_WaitPidError child err), k2)
               | (Panic, k2) => (Panic, k2)
               end
      | (Ok OtherStatus, k1) => (Err (DumperError_WaitPidError child UnknownErrno), k1)
      | (Err e, k1) =>
          if e =? EINTR then wait_loop fuel' child k1
          else match ptrace_detach child k1 with
               | (Ok _, k2) => (Err (DumperError_WaitPidError child e), k2)
               | (Err e', k2) => (Err e', k2)
               | (Panic, k2) => (Panic, k2)
               end
      | (Panic, k1) => (Panic, k1)
      end
  end.

Definition suspend_thread {A : Arch} (fuel : nat) (child : Pid) : ST K DumperError unit :=
  _ ← st_map_err (DumperError_PtraceAttachError child) (ptrace_attach child);
  _ ← wait_loop fuel child;
  if skip_thread child then
    _ ← ptrace_detach child;
    st_lift (Err (DumperError_DetachSkippedThread child))
  else mret tt.

Definition resume_thread (child : Pid) : ST K DumperError unit := ptrace_detach child.

(** [self.threads.retain(|x| Self::suspend_thread(x.tid).is_ok())] *)
Fixpoint retain_suspended {A : Arch} (fuel : nat) (ts : list Thread)
    : ST K DumperError (list Thread) :=
  match ts with
  | [] => mret []
  | t :: ts' =>
      r ← st_try (suspend_thread fuel (tid t));
      kept ← retain_suspended fuel ts';
      mret (match r with inr _ => t :: kept | inl _ => kept end)
  end.

Definition suspend_threads {A : Arch} (fuel : nat) : ST (PtraceDumper * K) DumperError unit :=
  fun '(d, k) =>
  let threads_count := List.length (threads d) in
  match retain_suspended fuel (threads d) k with
  | (Ok kept, k') =>
      let d' := set_threads kept d in
      match kept with
      | [] => (Err (DumperError_SuspendNoThreadsLeft threads_count), (d', k'))
      | _ => (Ok tt, (set_threads_suspended true d', k'))
      end
  | (Err e, k') => (Err e, (d, k'))
  | (Panic, k') => (Panic, (d, k'))
  end.

(** Every thread is detached; the result is that of the last failure. *)
Fixpoint resume_loop (ts : list Thread) (result : res DumperError unit)
    : K -> res DumperError unit * K := fun k =>
  match ts with
  | [] => (result, k)
  | t :: ts' =>
      match resume_thread (tid t) k with
      | (Ok _, k') => resume_loop ts' result k'
      | (Err e, k') => resume_loop ts' (Err e) k'
      | (Panic, k') => (Panic, k')
      end
  end.

Definition resume_threads : ST (PtraceDumper * K) DumperError unit := fun '(d, k) =>
  let '(result, k') :=
    if threads_suspended d then resume_loop (threads d) (Ok tt) k else (Ok tt, k) in
  (result, (set_threads_suspended false d, k')).

Definition POLL_INTERVAL : Z := 1.

(** The poll loop of [stop_process], until [end_] (milliseconds). *)
Fixpoint stop_loop (fuel : nat) (proc_file : OsString) (end_ : Z)
    : ST K StopProcessError unit := fun k =>
  match fuel with
  | O => (Panic, k)
  | S fuel' =>
      match proc_stopped proc_file k with
      | (Err e, k1) => (Err (StopProcessError_State e), k1)
      | (Panic, k1) => (Panic, k1)
      | (Ok true, k1) => (Ok tt, k1)
      | (Ok false, k1) =>
          let '(now, k2) := instant_now (sleep POLL_INTERVAL k1) in
          if end_ <? now then (Err StopProcessError_Timeout, k2)
          else stop_loop fuel' proc_file end_ k2
      end
  end.

Definition stop_process (fuel : nat) (pid : Pid) (timeout : Z) : ST K StopProcessError unit :=
  _ ← st_map_err StopProcessError_Stop (kill pid SIGSTOP);
  ((fun k =>
    let '(now, k1) := instant_now k in
    stop_loop fuel (utf8_encode (proc_path pid "/stat")) (now + timeout) k1)
   : ST K StopProcessError unit).

Definition continue_process (pid : Pid) : ST K ContinueProcessError unit :=
  st_map_err ContinueProcessError_Continue (kill pid SIGCONT).

(** [Drop::drop]: the results are discarded. *)
Definition drop_dumper (d : PtraceDumper) (k : K) : K :=
  let '(_, (d1, k1)) := resume_threads (d, k) in
  (continue_process (pid d1) k1).2.

End ptrace.

(** ** Discovery *)

Section discovery.
Context `{Target} {OS : Os} {PF : Procfs}.

Definition read_to_string (path : RString) : option RString :=
  match fs_read (utf8_encode path) with
  | inl _ => None
  | inr bs => from_utf8 bs
  end.

Definition thread_of_entry (pid : Pid) (entry : option OsString) : option Thread :=
  file_name ← entry;
  nm ← from_utf8 file_name;
  tid ← parse_int 32 nm;
  Some (mkTask tid (trim_end <$> read_to_string
          (proc_path pid "/task/" ++ fmt_dec tid ++ str_of "/comm"))).

Definition enumerate_threads : ST PtraceDumper InitError unit := fun d =>
  let filename := proc_path (pid d) "/task" in
  if fs_is_dir (utf8_encode filename) then
    match fs_read_dir (utf8_encode filename) with
    | inl e => (Err (InitError_IOError filename e), d)
    | inr entries =>
        (Ok tt, set_threads (threads d ++ omap (thread_of_entry (pid d)) entries) d)
    end
  else (Ok tt, d).

(** The index of the first module that contains the entry point. *)
Fixpoint find_entry {E} (entry_point_loc : Z) (idx : nat) (ms : list MappingInfo)
    : res E (option nat) :=
  match ms with
  | [] => Ok None
  | m :: ms' =>
      if start_address m <=? entry_point_loc then
        e ← add_u usize_bits (start_address m) (size m);
        if entry_point_loc <? e then Ok (Some idx) else find_entry entry_point_loc (S idx) ms'
      else find_entry entry_point_loc (S idx) ms'
  end.

(** [v.swap(0, idx)] *)
Definition swap_first {A} (idx : nat) (l : list A) : list A :=
  match l !! 0%nat, l !! idx with
  | Some a, Some b => <[idx := a]> (<[0%nat := b]> l)
  | _, _ => l
  end.

Definition enumerate_mappings : ST PtraceDumper InitError unit := fun d =>
  let linux_gate_loc := default 0 (get_linux_gate_address (auxv d)) in
  let entry_point_loc := default 0 (get_entry_address (auxv d)) in
  let filename := proc_path (pid d) "/maps" in
  match memory_maps_from (utf8_encode filename) with
  | inl e => (Err (InitError_IOError filename e), d)
  | inr parsed =>
      match match parsed with
            | inl _ => Ok []
            | inr maps => match aggregate maps linux_gate_loc with
                          | Ok infos => Ok infos
                          | Err _ => Ok []
                          | Panic => Panic
                          end
            end with
      | Err e => (Err e, d)
      | Panic => (Panic, d)
      | Ok ms =>
          let d1 := set_mappings ms d in
          if entry_point_loc =? 0 then (Ok tt, d1)
          else match find_entry entry_point_loc 0 ms with
               | Ok (Some idx) => (Ok tt, set_mappings (swap_first idx ms) d1)
               | Ok None => (Ok tt, d1)
               | Err e => (Err e, d1)
               | Panic => (Panic, d1)
               end
      end
  end.

Context {K : Type} `{Kernel K}.

Definition on_dumper {E A} (m : ST PtraceDumper E A) : ST (PtraceDumper * K) E A :=
  st_zoom fst (fun d s => (d, snd s)) m.

Definition on_kernel {E A} (m : ST K E A) : ST (PtraceDumper * K) E A :=
  st_zoom snd (fun k s => (fst s, k)) m.

(** The first two steps are best effort: their errors are only logged. *)
Definition init (fuel : nat) (stop_timeout : Z) : ST (PtraceDumper * K) InitError unit :=
  s ← st_get;
  _ ← st_try (on_kernel (stop_process fuel (pid (fst s)) stop_timeout));
  _ ← st_try (on_dumper (st_zoom auxv set_auxv (try_filling_missing_info (pid (fst s)))));
  _ ← on_dumper enumerate_threads;
  _ ← on_dumper enumerate_mappings;
  match sysconf_page_size with
  | inl e => st_lift (Err (InitError_PageSizeError e))
  | inr None => st_lift Panic
  | inr (Some n) => st_modify (fun s => (set_page_size n (fst s), snd s))
  end.

(** An error of [init] drops the dumper. *)
Definition PtraceDumper_new (fuel : nat) (pid : Pid) (stop_timeout : Z) (auxv : AuxvDumpInfo)
    : ST K InitError PtraceDumper := fun k =>
  if pid =? process_id_self then (Err InitError_CannotPtraceSameProcess, k)
  else
    let dumper := mkDumper pid false [] auxv [] 0 in
    match init fuel stop_timeout (dumper, k) with
    | (Ok _, (d, k')) => (Ok d, k')
    | (Err e, (d, k')) => (Err e, drop_dumper d k')
    | (Panic, (d, k')) => (Panic, drop_dumper d k')
    end.

End discovery.

(** What [late_init] does to the dumper: it depends on the system the crate is
    built for.  It may change the mappings, nothing else. *)
Class LateInit := late_process : PtraceDumper -> res InitError PtraceDumper.

Class LateInitOk (LI : LateInit) : Prop :=
  late_keeps : forall d d', late_process d = Ok d' -> exists ms, d' = set_mappings ms d.

(** After an error or a panic the dumper is only dropped, which does not look at
    the mappings. *)
Definition late_init {LI : LateInit} {K : Type} : ST (PtraceDumper * K) InitError unit := fun '(d, k) =>
  match late_process d with
  | Ok d' => (Ok tt, (d', k))
  | Err e => (Err e, (d, k))
  | Panic => (Panic, (d, k))
  end.

(** Outside Android there is nothing to do. *)
Definition linux_late_init : LateInit := Ok.

#[export] Instance linux_late_init_ok : LateInitOk linux_late_init.
Proof. intros [] d' [= <-]. by eexists. Qed.

(** ** Questions about mappings and stacks *)

Section queries.
Context `{Target}.

Definition find_mapping (d : PtraceDumper) (address : Z) : option MappingInfo :=
  snd <$> list_find (fun map => start_address map <= address /\
                                address - start_address map < size map) (mappings d).

Definition find_mapping_no_bias (d : PtraceDumper) (address : Z) : option MappingInfo :=
  snd <$> list_find (fun map => sys_start_address (system_mapping_info map) <= address /\
                                address < sys_end_address (system_mapping_info map)) (mappings d).

Definition may_be_stack (mapping : option MappingInfo) : bool :=
  match mapping with
  | Some m => READ (permissions m) || WRITE (permissions m)
  | None => false
  end.

Fixpoint guard_loop (fuel : nat) (d : PtraceDumper) (guard_page_max_addr stack_pointer : Z)
    (mapping : option MappingInfo) : res DumperError (Z * option MappingInfo) :=
  match fuel with
  | O => Panic
  | S fuel' =>
      if negb (may_be_stack mapping) && (stack_pointer <=? guard_page_max_addr) then
        sp ← add_u usize_bits stack_pointer (page_size d);
        guard_loop fuel' d guard_page_max_addr sp (find_mapping d sp)
      else Ok (stack_pointer, mapping)
  end.

Definition get_stack_info (fuel : nat) (d : PtraceDumper) (int_stack_pointer : Z)
    : res DumperError (Z * Z) :=
  mask ← sub_u usize_bits (page_size d) 1;
  let stack_pointer := Z.land int_stack_pointer (usize_max - mask) in
  let guard_page_max_addr := saturating_add stack_pointer (1024 * 1024) in
  found ← guard_loop fuel d guard_page_max_addr stack_pointer (find_mapping d stack_pointer);
  let '(stack_pointer, mapping) := found in
  match mapping with
  | None => Err DumperError_NoStackPointerMapping
  | Some m =>
      let valid_stack_pointer :=
        if contains_address m stack_pointer then stack_pointer else start_address m in
      off ← sub_u usize_bits valid_stack_pointer (start_address m);
      stack_len ← sub_u usize_bits (size m) off;
      Ok (valid_stack_pointer, stack_len)
  end.

(** [get_thread_info_by_index]: the guard lets [index = len] through, and the
    indexing that follows panics on it. *)
Definition get_thread_info_by_index {A : Arch} (d : PtraceDumper) (index : nat)
    : res ThreadInfoError ThreadInfo :=
  if decide (List.length (threads d) < index)%nat then
    Err (ThreadInfoError_IndexOutOfBounds index (List.length (threads d)))
  else match threads d !! index with
       | None => Panic
       | Some t => ti_create (pid d) (tid t)
       end.

(** *** sanitize_stack_copy *)

Definition defaced : list byte :=
  match pointer_width with
  | W64 => le_split 8 0x0defaced0defaced
  | W32 => le_split 4 0x0defaced
  end.

Definition test_bits : Z := 11.
Definition array_size : nat := 256.
Definition array_mask : Z := 255.
Definition sanitize_shift : Z := 32 - 11.
Definition small_int_magnitude : Z := 4096.

(** [could_hit_mapping[(bit >> 3) & array_mask] |= 1 << (bit & 7)] *)
Definition set_hit_bit (hits : list Z) (bit : Z) : list Z :=
  let i := Z.to_nat (Z.land (Z.shiftr bit 3) array_mask) in
  <[i := Z.lor (nth i hits 0) (Z.shiftl 1 (Z.land bit 7))]> hits.

Definition test_hit_bit (hits : list Z) (bit : Z) : bool :=
  let i := Z.to_nat (Z.land (Z.shiftr bit 3) array_mask) in
  negb (Z.land (nth i hits 0) (Z.shiftl 1 (Z.land bit 7)) =? 0).

Fixpoint hit_bits {E} (ms : list MappingInfo) (hits : list Z) : res E (list Z) :=
  match ms with
  | [] => Ok hits
  | m :: ms' =>
      if negb (is_executable m) then hit_bits ms' hits
      else
        e ← add_u usize_bits (start_address m) (size m);
        let start := Z.shiftr (start_address m) sanitize_shift in
        let stop := Z.shiftr e sanitize_shift in
        hit_bits ms' (fold_left set_hit_bit (seqZ start (stop - start + 1)) hits)
  end.

(** One turn of the word loop: whether the word is kept, and the mapping that
    was hit last. *)
Definition keep_word (d : PtraceDumper) (hits : list Z) (stack_mapping last_hit : option MappingInfo)
    (addr : Z) : bool * option MappingInfo :=
  let contains o := match o with Some m => contains_address m addr | None => false end in
  if (addr <=? small_int_magnitude) && (- small_int_magnitude <=? swrap usize_bits addr)
  then (true, last_hit)
  else if contains stack_mapping then (true, last_hit)
  else if contains last_hit then (true, last_hit)
  else if test_hit_bit hits (Z.shiftr addr sanitize_shift) then
    match find_mapping_no_bias d addr with
    | Some hit_mapping =>
        if is_executable hit_mapping then (true, Some hit_mapping) else (false, last_hit)
    | None => (false, last_hit)
    end
  else (false, last_hit).

Fixpoint sanitize_words (d : PtraceDumper) (hits : list Z)
    (stack_mapping last_hit : option MappingInfo) (words : list (list byte)) : list (list byte) :=
  match words with
  | [] => []
  | sp :: words' =>
      let '(keep, last_hit') := keep_word d hits stack_mapping last_hit (le_combine sp) in
      (if keep : bool then sp else defaced) ::
        sanitize_words d hits stack_mapping last_hit' words'
  end.

Definition sanitize_stack_copy (d : PtraceDumper) (stack_copy : list byte)
    (stack_pointer sp_offset : Z) : res DumperError (list byte) :=
  let stack_mapping := find_mapping_no_bias d stack_pointer in
  hits ← hit_bits (mappings d) (replicate array_size 0);
  offset ← align_word sp_offset;
  if Z.of_nat (List.length stack_copy) <? offset then Panic
  else
    let '(words, remainder) :=
      chunks_exact size_of_usize (drop (Z.to_nat offset) stack_copy) in
    Ok (replicate (Z.to_nat offset) Byte.x00 ++
        concat (sanitize_words d hits stack_mapping None words) ++
        replicate (List.length remainder) Byte.x00).

End queries.

(** ** Reading modules of the target *)

Section modules.
Context `{Target} {OS : Os} {G : Goblin}.

(** For [BuildId] and [SoName] as the type that is read. *)
Definition from_process_memory_for_mapping {T}
    (read_from_module : ProcessMemory -> res ModuleReaderError T)
    (mapping : MappingInfo) (pid : Pid) : res DumperError T :=
  map_err DumperError_ModuleReaderError
    (read_from_module (Process (ProcessReader_new pid (start_address mapping)))).

Definition from_process_memory_for_index {T}
    (read_from_module : ProcessMemory -> res ModuleReaderError T)
    (d : PtraceDumper) (idx : nat) : res DumperError T :=
  match mappings d !! idx with
  | None => Panic
  | Some m => from_process_memory_for_mapping read_from_module m (pid d)
  end.

End modules.
