(* ===== verification/Android.v ===== *)
(** * Packed relocations on Android (src/src/linux/android.rs)

    On Android [late_init] moves the start of the mappings of shared libraries
    with packed relocations down to their effective load bias.  The end of
    every mapping is shown to stay where it is, and the subtraction of the load
    address to overflow when the program headers cannot be read. *)
From Stdlib Require Import ZArith Lia String.
From S2P Require Import Prelude Format RustStr Layout Errors Os MemReader ModuleReader MapsReader.
From S2P Require Import Auxv Arch ElfLayout ModuleReaderSpec PtraceDumper.

Local Open Scope Z_scope.

(** goblin: the ELF header of the native width, and the tag of a native dynamic
    entry. *)
Record NativeHeader := mkNativeHeader { ne_type : Z; ne_phoff : Z; ne_phnum : Z }.

Class AndroidElf := {
  SIZEOF_EHDR : Z;
  native_header_parse : list byte -> option NativeHeader;
  SIZEOF_DYN : Z;
  native_dyn_tag : list byte -> Z;
  ET_DYN : Z;
  DT_LOOS : Z;
}.

Section android.
Context `{TG : Target} {OS : Os} {G : Goblin} {AE : AndroidElf}.

Definition DT_ANDROID_REL : Z := wrap usize_bits (DT_LOOS + 2).
Definition DT_ANDROID_RELA : Z := wrap usize_bits (DT_LOOS + 4).

Record DynVaddresses := mkDynVaddresses {
  min_vaddr : Z;
  dyn_vaddr : Z;
  dyn_count : Z;
}.

(** The loop over the dynamic section, with [count] entries left. *)
Fixpoint packed_loop (pid : Pid) (dyn_addr : Z) (count : nat) (idx : Z) : res AndroidError unit :=
  match count with
  | O => Err AndroidError_NoRelFound
  | S count' =>
      off ← mul_u usize_bits SIZEOF_DYN idx;
      addr ← add_u usize_bits dyn_addr off;
      dyn_data ← map_err AndroidError_CopyFromProcessError (copy_from_process pid addr SIZEOF_DYN);
      if negb (Z.of_nat (List.length dyn_data) =? SIZEOF_DYN) then Err AndroidError_TryFromSliceError
      else if (native_dyn_tag dyn_data =? DT_ANDROID_REL) || (native_dyn_tag dyn_data =? DT_ANDROID_RELA)
      then Ok tt
      else packed_loop pid dyn_addr count' (idx + 1)
  end.

Definition has_android_packed_relocations (pid : Pid) (load_bias : Z) (vaddrs : DynVaddresses)
    : res AndroidError unit :=
  dyn_addr ← add_u usize_bits load_bias (dyn_vaddr vaddrs);
  packed_loop pid dyn_addr (Z.to_nat (dyn_count vaddrs)) 0.

(** One program header. *)
Definition scan_phdr (phdr : ProgramHeader) (v : DynVaddresses) : DynVaddresses :=
  let vaddr := wrap usize_bits (p_vaddr phdr) in
  let v := if (p_type phdr =? PT_LOAD) && (vaddr <? min_vaddr v)
           then mkDynVaddresses vaddr (dyn_vaddr v) (dyn_count v) else v in
  if p_type phdr =? PT_DYNAMIC
  then mkDynVaddresses (min_vaddr v) vaddr (wrap usize_bits (p_memsz phdr) / SIZEOF_DYN) else v.

Definition parse_loaded_elf_program_headers (pid : Pid) (ehdr : NativeHeader) (address : Z)
    : res AndroidError DynVaddresses :=
  phdr_addr ← add_u usize_bits address (wrap usize_bits (ne_phoff ehdr));
  len ← mul_u usize_bits SIZEOF_EHDR (ne_phnum ehdr);
  phdr_opt ← res_ok (copy_from_process pid phdr_addr len);
  let v := mkDynVaddresses usize_max 0 0 in
  match phdr_opt with
  | Some ph_data =>
      phdrs ← or_panic (phdrs_from_bytes ph_data (ne_phnum ehdr));
      Ok (fold_left (fun v phdr => scan_phdr phdr v) phdrs v)
  | None => Ok v
  end.

Definition get_effective_load_bias (pid : Pid) (ehdr : NativeHeader) (address : Z)
    : res AndroidError Z :=
  ph ← parse_loaded_elf_program_headers pid ehdr address;
  if negb (min_vaddr ph =? 0) then
    load_bias ← sub_u usize_bits address (min_vaddr ph);
    found ← res_ok (has_android_packed_relocations pid load_bias ph);
    Ok (match found with Some _ => load_bias | None => address end)
  else Ok address.

(** One mapping of the loop. *)
Definition process_mapping (pid : Pid) (map : MappingInfo) : res AndroidError MappingInfo :=
  if is_executable map && name_is_path map then
    ehdr ← res_ok (copy_from_process pid (start_address map) SIZEOF_EHDR);
    match x ← ehdr; native_header_parse x with
    | Some ehdr =>
        if ne_type ehdr =? ET_DYN then
          load_bias ← get_effective_load_bias pid ehdr (start_address map);
          moved ← sub_u usize_bits (start_address map) load_bias;
          size ← add_u usize_bits (size map) moved;
          Ok (mkMapping load_bias size (system_mapping_info map) (offset map) (permissions map)
                (name map))
        else Ok map
    | None => Ok map
    end
  else Ok map.

Fixpoint late_process_mappings (pid : Pid) (mappings : list MappingInfo)
    : res AndroidError (list MappingInfo) :=
  match mappings with
  | [] => Ok []
  | map :: mappings' =>
      map' ← process_mapping pid map;
      rest ← late_process_mappings pid mappings';
      Ok (map' :: rest)
  end.

(** [PtraceDumper::late_init] on Android. *)
Definition android_late_init (d : PtraceDumper) : res InitError PtraceDumper :=
  ms ← map_err InitError_AndroidLateInitError (late_process_mappings (pid d) (mappings d));
  Ok (set_mappings ms d).

(** [PtraceDumper::late_init] of the build. *)
Definition build_late_init : LateInit := fun d =>
  if target_android then android_late_init d else linux_late_init d.

#[export] Instance build_late_init_ok : LateInitOk build_late_init.
Proof.
  intros d d'. unfold late_process, build_late_init. destruct target_android; [|apply late_keeps].
  unfold android_late_init. destruct (map_err _ _) as [ms|e|]; [|done..]. intros [= <-]. by exists ms.
Qed.
End android.

(** ** Theory *)

Lemma checked_mod {E} `{TG : Target} bits x r :
  (0 <= bits) -> checked (E := E) bits x = Ok r -> wrap bits r = wrap bits x.
Proof.
  intros Hb. unfold checked. case_match; [by intros [= <-]|]. case_match; [done|].
  intros [= <-]. unfold wrap. apply Z.mod_mod. lia.
Qed.

Lemma sub_u_mod {E} `{TG : Target} bits a b r :
  (0 <= bits) -> sub_u (E := E) bits a b = Ok r -> wrap bits r = wrap bits (a - b).
Proof.
  intros Hb. unfold sub_u. case_match; [by intros [= <-]|]. case_match; [done|].
  intros [= <-]. unfold wrap. apply Z.mod_mod. lia.
Qed.

Lemma usize_bits_nonneg `{TG : Target} : 0 <= usize_bits.
Proof. unfold usize_bits. destruct pointer_width; lia. Qed.

Section theory.
Context `{TG : Target} {OS : Os} {G : Goblin} {AE : AndroidElf} (pid : Pid).

(** What the loop never changes in a mapping. *)
Definition same_mapping (m m' : MappingInfo) : Prop :=
  wrap usize_bits (start_address m' + size m') = wrap usize_bits (start_address m + size m) /\
  system_mapping_info m' = system_mapping_info m /\ offset m' = offset m /\
  permissions m' = permissions m /\ name m' = name m /\
  (is_executable m && name_is_path m = false -> m' = m).

Lemma same_mapping_refl m : same_mapping m m.
Proof. by split_and!. Qed.

Lemma process_mapping_same m m' : process_mapping pid m = Ok m' -> same_mapping m m'.
Proof.
  pose proof usize_bits_nonneg as Hb. unfold process_mapping.
  destruct (is_executable m && name_is_path m) eqn:Hx; [|intros H; simplify_eq; apply same_mapping_refl].
  destruct (res_ok _) as [ehdr| |]; cbn [mbind res_bind]; try done.
  destruct (ehdr ≫= (fun x => native_header_parse x)) as [eh|]; [|intros H; simplify_eq; apply same_mapping_refl].
  destruct (ne_type eh =? ET_DYN); [|intros H; simplify_eq; apply same_mapping_refl].
  destruct (get_effective_load_bias _ _ _) as [bias| |]; cbn [mbind res_bind]; try done.
  destruct (sub_u _ _ _) as [moved| |] eqn:Hs; cbn [mbind res_bind]; try done.
  destruct (add_u _ _ _) as [sz| |] eqn:Ha; cbn [mbind res_bind]; try done.
  intros [= <-]. split_and!; try done; [|by rewrite Hx]. cbn [start_address size].
  pose proof (sub_u_mod _ _ _ _ Hb Hs) as Hs'. pose proof (checked_mod _ _ _ Hb Ha) as Ha'.
  unfold wrap in *. rewrite <- Zplus_mod_idemp_r, Ha', Zplus_mod_idemp_r.
  replace (bias + (size m + moved)) with (bias + size m + moved) by lia.
  rewrite <- Zplus_mod_idemp_r, Hs', Zplus_mod_idemp_r. f_equal. lia.
Qed.

(** No error ever leaves the loop. *)
Definition no_err {E A} (x : res E A) : Prop := forall e, x <> Err e.

Lemma no_err_bind {E A B} (x : res E A) (f : A -> res E B) :
  no_err x -> (forall a, no_err (f a)) -> no_err (x ≫= f).
Proof. intros Hx Hf e. destruct x as [a|e0|]; [apply Hf|by destruct (Hx e0)|done]. Qed.

Lemma no_err_ok {E A} (a : A) : no_err (Ok (E := E) a).
Proof. done. Qed.
Lemma no_err_res_ok {E E' A} (x : res E A) : no_err (res_ok (E' := E') x).
Proof. by destruct x. Qed.
Lemma no_err_or_panic {E A} (o : option A) : no_err (or_panic (E := E) o).
Proof. by destruct o. Qed.
Lemma no_err_checked {E} bits x : no_err (checked (E := E) bits x).
Proof. intros e. unfold checked. by repeat case_match. Qed.
Lemma no_err_sub_u {E} bits a b : no_err (sub_u (E := E) bits a b).
Proof. intros e. unfold sub_u. by repeat case_match. Qed.

Create HintDb no_err.
#[local] Hint Resolve no_err_bind no_err_ok no_err_res_ok no_err_or_panic no_err_checked
  no_err_sub_u : no_err.

Lemma process_mapping_no_err m : no_err (process_mapping pid m).
Proof.
  unfold process_mapping, get_effective_load_bias, parse_loaded_elf_program_headers, add_u, mul_u.
  repeat (first [apply no_err_bind; [|intros ?] | case_match]; auto with no_err).
Qed.

Lemma late_process_mappings_same ms : forall ms',
  late_process_mappings pid ms = Ok ms' -> Forall2 same_mapping ms ms'.
Proof.
  induction ms as [|m ms IH]; intros ms'; cbn [late_process_mappings].
  { intros H; simplify_eq. constructor. }
  destruct (process_mapping pid m) as [m'| |] eqn:Hm; cbn [mbind res_bind]; try done.
  destruct (late_process_mappings pid ms) as [rest| |]; cbn [mbind res_bind]; try done.
  intros H; simplify_eq. constructor; [by apply process_mapping_same|by apply IH].
Qed.

Lemma late_process_mappings_no_err ms : no_err (late_process_mappings pid ms).
Proof.
  induction ms as [|m ms IH]; cbn [late_process_mappings]; [auto with no_err|].
  apply no_err_bind; [apply process_mapping_no_err|]. intros m'.
  apply no_err_bind; auto with no_err.
Qed.

(** The smallest address of a loaded segment. *)
Definition load_vaddrs (phdrs : list ProgramHeader) : list Z :=
  omap (fun ph => if p_type ph =? PT_LOAD then Some (wrap usize_bits (p_vaddr ph)) else None) phdrs.

Lemma scan_min phdrs : forall v,
  min_vaddr (fold_left (fun v phdr => scan_phdr phdr v) phdrs v) =
  fold_left Z.min (load_vaddrs phdrs) (min_vaddr v).
Proof.
  induction phdrs as [|ph phdrs IH]; intros v; [done|]. cbn [fold_left load_vaddrs omap list_omap].
  rewrite IH. fold (load_vaddrs phdrs).
  assert (Hs : min_vaddr (scan_phdr ph v) =
    if p_type ph =? PT_LOAD then Z.min (min_vaddr v) (wrap usize_bits (p_vaddr ph)) else min_vaddr v).
  { unfold scan_phdr. destruct (p_type ph =? PT_LOAD), (p_type ph =? PT_DYNAMIC); cbn;
      try done; destruct (Z.ltb_spec (wrap usize_bits (p_vaddr ph)) (min_vaddr v)); cbn; lia. }
  rewrite Hs. by destruct (p_type ph =? PT_LOAD).
Qed.

(** The tag of an entry of the dynamic section, when it can be read. *)
Definition entry_tag (dyn_addr idx : Z) : option Z :=
  match copy_from_process pid (dyn_addr + SIZEOF_DYN * idx) SIZEOF_DYN with
  | Ok data => if Z.of_nat (List.length data) =? SIZEOF_DYN then Some (native_dyn_tag data) else None
  | _ => None
  end.

Definition packed_tag (tag : Z) : bool := (tag =? DT_ANDROID_REL) || (tag =? DT_ANDROID_RELA).

(** Some entry has a tag of packed relocations, and those before it can be read. *)
Definition has_packed (dyn_addr : Z) (first count : Z) : Prop :=
  exists k tag, first <= k < first + count /\ entry_tag dyn_addr k = Some tag /\
    packed_tag tag = true /\ forall j, first <= j < k -> is_Some (entry_tag dyn_addr j).

Lemma has_packed_next d idx count tag : entry_tag d idx = Some tag -> packed_tag tag = false ->
  has_packed d (idx + 1) count <-> has_packed d idx (1 + count).
Proof.
  intros Ht Hnt. split; intros (k & tag' & Hk & Hkt & Hp & Hr); exists k, tag'.
  - split_and!; try done; try lia. intros j Hj. destruct (decide (j = idx)) as [->|]; [by exists tag|].
    apply Hr. lia.
  - destruct (decide (k = idx)) as [->|]; [congruence|]. split_and!; try done; try lia.
    intros j Hj. apply Hr. lia.
Qed.

Lemma has_packed_none d idx count : entry_tag d idx = None -> ~ has_packed d idx count.
Proof.
  intros Hn (k & tag & Hk & Hkt & _ & Hr). destruct (decide (k = idx)) as [->|]; [congruence|].
  destruct (Hr idx) as [? ?]; [lia|congruence].
Qed.

(** One turn of the loop, away from the end of the address space. *)
Lemma packed_loop_turn d count idx :
  copy_from_process pid (d + SIZEOF_DYN * idx) SIZEOF_DYN <> Panic ->
  0 <= SIZEOF_DYN * idx -> 0 <= d -> d + SIZEOF_DYN * idx < 2 ^ usize_bits ->
  match entry_tag d idx with
  | Some tag => packed_loop pid d (S count) idx =
                  if packed_tag tag then Ok tt else packed_loop pid d count (idx + 1)
  | None => exists e, packed_loop pid d (S count) idx = Err e
  end.
Proof.
  intros Hnp Hi Hd Hfit. cbn [packed_loop]. unfold add_u, mul_u, entry_tag, packed_tag.
  rewrite checked_fits by (unfold in_bits; lia). cbn [mbind res_bind].
  rewrite checked_fits by (unfold in_bits; lia). cbn [mbind res_bind].
  destruct (copy_from_process pid _ SIZEOF_DYN) as [data|e|]; cbn [map_err mbind res_bind];
    [|by eexists|done].
  by destruct (Z.of_nat (List.length data) =? SIZEOF_DYN); cbn [negb]; [|eexists].
Qed.

Lemma packed_loop_spec d count : forall idx,
  (forall a, copy_from_process pid a SIZEOF_DYN <> Panic) -> 0 <= d -> 0 < SIZEOF_DYN ->
  0 <= idx -> d + SIZEOF_DYN * (idx + Z.of_nat count) <= 2 ^ usize_bits ->
  packed_loop pid d count idx <> Panic /\
  (packed_loop pid d count idx = Ok tt <-> has_packed d idx (Z.of_nat count)).
Proof.
  induction count as [|count IH]; intros idx Hnp Hd Hsz Hi Hfit.
  { split; [done|]. split; [done|]. intros (k & tag & Hk & _). lia. }
  rewrite Nat2Z.inj_succ, <- Z.add_1_l in *.
  pose proof (packed_loop_turn d count idx (Hnp _) ltac:(nia) Hd ltac:(nia)) as Hturn.
  destruct (IH (idx + 1)) as [IHp IHs]; [done..|lia| |]. { by rewrite <- Z.add_assoc. }
  destruct (entry_tag d idx) as [tag|] eqn:Ht.
  - rewrite Hturn. destruct (packed_tag tag) eqn:Hp.
    + split; [done|]. split; [|done]. intros _. exists idx, tag. split_and!; [lia|lia|done..|].
      intros j Hj. lia.
    + by rewrite <- (has_packed_next d idx (Z.of_nat count) tag Ht Hp).
  - destruct Hturn as [e He]. rewrite He. split; [done|]. split; [done|].
    intros Hh. by destruct (has_packed_none _ _ _ Ht Hh).
Qed.
End theory.

(** ** Properties *)

(** relocating the mappings.  In every build, whatever the memory of the
    process holds, late initialisation never reports an error, and when it
    returns every mapping still ends where it ended (modulo the width of an
    address), belongs to the same file with the same permissions and the same
    system addresses, and is unchanged unless it is executable and names a
    file. *)
Theorem late_init_keeps_ends `{TG : Target} (OS : Os) (G : Goblin) (AE : AndroidElf)
    (d : PtraceDumper) :
  match android_late_init d with
  | Ok d' => Forall2 same_mapping (mappings d) (mappings d') /\ threads d' = threads d /\
      pid d' = pid d
  | Err _ => False
  | Panic => True
  end.
Proof.
  unfold android_late_init. pose proof (late_process_mappings_no_err (pid d) (mappings d)) as Hn.
  destruct (late_process_mappings (pid d) (mappings d)) as [ms|e|] eqn:Hms;
    cbn [map_err mbind res_bind]; [|by destruct (Hn e)|done].
  split_and!; [|done..]. by apply late_process_mappings_same in Hms.
Qed.

(** the effective load bias.  For a library whose program headers can be read
    and whose lowest segment has a non-zero address, the bias is the load
    address minus that address exactly when the dynamic section has an entry
    for packed relocations that is reached by reading from its start, and the
    load address itself otherwise. *)
Theorem effective_load_bias `{TG : Target} (OS : Os) (G : Goblin) (AE : AndroidElf) (pid : Pid)
    (ehdr : NativeHeader) (address : Z) (data : list byte) (phdrs : list ProgramHeader) :
  let v := fold_left (fun v phdr => scan_phdr phdr v) phdrs (mkDynVaddresses usize_max 0 0) in
  let low := fold_left Z.min (load_vaddrs phdrs) usize_max in
  let dyn_addr := address - low + dyn_vaddr v in
  copy_from_process pid (address + ne_phoff ehdr) (SIZEOF_EHDR * ne_phnum ehdr) = Ok data ->
  phdrs_from_bytes data (ne_phnum ehdr) = Some phdrs ->
  (forall a, copy_from_process pid a SIZEOF_DYN <> Panic) ->
  in_bits usize_bits (ne_phoff ehdr) -> in_bits usize_bits (address + ne_phoff ehdr) ->
  in_bits usize_bits (SIZEOF_EHDR * ne_phnum ehdr) -> 0 < SIZEOF_DYN ->
  0 < low <= address -> 0 <= dyn_vaddr v -> 0 <= dyn_count v ->
  dyn_addr < 2 ^ usize_bits -> dyn_addr + SIZEOF_DYN * dyn_count v <= 2 ^ usize_bits ->
  exists bias, get_effective_load_bias pid ehdr address = Ok bias /\
    (has_packed pid dyn_addr 0 (dyn_count v) -> bias = address - low) /\
    (~ has_packed pid dyn_addr 0 (dyn_count v) -> bias = address).
Proof.
  intros v low dyn_addr Hread Hph Hnp Hoff Haddr Hlen Hsz Hlow Hdv Hdc Hda Hfit.
  assert (Hmin : min_vaddr v = low) by apply scan_min.
  unfold get_effective_load_bias, parse_loaded_elf_program_headers, add_u, mul_u.
  rewrite wrap_small by done. rewrite checked_fits by done. cbn [mbind res_bind].
  rewrite checked_fits by done. cbn [mbind res_bind]. rewrite Hread. cbn [res_ok mbind res_bind].
  rewrite Hph. cbn [or_panic mbind res_bind]. fold v. rewrite Hmin.
  rewrite (proj2 (Z.eqb_neq low 0)) by lia. cbn [negb]. rewrite sub_u_ok by lia.
  cbn [mbind res_bind]. unfold has_android_packed_relocations, add_u.
  rewrite checked_fits by (unfold in_bits; lia). cbn [mbind res_bind]. fold dyn_addr.
  destruct (packed_loop_spec pid dyn_addr (Z.to_nat (dyn_count v)) 0) as [Hpn Hps]; [done..|lia|done|lia|
    rewrite Z2Nat.id; lia|].
  rewrite Z2Nat.id in Hps by done.
  destruct (packed_loop pid dyn_addr (Z.to_nat (dyn_count v)) 0) as [[]|e|]; [| |done];
    cbn [res_ok mbind res_bind]; eexists; (split; [reflexivity|]).
  - split; [done|]. intros Hno. by destruct Hno; apply Hps.
  - split; [|done]. intros Hh. by apply Hps in Hh.
Qed.

(** program headers that cannot be read.  For an executable mapping of a
    shared library whose program headers cannot be read the lowest address
    stays at the largest possible one, and the load bias is computed below
    zero: a checked build panics in late initialisation; a release build wraps
    around, looks for no relocation and leaves the mapping alone. *)
Theorem unreadable_headers_panic `{TG : Target} (OS : Os) (G : Goblin) (AE : AndroidElf) (pid : Pid)
    (map : MappingInfo) (header : list byte) (ehdr : NativeHeader) (e : DumperError) :
  is_executable map && name_is_path map = true ->
  copy_from_process pid (start_address map) SIZEOF_EHDR = Ok header ->
  native_header_parse header = Some ehdr -> ne_type ehdr = ET_DYN ->
  in_bits usize_bits (ne_phoff ehdr) -> in_bits usize_bits (start_address map + ne_phoff ehdr) ->
  in_bits usize_bits (SIZEOF_EHDR * ne_phnum ehdr) ->
  copy_from_process pid (start_address map + ne_phoff ehdr) (SIZEOF_EHDR * ne_phnum ehdr) = Err e ->
  0 <= start_address map < usize_max -> in_bits usize_bits (size map) ->
  process_mapping pid map = if overflow_checks then Panic else Ok map.
Proof.
  intros Hx Hh Hp Ht Hoff Haddr Hlen Hread Hs Hsz. unfold process_mapping. rewrite Hx, Hh.
  cbn [res_ok mbind res_bind option_bind]. rewrite Hp, Ht, Z.eqb_refl.
  unfold get_effective_load_bias, parse_loaded_elf_program_headers, add_u, mul_u.
  rewrite wrap_small by done. rewrite checked_fits by done. cbn [mbind res_bind].
  rewrite checked_fits by done. cbn [mbind res_bind]. rewrite Hread. cbn [res_ok mbind res_bind].
  cbn [min_vaddr]. rewrite (proj2 (Z.eqb_neq usize_max 0)) by (unfold usize_max, usize_bits;
    destruct pointer_width; lia). cbn [negb].
  assert (Hsub : forall E, sub_u (E := E) usize_bits (start_address map) usize_max =
    if overflow_checks then Panic else Ok (wrap usize_bits (start_address map - usize_max))).
  { intros E. unfold sub_u. by rewrite (proj2 (Z.leb_gt _ _)) by lia. }
  rewrite Hsub. destruct overflow_checks; [done|]. cbn [mbind res_bind].
  unfold has_android_packed_relocations, add_u. cbn [dyn_vaddr dyn_count].
  rewrite Z.add_0_r, checked_fits by apply wrap_in_bits, usize_bits_nonneg.
  change (Z.to_nat 0) with 0%nat. cbn [mbind res_bind packed_loop res_ok]. rewrite sub_u_ok by lia.
  cbn [mbind res_bind]. rewrite Z.sub_diag, Z.add_0_r, checked_fits by done. by destruct map.
Qed.

(** ** A concrete machine *)

(** Readers of 64-bit records: a header of 64 bytes and dynamic entries of 16. *)
Definition android64 : AndroidElf := {|
  SIZEOF_EHDR := 64;
  native_header_parse l :=
    if bool_decide (64 <= List.length l)%nat && bool_decide (take 4 l = byte.of_Z <$> [127; 69; 76; 70])
    then Some (mkNativeHeader (field 16 2 l) (field 32 8 l) (field 56 2 l)) else None;
  SIZEOF_DYN := 16;
  native_dyn_tag l := field 0 8 l;
  ET_DYN := 3;
  DT_LOOS := 0x6000000d;
|}.

(** A library at 0x10000 whose segments start at 0x1000: a loaded segment, a
    dynamic section of two entries at the address 0x1100, the second one for
    packed relocations. *)
Definition library_bytes : list byte :=
  (byte.of_Z <$> [127; 69; 76; 70; 2; 1; 1; 0]) ++ le_split 8 0 ++ le_split 2 3 ++ le_split 14 0 ++
  le_split 8 64 ++ le_split 14 0 ++ le_split 2 56 ++ le_split 2 2 ++ le_split 6 0 ++
  (** the program headers *)
  le_split 4 1 ++ le_split 4 5 ++ le_split 8 0 ++ le_split 8 0x1000 ++ le_split 8 0x1000 ++
  le_split 8 0x200 ++ le_split 8 0x200 ++ le_split 8 0x1000 ++
  le_split 4 2 ++ le_split 4 6 ++ le_split 8 0x100 ++ le_split 8 0x1100 ++ le_split 8 0x1100 ++
  le_split 8 32 ++ le_split 8 32 ++ le_split 8 8 ++ le_split 80 0 ++
  (** the dynamic section *)
  le_split 8 14 ++ le_split 8 1 ++ le_split 8 0x6000000f ++ le_split 8 0 ++ le_split 64 0.

Definition library_memory : Memory := fun a =>
  if 0x10000 <=? a then library_bytes !! Z.to_nat (a - 0x10000) else None.

(** Only the ELF header can be read. *)
Definition header_memory : Memory := fun a =>
  if (0x10000 <=? a) && (a <? 0x10040) then library_bytes !! Z.to_nat (a - 0x10000) else None.

Definition library_mapping : MappingInfo :=
  mkMapping 0x10000 0x2000 (mkSystemMapping 0x10000 0x12000) 0 (mkPerms true false true false true)
    (Some (bytes_of "/system/lib64/libc.so")).

Lemma toy_copy_safe mem pid a n : @copy_from_process x64_release (toy_os mem) pid a n <> Panic.
Proof.
  unfold copy_from_process. case_match; [done|].
  assert (Hs : (read_to_vec (H := x64_release) (OS := toy_os mem) a n (MemReader_new pid)).1 <> Panic).
  { unfold read_to_vec. repeat case_match; try done. apply read_safe; [done|].
    intros q e [= <-]. done. }
  by destruct (read_to_vec _ _ _) as [[] ?].
Qed.

Lemma effective_load_bias_witness :
  exists bias, @get_effective_load_bias x64_release (toy_os library_memory) elf64 android64 7
    (mkNativeHeader 3 64 2) 0x10000 = Ok bias /\
    (@has_packed x64_release (toy_os library_memory) android64 7 0x10100 0 2 -> bias = 0xf000).
Proof.
  pose proof (@effective_load_bias x64_release (toy_os library_memory) elf64 android64 7
    (mkNativeHeader 3 64 2) 0x10000 (bytes_at 64 128 library_bytes)
    [elf64_ph (bytes_at 64 56 library_bytes); elf64_ph (bytes_at 120 56 library_bytes)]) as Hp.
  set (v := fold_left _ _ _) in Hp. set (low := fold_left _ _ _) in Hp.
  assert (Hv : v = mkDynVaddresses 0x1000 0x1100 2) by (vm_compute; reflexivity).
  assert (Hlow : low = 0x1000) by (vm_compute; reflexivity).
  rewrite Hv, Hlow in Hp. cbn [dyn_vaddr dyn_count ne_phoff ne_phnum SIZEOF_EHDR SIZEOF_DYN android64] in Hp.
  destruct Hp as (bias & Hb & Hyes & _);
    [vm_compute; reflexivity | vm_compute; reflexivity | intros a; apply toy_copy_safe |
     unfold in_bits, usize_bits; cbn [pointer_width x64_release]; lia..|].
  exists bias. split; [exact Hb|exact Hyes].
Defined.

Lemma unreadable_headers_panic_witness :
  @process_mapping x64_debug (toy_os header_memory) elf64 android64 7 library_mapping = Panic /\
  @process_mapping x64_release (toy_os header_memory) elf64 android64 7 library_mapping =
    Ok library_mapping.
Proof.
  split; [refine (@unreadable_headers_panic x64_debug (toy_os header_memory) elf64 android64 7
            library_mapping (take 64 library_bytes) (mkNativeHeader 3 64 2)
            (DumperError_CopyFromProcessError (mkCopyError 7 0x10040 0 128 3)) _ _ _ _ _ _ _ _ _ _)
         |refine (@unreadable_headers_panic x64_release (toy_os header_memory) elf64 android64 7
            library_mapping (take 64 library_bytes) (mkNativeHeader 3 64 2)
            (DumperError_CopyFromProcessError (mkCopyError 7 0x10040 0 128 3)) _ _ _ _ _ _ _ _ _ _)];
    first [vm_compute; reflexivity | vm_compute; split; [discriminate|reflexivity]].
Defined.
