(* ===== verification/StackSpec.v ===== *)
(** * Properties of the dumper: mappings and stacks

    Finding the stack of a thread, sanitizing a copy of it, and the order of
    the modules (src/src/linux/ptrace_dumper.rs). *)
From Stdlib Require Import ZArith Lia String.
From S2P Require Import Prelude RustStr Layout Errors Os MemReader ModuleReader.
From S2P Require Import MapsReader MapsReaderSpec Auxv Arch PtraceDumper.

Local Open Scope Z_scope.

(** ** Finding mappings *)

Section find.
Context `{TG : Target}.

Lemma find_mapping_some d a m :
  find_mapping d a = Some m -> m ∈ mappings d /\ in_module a m.
Proof.
  unfold find_mapping. intros Hf. destruct (list_find _ _) as [[i m']|] eqn:E; simplify_eq/=.
  apply list_find_Some in E as (Hi & [? ?] & _). split; [by eapply list_elem_of_lookup_2|].
  unfold in_module. lia.
Qed.

Lemma find_no_bias_some d a m :
  find_mapping_no_bias d a = Some m -> m ∈ mappings d /\ contains_address m a = true.
Proof.
  unfold find_mapping_no_bias. intros Hf.
  destruct (list_find _ _) as [[i m']|] eqn:E; simplify_eq/=.
  apply list_find_Some in E as (Hi & [? ?] & _). split; [by eapply list_elem_of_lookup_2|].
  unfold contains_address. apply andb_true_intro. lia.
Qed.

Lemma find_no_bias_none d a m :
  find_mapping_no_bias d a = None -> m ∈ mappings d -> contains_address m a = false.
Proof.
  unfold find_mapping_no_bias. intros Hf Hm. destruct (list_find _ _) as [[i m']|] eqn:E; [done|].
  apply list_find_None in E. rewrite list.Forall_forall in E. specialize (E m Hm).
  unfold contains_address. apply andb_false_iff. lia.
Qed.
End find.

(** ** The stack of a thread *)

(** A dumper after [init]: its modules come from [aggregate]. *)
Record dumper_ok `{Target} (d : PtraceDumper) : Prop := {
  dk_modules : Forall module_ok (mappings d);
  dk_page : exists p, 0 <= p < usize_bits /\ page_size d = 2 ^ p;
}.

Section stack.
Context `{TG : Target} (d : PtraceDumper) (Hd : dumper_ok d).

Lemma page_pos : 0 < page_size d.
Proof. destruct (dk_page _ Hd) as (p & Hp & ->). lia. Qed.

Lemma page_mask x : 0 <= x < 2 ^ usize_bits ->
  Z.land x (usize_max - (page_size d - 1)) = x / page_size d * page_size d.
Proof.
  destruct (dk_page _ Hd) as (p & Hp & Hps). intros Hx. rewrite Hps.
  assert (Hm : usize_max - (2 ^ p - 1) = Z.shiftl (Z.ones (usize_bits - p)) p).
  { unfold usize_max. rewrite Z.shiftl_mul_pow2, Z.ones_equiv by lia.
    assert (2 ^ usize_bits = 2 ^ (usize_bits - p) * 2 ^ p) as ->
      by (rewrite <- Z.pow_add_r by lia; f_equal; lia). lia. }
  rewrite Hm. rewrite <- Z.shiftl_mul_pow2, <- Z.shiftr_div_pow2 by lia.
  apply Z.bits_inj'. intros n Hn. rewrite Z.land_spec, !Z.shiftl_spec by lia.
  destruct (decide (n < p)) as [Hlt|Hge].
  - rewrite (Z.testbit_neg_r (Z.ones _)), (Z.testbit_neg_r (Z.shiftr _ _)) by lia.
    by rewrite andb_false_r.
  - rewrite Z.shiftr_spec by lia. replace (n - p + p) with n by lia.
    destruct (decide (n < usize_bits)) as [Hb|Hb].
    + rewrite Z.ones_spec_low by lia. by rewrite andb_true_r.
    + rewrite <- (Z.mod_small x (2 ^ usize_bits)) by lia.
      rewrite Z.mod_pow2_bits_high by lia. done.
Qed.

(** The page [n] pages above [sp], and whether a stack may be there. *)
Definition page_above (sp : Z) (n : nat) : Z := sp + Z.of_nat n * page_size d.
Definition stack_page (sp : Z) (n : nat) : bool := may_be_stack (find_mapping d (page_above sp n)).

(** The search from [sp] up to [guard] ends at page [n]: the pages below it are
    not above [guard] and no stack, and it is one or the first above [guard]. *)
Definition search_ends (guard sp : Z) (n : nat) : Prop :=
  (forall i, (i < n)%nat -> stack_page sp i = false /\ page_above sp i <= guard) /\
  (stack_page sp n = true \/ guard < page_above sp n).

Lemma page_above_next sp n : page_above (sp + page_size d) n = page_above sp (S n).
Proof. unfold page_above. lia. Qed.

(** The loop over guard pages ends while the pointer has not left the address
    space, where the search ends. *)
Lemma guard_loop_ok fuel : forall guard sp,
  0 <= sp -> 0 <= guard -> guard + page_size d <= usize_max ->
  Z.max 0 (guard - sp + page_size d) / page_size d + 1 < Z.of_nat fuel ->
  exists n, guard_loop fuel d guard sp (find_mapping d sp)
      = Ok (page_above sp n, find_mapping d (page_above sp n)) /\ search_ends guard sp n.
Proof.
  pose proof page_pos as Hp.
  induction fuel as [|fuel IH]; intros guard sp Hsp Hg Hfit Hfuel.
  { pose proof (Z.div_pos (Z.max 0 (guard - sp + page_size d)) (page_size d)). lia. }
  assert (H0 : page_above sp 0 = sp) by (unfold page_above; lia).
  cbn [guard_loop]. destruct (may_be_stack (find_mapping d sp)) eqn:Em; cbn [negb andb].
  { exists 0%nat. unfold search_ends, stack_page. rewrite H0. split_and!; [done|lia|by left]. }
  destruct (Z.leb_spec sp guard) as [Hle|Hgt].
  - unfold add_u. rewrite checked_fits by (unfold in_bits, usize_max in *; lia).
    cbn [mbind res_bind].
    destruct (IH guard (sp + page_size d)) as (n & -> & Hbefore & Hend); [lia|lia|lia| |].
    + rewrite Z.max_r in Hfuel by lia. rewrite Z.max_r by lia.
      replace (guard - sp + page_size d) with (guard - sp + 1 * page_size d) in Hfuel by lia.
      rewrite Z.div_add in Hfuel by lia.
      replace (guard - (sp + page_size d) + page_size d) with (guard - sp) by lia. lia.
    + unfold stack_page in *. rewrite page_above_next in *. exists (S n). split; [done|]. split; [|done].
      intros [|i] Hi; unfold stack_page; [rewrite H0; done|].
      rewrite <- page_above_next. apply Hbefore. lia.
  - exists 0%nat. unfold search_ends, stack_page. rewrite H0. split_and!; [done|lia|right; lia].
Qed.

(** The pages looked at are those between the stack pointer and the guard. *)
Definition stack_fuel : nat := Z.to_nat ((2 ^ 20 + page_size d) / page_size d + 2).

(** What is reported of the page where the search ended: from that page, or from
    the start of its mapping, to the end of the mapping. *)
Definition stack_found (a : Z) : res DumperError (Z * Z) :=
  match find_mapping d a with
  | None => Err DumperError_NoStackPointerMapping
  | Some m => let v := if contains_address m a then a else start_address m in
              Ok (v, start_address m + size m - v)
  end.

Lemma stack_found_inside a m : find_mapping d a = Some m ->
  let v := if contains_address m a then a else start_address m in
  m ∈ mappings d /\ start_address m <= v < start_address m + size m /\ 0 <= size m.
Proof.
  intros Ef. apply find_mapping_some in Ef as [Hm Hin]. pose proof (dk_modules _ Hd) as Hms.
  rewrite list.Forall_forall in Hms. pose proof (Hms m Hm) as [? ? ? ? ?].
  unfold in_module in Hin. cbv zeta. split; [done|]. case_match; lia.
Qed.

Lemma get_stack_info_ok isp :
  0 <= isp -> isp + 2 ^ 20 + page_size d <= usize_max ->
  let sp := isp / page_size d * page_size d in
  exists n, search_ends (sp + 2 ^ 20) sp n /\
    get_stack_info stack_fuel d isp = stack_found (page_above sp n).
Proof.
  intros Hi Hfit. pose proof page_pos as Hp. unfold get_stack_info.
  rewrite sub_u_ok by lia. cbn [mbind res_bind].
  assert (Hir : 0 <= isp < 2 ^ usize_bits) by (unfold usize_max in *; lia).
  rewrite page_mask by done. cbv zeta. set (sp := isp / page_size d * page_size d).
  assert (Hsp : 0 <= sp <= isp).
  { subst sp. pose proof (Z.div_mod isp (page_size d) ltac:(lia)).
    pose proof (Z.mod_pos_bound isp (page_size d) ltac:(lia)).
    pose proof (Z.div_pos isp (page_size d)). nia. }
  unfold saturating_add. rewrite Z.min_r by lia.
  destruct (guard_loop_ok stack_fuel (sp + 1024 * 1024) sp) as (n & -> & Hends);
    [lia|lia|lia| |].
  { unfold stack_fuel. pose proof (Z.div_pos (2 ^ 20 + page_size d) (page_size d)).
    rewrite Z2Nat.id by lia. rewrite Z.max_r by lia.
    replace (sp + 1024 * 1024 - sp + page_size d) with (2 ^ 20 + page_size d) by lia. lia. }
  exists n. split; [done|]. cbn [mbind res_bind]. unfold stack_found.
  destruct (find_mapping d (page_above sp n)) as [m|] eqn:Ef; [|done].
  destruct (stack_found_inside _ _ Ef) as (Hm & Hv & Hpos). revert Hv.
  set (vsp := if contains_address m _ then _ else start_address m). intros Hv.
  rewrite !sub_u_ok by lia. cbn [mbind res_bind]. rewrite sub_u_ok by lia. cbv zeta. apply (f_equal (fun l => Ok (vsp, l))). lia.
Qed.
End stack.

(** Whatever the stack pointer and however long the search: a block that is
    reported lies in a module and ends where it ends. *)
Lemma guard_loop_mapping `{TG : Target} d fuel : forall guard sp sp' o,
  guard_loop fuel d guard sp (find_mapping d sp) = Ok (sp', o) -> o = find_mapping d sp'.
Proof.
  induction fuel as [|fuel IH]; intros guard sp sp' o; cbn [guard_loop]; [done|].
  case_match; [|by intros [= <- <-]].
  destruct (add_u _ _ _) as [sp1| |]; cbn [mbind res_bind]; [apply IH|done..].
Qed.

Lemma get_stack_info_inside `{TG : Target} d fuel isp vsp len :
  Forall module_ok (mappings d) -> get_stack_info fuel d isp = Ok (vsp, len) ->
  exists m, m ∈ mappings d /\ 0 < len /\ start_address m <= vsp /\ vsp + len = start_address m + size m.
Proof.
  intros Hms. unfold get_stack_info.
  destruct (sub_u _ (page_size d) 1) as [mask| |]; cbn [mbind res_bind]; [|done..].
  destruct (guard_loop _ _ _ _ _) as [[sp' o]| |] eqn:Hg; cbn [mbind res_bind]; [|done..].
  apply guard_loop_mapping in Hg. destruct o as [m|]; [|done]. symmetry in Hg.
  apply find_mapping_some in Hg as [Hm Hin]. rewrite list.Forall_forall in Hms.
  pose proof (Hms m Hm) as [? ? ? ? ?]. unfold in_module in Hin.
  set (v := if contains_address m sp' then sp' else start_address m).
  assert (Hv : start_address m <= v < start_address m + size m) by (subst v; case_match; lia).
  rewrite !sub_u_ok by lia. cbn [mbind res_bind]. rewrite sub_u_ok by lia.
  intros [= <- <-]. exists m. split_and!; [done|lia..].
Qed.

(** C31: [get_stack_info] on a dumper with well-formed modules, for every stack
    pointer that is not within one mebibyte and a page of the top of the address
    space, in every build: it returns; what it reports is the block found at the
    first page, from the page of the stack pointer up, that may be a stack, or at
    the first page more than one mebibyte above it if none may be; the block, if
    any, starts at that page or at the start of its mapping, is non-empty and ends
    where the mapping ends; without a mapping there the call fails. *)
Theorem get_stack_info_bounds `{TG : Target} (d : PtraceDumper) (isp : Z) :
  dumper_ok d -> 0 <= isp -> isp + 2 ^ 20 + page_size d <= usize_max ->
  let sp := isp / page_size d * page_size d in
  exists n,
    (forall i, (i < n)%nat -> stack_page d sp i = false /\ page_above d sp i <= sp + 2 ^ 20) /\
    (stack_page d sp n = true \/ sp + 2 ^ 20 < page_above d sp n) /\
    match find_mapping d (page_above d sp n) with
    | None => get_stack_info (stack_fuel d) d isp = Err DumperError_NoStackPointerMapping
    | Some m => exists vsp len, get_stack_info (stack_fuel d) d isp = Ok (vsp, len) /\
        vsp = (if contains_address m (page_above d sp n) then page_above d sp n else start_address m) /\
        m ∈ mappings d /\ 0 < len /\ start_address m <= vsp /\ vsp + len = start_address m + size m
    end.
Proof.
  intros Hd Hi Hfit. destruct (get_stack_info_ok d Hd isp Hi Hfit) as (n & [Hb He] & Hr).
  cbv zeta. exists n. split_and!; [done..|]. rewrite Hr.
  destruct (find_mapping d _) as [m|] eqn:Ef; unfold stack_found in *; rewrite Ef in *; [|done].
  destruct (stack_found_inside d Hd _ _ Ef) as (Hm & Hv & _).
  eexists _, _. split_and!; [done|done|done|lia..].
Qed.

Definition low_heap : MappingInfo :=
  mkMapping 0x1000 0x2000 (mkSystemMapping 0x1000 0x3000) 0 rwp None.

Definition low_heap_dumper : PtraceDumper :=
  mkDumper 7 false [mkTask 7 None] default_auxv [low_heap] 4096.

Lemma low_heap_ok : @dumper_ok x64_release low_heap_dumper.
Proof.
  split.
  - repeat constructor; vm_compute; congruence.
  - exists 12. split; [vm_compute; split; [discriminate|reflexivity]|reflexivity].
Qed.

(** Below the heap: the search goes one page up. *)
Lemma get_stack_info_bounds_witness :
  exists n m vsp len,
    get_stack_info (H := x64_release) (stack_fuel low_heap_dumper) low_heap_dumper 0x888
      = Ok (vsp, len) /\ find_mapping low_heap_dumper (page_above low_heap_dumper 0 n) = Some m /\
    vsp + len = start_address m + size m.
Proof.
  destruct (@get_stack_info_bounds x64_release low_heap_dumper 0x888 low_heap_ok ltac:(lia)
    ltac:(vm_compute; discriminate)) as (n & _ & _ & Hm).
  change (0x888 / page_size low_heap_dumper * page_size low_heap_dumper) with 0 in Hm.
  assert (Hrun : get_stack_info (H := x64_release) (stack_fuel low_heap_dumper) low_heap_dumper 0x888
    = Ok (0x1000, 0x2000)) by (vm_compute; reflexivity).
  rewrite Hrun in Hm. destruct (find_mapping low_heap_dumper _) as [m|] eqn:Ef; [|discriminate Hm].
  destruct Hm as (vsp & len & Hr & _ & _ & _ & _ & He). exists n, m, vsp, len.
  split; [rewrite Hrun; exact Hr|]. split; [exact Ef|exact He].
Defined.

Lemma guard_loop_top_page fuel d guard sp :
  may_be_stack (find_mapping d sp) = false -> sp <= guard ->
  2 ^ 64 <= sp + page_size d ->
  guard_loop (H := x64_debug) fuel d guard sp (find_mapping d sp) = Panic.
Proof.
  intros Hm Hle Hov. destruct fuel as [|fuel]; [done|]. cbn [guard_loop]. rewrite Hm.
  rewrite (proj2 (Z.leb_le _ _) Hle). cbn [negb andb].
  unfold add_u, checked. rewrite (proj2 (Z.ltb_ge _ _)) by (change usize_bits with 64; lia).
  by rewrite andb_false_r.
Qed.

(** the saturating guard address does not protect the walk over guard
    pages.  With a stack pointer in the last page of the address space the
    pointer overflows: a debug build panics, whatever the rest of the list
    holds, and a release build wraps around to address 0 and reports the lowest
    accessible mapping of the process as the stack. *)
Theorem get_stack_info_wraps_around (fuel : nat) :
  get_stack_info (H := x64_debug) fuel low_heap_dumper (2 ^ 64 - 1) = Panic /\
  get_stack_info (H := x64_release) (3 + fuel) low_heap_dumper (2 ^ 64 - 1)
    = Ok (start_address low_heap, size low_heap).
Proof.
  split.
  - change (get_stack_info (H := x64_debug) fuel low_heap_dumper (2 ^ 64 - 1)) with
      (guard_loop (H := x64_debug) fuel low_heap_dumper (2 ^ 64 - 1) (2 ^ 64 - 4096)
         (find_mapping low_heap_dumper (2 ^ 64 - 4096)) ≫= fun found =>
       let '(stack_pointer, mapping) := found in
       match mapping with
       | None => Err DumperError_NoStackPointerMapping
       | Some m =>
           let valid_stack_pointer :=
             if contains_address m stack_pointer then stack_pointer else start_address m in
           off ← sub_u (H := x64_debug) 64 valid_stack_pointer (start_address m);
           stack_len ← sub_u (H := x64_debug) 64 (size m) off;
           Ok (valid_stack_pointer, stack_len)
       end).
    rewrite guard_loop_top_page; [done|reflexivity|lia|vm_compute; discriminate].
  - reflexivity.
Qed.

(** [get_thread_info_by_index] reads the thread at every valid index and
    reports an index above the length, but its guard accepts the length itself,
    on which the indexing panics. *)
Theorem get_thread_info_branches (A : Arch) (d : PtraceDumper) (index : nat) :
  get_thread_info_by_index d index =
    match threads d !! index with
    | Some t => ti_create (pid d) (tid t)
    | None => if decide (index = List.length (threads d)) then Panic
              else Err (ThreadInfoError_IndexOutOfBounds index (List.length (threads d)))
    end.
Proof.
  unfold get_thread_info_by_index. destruct (threads d !! index) as [t|] eqn:E.
  - apply lookup_lt_Some in E. by rewrite decide_False by lia.
  - apply lookup_ge_None in E. destruct (decide (index = _)).
    + by rewrite decide_False by lia.
    + by rewrite decide_True by lia.
Qed.
