(* ===== verification/SanitizeSpec.v ===== *)
(** * The stack sanitizer against its specification

    [sanitize_stack_copy] (src/src/linux/ptrace_dumper.rs) looks mappings up
    through a bit field and a one-entry cache.  Here it is shown equal to the
    plain definition: a word is kept when it is small, points into the stack
    mapping or points into executable code, and is overwritten otherwise. *)
From Stdlib Require Import ZArith Lia String.
From S2P Require Import Prelude RustStr Layout Errors Os MemReader ModuleReader.
From S2P Require Import MapsReader MapsReaderSpec Auxv Arch PtraceDumper StackSpec.

Local Open Scope Z_scope.

(** ** The specification *)

(** No address lies in two system mappings. *)
Definition disjoint_mappings (ms : list MappingInfo) : Prop :=
  forall m1 m2 a, m1 ∈ ms -> m2 ∈ ms ->
    contains_address m1 a = true -> contains_address m2 a = true -> m1 = m2.

Definition points_to_code (d : PtraceDumper) (addr : Z) : bool :=
  match find_mapping_no_bias d addr with Some m => is_executable m | None => false end.

Definition in_mapping (o : option MappingInfo) (addr : Z) : bool :=
  match o with Some m => contains_address m addr | None => false end.

Definition word_allowed (d : PtraceDumper) (stack_mapping : option MappingInfo) (addr : Z) : bool :=
  (addr <=? small_int_magnitude) || in_mapping stack_mapping addr || points_to_code d addr.

Definition scrub `{Target} (d : PtraceDumper) (stack_mapping : option MappingInfo)
    (word : list byte) : list byte :=
  if word_allowed d stack_mapping (le_combine word) then word else defaced.

(** ** The bit field *)

Definition hit_index (bit : Z) : nat := Z.to_nat (Z.land (Z.shiftr bit 3) array_mask).

Lemma hit_index_lt bit : (hit_index bit < array_size)%nat.
Proof.
  unfold hit_index, array_size, array_mask. change 255 with (Z.ones 8).
  rewrite Z.land_ones by lia. pose proof (Z.mod_pos_bound (Z.shiftr bit 3) (2 ^ 8)). lia.
Qed.

Lemma land_bit x k : 0 <= k -> negb (Z.land x (Z.shiftl 1 k) =? 0) = Z.testbit x k.
Proof.
  intros Hk. rewrite Z.shiftl_1_l. destruct (Z.testbit x k) eqn:E.
  - apply negb_true_iff, Z.eqb_neq. intros Hz. apply (f_equal (fun z => Z.testbit z k)) in Hz.
    rewrite Z.land_spec, E, Z.pow2_bits_true, Z.bits_0 in Hz by lia. done.
  - apply negb_false_iff, Z.eqb_eq, Z.bits_inj'. intros n Hn.
    rewrite Z.land_spec, Z.pow2_bits_eqb, Z.bits_0 by lia.
    destruct (Z.eqb_spec k n) as [<-|]; [by rewrite E|apply andb_false_r].
Qed.

Lemma bit_low bit : 0 <= Z.land bit 7.
Proof. change 7 with (Z.ones 3). rewrite Z.land_ones by lia. apply Z.mod_pos_bound. lia. Qed.

Lemma test_hit_bit_eq hits bit :
  test_hit_bit hits bit = Z.testbit (nth (hit_index bit) hits 0) (Z.land bit 7).
Proof. unfold test_hit_bit. apply land_bit, bit_low. Qed.

Lemma length_set_hit_bit hits bit : List.length (set_hit_bit hits bit) = List.length hits.
Proof. unfold set_hit_bit. apply length_insert. Qed.

Lemma nth_insert_z (l : list Z) i j v :
  (i < List.length l)%nat -> nth j (<[i := v]> l) 0 = if decide (i = j) then v else nth j l 0.
Proof.
  intros Hi. rewrite !nth_lookup. case_decide as Hij.
  - subst. by rewrite list_lookup_insert_eq.
  - by rewrite list_lookup_insert_ne.
Qed.

Lemma test_set hits b c : List.length hits = array_size ->
  test_hit_bit hits c = true \/ b = c -> test_hit_bit (set_hit_bit hits b) c = true.
Proof.
  intros Hl. rewrite !test_hit_bit_eq. unfold set_hit_bit. fold (hit_index b).
  rewrite nth_insert_z by (rewrite Hl; apply hit_index_lt).
  case_decide as Hi; intros Ht.
  - rewrite Z.lor_spec, Z.shiftl_1_l. destruct Ht as [Ht| <-].
    + rewrite Hi, Ht. done.
    + rewrite Z.pow2_bits_true by apply bit_low. apply orb_true_r.
  - destruct Ht as [Ht| <-]; done.
Qed.

Lemma set_bits_keep bits : forall hits,
  List.length hits = array_size ->
  List.length (fold_left set_hit_bit bits hits) = array_size /\
  forall c, test_hit_bit hits c = true \/ c ∈ bits ->
    test_hit_bit (fold_left set_hit_bit bits hits) c = true.
Proof.
  induction bits as [|b bits IH]; intros hits Hl; cbn [fold_left].
  - split; [done|]. intros c [?|Hc]; [done|]. by apply elem_of_nil in Hc.
  - destruct (IH (set_hit_bit hits b)) as [Hl' Hk]; [by rewrite length_set_hit_bit|].
    split; [done|]. intros c Hc. apply Hk.
    destruct Hc as [Hc|[->|Hc]%elem_of_cons]; [left..|by right]; apply test_set; auto.
Qed.

Section sanitize.
Context `{TG : Target}.

(** The field has the bit of every address of every executable module. *)
Lemma hit_bits_ok {E} ms : forall hits,
  Forall module_ok ms -> List.length hits = array_size ->
  exists hits', hit_bits (E := E) ms hits = Ok hits' /\ List.length hits' = array_size /\
    forall c, (test_hit_bit hits c = true \/
       exists m a, m ∈ ms /\ is_executable m = true /\ c = Z.shiftr a sanitize_shift /\
         start_address m <= a <= start_address m + size m) ->
      test_hit_bit hits' c = true.
Proof.
  induction ms as [|m ms IH]; intros hits Hms Hl; cbn [hit_bits].
  - exists hits. split_and!; [done|done|]. intros c [?|(m & a & Hm & _)]; [done|].
    by apply elem_of_nil in Hm.
  - inversion Hms as [|? ? Hm Hms']; subst. destruct (is_executable m) eqn:Ex; cbn [negb].
    + unfold add_u. rewrite checked_fits by (destruct Hm; unfold in_bits, usize_max in *; lia).
      cbn [mbind res_bind].
      set (bits := seqZ _ _). destruct (set_bits_keep bits hits Hl) as [Hl1 Hk].
      destruct (IH (fold_left set_hit_bit bits hits) Hms' Hl1) as (h2 & -> & Hl2 & Hk2).
      exists h2. split_and!; [done|done|]. intros c Hc. apply Hk2.
      destruct Hc as [Hc|(m' & a & Hm' & Hx' & -> & Ha)]; [left; apply Hk; by left|].
      apply elem_of_cons in Hm' as [->|Hm']; [|right; by exists m', a].
      left. apply Hk. right. subst bits. apply elem_of_seqZ.
      rewrite !Z.shiftr_div_pow2 by (unfold sanitize_shift; lia).
      pose proof (Z.div_le_mono (start_address m) a (2 ^ sanitize_shift)).
      pose proof (Z.div_le_mono a (start_address m + size m) (2 ^ sanitize_shift)).
      assert (0 < 2 ^ sanitize_shift) by done. lia.
    + destruct (IH hits Hms' Hl) as (h2 & -> & Hl2 & Hk2). exists h2. split_and!; [done|done|].
      intros c [Hc|(m' & a & Hm' & Hx' & Hc & Ha)]; apply Hk2; [by left|].
      apply elem_of_cons in Hm' as [->|Hm']; [congruence|]. right. by exists m', a.
Qed.

Context (d : PtraceDumper) (Hms : Forall module_ok (mappings d))
  (Hdis : disjoint_mappings (mappings d)).

Definition cache_ok (last_hit : option MappingInfo) : Prop :=
  forall m, last_hit = Some m -> m ∈ mappings d /\ is_executable m = true.

Lemma code_of_mapping m a : m ∈ mappings d -> is_executable m = true ->
  contains_address m a = true -> points_to_code d a = true.
Proof.
  intros Hm Hx Ha. unfold points_to_code. destruct (find_mapping_no_bias d a) as [m'|] eqn:E.
  - apply find_no_bias_some in E as [Hm' Ha']. by rewrite (Hdis m' m a).
  - by rewrite (find_no_bias_none d a m E Hm) in Ha.
Qed.

Lemma small_word addr : in_bits usize_bits addr ->
  (addr <=? small_int_magnitude) && (- small_int_magnitude <=? swrap usize_bits addr)
  = (addr <=? small_int_magnitude).
Proof.
  intros Ha. unfold swrap. rewrite wrap_small by done. unfold in_bits, small_int_magnitude in *.
  destruct (Z.leb_spec addr 4096); [|done]. cbn [andb].
  assert (4096 < 2 ^ (usize_bits - 1)) by (unfold usize_bits; case_match; done).
  rewrite (proj2 (Z.ltb_lt _ _)) by lia. apply Z.leb_le. lia.
Qed.

Lemma keep_word_ok hits stack_mapping last_hit addr :
  (forall c, (exists m a, m ∈ mappings d /\ is_executable m = true /\
      c = Z.shiftr a sanitize_shift /\ start_address m <= a <= start_address m + size m) ->
    test_hit_bit hits c = true) ->
  cache_ok last_hit -> in_bits usize_bits addr ->
  (keep_word d hits stack_mapping last_hit addr).1 = word_allowed d stack_mapping addr /\
  cache_ok (keep_word d hits stack_mapping last_hit addr).2.
Proof.
  intros Hhits Hcache Ha. unfold keep_word, word_allowed. rewrite small_word by done.
  destruct (addr <=? small_int_magnitude); [done|]. cbn [orb].
  fold (in_mapping stack_mapping addr) (in_mapping last_hit addr).
  destruct (in_mapping stack_mapping addr); [done|]. cbn [orb].
  destruct (in_mapping last_hit addr) eqn:El.
  { destruct last_hit as [m|]; [|done]. destruct (Hcache m eq_refl) as [Hm Hx].
    split; [|done]. symmetry. by eapply code_of_mapping. }
  destruct (test_hit_bit hits _) eqn:Et.
  - unfold points_to_code. destruct (find_mapping_no_bias d addr) as [m|] eqn:Ef; [|done].
    destruct (is_executable m) eqn:Ex; [|done]. split; [done|]. intros m' [= <-].
    by apply find_no_bias_some in Ef as [? _].
  - split; [|done]. symmetry. unfold points_to_code.
    destruct (find_mapping_no_bias d addr) as [m|] eqn:Ef; [|done].
    apply find_no_bias_some in Ef as [Hm Hc].
    destruct (is_executable m) eqn:Ex; [|done]. exfalso.
    rewrite Hhits in Et; [done|]. exists m, addr. split_and!; [done..| |].
    + rewrite list.Forall_forall in Hms. destruct (Hms m Hm). unfold contains_address in Hc. lia.
    + rewrite list.Forall_forall in Hms. destruct (Hms m Hm). unfold contains_address in Hc. lia.
Qed.

Lemma sanitize_words_ok hits stack_mapping words : forall last_hit,
  (forall c, (exists m a, m ∈ mappings d /\ is_executable m = true /\
      c = Z.shiftr a sanitize_shift /\ start_address m <= a <= start_address m + size m) ->
    test_hit_bit hits c = true) ->
  cache_ok last_hit -> Forall (fun wd => List.length wd = size_of_usize) words ->
  sanitize_words d hits stack_mapping last_hit words = scrub d stack_mapping <$> words.
Proof.
  intros last_hit Hhits. revert last_hit.
  induction words as [|wd words IH]; intros last_hit Hc Hw; cbn [sanitize_words]; [done|].
  inversion Hw; subst.
  assert (Hb : in_bits usize_bits (le_combine wd)).
  { pose proof (le_combine_bound wd). unfold in_bits. rewrite usize_bits_bytes. congruence. }
  destruct (keep_word_ok hits stack_mapping last_hit (le_combine wd) Hhits Hc Hb) as [Hk Hc'].
  destruct (keep_word _ _ _ _ _) as [keep last']. simpl in *. rewrite IH by done.
  unfold scrub at 2. by rewrite Hk.
Qed.
End sanitize.

Lemma chunks_exact_lengths {A} n fuel : forall (l : list A),
  Forall (fun c => List.length c = n) (chunks_exact_fuel fuel n l).1.
Proof.
  induction fuel as [|fuel IH]; intros l; cbn [chunks_exact_fuel]; [constructor|].
  case_decide; [|constructor]. specialize (IH (drop n l)).
  destruct (chunks_exact_fuel fuel n (drop n l)). constructor; [|done].
  rewrite length_take. lia.
Qed.

(** The word of a small negative integer is a large unsigned number. *)
Lemma small_negative_word `{TG : Target} v : - small_int_magnitude <= v < 0 ->
  wrap usize_bits v = v + 2 ^ usize_bits /\ small_int_magnitude < wrap usize_bits v.
Proof.
  unfold small_int_magnitude. intros Hv.
  assert (Hw : wrap usize_bits v = v + 2 ^ usize_bits).
  { unfold wrap. symmetry. apply (Z.mod_unique _ _ (-1)); [|lia].
    left. unfold usize_bits. case_match; lia. }
  split; [done|]. rewrite Hw. unfold usize_bits. case_match; lia.
Qed.

(** C19: the optimised sanitizer, for well-formed disjoint modules and an offset
    inside the copy.  Below the aligned stack pointer everything is zeroed; each
    complete word above it is kept exactly when it is at most 4096 as an unsigned
    number, points into the stack's mapping or points into executable code, and
    is overwritten otherwise; a partial word at the top is zeroed; the bit field
    and the cached mapping never change the outcome.  So the small negative
    integers from -4096 to -1, which the comment in the code and the test of
    small integers count as small, are not kept: such a word that points into no
    mapping is overwritten. *)
Theorem sanitize_stack_copy_spec `{TG : Target} (d : PtraceDumper) (stack_copy : list byte)
    (stack_pointer sp_offset : Z) :
  Forall module_ok (mappings d) -> disjoint_mappings (mappings d) ->
  0 <= sp_offset -> sp_offset + Z.of_nat size_of_usize < 2 ^ usize_bits ->
  let off := (sp_offset + Z.of_nat size_of_usize - 1) / Z.of_nat size_of_usize
             * Z.of_nat size_of_usize in
  off <= Z.of_nat (List.length stack_copy) ->
  let words := (chunks_exact size_of_usize (drop (Z.to_nat off) stack_copy)).1 in
  let remainder := (chunks_exact size_of_usize (drop (Z.to_nat off) stack_copy)).2 in
  sanitize_stack_copy d stack_copy stack_pointer sp_offset =
    Ok (replicate (Z.to_nat off) Byte.x00 ++
        concat (scrub d (find_mapping_no_bias d stack_pointer) <$> words) ++
        replicate (List.length remainder) Byte.x00) /\
  (forall word v, List.length word = size_of_usize -> le_combine word = wrap usize_bits v ->
     - small_int_magnitude <= v < 0 -> find_mapping_no_bias d (wrap usize_bits v) = None ->
     scrub d (find_mapping_no_bias d stack_pointer) word = defaced).
Proof.
  intros Hms Hdis Hs Hfit off Hoff words remainder. split; cycle 1.
  { intros word v _ Hv Hsmall Hnone. unfold scrub, word_allowed. rewrite Hv.
    rewrite (proj2 (Z.leb_gt _ _)) by (by apply small_negative_word).
    unfold points_to_code. rewrite Hnone. cbn [orb].
    destruct (find_mapping_no_bias d stack_pointer) as [m|] eqn:Em; [|done].
    apply find_no_bias_some in Em as [Hm _]. cbn [in_mapping].
    by rewrite (find_no_bias_none d _ m Hnone Hm). }
  unfold sanitize_stack_copy.
  destruct (hit_bits_ok (E := DumperError) (mappings d) (replicate array_size 0) Hms)
    as (hits & -> & Hl & Hhits); [apply length_replicate|].
  cbn [mbind res_bind]. rewrite align_word_ok by done. cbn [mbind res_bind]. fold off.
  rewrite (proj2 (Z.ltb_ge _ _)) by lia.
  subst words remainder. unfold chunks_exact.
  pose proof (chunks_exact_lengths size_of_usize
    (List.length (drop (Z.to_nat off) stack_copy)) (drop (Z.to_nat off) stack_copy)) as Hw.
  destruct (chunks_exact_fuel _ _ _) as [words remainder]. simpl in Hw |- *.
  rewrite sanitize_words_ok; [done|done|done| |done|done].
  intros c Hc. apply Hhits. by right.
Qed.

Definition code_mapping : MappingInfo :=
  mkMapping 0x10000 0x1000 (mkSystemMapping 0x10000 0x11000) 0 rxp None.
Definition code_dumper : PtraceDumper :=
  mkDumper 7 false [] default_auxv [code_mapping; low_heap] 4096.

Lemma code_dumper_disjoint : disjoint_mappings (mappings code_dumper).
Proof.
  intros m1 m2 a H1 H2 Ha Hb.
  apply elem_of_cons in H1 as [->|[->|H1%elem_of_nil]%elem_of_cons]; [| |done];
    apply elem_of_cons in H2 as [->|[->|H2%elem_of_nil]%elem_of_cons]; try done;
    unfold contains_address in *; simpl in *; lia.
Qed.

Lemma sanitize_stack_copy_witness :
  sanitize_stack_copy (H := x64_release) code_dumper
    (le_split 8 77 ++ le_split 8 0x10010 ++ le_split 8 0x55aa55aa ++ le_split 3 1) 0x1100 3
  = Ok (le_split 8 0 ++ le_split 8 0x10010 ++ le_split 8 0x0defaced0defaced ++ le_split 3 0).
Proof.
  refine (proj1 (@sanitize_stack_copy_spec x64_release code_dumper _ 0x1100 3 _ code_dumper_disjoint
    _ _ _)); [repeat constructor; vm_compute; congruence | lia
            | vm_compute; reflexivity | vm_compute; discriminate].
Defined.

(** Small negative integers are not kept.  The code compares the unsigned
    value with the magnitude before it looks at the signed one, so a word
    between -4096 and -1 that points nowhere is overwritten, although the
    comment counts integers below that magnitude as small. *)
Theorem sanitize_defaces_small_negatives `{TG : Target} (d : PtraceDumper) (v : Z)
    (hits : list Z) :
  - small_int_magnitude <= v < 0 -> find_mapping_no_bias d (wrap usize_bits v) = None ->
  swrap usize_bits (wrap usize_bits v) = v /\
  (keep_word d hits None None (wrap usize_bits v)).1 = false.
Proof.
  intros Hv Hf. destruct (small_negative_word v Hv) as [Hw Hlt].
  unfold small_int_magnitude in Hv.
  assert (Hbig : 8192 < 2 ^ (usize_bits - 1) /\ 2 * 2 ^ (usize_bits - 1) = 2 ^ usize_bits)
    by (unfold usize_bits; case_match; split; done).
  split.
  - unfold swrap. rewrite (wrap_small _ (wrap usize_bits v)) by (unfold in_bits; lia).
    rewrite (proj2 (Z.ltb_ge _ _)) by lia. lia.
  - unfold keep_word. rewrite (proj2 (Z.leb_gt _ _)) by done.
    cbn [andb]. rewrite Hf. by destruct (test_hit_bit _ _).
Qed.

Lemma sanitize_small_negatives_witness :
  swrap (@usize_bits x64_release) (wrap (@usize_bits x64_release) (-1)) = -1 /\
  (keep_word (H := x64_release) code_dumper [] None None (wrap (@usize_bits x64_release) (-1))).1
    = false.
Proof.
  exact (@sanitize_defaces_small_negatives x64_release code_dumper (-1) []
           ltac:(unfold small_int_magnitude; lia) ltac:(vm_compute; reflexivity)).
Defined.

(** ** Where these hypotheses come from *)

Section order.
Context `{TG : Target}.

Lemma modules_from_lower ms : forall lo m, modules_from lo ms -> m ∈ ms ->
  module_ok m /\ lo <= start_address m.
Proof.
  induction ms as [|x ms IH]; intros lo m Hms Hm; [by apply elem_of_nil in Hm|].
  cbn [modules_from] in Hms. destruct Hms as (Hx & Hlo & Hrest).
  apply elem_of_cons in Hm as [->|Hm]; [done|].
  destruct (IH _ m Hrest Hm) as [Hok Hle]. split; [done|]. destruct Hx. lia.
Qed.

Lemma modules_from_ok lo ms : modules_from lo ms -> Forall module_ok ms.
Proof. intros Hms. apply list.Forall_forall. intros m Hm. by eapply modules_from_lower. Qed.

Lemma modules_from_inj ms : forall lo m1 m2 a, modules_from lo ms ->
  m1 ∈ ms -> m2 ∈ ms -> in_module a m1 -> in_module a m2 -> m1 = m2.
Proof.
  induction ms as [|x ms IH]; intros lo m1 m2 a Hms H1 H2 Ha1 Ha2; [by apply elem_of_nil in H1|].
  cbn [modules_from] in Hms. destruct Hms as (Hx & Hlo & Hrest). unfold in_module in *.
  apply elem_of_cons in H1 as [->|H1]; apply elem_of_cons in H2 as [->|H2]; [done| | |].
  - pose proof (modules_from_lower _ _ m2 Hrest H2). lia.
  - pose proof (modules_from_lower _ _ m1 Hrest H1). lia.
  - by apply (IH _ m1 m2 a Hrest).
Qed.

Lemma contains_in_module m a : module_ok m -> contains_address m a = true -> in_module a m.
Proof. intros [] Ha. unfold contains_address, in_module in *. lia. Qed.

Lemma modules_from_disjoint lo ms : modules_from lo ms -> disjoint_mappings ms.
Proof.
  intros Hms m1 m2 a H1 H2 Ha1 Ha2. apply (modules_from_inj ms lo m1 m2 a); try done;
    apply contains_in_module; try done; by eapply modules_from_lower.
Qed.

Lemma disjoint_permutation ms ms' : ms ≡ₚ ms' -> disjoint_mappings ms -> disjoint_mappings ms'.
Proof. intros Hp Hd m1 m2 a. rewrite <- !Hp. apply Hd. Qed.

Lemma swap_first_perm {A} idx (l : list A) : swap_first idx l ≡ₚ l.
Proof.
  unfold swap_first. destruct (l !! 0%nat) as [a|] eqn:E0; [|done].
  destruct (l !! idx) as [b|] eqn:Ei; [|done].
  destruct l as [|x l]; [done|]. simpl in E0. injection E0 as ->.
  destruct idx as [|i]; [simpl in *; simplify_eq; done|]. simpl in Ei |- *.
  rewrite insert_take_drop by (by eapply lookup_lt_Some).
  rewrite <- (take_drop_middle l i b Ei) at 3.
  rewrite <- !Permutation_middle. apply Permutation_swap.
Qed.

Lemma swap_first_head {A} idx (l : list A) m :
  l !! idx = Some m -> exists rest, swap_first idx l = m :: rest.
Proof.
  intros Hi. unfold swap_first. destruct l as [|x l]; [done|]. simpl. rewrite Hi.
  destruct idx as [|i]; simpl in *; simplify_eq; by eexists.
Qed.

Lemma find_entry_ok {E} entry ms : forall idx, Forall module_ok ms ->
  match find_entry (E := E) entry idx ms with
  | Ok (Some i) => (idx <= i)%nat /\ exists m, ms !! (i - idx)%nat = Some m /\ in_module entry m
  | Ok None => ~ Exists (in_module entry) ms
  | _ => False
  end.
Proof.
  induction ms as [|m ms IH]; intros idx Hms; cbn [find_entry].
  { intros Hn. by apply Exists_nil in Hn. }
  inversion Hms as [|? ? Hm Hms']; subst. specialize (IH (S idx) Hms').
  unfold add_u. rewrite checked_fits by (destruct Hm; unfold in_bits, usize_max in *; lia).
  cbn [mbind res_bind].
  assert (Hskip : ~ in_module entry m ->
    match find_entry (E := E) entry (S idx) ms with
    | Ok (Some i) => (idx <= i)%nat /\ exists m', (m :: ms) !! (i - idx)%nat = Some m' /\
                       in_module entry m'
    | Ok None => ~ Exists (in_module entry) (m :: ms)
    | _ => False
    end).
  { intros Hn. destruct (find_entry entry (S idx) ms) as [[i|]| |]; try done.
    - destruct IH as (Hi & m' & Hm' & Hin). split; [lia|]. exists m'. split; [|done].
      by replace (i - idx)%nat with (S (i - S idx)) by lia.
    - rewrite Exists_cons. tauto. }
  destruct (Z.leb_spec (start_address m) entry); [|apply Hskip; unfold in_module; lia].
  destruct (Z.ltb_spec entry (start_address m + size m)); [|apply Hskip; unfold in_module; lia].
  split; [lia|]. exists m. rewrite Nat.sub_diag. split; [done|]. unfold in_module. lia.
Qed.
End order.

(** C32: after [enumerate_mappings] on the kernel's lines, the dumper's modules
    are those of [aggregate] up to order, are well formed and disjoint, and
    when some module contains the entry point of the program, the first one
    does: the minidump's main module is the executable. *)
Theorem enumerate_mappings_main_first `{TG : Target} (PF : Procfs) (d : PtraceDumper)
    (maps : list MemoryMap) :
  memory_maps_from (utf8_encode (proc_path (pid d) "/maps")) = inr (inr maps) ->
  lines_from 0 maps -> default 0 (linux_gate_address (auxv d)) <= usize_max ->
  exists d' infos, enumerate_mappings d = (Ok tt, d') /\
    aggregate maps (default 0 (linux_gate_address (auxv d))) = Ok infos /\
    mappings d' ≡ₚ infos /\ Forall module_ok (mappings d') /\ disjoint_mappings (mappings d') /\
    (forall entry, entry_address (auxv d) = Some entry -> entry <> 0 ->
       Exists (in_line entry) maps ->
       exists m rest, mappings d' = m :: rest /\ in_module entry m).
Proof.
  intros Hmaps Hl Hg. unfold enumerate_mappings. rewrite Hmaps.
  unfold get_linux_gate_address, get_entry_address.
  destruct (aggregate_ok maps _ Hg Hl) as (infos & Hagg & Hms & Hcov). rewrite Hagg.
  pose proof (modules_from_ok 0 infos Hms) as Hok.
  pose proof (modules_from_disjoint 0 infos Hms) as Hdis.
  destruct (Z.eqb_spec (default 0 (entry_address (auxv d))) 0) as [Hz|Hnz].
  { exists (set_mappings infos d), infos. split_and!; try done.
    intros entry He Hne. rewrite He in Hz. done. }
  pose proof (find_entry_ok (E := InitError) (default 0 (entry_address (auxv d))) infos 0 Hok) as Hf.
  destruct (find_entry _ 0 infos) as [[i|]| |]; try done.
  - destruct Hf as (_ & m & Hm & Hin). rewrite Nat.sub_0_r in Hm.
    pose proof (swap_first_perm i infos) as Hp.
    eexists _, infos. split_and!; [done|done|exact Hp|cbn [mappings set_mappings]; by rewrite Hp| |].
    + eapply disjoint_permutation; [symmetry; exact Hp|done].
    + intros entry He _ _. destruct (swap_first_head i infos m Hm) as [rest Hr].
      exists m, rest. split; [exact Hr|]. by rewrite He in Hin.
  - eexists _, infos. split_and!; try done. intros entry He Hne Hex.
    apply Hcov in Hex. rewrite He in Hf. done.
Qed.

Definition cat_procfs : Procfs := {|
  memory_maps_from _ := inr (inr cat_lines);
  memory_maps_from_file _ := inr cat_lines;
|}.
Definition cat_dumper : PtraceDumper :=
  mkDumper 7 false [] (mkAuxv None None None (Some 0x559749b0e010)) [] 0.

Lemma enumerate_mappings_witness :
  exists d' infos, enumerate_mappings (H := x64_release) (PF := cat_procfs) cat_dumper
      = (Ok tt, d') /\ aggregate (H := x64_release) cat_lines 0 = Ok infos /\
    mappings d' ≡ₚ infos.
Proof.
  destruct (@enumerate_mappings_main_first x64_release cat_procfs cat_dumper cat_lines eq_refl
    ltac:(repeat split; vm_compute; discriminate) ltac:(vm_compute; discriminate))
    as (d' & infos & H1 & H2 & H3 & _).
  exists d', infos. split; [exact H1|]. split; [exact H2|exact H3].
Defined.
