(* ===== verification/SuspendSpec.v ===== *)
(** * Suspending and resuming the target

    The attach/detach life cycle of src/src/linux/ptrace_dumper.rs against the
    contract of ptrace(2) and kill(2): which threads are traced after each
    operation, whatever its outcome, and which calls of kill(2) were made. *)
From Stdlib Require Import ZArith Lia String.
From stdpp Require Import gmap.
From S2P Require Import Prelude RustStr Layout Errors Os MemReader ModuleReader.
From S2P Require Import MapsReader Auxv Arch PtraceDumper.

Local Open Scope Z_scope.

(** ** The contract of the kernel *)

(** Whether a call succeeded. *)
Definition succeeded {E T} (r : res E T) : bool := match r with Ok _ => true | _ => false end.

(** [attached k] are the threads traced by the caller; [kills k] the calls of
    kill(2) made so far, each with the process, the signal and whether the call
    succeeded: only then was the signal sent.  The SIGSTOP that PTRACE_ATTACH
    sends to the thread it attaches to and the signals PTRACE_CONT injects again
    are not calls of kill(2).  A call that fails changes nothing, except that the
    failure may tell that the thread is gone: PTRACE_CONT and PTRACE_DETACH then
    return ESRCH, which they also do for a thread that is traced but not stopped,
    and a wait then fails for another reason than an interruption.  A wait that
    reports an exit may end the tracing of that thread. *)
Class KernelOk (K : Type) `{Kernel K} := {
  attached : K -> gset Pid;
  kills : K -> list (Pid * Z * bool);
  attach_law : forall p k r k', ptrace_attach p k = (r, k') ->
    r <> Panic /\ kills k' = kills k /\
    attached k' = match r with Ok _ => {[p]} ∪ attached k | _ => attached k end;
  detach_law : forall p k r k', ptrace_detach_call p k = (r, k') ->
    r <> Panic /\ kills k' = kills k /\
    match r with
    | Ok _ => attached k' = attached k ∖ {[p]}
    | Err e => attached k' = attached k \/ (e = ESRCH /\ attached k' = attached k ∖ {[p]})
    | Panic => True
    end;
  cont_law : forall p s k r k', ptrace_cont p s k = (r, k') ->
    r <> Panic /\ kills k' = kills k /\
    match r with
    | Err e => attached k' = attached k \/ (e = ESRCH /\ attached k' = attached k ∖ {[p]})
    | _ => attached k' = attached k
    end;
  wait_law : forall p k r k', waitpid p k = (r, k') ->
    r <> Panic /\ kills k' = kills k /\
    match r with
    | Ok (Stopped _) => attached k' = attached k
    | Ok OtherStatus => attached k' = attached k \/ attached k' = attached k ∖ {[p]}
    | Err e => attached k' = attached k \/ (e <> EINTR /\ attached k' = attached k ∖ {[p]})
    | Panic => True
    end;
  kill_law : forall p s k r k', kill p s k = (r, k') ->
    r <> Panic /\ attached k' = attached k /\ kills k' = kills k ++ [(p, s, succeeded r)];
  stopped_law : forall f k r k', proc_stopped f k = (r, k') ->
    r <> Panic /\ attached k' = attached k /\ kills k' = kills k;
  now_law : forall k, attached (instant_now k).2 = attached k /\ kills (instant_now k).2 = kills k;
  sleep_law : forall n k, attached (sleep n k) = attached k /\ kills (sleep n k) = kills k;
}.

Definition tids (ts : list Thread) : gset Pid := list_to_set (tid <$> ts).

Lemma changes_compose (B : gset Pid) (p : Pid) (S A C : gset Pid) :
  C ∖ S = B ∖ S -> B ∖ {[p]} = A ∖ {[p]} -> C ∖ ({[p]} ∪ S) = A ∖ ({[p]} ∪ S).
Proof.
  intros H1 H2. rewrite (union_comm_L {[p]}), <- !difference_difference_l_L, H1,
    !difference_difference_l_L, (union_comm_L S), <- !difference_difference_l_L. by rewrite H2.
Qed.

Lemma untraced_only (p : Pid) (X Y : gset Pid) : X = Y \/ X = Y ∖ {[p]} ->
  X ∖ {[p]} = Y ∖ {[p]} /\ X ⊆ {[p]} ∪ Y.
Proof. intros [-> | ->]; split; clear; set_solver. Qed.

Lemma untraced_same (p : Pid) (X Y : gset Pid) :
  Y ∖ {[p]} = X ∖ {[p]} -> p ∉ X -> p ∉ Y -> Y = X.
Proof.
  intros H HX HY. rewrite <- (difference_disjoint_L Y {[p]}), H by (clear -HY; set_solver).
  apply difference_disjoint_L. clear -HX. set_solver.
Qed.

Section suspend.
Context {K : Type} `{KO : KernelOk K} {A : Arch}.

(** A detach fails, if it does, because the thread is gone. *)
Definition detach_complies : Prop := forall p (k : K) e,
  (ptrace_detach_call p k).1 = Err e -> e = ESRCH /\ p ∉ attached (ptrace_detach_call p k).2.

(** A thread that was attached to is not lost sight of: it can be continued with
    a signal, a wait reports something else than a stop only when the thread has
    exited, and detaching from it fails only when it is gone. *)
Record trace_complies : Prop := {
  complies_detach : detach_complies;
  complies_cont : forall p s (k : K) e, p ∈ attached k -> (ptrace_cont p s k).1 <> Err e;
  complies_wait : forall p (k k' : K), waitpid p k = (Ok OtherStatus, k') -> p ∉ attached k';
}.

(** ** One thread *)

(** What changes, whatever the outcome: at most whether [p] is traced. *)
Definition only (p : Pid) (k k' : K) : Prop :=
  attached k' ∖ {[p]} = attached k ∖ {[p]} /\ attached k' ⊆ {[p]} ∪ attached k /\ kills k' = kills k.

Lemma detach_ok p k r k' : ptrace_detach p k = (r, k') ->
  r <> Panic /\ kills k' = kills k /\ (attached k' = attached k \/ attached k' = attached k ∖ {[p]}) /\
  (detach_complies -> r = Ok tt /\ attached k' = attached k ∖ {[p]}).
Proof.
  unfold ptrace_detach, detach_complies. destruct (ptrace_detach_call p k) as [r0 k0] eqn:E.
  pose proof (detach_law _ _ _ _ E) as (Hp & Hs & Ha).
  destruct r0 as [u|e|]; [|destruct (Z.eqb_spec e ESRCH); subst|done]; intros [= <- <-];
    (split_and!; [done|done|tauto|intros Hd]).
  - done.
  - specialize (Hd p k). rewrite E in Hd. destruct (Hd _ eq_refl) as [_ Hn]. cbn in Hn.
    split; [done|]. destruct Ha as [Ha|[_ Ha]]; [|done]. rewrite Ha in *. set_solver.
  - specialize (Hd p k). rewrite E in Hd. by destruct (Hd _ eq_refl).
Qed.

Lemma wait_loop_ok fuel p : forall k r k', wait_loop fuel p k = (r, k') -> p ∈ attached k ->
  only p k k' /\
  match r with
  | Ok _ => attached k' = attached k
  | Err _ => trace_complies -> p ∉ attached k'
  | Panic => True
  end.
Proof.
  unfold only.
  induction fuel as [|fuel IH]; intros k r k'; cbn [wait_loop].
  { intros [= <- <-] Hp. set_solver. }
  destruct (waitpid p k) as [r0 k0] eqn:Ew. pose proof Ew as Hw.
  apply wait_law in Ew as (Hpan & Hs & Ha).
  destruct r0 as [[st|]|e|]; [| | |done].
  - destruct (st =? SIGSTOP); [intros [= <- <-] Hp; rewrite Ha; set_solver|].
    destruct (ptrace_cont p st k0) as [r1 k1] eqn:Ec.
    pose proof (cont_law _ _ _ _ _ Ec) as (Hc & Hs1 & Ha1).
    destruct r1; [| |done].
    + intros Hl Hp. apply IH in Hl; [|rewrite Ha1, Ha; done].
      rewrite Ha1, Hs1, Ha, Hs in Hl. exact Hl.
    + intros [= <- <-] Hp. rewrite Ha in Ha1.
      destruct (untraced_only p (attached k1) (attached k)) as [U1 U2]; [tauto|].
      split; [split_and!; [done|done|congruence]|].
      intros Ht. destruct (complies_cont Ht p st k0 e); [by rewrite Ha|by rewrite Ec].
  - intros [= <- <-] Hp. destruct (untraced_only _ _ _ Ha). split; [done|].
    intros Ht. by eapply (complies_wait Ht).
  - destruct (Z.eqb_spec e EINTR) as [->|He].
    { destruct Ha as [Ha|[? _]]; [|done].
      intros Hl Hp. apply IH in Hl; [|by rewrite Ha]. rewrite Ha, Hs in Hl. exact Hl. }
    destruct (ptrace_detach p k0) as [r1 k1] eqn:Ed. apply detach_ok in Ed as (Hd & Hs1 & Ha1 & Hc1).
    assert (Ha2 : attached k1 = attached k \/ attached k1 = attached k ∖ {[p]}).
    { destruct Ha as [Ha|[_ Ha]]; rewrite Ha in Ha1; [done|]. right.
      destruct Ha1 as [-> | ->]; [done|]. clear. set_solver. }
    intros Hr Hp.
    assert (k1 = k' /\ r <> Ok tt) as [-> Hne] by (by destruct r1; simplify_eq).
    destruct (untraced_only _ _ _ Ha2). split; [split_and!; [done|done|congruence]|].
    destruct r as [[]| |]; [done| |done].
    intros Ht. destruct (Hc1 (complies_detach Ht)) as [_ ->]. clear. set_solver.
Qed.

Lemma suspend_thread_ok fuel p k r k' : suspend_thread fuel p k = (r, k') ->
  only p k k' /\
  match r with
  | Ok _ => attached k' = {[p]} ∪ attached k
  | Err _ => trace_complies -> p ∉ attached k -> p ∉ attached k'
  | Panic => True
  end.
Proof.
  unfold suspend_thread, mbind, ST_bind, st_map_err.
  destruct (ptrace_attach p k) as [r0 k0] eqn:Ea. apply attach_law in Ea as (Hpan & Hs & Ha).
  unfold only. destruct r0 as [u|e|]; simpl;
    [|intros [= <- <-]; rewrite Ha; split; [set_solver|done]|done].
  destruct (wait_loop fuel p k0) as [r1 k1] eqn:Ew.
  apply wait_loop_ok in Ew as [(Ho1 & Ho2 & Hs1) Hw]; [|rewrite Ha; set_solver].
  assert (Hgen : attached k1 ∖ {[p]} = attached k ∖ {[p]} /\
                 attached k1 ⊆ {[p]} ∪ attached k /\ kills k1 = kills k).
  { rewrite Hs1, Hs, Ho1, Ha. split_and!; [set_solver|set_solver|done]. }
  destruct r1 as [u1|e1|].
  - destruct (skip_thread p); [|intros [= <- <-]; rewrite Hw, Ha; set_solver].
    destruct (ptrace_detach p k1) as [r2 k2] eqn:Ed.
    apply detach_ok in Ed as (Hd & Hs2 & Ha2 & Hc2). intros Hr.
    assert (k2 = k' /\ exists e, r = Err e) as [-> [e ->]] 
      by (destruct r2; [| |done]; simpl in Hr; injection Hr as <- <-; eauto).
    destruct (untraced_only _ _ _ Ha2) as [U1 U2]. destruct Hgen as (G1 & G2 & G3).
    split; [split_and!; [congruence|clear -U2 G2; set_solver|congruence]|].
    intros Ht _. destruct (Hc2 (complies_detach Ht)) as [_ ->]. clear. set_solver.
  - intros [= <- <-]. split; [done|]. intros Ht _. by apply Hw.
  - by intros [= <- <-].
Qed.

(** ** All threads *)

Lemma retain_ok fuel ts : forall (k : K) r (k' : K), retain_suspended fuel ts k = (r, k') ->
  NoDup (tid <$> ts) ->
  attached k' ∖ tids ts = attached k ∖ tids ts /\ attached k' ⊆ tids ts ∪ attached k /\
  kills k' = kills k /\
  match r with
  | Ok kept => sublist kept ts /\ tids kept ⊆ attached k' /\
      (trace_complies -> tids ts ## attached k -> attached k' = attached k ∪ tids kept)
  | Err _ => False
  | Panic => True
  end.
Proof.
  unfold tids. induction ts as [|t ts IH]; intros k r k'; cbn [retain_suspended].
  { intros [= <- <-] _. simpl. split_and!; [done|set_solver|done|done|set_solver|].
    intros _ _. clear. set_solver. }
  unfold mbind, ST_bind, st_try.
  destruct (suspend_thread fuel (tid t) k) as [r0 k0] eqn:E0.
  apply suspend_thread_ok in E0 as [(H1 & H2 & H3) Hr0].
  cbn [fmap list_fmap list_to_set]. intros Hrun Hnd. inversion Hnd as [|? ? Hnin Hnd']; subst.
  assert (Hnin' : tid t ∉ (list_to_set (tid <$> ts) : gset Pid))
    by (by rewrite elem_of_list_to_set).
  assert (Hcommon : forall ok,
    (if ok : bool then attached k0 = {[tid t]} ∪ attached k
     else trace_complies -> tid t ∉ attached k -> tid t ∉ attached k0) ->
    match retain_suspended fuel ts k0 with
    | (Ok kept, k1) => (Ok (if ok : bool then t :: kept else kept), k1)
    | (Err e, k1) => (Err e, k1)
    | (Panic, k1) => (Panic, k1)
    end = (r, k') ->
    attached k' ∖ ({[tid t]} ∪ list_to_set (tid <$> ts))
      = attached k ∖ ({[tid t]} ∪ list_to_set (tid <$> ts)) /\
    attached k' ⊆ {[tid t]} ∪ list_to_set (tid <$> ts) ∪ attached k /\ kills k' = kills k /\
    match r with
    | Ok kept => sublist kept (t :: ts) /\ list_to_set (tid <$> kept) ⊆ attached k' /\
        (trace_complies -> {[tid t]} ∪ list_to_set (tid <$> ts) ## attached k ->
         attached k' = attached k ∪ list_to_set (tid <$> kept))
    | Err _ => False
    | Panic => True
    end).
  { intros ok Hok Hm. destruct (retain_suspended fuel ts k0) as [r1 k1] eqn:E1.
    destruct (IH _ _ _ E1 Hnd') as (I1 & I2 & I3 & I4).
    assert (r = match r1 with Ok kept => Ok (if ok then t :: kept else kept) | _ => r1 end
            /\ k' = k1) as [-> ->] by (destruct r1; simplify_eq; done).
    split_and!; [by apply (changes_compose (attached k0))|clear -I2 H2; set_solver|congruence|].
    destruct r1 as [kept|e|]; [|done|done]. destruct I4 as (Hsub & Hin & Hex).
    destruct ok; (split; [by constructor|split]); cbn [fmap list_fmap list_to_set]; [| |done|].
    - apply union_least; [|done]. apply singleton_subseteq_l.
      assert (Hk : tid t ∈ attached k0 ∖ list_to_set (tid <$> ts))
        by (apply elem_of_difference; rewrite Hok; split; [clear; set_solver|done]).
      rewrite <- I1 in Hk. by apply elem_of_difference in Hk as [? _].
    - intros Ht Hd. rewrite Hex, Hok; [clear; set_solver|done|].
      rewrite Hok. clear -Hd Hnin'. set_solver.
    - intros Ht Hd. rewrite Hex; [|done|clear -Hd H2 Hnin'; set_solver].
      rewrite (untraced_same (tid t) (attached k) (attached k0)); [done|done|clear -Hd; set_solver|].
      apply Hok; [done|clear -Hd; set_solver]. }
  destruct r0 as [u|e|].
  - apply (Hcommon true); [exact Hr0|exact Hrun].
  - apply (Hcommon false); [exact Hr0|exact Hrun].
  - injection Hrun as <- <-. split_and!; [by apply (changes_compose (attached k0))|
      clear -H2; set_solver|done|done].
Qed.

Lemma resume_loop_ok ts : forall result (k : K) r (k' : K), resume_loop ts result k = (r, k') ->
  result <> Panic ->
  r <> Panic /\ attached k' ⊆ attached k /\ attached k ∖ tids ts ⊆ attached k' /\
  kills k' = kills k /\
  (detach_complies -> r = result /\ attached k' = attached k ∖ tids ts).
Proof.
  unfold tids. induction ts as [|t ts IH]; intros result k r k'; cbn [resume_loop].
  { intros [= <- <-] Hp. simpl. split_and!; [done|done|set_solver|done|]. intros _. set_solver. }
  unfold resume_thread. destruct (ptrace_detach (tid t) k) as [r0 k0] eqn:E.
  apply detach_ok in E as (Hp0 & Hs0 & Ha0 & Hc0). intros Hrun Hp.
  cbn [fmap list_fmap list_to_set].
  assert (exists result', result' <> Panic /\ resume_loop ts result' k0 = (r, k') /\
    (r0 = Ok tt -> result' = result)) as (result' & Hp' & Hrun' & Hres)
    by (destruct r0 as [u|e|]; [exists result|exists (Err e)|done]; by split_and!).
  apply IH in Hrun' as (R1 & R2 & R3 & R4 & R5); [|done].
  split_and!; [done| | |congruence|].
  - clear -R2 Ha0. set_solver.
  - clear -R3 Ha0. set_solver.
  - intros Hd. destruct (Hc0 Hd) as [Hr0 Hk0]. destruct (R5 Hd) as [-> ->].
    split; [by apply Hres|]. rewrite Hk0. clear. set_solver.
Qed.
End suspend.

(** C30: after [suspend_threads], unless it does not return, every thread the
    dumper kept is traced, the kept threads are among the listed ones in the same
    order, no thread outside the list changed its state and no call of kill(2)
    was made; the dumper counts as suspended exactly when the call succeeded, and
    it fails exactly when no thread is left.  If no listed thread was traced
    before, PTRACE_CONT does not fail on a traced thread, a wait reports another
    status than a stop only for a thread that is gone, and detaching fails only
    for such a thread, then the kept threads are the only ones traced in
    addition: a thread that was dropped is not. *)
Theorem suspend_threads_traces {K : Type} `{KO : KernelOk K} (A : Arch) (fuel : nat)
    (d d' : PtraceDumper) (k k' : K) (r : res DumperError unit) :
  NoDup (tid <$> threads d) -> threads_suspended d = false -> r <> Panic ->
  suspend_threads fuel (d, k) = (r, (d', k')) ->
  sublist (threads d') (threads d) /\ tids (threads d') ⊆ attached k' /\
  attached k' ∖ tids (threads d) = attached k ∖ tids (threads d) /\ kills k' = kills k /\
  (r = Ok tt <-> threads_suspended d' = true) /\
  (threads d' = [] <-> r = Err (DumperError_SuspendNoThreadsLeft (List.length (threads d)))) /\
  (trace_complies (K := K) -> tids (threads d) ## attached k ->
   attached k' = attached k ∪ tids (threads d')).
Proof.
  intros Hnd Hns Hp. unfold suspend_threads.
  destruct (retain_suspended fuel (threads d) k) as [r0 k0] eqn:E.
  apply retain_ok in E as (H1 & H2 & H3 & H4); [|done].
  destruct r0 as [kept|e|]; [|done|intros [= <- <- <-]; done]. destruct H4 as (Hsub & Hin & Hex).
  destruct kept as [|t kept]; intros [= <- <- <-]; simpl in *.
  - split_and!; try done; rewrite Hns; split; done.
  - split_and!; try done; split; done.
Qed.

(** [resume_threads] detaches every thread of the dumper even when some
    detach fails, never traces anything new, clears the suspended flag in every
    case, and when detaching fails only for threads that are gone it succeeds and
    no thread of the dumper is traced any more; a second call does nothing. *)
Theorem resume_threads_releases {K : Type} `{KO : KernelOk K} (d d' : PtraceDumper) (k k' : K)
    (r : res DumperError unit) :
  threads_suspended d = true -> resume_threads (d, k) = (r, (d', k')) ->
  r <> Panic /\ d' = set_threads_suspended false d /\
  attached k' ⊆ attached k /\ attached k ∖ tids (threads d) ⊆ attached k' /\
  kills k' = kills k /\
  (detach_complies (K := K) -> r = Ok tt /\ attached k' = attached k ∖ tids (threads d)) /\
  resume_threads (d', k') = (Ok tt, (d', k')).
Proof.
  intros Hs. unfold resume_threads. rewrite Hs.
  destruct (resume_loop (threads d) (Ok tt) k) as [r0 k0] eqn:E.
  apply resume_loop_ok in E as (R1 & R2 & R3 & R4 & R5); [|done].
  intros [= <- <- <-]. by split_and!.
Qed.

(** A thread that is there but cannot be continued with the signal it stopped for
    is given up without being detached: the call fails and the thread is still
    traced. *)
Theorem suspend_thread_leaves_traced {K : Type} `{KO : KernelOk K} (A : Arch) (fuel : nat) (p : Pid)
    (k k1 k2 k3 : K) (status : Z) (e : Errno) :
  ptrace_attach p k = (Ok tt, k1) -> waitpid p k1 = (Ok (Stopped status), k2) ->
  status <> SIGSTOP -> ptrace_cont p status k2 = (Err e, k3) -> e <> ESRCH ->
  suspend_thread (S fuel) p k = (Err (DumperError_WaitPidError p e), k3) /\ p ∈ attached k3.
Proof.
  intros Ha Hw Hs Hc He. split.
  - unfold suspend_thread, mbind, ST_bind, st_map_err. rewrite Ha. cbn [wait_loop].
    by rewrite Hw, (proj2 (Z.eqb_neq _ _) Hs), Hc.
  - apply cont_law in Hc as (_ & _ & [-> | [? _]]); [|done]. apply wait_law in Hw as (_ & _ & ->).
    apply attach_law in Ha as (_ & _ & ->). set_solver.
Qed.

(** ** A kernel that always complies *)

Record ToyKernel := mkToy { toy_attached : gset Pid; toy_kills : list (Pid * Z * bool); toy_clock : Z }.

#[export] Instance toy_kernel : Kernel ToyKernel := {|
  ptrace_attach p k := (Ok tt, mkToy ({[p]} ∪ toy_attached k) (toy_kills k) (toy_clock k));
  ptrace_detach_call p k := (Ok tt, mkToy (toy_attached k ∖ {[p]}) (toy_kills k) (toy_clock k));
  ptrace_cont p s k := (Ok tt, k);
  waitpid p k := (Ok (Stopped SIGSTOP), k);
  kill p s k := (Ok tt, mkToy (toy_attached k) (toy_kills k ++ [(p, s, true)]) (toy_clock k));
  proc_stopped f k := (Ok true, k);
  instant_now k := (toy_clock k, k);
  sleep n k := mkToy (toy_attached k) (toy_kills k) (toy_clock k + n);
|}.

#[export] Instance toy_kernel_ok : KernelOk ToyKernel.
Proof.
  refine {| attached := toy_attached; kills := toy_kills |}; simpl; intros; simplify_eq/=; done.
Defined.

Lemma toy_trace_complies : trace_complies (K := ToyKernel).
Proof. split; [intros p k e He|intros p s k e _ He|intros p k k' He]; discriminate He. Qed.

Definition toy_start : ToyKernel := mkToy ∅ [] 0.

(** An architecture without registers, whose threads are never skipped. *)
Definition toy_arch : Arch := {|
  RawContextCPU := unit;
  context_pod := {| Format.size_with := 0; Format.try_into_ctx _ dst := Ok (dst, 0%nat) |};
  default_cpu := tt;
  CrashContext := unit;
  siginfo _ := mkSigInfo 11 1 0;
  cc_get_instruction_pointer _ := 0;
  cc_get_stack_pointer _ := 0;
  cc_fill_cpu_context _ c := Some c;
  ThreadInfo := unit;
  ti_create _ _ := Ok tt;
  ti_stack_pointer _ := 0;
  ti_get_instruction_pointer _ := 0;
  ti_fill_cpu_context _ c := Some c;
  skip_thread _ := false;
  write_cpu_information i := Ok i;
  os_information := (0, []);
|}.

Definition two_threads : PtraceDumper :=
  mkDumper 7 false [mkTask 7 None; mkTask 8 None] default_auxv [] 4096.

Lemma suspend_threads_traces_witness :
  exists r d' k', suspend_threads (A := toy_arch) 1 (two_threads, toy_start) = (r, (d', k')) /\
    attached k' = tids (threads d').
Proof.
  pose (run := suspend_threads (A := toy_arch) 1 (two_threads, toy_start)).
  exists run.1, run.2.1, run.2.2. split; [reflexivity|].
  destruct (@suspend_threads_traces ToyKernel toy_kernel toy_kernel_ok toy_arch 1
    two_threads run.2.1 toy_start run.2.2 run.1
    ltac:(apply (bool_decide_unpack _); vm_compute; exact I) eq_refl
    ltac:(vm_compute; discriminate) eq_refl) as (_ & _ & _ & _ & _ & _ & Hexact).
  rewrite (Hexact toy_trace_complies ltac:(apply (bool_decide_unpack _); vm_compute; exact I)).
  apply (bool_decide_unpack _). vm_compute. exact I.
Defined.

Lemma resume_threads_releases_witness :
  exists r d' k', resume_threads (set_threads_suspended true two_threads,
      mkToy {[7; 8; 9]} [] 0) = (r, (d', k')) /\ attached k' ⊆ {[7; 8; 9]}.
Proof.
  pose (s := (set_threads_suspended true two_threads, mkToy {[7; 8; 9]} [] 0)).
  exists (resume_threads s).1, (resume_threads s).2.1, (resume_threads s).2.2.
  split; [reflexivity|].
  exact (proj1 (proj2 (proj2 (@resume_threads_releases ToyKernel toy_kernel toy_kernel_ok
    s.1 (resume_threads s).2.1 s.2 (resume_threads s).2.2 (resume_threads s).1
    eq_refl eq_refl)))).
Defined.
