(* ===== verification/Config.v ===== *)
(** * The writer's configuration (src/src/linux/minidump_writer.rs, src/src/linux/app_memory.rs)

    The fields of [MinidumpWriter] and its setters.  The stream writers run on
    this record together with the dump buffer. *)
From Stdlib Require Import ZArith.
From S2P Require Import Prelude Format MemWriter DirSection Driver RustStr Errors Os.
From S2P Require Import Auxv Arch.

Inductive CrashingThreadContext :=
  | NoContext
  | CrashContextAt (ctx : MDLocationDescriptor)
  | CrashContextPlusAddress (ctx : MDLocationDescriptor) (addr : Z).

Record AppMemory := mkAppMemory {
  ptr : Z;
  length : Z;
}.

(** [STOP_TIMEOUT], in milliseconds. *)
Definition STOP_TIMEOUT : Z := 100.

Section config.
Context {A : Arch}.

Record MinidumpWriter := mkWriter {
  process_id : Pid;
  blamed_thread : Pid;
  minidump_size_limit : option Z;
  skip_stacks_if_mapping_unreferenced : bool;
  principal_mapping_address : option Z;
  user_mapping_list : list MappingEntry;
  app_memory : list AppMemory;
  memory_blocks : list MDMemoryDescriptor;
  principal_mapping : option MappingInfo;
  sanitize_stack : bool;
  crash_context : option CrashContext;
  crashing_thread_context : CrashingThreadContext;
  stop_timeout : Z;
  direct_auxv_dump_info : option DirectAuxvDumpInfo;
}.

Definition MinidumpWriter_new (process blamed_thread : Pid) : MinidumpWriter :=
  mkWriter process blamed_thread None false None [] [] [] None false None NoContext
    STOP_TIMEOUT None.

Definition set_minidump_size_limit (limit : Z) (c : MinidumpWriter) : MinidumpWriter :=
  let '(mkWriter a b _ d e f g h i j k l m n) := c in
  mkWriter a b (Some limit) d e f g h i j k l m n.

Definition set_user_mapping_list (ms : list MappingEntry) (c : MinidumpWriter) : MinidumpWriter :=
  let '(mkWriter a b c' d e _ g h i j k l m n) := c in
  mkWriter a b c' d e ms g h i j k l m n.

Definition set_principal_mapping_address (x : Z) (c : MinidumpWriter) : MinidumpWriter :=
  let '(mkWriter a b c' d _ f g h i j k l m n) := c in
  mkWriter a b c' d (Some x) f g h i j k l m n.

Definition set_app_memory (ms : list AppMemory) (c : MinidumpWriter) : MinidumpWriter :=
  let '(mkWriter a b c' d e f _ h i j k l m n) := c in
  mkWriter a b c' d e f ms h i j k l m n.

Definition set_crash_context (x : CrashContext) (c : MinidumpWriter) : MinidumpWriter :=
  let '(mkWriter a b c' d e f g h i j _ l m n) := c in
  mkWriter a b c' d e f g h i j (Some x) l m n.

Definition set_skip_stacks (c : MinidumpWriter) : MinidumpWriter :=
  let '(mkWriter a b c' _ e f g h i j k l m n) := c in
  mkWriter a b c' true e f g h i j k l m n.

Definition set_sanitize_stack (c : MinidumpWriter) : MinidumpWriter :=
  let '(mkWriter a b c' d e f g h i _ k l m n) := c in
  mkWriter a b c' d e f g h i true k l m n.

Definition set_stop_timeout (duration : Z) (c : MinidumpWriter) : MinidumpWriter :=
  let '(mkWriter a b c' d e f g h i j k l _ n) := c in
  mkWriter a b c' d e f g h i j k l duration n.

Definition set_direct_auxv_dump_info (x : DirectAuxvDumpInfo) (c : MinidumpWriter)
    : MinidumpWriter :=
  let '(mkWriter a b c' d e f g h i j k l m _) := c in
  mkWriter a b c' d e f g h i j k l m (Some x).

(** The fields the stream writers and [dump] assign. *)
Definition push_memory_block (x : MDMemoryDescriptor) (c : MinidumpWriter) : MinidumpWriter :=
  let '(mkWriter a b c' d e f g h i j k l m n) := c in
  mkWriter a b c' d e f g (h ++ [x]) i j k l m n.

Definition set_crashing_thread_context (x : CrashingThreadContext) (c : MinidumpWriter)
    : MinidumpWriter :=
  let '(mkWriter a b c' d e f g h i j k _ m n) := c in
  mkWriter a b c' d e f g h i j k x m n.

Definition set_principal_mapping (x : option MappingInfo) (c : MinidumpWriter) : MinidumpWriter :=
  let '(mkWriter a b c' d e f g h _ j k l m n) := c in
  mkWriter a b c' d e f g h x j k l m n.

End config.

(** A stream writer: the configuration, the buffer and an error type. *)
Notation Writer E := (ST (MinidumpWriter * Buffer) E).

(** Assigns fields of the configuration. *)
Definition modify_config {A : Arch} {E} (f : MinidumpWriter -> MinidumpWriter) : Writer E unit :=
  st_modify (fun s => (f (fst s), snd s)).

Definition get_config {A : Arch} {E} : Writer E MinidumpWriter :=
  s ← st_get; mret (fst s).

Definition get_position {A : Arch} {E} : Writer E Z :=
  s ← st_get; mret (position (snd s)).

(** A buffer operation with the error conversion of the section. *)
Definition buf {A : Arch} {E T} (conv : MemoryWriterError -> E)
    (m : ST Buffer MemoryWriterError T) : Writer E T :=
  st_map_err conv (on_buf m).

Section frames.
Context {A : Arch}.

Lemma frame_modify_config {E} n f : frame (E := E) n (modify_config f).
Proof. apply frame_modify. Qed.

Lemma frame_get_config {E} n : frame (E := E) n get_config.
Proof. unfold get_config. frame_tac. Qed.

Lemma frame_get_position {E} n : frame (E := E) n get_position.
Proof. unfold get_position. frame_tac. Qed.
End frames.

#[export] Hint Resolve frame_modify_config frame_get_config frame_get_position : mdw.

(** ** What the stream writers leave alone *)

Section unchanged.
Context {A : Arch}.

(** The configuration without the two fields the stream writers assign. *)
Definition core (c : MinidumpWriter) : MinidumpWriter :=
  let '(mkWriter a b c' d e f g _ i j k _ m n) := c in
  mkWriter a b c' d e f g [] i j k NoContext m n.

(** The fields of the configuration can be read off its core. *)
Lemma core_fields c :
  process_id c = process_id (core c) /\ blamed_thread c = blamed_thread (core c) /\
  user_mapping_list c = user_mapping_list (core c) /\ app_memory c = app_memory (core c) /\
  crash_context c = crash_context (core c).
Proof. by destruct c. Qed.

Lemma core_blamed_thread c c' : core c' = core c -> blamed_thread c' = blamed_thread c.
Proof.
  intros Hc. destruct (core_fields c) as (_ & -> & _). destruct (core_fields c') as (_ & -> & _).
  by rewrite Hc.
Qed.

Lemma core_crash_context c c' : core c' = core c -> crash_context c' = crash_context c.
Proof.
  intros Hc. destruct (core_fields c) as (_ & _ & _ & _ & ->).
  destruct (core_fields c') as (_ & _ & _ & _ & ->). by rewrite Hc.
Qed.

Definition same_config : relation (MinidumpWriter * Buffer) := fun s s' => s'.1 = s.1.
Definition same_core : relation (MinidumpWriter * Buffer) := fun s s' => core s'.1 = core s.1.

#[export] Instance same_config_preorder : PreOrder same_config.
Proof. unfold same_config. split; [by intros s|]. by intros s1 s2 s3 -> ->. Qed.

#[export] Instance same_core_preorder : PreOrder same_core.
Proof. unfold same_core. split; [by intros s|]. by intros s1 s2 s3 -> ->. Qed.

Lemma same_config_buf {E T} (m : ST Buffer E T) : st_rel same_config (on_buf m).
Proof. intros [c b]. unfold same_config, on_buf, st_zoom. cbn. by destruct (m b). Qed.

Lemma same_config_core {E T} (m : Writer E T) : st_rel same_config m -> st_rel same_core m.
Proof. intros Hm s. unfold same_core. by rewrite (Hm s). Qed.

Lemma same_core_push {E} x : st_rel same_core (modify_config (E := E) (push_memory_block x)).
Proof. by intros [[] b]. Qed.

Lemma same_core_crashing {E} x : st_rel same_core (modify_config (E := E) (set_crashing_thread_context x)).
Proof. by intros [[] b]. Qed.

(** What a run leaves in the configuration. *)
Lemma same_config_run {E T} (m : Writer E T) c b r c' b' :
  st_rel same_config m -> m (c, b) = (r, (c', b')) -> c' = c.
Proof. intros Hm Hrun. specialize (Hm (c, b)). by rewrite Hrun in Hm. Qed.

Lemma same_core_run {E T} (m : Writer E T) c b r c' b' :
  st_rel same_core m -> m (c, b) = (r, (c', b')) -> core c' = core c.
Proof. intros Hm Hrun. specialize (Hm (c, b)). by rewrite Hrun in Hm. Qed.
End unchanged.

Ltac config_tac :=
  unfold buf, get_config, get_position; rel_tac ltac:(first
    [ apply same_config_buf | apply same_config_core, same_config_buf
    | apply same_core_push | apply same_core_crashing ]).
