(* ===== verification/Streams.v ===== *)
(** * The smaller streams (src/src/linux/sections/)

    [memory_list_stream], [app_memory], [exception_stream], [systeminfo_stream],
    [memory_info_list_stream], [thread_names_stream] and [handle_data_stream],
    each with the fact that it only appends: the part of the buffer that was
    already written keeps its bytes. *)
From Stdlib Require Import ZArith Lia String.
From S2P Require Import Prelude Format Layout MemWriter DirSection Driver RustStr Errors.
From S2P Require Import Os MemReader ModuleReader MapsReader Auxv Arch PtraceDumper.
From S2P Require Import Config.

Local Open Scope Z_scope.

(** Constants of minidump-common (the Windows memory constants). *)
Definition PAGE_NOACCESS : Z := 0x01.
Definition PAGE_READONLY : Z := 0x02.
Definition PAGE_READWRITE : Z := 0x04.
Definition PAGE_EXECUTE : Z := 0x10.
Definition PAGE_EXECUTE_READ : Z := 0x20.
Definition PAGE_EXECUTE_READWRITE : Z := 0x40.
Definition MEM_COMMIT : Z := 0x1000.
Definition MEM_PRIVATE : Z := 0x20000.
Definition MEM_MAPPED : Z := 0x40000.

Section streams.
Context `{TG : Target} {F : Format} {OS : Os} {PF : Procfs} {A : Arch}.

(** ** memory_list_stream *)

Definition memory_list_write : Writer SectionMemListError MDRawDirectory :=
  let buf {T} := buf (T := T) SectionMemListError_MemoryWriterError in
  config ← get_config;
  list_header ← buf (alloc_with_val (U32 (wrap 32 (Z.of_nat (List.length (memory_blocks config))))));
  let dirent := mkDirectory (MemoryListStream stream_types) (mw_location list_header) in
  block_list ← buf (alloc_from_array (memory_blocks config));
  st_lift (extend_dirent dirent (data_size (maw_location block_list))).

(** ** app_memory *)

Definition app_memory_write : Writer SectionAppMemoryError unit :=
  config ← get_config;
  st_for (app_memory config) (fun m =>
    data_copy ← st_lift (map_err SectionAppMemoryError_CopyFromProcessError
                  (copy_from_process (blamed_thread config) (ptr m) (length m)));
    section ← on_buf (write_bytes data_copy);
    modify_config (push_memory_block (mkMemoryDescriptor (ptr m) (maw_location section)))).

(** ** exception_stream *)

Definition exception_record_of (config : MinidumpWriter) : MDException :=
  match crash_context config with
  | Some context =>
      let i := siginfo context in
      mkException (ssi_signo i) (wrap 32 (ssi_code i)) (ssi_addr i) 0 (replicate 15 0)
  | None =>
      let addr := match crashing_thread_context config with
                  | CrashContextPlusAddress _ addr => addr
                  | _ => 0
                  end in
      mkException DUMP_REQUESTED 0 addr 0 (replicate 15 0)
  end.

Definition exception_write : Writer SectionExceptionStreamError MDRawDirectory :=
  let buf {T} := buf (T := T) SectionExceptionStreamError_MemoryWriterError in
  config ← get_config;
  let exception := exception_record_of config in
  let thread_context := match crashing_thread_context config with
                        | CrashContextPlusAddress ctx _ | CrashContextAt ctx => ctx
                        | NoContext => mkLocation 0 0
                        end in
  let stream := mkExceptionStream (wrap 32 (blamed_thread config)) exception 0 thread_context in
  exc ← buf (alloc_with_val stream);
  mret (mkDirectory (ExceptionStream stream_types) (mw_location exc)).

(** ** systeminfo_stream *)

Definition systeminfo_write : Writer SectionSystemInfoError MDRawDirectory :=
  let buf {T} := buf (T := T) SectionSystemInfoError_MemoryWriterError in
  info_section ← buf (alloc MDRawSystemInfo);
  let dirent := mkDirectory (SystemInfoStream stream_types) (mw_location info_section) in
  let '(platform_id, os_version) := os_information in
  os_version_loc ← buf (write_string_to_location os_version);
  let info := mkSystemInfo 0 0 0 0 0 0 0 0 platform_id (rva os_version_loc) (replicate 24 Byte.x00) in
  info ← st_lift (map_err SectionSystemInfoError_CpuInfoError (write_cpu_information info));
  buf (set_value info_section info);;
  mret dirent.

(** ** memory_info_list_stream *)

Definition get_memory_protection (p : MMPermissions) : Z :=
  match READ p, WRITE p, EXECUTE p with
  | false, false, false => PAGE_NOACCESS
  | false, false, true => PAGE_EXECUTE
  | true, false, false => PAGE_READONLY
  | true, false, true => PAGE_EXECUTE_READ
  | _, true, false => PAGE_READWRITE
  | _, true, true => PAGE_EXECUTE_READWRITE
  end.

Definition memory_info_of {E} (mm : MemoryMap) : res E MDMemoryInfo :=
  region_size ← sub_u 64 (snd (address mm)) (fst (address mm));
  Ok (mkMemoryInfo (fst (address mm)) (fst (address mm)) (get_memory_protection (perms mm)) 0
        region_size MEM_COMMIT (get_memory_protection (perms mm))
        (if PRIVATE (perms mm) then MEM_PRIVATE else MEM_MAPPED) 0).

Fixpoint memory_infos {E} (maps : list MemoryMap) : res E (list MDMemoryInfo) :=
  match maps with
  | [] => Ok []
  | mm :: maps' => i ← memory_info_of mm; rest ← memory_infos maps'; Ok (i :: rest)
  end.

Definition memory_info_list_write : Writer SectionMemInfoListError MDRawDirectory :=
  let buf {T} := buf (T := T) SectionMemInfoListError_MemoryWriterError in
  config ← get_config;
  maps ← st_lift (map_err SectionMemInfoListError_ProcfsError
           (os_res (memory_maps_from_file (utf8_encode (proc_path (blamed_thread config) "/maps")))));
  list_header ← buf (alloc_with_val (mkMemoryInfoList (wrap 32 size_of_MDMemoryInfoList)
                       (wrap 32 size_of_MDMemoryInfo) (Z.of_nat (List.length maps))));
  let dirent := mkDirectory (MemoryInfoListStream stream_types) (mw_location list_header) in
  infos ← st_lift (memory_infos maps);
  block_list ← buf (alloc_from_iter infos);
  st_lift (extend_dirent dirent (data_size (maw_location block_list))).

(** ** thread_names_stream *)

(** [i32::try_into::<u32>] *)
Definition try_u32_of {E} (e : E) (x : Z) : res E Z := if 0 <=? x then Ok x else Err e.

Definition named_threads (d : PtraceDumper) : nat :=
  List.length (filter (fun t => is_Some (thread_name t)) (threads d)).

(** The entry of thread [idx] goes to slot [idx] of an array with one slot per
    {e named} thread. *)
Definition thread_names_write (dumper : PtraceDumper)
    : Writer SectionThreadNamesError MDRawDirectory :=
  let buf {T} := buf (T := T) SectionThreadNamesError_MemoryWriterError in
  let num_threads := named_threads dumper in
  list_header ← buf (alloc_with_val (U32 (wrap 32 (Z.of_nat num_threads))));
  let dirent := mkDirectory (ThreadNamesStream stream_types) (mw_location list_header) in
  thread_list ← buf (alloc_array MDRawThreadName num_threads);
  dirent ← st_lift (extend_dirent dirent (data_size (maw_location thread_list)));
  st_for_enum 0 (threads dumper) (fun idx item =>
    match thread_name item with
    | None => mret tt
    | Some name =>
        pos ← buf (write_string_to_location name);
        tid ← st_lift (try_u32_of SectionThreadNamesError_TryFromIntError (tid item));
        buf (set_value_at thread_list (mkThreadName tid (rva pos)) idx)
    end);;
  mret dirent.

(** ** handle_data_stream *)

Definition filename_to_fd (filename : OsString) : option Z :=
  parse_uint 64 10 (to_string_lossy filename).

Definition file_stat (path : OsString) : option Z :=
  match fs_metadata_mode path with inl _ => None | inr mode => Some mode end.

(** [None] skips the entry; a panic of the string writer stays one. *)
Definition direntry_to_descriptor (dir : OsString) (name : OsString)
    : Writer SectionHandleDataStreamError (option MDRawHandleDescriptor) :=
  let path := path_push dir name in
  match filename_to_fd name with
  | None => mret None
  | Some handle =>
      match fs_read_link path with
      | inl _ => mret None
      | inr realpath =>
          r ← st_try (on_buf (write_string_to_location (to_string_lossy realpath)));
          match r with
          | inl _ => mret None
          | inr path_rva =>
              match file_stat path with
              | None => mret None
              | Some st_mode =>
                  mret (Some (mkHandleDescriptor handle 0 (rva path_rva) st_mode 0 0 0))
              end
          end
      end
  end.

Fixpoint collect_descriptors (dir : OsString) (entries : list (option OsString))
    : Writer SectionHandleDataStreamError (list MDRawHandleDescriptor) :=
  match entries with
  | [] => mret []
  | None :: rest => collect_descriptors dir rest
  | Some name :: rest =>
      o ← direntry_to_descriptor dir name;
      ds ← collect_descriptors dir rest;
      mret (match o with Some d => d :: ds | None => ds end)
  end.

Definition handle_data_write : Writer SectionHandleDataStreamError MDRawDirectory :=
  let buf {T} := buf (T := T) SectionHandleDataStreamError_MemoryWriterError in
  config ← get_config;
  let proc_fd_path := utf8_encode (proc_path (process_id config) "/fd") in
  entries ← st_lift (map_err SectionHandleDataStreamError_IOError
              (os_res (fs_read_dir proc_fd_path)));
  descriptors ← collect_descriptors proc_fd_path entries;
  stream_header ← buf (alloc_with_val (mkHandleDataStream (wrap 32 size_of_MDRawHandleDataStream)
    (wrap 32 size_of_MDRawHandleDescriptor) (wrap 32 (Z.of_nat (List.length descriptors))) 0));
  let dirent := mkDirectory (HandleDataStream stream_types) (mw_location stream_header) in
  descriptor_list ← buf (alloc_from_iter descriptors);
  st_lift (extend_dirent dirent (data_size (maw_location descriptor_list))).

(** ** Framing *)

Context {FO : FormatOk F}.

Lemma frame_memory_list n : frame n memory_list_write.
Proof. unfold memory_list_write, buf. cbv zeta. frame_tac. Qed.

Lemma frame_app_memory n : frame n app_memory_write.
Proof. unfold app_memory_write. frame_tac. Qed.

Lemma frame_exception n : frame n exception_write.
Proof. unfold exception_write, buf. cbv zeta. frame_tac. Qed.

Lemma frame_systeminfo n : frame n systeminfo_write.
Proof. unfold systeminfo_write, buf. cbv zeta. frame_tac. Qed.

Lemma frame_memory_info_list n : frame n memory_info_list_write.
Proof. unfold memory_info_list_write, buf. cbv zeta. frame_tac. Qed.

Lemma frame_thread_names dumper n : frame n (thread_names_write dumper).
Proof. unfold thread_names_write, buf. cbv zeta. frame_tac. Qed.

Lemma frame_direntry dir nm n : frame n (direntry_to_descriptor dir nm).
Proof. unfold direntry_to_descriptor. cbv zeta. frame_tac. Qed.
Hint Resolve frame_direntry : mdw.

Lemma frame_collect dir entries n : frame n (collect_descriptors dir entries).
Proof. induction entries as [|[e|] es IH]; cbn [collect_descriptors]; frame_tac. Qed.
Hint Resolve frame_collect : mdw.

Lemma frame_handle_data n : frame n handle_data_write.
Proof. unfold handle_data_write, buf. cbv zeta. frame_tac. Qed.

End streams.

#[export] Hint Resolve frame_memory_list frame_app_memory frame_exception frame_systeminfo
  frame_memory_info_list frame_thread_names frame_handle_data frame_collect : mdw.
