(* ===== verification/ThreadListStream.v ===== *)
(** * The thread list (src/src/linux/sections/thread_list_stream.rs)

    One record per thread, its stack and its registers; the crashing thread is
    taken from the crash context, with the memory around its instruction
    pointer. *)
From Stdlib Require Import ZArith Lia String.
From S2P Require Import Prelude Format Layout MemWriter DirSection Driver RustStr Errors.
From S2P Require Import Os MemReader ModuleReader MapsReader Auxv Arch PtraceDumper.
From S2P Require Import Config Streams.

Local Open Scope Z_scope.

Definition LIMIT_AVERAGE_THREAD_STACK_LENGTH : Z := 8 * 1024.
Definition LIMIT_BASE_THREAD_COUNT : nat := 20.
Definition LIMIT_MAX_EXTRA_THREAD_STACK_LEN : Z := 2 * 1024.
Definition LIMIT_MINIDUMP_FUDGE_FACTOR : Z := 64 * 1024.

Inductive MaxStackLen :=
  | NoMax
  | Len (n : Z).

Definition with_stack (t : MDRawThread) (s : MDMemoryDescriptor) : MDRawThread :=
  mkThread (thread_id t) (suspend_count t) (priority_class t) (priority t) (teb t) s
    (thread_context t).

Definition with_context (t : MDRawThread) (l : MDLocationDescriptor) : MDRawThread :=
  mkThread (thread_id t) (suspend_count t) (priority_class t) (priority t) (teb t) (stack t) l.

(** [u32::try_into::<i32>] *)
Definition try_i32_of {E} (e : E) (x : Z) : res E Z := if x <? 2 ^ 31 then Ok x else Err e.

Section thread_list.
Context `{TG : Target} {F : Format} {OS : Os} {A : Arch}.
(** Bounds the walk over guard pages in [get_stack_info]. *)
Context (fuel : nat).

Notation M := (Writer SectionThreadListError).

Definition buf_tl {T} (m : ST Buffer MemoryWriterError T) : M T :=
  buf SectionThreadListError_MemoryWriterError m.

Definition lift_dumper {T} (r : res DumperError T) : M T :=
  st_lift (map_err SectionThreadListError_CopyFromProcessError r).

(** Whether a stack is left out because it does not refer to the principal
    mapping. *)
Definition stack_skipped (config : MinidumpWriter) (stack_bytes : list byte)
    (stack_pointer_offset instruction_ptr : Z) : res DumperError bool :=
  if skip_stacks_if_mapping_unreferenced config then
    match principal_mapping config with
    | None => Ok true
    | Some m =>
        let low_addr := sys_start_address (system_mapping_info m) in
        let high_addr := sys_end_address (system_mapping_info m) in
        if (instruction_ptr <? low_addr) || (high_addr <? instruction_ptr) then
          b ← stack_has_pointer_to_mapping m stack_bytes stack_pointer_offset;
          Ok (negb b)
        else Ok false
    end
  else Ok false.

(** Returns the thread record as the call leaves it. *)
Definition fill_thread_stack (dumper : PtraceDumper) (thread : MDRawThread)
    (instruction_ptr stack_ptr : Z) (max_stack_len : MaxStackLen) : M MDRawThread :=
  config ← get_config;
  pos ← get_position;
  let thread := with_stack thread (mkMemoryDescriptor stack_ptr (mkLocation 0 (wrap 32 pos))) in
  info ← lift_dumper (res_ok (get_stack_info fuel dumper stack_ptr));
  match info with
  | None => mret thread
  | Some (valid_stack_ptr, stack_len) =>
      let stack_len := match max_stack_len with
                       | Len max_stack_len => Z.min stack_len max_stack_len
                       | NoMax => stack_len
                       end in
      child ← st_lift (try_i32_of SectionThreadListError_TryFromIntError (thread_id thread));
      stack_bytes ← lift_dumper (copy_from_process child valid_stack_ptr stack_len);
      let stack_pointer_offset := saturating_sub stack_ptr valid_stack_ptr in
      skipped ← lift_dumper (stack_skipped config stack_bytes stack_pointer_offset instruction_ptr);
      if skipped : bool then mret thread else
      stack_bytes ← lift_dumper
        (if sanitize_stack config
         then sanitize_stack_copy dumper stack_bytes stack_ptr stack_pointer_offset
         else Ok stack_bytes);
      pos ← get_position;
      let stack_location :=
        mkLocation (wrap 32 (Z.of_nat (List.length stack_bytes))) (wrap 32 pos) in
      on_buf (write_all stack_bytes);;
      let thread := with_stack thread (mkMemoryDescriptor valid_stack_ptr stack_location) in
      modify_config (push_memory_block (stack thread));;
      mret thread
  end.

(** Up to 128 bytes on each side of the instruction pointer, from the first
    mapping that contains it. *)
Fixpoint ip_memory (instruction_ptr : Z) (tid : Z) (ms : list MappingInfo) : M unit :=
  let ip_memory_size := 256 in
  match ms with
  | [] => mret tt
  | mapping :: ms' =>
      outside ← st_lift (if instruction_ptr <? start_address mapping then Ok true
                         else e ← add_u usize_bits (start_address mapping) (size mapping);
                              Ok (e <=? instruction_ptr));
      if outside : bool then ip_memory instruction_ptr tid ms' else
      low ← st_lift (sub_u usize_bits instruction_ptr (ip_memory_size / 2));
      let start := Z.max (start_address mapping) low in
      e ← st_lift (add_u usize_bits (start_address mapping) (size mapping));
      high ← st_lift (add_u usize_bits instruction_ptr (ip_memory_size / 2));
      let end_of_range := Z.min e high in
      len ← st_lift (sub_u 64 end_of_range start);
      memory_copy ← lift_dumper (copy_from_process (swrap 32 tid)
                       (wrap usize_bits start) (wrap 32 len));
      mem_section ← buf_tl (alloc_from_array (U8 <$> memory_copy));
      modify_config (push_memory_block (mkMemoryDescriptor start (maw_location mem_section)))
  end.

(** The record of the thread the crash context describes. *)
Definition write_crashed_thread (dumper : PtraceDumper) (thread : MDRawThread)
    (context : CrashContext) : M MDRawThread :=
  let instruction_ptr := cc_get_instruction_pointer context in
  let stack_pointer := cc_get_stack_pointer context in
  thread ← fill_thread_stack dumper thread instruction_ptr stack_pointer NoMax;
  ip_memory instruction_ptr (thread_id thread) (mappings dumper);;
  cpu ← st_lift (or_panic (cc_fill_cpu_context context default_cpu));
  cpu_section ← buf_tl (alloc_with_val cpu);
  let thread := with_context thread (mw_location cpu_section) in
  modify_config (set_crashing_thread_context (CrashContextAt (mw_location cpu_section)));;
  mret thread.

(** The record of a thread whose registers are read from the kernel. *)
Definition write_live_thread (dumper : PtraceDumper) (extra_thread_stack_len : MaxStackLen)
    (idx : nat) (item : Thread) (thread : MDRawThread) : M MDRawThread :=
  config ← get_config;
  info ← st_lift (map_err SectionThreadListError_ThreadInfoError
            (get_thread_info_by_index dumper idx));
  let max_stack_len :=
    if bool_decide (is_Some (minidump_size_limit config)) &&
       bool_decide (LIMIT_BASE_THREAD_COUNT <= idx)%nat
    then extra_thread_stack_len else NoMax in
  let instruction_ptr := ti_get_instruction_pointer info in
  thread ← fill_thread_stack dumper thread instruction_ptr (ti_stack_pointer info) max_stack_len;
  cpu ← st_lift (or_panic (ti_fill_cpu_context info default_cpu));
  cpu_section ← buf_tl (alloc_with_val cpu);
  let thread := with_context thread (mw_location cpu_section) in
  (if tid item =? blamed_thread config then
     modify_config (set_crashing_thread_context
       (CrashContextPlusAddress (mw_location cpu_section) instruction_ptr))
   else mret tt);;
  mret thread.

Definition write_thread (dumper : PtraceDumper) (extra_thread_stack_len : MaxStackLen)
    (thread_list : MemoryArrayWriter MDRawThread) (idx : nat) (item : Thread) : M unit :=
  config ← get_config;
  tid ← st_lift (try_u32_of SectionThreadListError_TryFromIntError (tid item));
  let thread := mkThread tid 0 0 0 0 default_memory default_location in
  thread ←
    match crash_context config with
    | Some context =>
        if thread_id thread =? wrap 32 (blamed_thread config)
        then write_crashed_thread dumper thread context
        else write_live_thread dumper extra_thread_stack_len idx item thread
    | None => write_live_thread dumper extra_thread_stack_len idx item thread
    end;
  buf_tl (set_value_at thread_list thread idx).

(** The stack limit for the threads beyond the first ones. *)
Definition extra_stack_len (config : MinidumpWriter) (num_threads : nat) (curr_pos : Z)
    : res SectionThreadListError MaxStackLen :=
  match minidump_size_limit config with
  | None => Ok NoMax
  | Some limit =>
      estimated_total_stack_size ←
        mul_u usize_bits (Z.of_nat num_threads) LIMIT_AVERAGE_THREAD_STACK_LENGTH;
      a ← add_u 64 curr_pos estimated_total_stack_size;
      estimated_minidump_size ← add_u 64 a LIMIT_MINIDUMP_FUDGE_FACTOR;
      Ok (if limit <? estimated_minidump_size
          then Len LIMIT_MAX_EXTRA_THREAD_STACK_LEN else NoMax)
  end.

Definition thread_list_write (dumper : PtraceDumper) : M MDRawDirectory :=
  let num_threads := List.length (threads dumper) in
  list_header ← buf_tl (alloc_with_val (U32 (wrap 32 (Z.of_nat num_threads))));
  let dirent := mkDirectory (ThreadListStream stream_types) (mw_location list_header) in
  thread_list ← buf_tl (alloc_array MDRawThread num_threads);
  dirent ← st_lift (extend_dirent dirent (data_size (maw_location thread_list)));
  config ← get_config;
  curr_pos ← get_position;
  extra_thread_stack_len ← st_lift (extra_stack_len config num_threads curr_pos);
  st_for_enum 0 (threads dumper) (fun idx item =>
    write_thread dumper extra_thread_stack_len thread_list idx item);;
  mret dirent.

(** ** Framing *)

Context {FO : FormatOk F} {AO : ArchOk A}.

Lemma frame_fill_thread_stack dumper thread ip sp m n :
  frame n (fill_thread_stack dumper thread ip sp m).
Proof. unfold fill_thread_stack, lift_dumper. cbv zeta. frame_tac. Qed.
Hint Resolve frame_fill_thread_stack : mdw.

Lemma frame_ip_memory ip t ms n : frame n (ip_memory ip t ms).
Proof.
  induction ms as [|m ms IH]; cbn [ip_memory]; unfold lift_dumper, buf_tl, buf; cbv zeta; frame_tac.
Qed.
Hint Resolve frame_ip_memory : mdw.

Lemma frame_crashed dumper thread c n : frame n (write_crashed_thread dumper thread c).
Proof. unfold write_crashed_thread, buf_tl, buf. cbv zeta. frame_tac. Qed.

Lemma frame_live dumper e idx item thread n : frame n (write_live_thread dumper e idx item thread).
Proof. unfold write_live_thread, buf_tl, buf. cbv zeta. frame_tac. Qed.
Hint Resolve frame_crashed frame_live : mdw.

Lemma frame_write_thread dumper e tl idx item n :
  (n <= Z.to_nat (maw_position tl))%nat -> frame n (write_thread dumper e tl idx item).
Proof. intros. unfold write_thread, buf_tl, buf. cbv zeta. frame_tac. Qed.
Hint Resolve frame_write_thread : mdw.

Lemma frame_write_thread_grows dumper e tl idx item : frame 0 (write_thread dumper e tl idx item).
Proof. apply frame_write_thread. lia. Qed.

Lemma frame_thread_list dumper n : frame n (thread_list_write dumper).
Proof. unfold thread_list_write, buf_tl, buf. cbv zeta. frame_tac. Qed.

End thread_list.

#[export] Hint Resolve frame_thread_list frame_write_thread_grows : mdw.
