(* ===== verification/MappingsStream.v ===== *)
(** * The module list (src/src/linux/sections/mappings.rs)

    One module record per interesting mapping with a build id, and one per
    mapping the caller supplied. *)
From Stdlib Require Import ZArith Lia String.
From S2P Require Import Prelude Format Layout MemWriter DirSection Driver RustStr Errors.
From S2P Require Import Os MemReader ModuleReader MapsReader Auxv Arch PtraceDumper.
From S2P Require Import Config Streams.

Local Open Scope Z_scope.

Section mappings.
Context `{TG : Target} {F : Format} {OS : Os} {G : Goblin} {A : Arch}.

Notation M := (Writer SectionMappingsError).

Definition buf_map {T} (m : ST Buffer MemoryWriterError T) : M T :=
  buf SectionMappingsError_MemoryWriterError m.

Definition version_info_of (v : option SoVersion) : VS_FIXEDFILEINFO :=
  match v with
  | None => default_fixed_file_info
  | Some sov => mkFixedFileInfo VS_FFI_SIGNATURE VS_FFI_STRUCVERSION (major sov) (minor sov)
                  (patch sov) (prerelease sov)
  end.

Definition fill_raw_module (mapping : MappingInfo) (identifier : list byte)
    (soname : option RString) : M MDRawModule :=
  cv_record ←
    match identifier with
    | [] => mret default_location
    | _ =>
        let sig := le_split 4 CvSignature_Elf ++ identifier in
        sig_section ← buf_map (alloc_array u8 (List.length sig));
        st_for_enum 0 sig (fun index val => buf_map (set_value_at sig_section (U8 val) index));;
        mret (maw_location sig_section)
    end;
  effective ← st_lift (map_err (SectionMappingsError_GetEffectivePathError mapping)
                (get_mapping_effective_path_name_and_version mapping soname));
  let '(file_path, _, so_version) := effective in
  name_header ← buf_map (write_string_to_location (to_string_lossy file_path));
  mret (mkModule (start_address mapping) (wrap 32 (size mapping)) cv_record (rva name_header)
          (version_info_of so_version)).

(** The build id from the memory of the process, else from the mapped file when
    it exists, else nothing. *)
Definition mapping_build_id {E} (dumper : PtraceDumper) (map_idx : nat) (m : MappingInfo)
    : res E (list byte) :=
  match from_process_memory_for_index BuildId_read_from_module dumper map_idx with
  | Ok id => Ok id
  | Panic => Panic
  | Err _ =>
      match name m with
      | None => Ok []
      | Some path =>
          if fs_exists path then
            match read_from_file BuildId_read_from_module path with
            | Ok id => Ok id
            | Err _ => Ok []
            | Panic => Panic
            end
          else Ok []
      end
  end.

Definition all_zero (identifier : list byte) : bool :=
  forallb (fun x => bool_decide (x = Byte.x00)) identifier.

(** The turn of the loop for one mapping: its module, unless it is skipped. *)
Definition module_of_mapping (dumper : PtraceDumper) (user_list : list MappingEntry)
    (map_idx : nat) (m : MappingInfo) : M (option MDRawModule) :=
  skip ← st_lift (if negb (is_interesting m) then Ok true else is_contained_in m user_list);
  if skip : bool then mret None else
  identifier ← st_lift (mapping_build_id dumper map_idx m);
  if bool_decide (identifier = []) || all_zero identifier then mret None else
  soname ← st_lift (res_ok (from_process_memory_for_index SoName_read_from_module dumper map_idx));
  module ← fill_raw_module m identifier soname;
  mret (Some module).

Fixpoint modules_of_mappings (dumper : PtraceDumper) (user_list : list MappingEntry)
    (map_idx : nat) (ms : list MappingInfo) : M (list MDRawModule) :=
  match ms with
  | [] => mret []
  | m :: ms' =>
      o ← module_of_mapping dumper user_list map_idx m;
      rest ← modules_of_mappings dumper user_list (S map_idx) ms';
      mret (match o with Some module => module :: rest | None => rest end)
  end.

Fixpoint user_modules (users : list MappingEntry) : M (list MDRawModule) :=
  match users with
  | [] => mret []
  | user :: users' =>
      module ← fill_raw_module (mapping user) (identifier user) None;
      rest ← user_modules users';
      mret (module :: rest)
  end.

Definition mappings_write (dumper : PtraceDumper) : M MDRawDirectory :=
  config ← get_config;
  found ← modules_of_mappings dumper (user_mapping_list config) 0 (mappings dumper);
  supplied ← user_modules (user_mapping_list config);
  let modules := found ++ supplied in
  list_header ← buf_map (alloc_with_val (U32 (wrap 32 (Z.of_nat (List.length modules)))));
  let dirent := mkDirectory (ModuleListStream stream_types) (mw_location list_header) in
  match modules with
  | [] => mret dirent
  | _ =>
      mapping_list ← buf_map (alloc_from_iter modules);
      st_lift (extend_dirent dirent (data_size (maw_location mapping_list)))
  end.

(** ** Framing *)

Context {FO : FormatOk F}.

Lemma frame_fill_raw_module m i s n : frame n (fill_raw_module m i s).
Proof. unfold fill_raw_module, buf_map, buf. cbv zeta. frame_tac. Qed.
Hint Resolve frame_fill_raw_module : mdw.

Lemma frame_module_of_mapping d u i m n : frame n (module_of_mapping d u i m).
Proof. unfold module_of_mapping. frame_tac. Qed.
Hint Resolve frame_module_of_mapping : mdw.

Lemma frame_modules_of_mappings d u ms n : forall i, frame n (modules_of_mappings d u i ms).
Proof. induction ms as [|m ms IH]; intros i; cbn [modules_of_mappings]; frame_tac. Qed.

Lemma frame_user_modules us n : frame n (user_modules us).
Proof. induction us as [|u us IH]; cbn [user_modules]; frame_tac. Qed.
Hint Resolve frame_modules_of_mappings frame_user_modules : mdw.

Lemma frame_mappings dumper n : frame n (mappings_write dumper).
Proof. unfold mappings_write, buf_map, buf. cbv zeta. frame_tac. Qed.

End mappings.

#[export] Hint Resolve frame_mappings frame_modules_of_mappings frame_user_modules : mdw.
