(* ===== verification/DsoDebug.v ===== *)
(** * The loaded shared objects (src/src/linux/dso_debug.rs)

    The dynamic linker's list of loaded objects, read through the program
    headers of the target.  The records [LinkMap] and [RDebug] are decoded from
    the bytes of the target with the C layout of the target's word size (block
    copies are taken to be aligned for them, as the source asserts).  The two
    loops that follow data of the target take at most [fuel] turns. *)
From Stdlib Require Import ZArith Lia String.
From S2P Require Import Prelude Format Layout MemWriter DirSection RustStr Errors.
From S2P Require Import Os MemReader ModuleReader Auxv.

Local Open Scope Z_scope.

Record LinkMap := mkLinkMap {
  l_addr : Z;
  l_name : Z;
  l_ld : Z;
  l_next : Z;
  l_prev : Z;
}.

Record RDebug := mkRDebug {
  r_version : Z;
  r_map : Z;
  r_brk : Z;
  r_state : Z;
  r_ldbase : Z;
}.

Section dso_debug.
Context `{TG : Target} {F : Format} {OS : Os} {G : Goblin}.
Context (fuel : nat).

Notation M := (ST Buffer SectionDsoDebugError).

(** The [i]-th word of a C record. *)
Definition word_at (i : nat) (l : list byte) : Z :=
  le_combine (bytes_at (i * size_of_usize) size_of_usize l).

(** [body[0]] of [align_to]: a panic when the copy is shorter than the record. *)
Definition link_map_of (l : list byte) : option LinkMap :=
  if decide (5 * size_of_usize <= List.length l)%nat
  then Some (mkLinkMap (word_at 0 l) (word_at 1 l) (word_at 2 l) (word_at 3 l) (word_at 4 l))
  else None.

Definition r_debug_of (l : list byte) : option RDebug :=
  if decide (5 * size_of_usize <= List.length l)%nat
  then Some (mkRDebug (le_combine (bytes_at 0 4 l)) (word_at 1 l) (word_at 2 l)
               (le_combine (bytes_at (3 * size_of_usize) 4 l)) (word_at 4 l))
  else None.

Definition copy (pid : Pid) (src len : Z) : res SectionDsoDebugError (list byte) :=
  map_err SectionDsoDebugError_CopyFromProcessError (copy_from_process pid src len).

Definition buf_dso {T} (m : ST Buffer MemoryWriterError T) : M T :=
  st_map_err SectionDsoDebugError_MemoryWriterError m.

(** The loop over the program headers: the base address and the address of the
    dynamic section. *)
Fixpoint scan_phdrs {E} (phs : list ProgramHeader) (base dyn_addr : Z) : res E (Z * Z) :=
  match phs with
  | [] => Ok (base, dyn_addr)
  | ph :: phs' =>
      base ← (if (p_type ph =? PT_LOAD) && (p_offset ph =? 0)
              then sub_u usize_bits base (wrap usize_bits (p_vaddr ph)) else Ok base);
      scan_phdrs phs' base (if p_type ph =? PT_DYNAMIC then p_vaddr ph else dyn_addr)
  end.

(** The loop over the dynamic section: [r_debug] and its length. *)
Fixpoint scan_dynamic (fuel : nat) (pid : Pid) (dyn_addr r_debug dynamic_length : Z)
    : res SectionDsoDebugError (Z * Z) :=
  match fuel with
  | O => Panic
  | S fuel' =>
      a ← add_u usize_bits dyn_addr dynamic_length;
      dyn_data ← copy pid a size_of_Dyn;
      dynamic_length ← add_u usize_bits dynamic_length size_of_Dyn;
      dyn_struct ← or_panic (dyn_from_raw dyn_data);
      if d_tag dyn_struct =? DT_DEBUG then
        scan_dynamic fuel' pid dyn_addr (wrap usize_bits (d_val dyn_struct)) dynamic_length
      else if d_tag dyn_struct =? DT_NULL then Ok (r_debug, dynamic_length)
      else scan_dynamic fuel' pid dyn_addr r_debug dynamic_length
  end.

(** The loop over the linked list of loaded objects, for at most [fuel] turns: the
    objects found so far and the address it has come to, which is 0 when the loop
    has ended. *)
Fixpoint link_walk (fuel : nat) (pid : Pid) (curr_map : Z)
    : res SectionDsoDebugError (list LinkMap * Z) :=
  if curr_map =? 0 then Ok ([], 0)
  else
    match fuel with
    | O => Ok ([], curr_map)
    | S fuel' =>
        data ← copy pid curr_map (Z.of_nat (5 * size_of_usize));
        map ← or_panic (link_map_of data);
        found ← link_walk fuel' pid (l_next map);
        let '(rest, last) := found in Ok (map :: rest, last)
    end.

(** The loaded objects, when the loop ends within [fuel] turns. *)
Definition link_maps (fuel : nat) (pid : Pid) (curr_map : Z)
    : res SectionDsoDebugError (list LinkMap) :=
  found ← link_walk fuel pid curr_map;
  let '(dso_vec, last) := found in
  if last =? 0 then Ok dso_vec else Panic.

(** The name of an object: up to 256 bytes, cut at the first NUL. *)
Definition dso_filename (pid : Pid) (map : LinkMap) : res SectionDsoDebugError RString :=
  if 0 <? l_name map then
    data ← copy pid (l_name map) 256;
    let name := match until_nul data with Some n => n | None => data end in
    ok_or (from_utf8 name) SectionDsoDebugError_FromUTF8Error
  else Ok [].

Definition write_link_maps (pid : Pid) (dso_vec : list LinkMap) : M Z :=
  match dso_vec with
  | [] => mret (2 ^ 32 - 1)
  | _ =>
      linkmap ← buf_dso (alloc_array MDRawLinkMap (List.length dso_vec));
      st_for_enum 0 dso_vec (fun idx map =>
        filename ← st_lift (dso_filename pid map);
        location ← buf_dso (write_string_to_location filename);
        buf_dso (set_value_at linkmap (mkRawLinkMap (l_addr map) (rva location) (l_ld map)) idx));;
      mret (rva (maw_location linkmap))
  end.

(** What the target's memory says, before anything is written: the address and
    length of the dynamic section, the debug record and the loaded objects. *)
Definition read_dso (blamed_thread : Pid) (auxv : AuxvDumpInfo)
    : res SectionDsoDebugError (Z * Z * RDebug * list LinkMap) :=
  phnum_max ← ok_or (get_program_header_count auxv)
                (SectionDsoDebugError_CouldNotFind (str_of "AT_PHNUM in auxv"));
  phdr ← ok_or (get_program_header_address auxv)
           (SectionDsoDebugError_CouldNotFind (str_of "AT_PHDR in auxv"));
  len ← mul_u usize_bits SIZEOF_PHDR phnum_max;
  ph ← copy blamed_thread phdr len;
  program_headers ← or_panic (phdrs_from_bytes ph phnum_max);
  found ← scan_phdrs program_headers (Z.land phdr (usize_max - 0xfff)) 0;
  let '(base, dyn_addr) := found in
  if dyn_addr =? 0 then
    Err (SectionDsoDebugError_CouldNotFind (str_of "dyn_addr in program headers"))
  else
    dyn_addr ← add_u usize_bits dyn_addr base;
    dyn ← scan_dynamic fuel blamed_thread dyn_addr 0 0;
    let '(r_debug, dynamic_length) := dyn in
    debug_entry_data ← copy blamed_thread r_debug (Z.of_nat (5 * size_of_usize));
    debug_entry ← or_panic (r_debug_of debug_entry_data);
    dso_vec ← link_maps fuel blamed_thread (r_map debug_entry);
    Ok (dyn_addr, dynamic_length, debug_entry, dso_vec).

Definition write_dso_debug_stream (blamed_thread : Pid) (auxv : AuxvDumpInfo)
    : M MDRawDirectory :=
  found ← st_lift (read_dso blamed_thread auxv);
  let '(dyn_addr, dynamic_length, debug_entry, dso_vec) := found in
  linkmap_rva ← write_link_maps blamed_thread dso_vec;
  let debug := mkRawDebug (wrap 32 (r_version debug_entry)) linkmap_rva
                 (wrap 32 (Z.of_nat (List.length dso_vec))) (r_brk debug_entry)
                 (r_ldbase debug_entry) dyn_addr in
  debug_loc ← buf_dso (alloc_with_val debug);
  let dirent := mkDirectory (LinuxDsoDebug stream_types) (mw_location debug_loc) in
  size ← st_lift (add_u 32 (data_size (location dirent)) (wrap 32 dynamic_length));
  let dirent := mkDirectory (stream_type dirent) (mkLocation size (rva (location dirent))) in
  dso_debug_data ← st_lift (copy blamed_thread dyn_addr dynamic_length);
  _ ← write_bytes dso_debug_data;
  mret dirent.

(** ** Framing *)

Context {FO : FormatOk F}.

Lemma frame_write_link_maps pid v n : frame n (write_link_maps pid v).
Proof. unfold write_link_maps, buf_dso. frame_tac. Qed.
Hint Resolve frame_write_link_maps : mdw.

Lemma frame_dso_debug pid auxv n : frame n (write_dso_debug_stream pid auxv).
Proof. unfold write_dso_debug_stream, buf_dso. frame_tac. Qed.

End dso_debug.

#[export] Hint Resolve frame_dso_debug frame_write_link_maps : mdw.
