(* ===== verification/DsoSpec.v ===== *)
(** * The loaded objects of a process

    What [write_dso_debug_stream] (src/src/linux/dso_debug.rs) makes of a process
    with a dynamic linker: the program headers, the dynamic section, the debug
    record and the linked list of loaded objects as they lie in the memory of the
    process, and the stream that describes them. *)
From Stdlib Require Import ZArith Lia String.
From S2P Require Import Prelude Format Layout MemWriter DirSection Driver DumpPlan Slots Ensures.
From S2P Require Import RustStr Text Errors Os MemReader ModuleReader ElfLayout Auxv DsoDebug.

Local Open Scope Z_scope.
Local Notation length := List.length.

Section layout.
Context `{TG : Target} {G : Goblin} (mem : Memory).

(** The C record at [p]. *)
Definition link_map_at (p : Z) (m : LinkMap) : Prop :=
  exists bs, mem_bytes mem p (5 * size_of_usize) = Some bs /\ link_map_of bs = Some m.

(** The objects [ms] linked from [p] to [q]. *)
Fixpoint link_seg (p : Z) (ms : list LinkMap) (q : Z) : Prop :=
  match ms with
  | [] => p = q
  | m :: ms' => p <> 0 /\ link_map_at p m /\ link_seg (l_next m) ms' q
  end.

(** The dynamic section at [a]: entries up to the first one tagged [DT_NULL]. *)
Fixpoint dynamic_at (a : Z) (ds : list Dyn) : Prop :=
  match ds with
  | [] => False
  | d :: ds' =>
      (exists bs, mem_bytes mem a (Z.to_nat size_of_Dyn) = Some bs /\ dyn_from_raw bs = Some d) /\
      (if d_tag d =? DT_NULL then ds' = [] else dynamic_at (a + size_of_Dyn) ds')
  end.

Definition is_tag (t : Z) (d : Dyn) : Prop := d_tag d = t.
#[export] Instance is_tag_dec t d : Decision (is_tag t d).
Proof. unfold is_tag. apply _. Defined.

Definition first_load (ph : ProgramHeader) : Prop := p_type ph = PT_LOAD /\ p_offset ph = 0.
Definition dynamic_segment (ph : ProgramHeader) : Prop := p_type ph = PT_DYNAMIC.
#[export] Instance first_load_dec ph : Decision (first_load ph).
Proof. unfold first_load. apply _. Defined.
#[export] Instance dynamic_segment_dec ph : Decision (dynamic_segment ph).
Proof. unfold dynamic_segment. apply _. Defined.

(** A program loaded at [bias]: its headers [phs] are announced by the auxiliary
    vector and start in the first page of the file, and the dynamic section [ds]
    leads to the debug record [rd]. *)
Record linked_process (auxv : AuxvDumpInfo) (bias : Z) (load dyn : ProgramHeader) (ds : list Dyn)
    (debug : Dyn) (rd : RDebug) : Prop := {
  lp_headers : exists n phdr bs phs,
    get_program_header_count auxv = Some n /\ get_program_header_address auxv = Some phdr /\
    0 < SIZEOF_PHDR * n < 2 ^ (usize_bits - 1) /\
    mem_bytes mem phdr (Z.to_nat (SIZEOF_PHDR * n)) = Some bs /\
    phdrs_from_bytes bs n = Some phs /\
    filter first_load phs = [load] /\ filter dynamic_segment phs = [dyn] /\
    Z.land phdr (usize_max - 0xfff) = bias + p_vaddr load;
  lp_load : 0 <= bias /\ 0 <= p_vaddr load /\ bias + p_vaddr load < 2 ^ usize_bits;
  lp_dynamic : 0 < p_vaddr dyn /\
    bias + p_vaddr dyn + size_of_Dyn * Z.of_nat (length ds) < 2 ^ usize_bits;
  lp_section : dynamic_at (bias + p_vaddr dyn) ds;
  lp_length : size_of_Dyn * Z.of_nat (length ds) < 2 ^ (usize_bits - 1);
  lp_debug : filter (is_tag DT_DEBUG) ds = [debug] /\ in_bits usize_bits (d_val debug);
  lp_r_debug : exists bs, mem_bytes mem (d_val debug) (5 * size_of_usize) = Some bs /\
    r_debug_of bs = Some rd;
}.
End layout.

(** ** Reading *)

Section reading.
Context `{TG : Target} {OS : Os} {G : Goblin} (pid : Pid) (mem : Memory).
Context {MM : MemoryMapped OS pid mem} (Hdyn : 0 < size_of_Dyn < 2 ^ (usize_bits - 1)).

Lemma copy_ok src len bs :
  0 < len < 2 ^ (usize_bits - 1) -> mem_bytes mem src (Z.to_nat len) = Some bs ->
  copy pid src len = Ok bs.
Proof. intros Hl Hm. unfold copy. by rewrite (copy_mapped pid mem _ _ bs). Qed.

Lemma words_fit : 0 < Z.of_nat (5 * size_of_usize) < 2 ^ (usize_bits - 1).
Proof. unfold size_of_usize, usize_bits. destruct pointer_width; cbn; lia. Qed.

Lemma link_map_read p m : link_map_at mem p m ->
  exists data, copy pid p (Z.of_nat (5 * size_of_usize)) = Ok data /\ link_map_of data = Some m.
Proof.
  intros (bs & Hm & Hl). exists bs. split; [|done].
  apply copy_ok; [apply words_fit|by rewrite Nat2Z.id].
Qed.

(** One turn of the walk. *)
Lemma link_walk_step fuel p m : p <> 0 -> link_map_at mem p m ->
  link_walk (S fuel) pid p =
    found ← link_walk fuel pid (l_next m); let '(rest, last) := found in Ok (m :: rest, last).
Proof.
  intros Hp Hm. cbn [link_walk]. rewrite (proj2 (Z.eqb_neq p 0) Hp).
  apply link_map_read in Hm as (data & -> & Hl). cbn [mbind res_bind]. by rewrite Hl.
Qed.

(** Walking along a segment takes one turn per object. *)
Lemma link_walk_seg ms : forall fuel p q,
  link_seg mem p ms q ->
  link_walk (fuel + length ms) pid p =
    found ← link_walk fuel pid q; let '(rest, last) := found in Ok (ms ++ rest, last).
Proof.
  induction ms as [|m ms IH]; intros fuel p q Hseg.
  - cbn in Hseg. subst q. rewrite Nat.add_0_r. by destruct (link_walk _ _ _) as [[]| |].
  - destruct Hseg as (Hp & Hm & Hseg). cbn [length]. rewrite Nat.add_succ_r.
    rewrite (link_walk_step _ _ m) by done. rewrite (IH fuel _ _ Hseg).
    by destruct (link_walk fuel pid q) as [[]| |].
Qed.

Lemma link_maps_complete ms fuel p :
  link_seg mem p ms 0 -> (length ms < fuel)%nat -> link_maps fuel pid p = Ok ms.
Proof.
  intros Hseg Hf. unfold link_maps. replace fuel with ((fuel - length ms) + length ms)%nat by lia.
  rewrite (link_walk_seg ms _ _ _ Hseg). destruct (fuel - length ms)%nat; cbn; by rewrite app_nil_r.
Qed.

(** A list that runs into a cycle: some objects [lead], then the objects [cycle]
    of which the last points to the first. *)
Definition link_cycle (p : Z) (lead cycle : list LinkMap) : Prop :=
  exists q, link_seg mem p lead q /\ cycle <> [] /\ link_seg mem q cycle q.

(** Such a list is walked for ever, always through the same objects. *)
Lemma link_walk_cycle p lead cycle : link_cycle p lead cycle -> forall fuel,
  exists ms last, link_walk fuel pid p = Ok (ms, last) /\ length ms = fuel /\ last <> 0 /\
    ms ⊆ lead ++ cycle.
Proof.
  intros (q & Hlead & Hne & Hcyc) fuel.
  assert (Hgen : forall l p, l ⊆ lead ++ cycle -> link_seg mem p l q ->
    exists ms last, link_walk fuel pid p = Ok (ms, last) /\ length ms = fuel /\ last <> 0 /\
      ms ⊆ lead ++ cycle); [|apply (Hgen lead); [set_solver|done]].
  assert (Hstart : forall l p, l ⊆ lead ++ cycle -> link_seg mem p l q ->
    exists m l', p <> 0 /\ link_map_at mem p m /\ m ∈ lead ++ cycle /\ l' ⊆ lead ++ cycle /\
      link_seg mem (l_next m) l' q).
  { intros [|m l] p1 Hl Hseg; cbn in Hseg.
    - subst p1. destruct cycle as [|m l]; [done|]. destruct Hcyc as (? & ? & ?).
      exists m, l. split_and!; try done; set_solver.
    - destruct Hseg as (? & ? & ?). exists m, l. split_and!; try done; set_solver. }
  clear Hlead. induction fuel as [|fuel IH]; intros l p1 Hl Hseg;
    destruct (Hstart l p1 Hl Hseg) as (m & l' & Hp & Hm & Hin & Hl' & Hseg').
  - exists [], p1. cbn. rewrite (proj2 (Z.eqb_neq p1 0) Hp). split_and!; try done. set_solver.
  - destruct (IH l' _ Hl' Hseg') as (ms & last & Hw & Hlen & Hlast & Hms).
    exists (m :: ms), last. rewrite (link_walk_step _ _ m), Hw by done. cbn [length].
    split_and!; [done|lia|done|set_solver].
Qed.

(** The scan takes the segments that start the file off the base, and keeps the
    address of the last dynamic segment. *)
Lemma scan_phdrs_run {E} phs : forall b d,
  let sum := foldr Z.add 0 (p_vaddr <$> filter first_load phs) in
  Forall (fun ph => 0 <= p_vaddr ph) (filter first_load phs) -> sum <= b < 2 ^ usize_bits ->
  scan_phdrs (E := E) phs b d =
    Ok (b - sum, default d (last (p_vaddr <$> filter dynamic_segment phs))).
Proof.
  assert (Hne : PT_LOAD <> PT_DYNAMIC) by done.
  induction phs as [|ph phs IH]; intros b d; cbn [scan_phdrs].
  { intros _ _. cbn. by rewrite Z.sub_0_r. }
  rewrite !filter_cons.
  destruct (decide (first_load ph)) as [[Ht Ho]|Hn]; destruct (decide (dynamic_segment ph)) as [Hd|Hd].
  - unfold dynamic_segment in Hd. congruence.
  - rewrite Ht, Ho, !Z.eqb_refl. cbn [andb fmap list_fmap foldr].
    destruct (Z.eqb_spec PT_LOAD PT_DYNAMIC); [done|]. intros Hpos Hb.
    inversion Hpos as [|? ? Hp Hpos']; subst.
    assert (0 <= foldr Z.add 0 (p_vaddr <$> filter first_load phs))
      by (clear -Hpos'; induction Hpos'; cbn in *; lia).
    rewrite wrap_small, sub_u_ok by (unfold in_bits; lia). cbn [mbind res_bind].
    rewrite IH by (done || lia). do 2 f_equal. lia.
  - intros Hpos Hb. unfold first_load in Hn. rewrite Hd in *.
    destruct (Z.eqb_spec PT_DYNAMIC PT_LOAD); [done|]. cbn [andb mbind res_bind]. rewrite Z.eqb_refl.
    rewrite IH by done. cbn [fmap list_fmap]. rewrite last_cons. by destruct (last _).
  - intros Hpos Hb. unfold first_load, dynamic_segment in *.
    assert (Hif : (p_type ph =? PT_LOAD) && (p_offset ph =? 0) = false).
    { apply not_true_iff_false. rewrite andb_true_iff, !Z.eqb_eq. tauto. }
    rewrite Hif. cbn [mbind res_bind]. destruct (Z.eqb_spec (p_type ph) PT_DYNAMIC); [done|].
    by rewrite IH.
Qed.

(** The scan of the dynamic section ends at [DT_NULL] with the debug entry that
    stands last. *)
Lemma scan_dynamic_run ds : forall fuel a r n,
  dynamic_at mem (a + n) ds -> 0 <= a -> 0 <= n ->
  a + n + size_of_Dyn * Z.of_nat (length ds) < 2 ^ usize_bits ->
  Forall (fun d => in_bits usize_bits (d_val d)) (filter (is_tag DT_DEBUG) ds) ->
  (length ds <= fuel)%nat ->
  scan_dynamic fuel pid a r n =
    Ok (default r (last (d_val <$> filter (is_tag DT_DEBUG) ds)),
        n + size_of_Dyn * Z.of_nat (length ds)).
Proof.
  assert (Hne : DT_NULL <> DT_DEBUG) by done.
  induction ds as [|d ds IH]; intros fuel a r n Hat Ha Hn Hend Hw Hf; [done|].
  destruct Hat as [(bs & Hm & Hd) Hat]. destruct fuel as [|fuel]; cbn [length] in *; [lia|].
  cbn [scan_dynamic].
  rewrite (add_u_ok _ a) by (unfold in_bits; lia). cbn [mbind res_bind].
  rewrite (copy_ok _ _ bs) by done. cbn [mbind res_bind].
  rewrite (add_u_ok _ n) by (unfold in_bits; lia). cbn [mbind res_bind].
  rewrite Hd. cbn [or_panic mbind res_bind]. rewrite filter_cons in Hw |- *.
  destruct (decide (is_tag DT_DEBUG d)) as [Ht|Ht]; unfold is_tag in Ht.
  - rewrite Ht, Z.eqb_refl. destruct (Z.eqb_spec (d_tag d) DT_NULL); [congruence|].
    inversion Hw as [|? ? Hv Hw']; subst. rewrite wrap_small by done.
    rewrite IH; [|by rewrite Z.add_assoc|lia..|done|lia].
    cbn [fmap list_fmap]. rewrite last_cons. f_equal. f_equal; [by destruct (last _)|lia].
  - destruct (Z.eqb_spec (d_tag d) DT_DEBUG); [done|].
    destruct (Z.eqb_spec (d_tag d) DT_NULL) as [Hz|Hz].
    + subst ds. cbn. do 2 f_equal. lia.
    + rewrite IH; [|by rewrite Z.add_assoc|lia..|done|lia]. do 2 f_equal. lia.
Qed.

(** The bytes of a dynamic section. *)
Lemma dynamic_bytes ds : forall a,
  dynamic_at mem a ds ->
  exists bs, mem_bytes mem a (Z.to_nat (size_of_Dyn * Z.of_nat (length ds))) = Some bs.
Proof.
  induction ds as [|d ds IH]; intros a Hat; [done|]. destruct Hat as [(bs & Hm & _) Hat].
  cbn [length]. replace (Z.to_nat (size_of_Dyn * Z.of_nat (S (length ds))))
    with (Z.to_nat size_of_Dyn + Z.to_nat (size_of_Dyn * Z.of_nat (length ds)))%nat by nia.
  destruct (d_tag d =? DT_NULL).
  - subst ds. cbn [length]. rewrite Z.mul_0_r, Nat.add_0_r. by exists bs.
  - destruct (IH _ Hat) as [bs' Hm']. exists (bs ++ bs'). apply mem_bytes_app; [done|].
    by rewrite Z2Nat.id by lia.
Qed.

(** The way to the list of objects. *)
Lemma read_dso_finds fuel auxv bias load dyn ds debug rd :
  linked_process mem auxv bias load dyn ds debug rd -> (length ds <= fuel)%nat ->
  read_dso fuel pid auxv =
    ms ← link_maps fuel pid (r_map rd);
    Ok (bias + p_vaddr dyn, size_of_Dyn * Z.of_nat (length ds), rd, ms).
Proof.
  intros [(n & phdr & bs & phs & Hn & Hp & Hlen & Hm & Hphs & Hload & Hdyns & Hbase) Hl Hd Hsec Hll
    [Hdb Hv] (rbs & Hrm & Hrd)] Hf1.
  unfold read_dso. rewrite Hn, Hp. cbn [ok_or mbind res_bind].
  unfold mul_u. rewrite checked_fits; [|unfold in_bits; assert (2 ^ (usize_bits - 1) < 2 ^ usize_bits)
    by (unfold usize_bits; destruct pointer_width; done); lia].
  cbn [mbind res_bind]. rewrite (copy_ok _ _ bs) by done. cbn [mbind res_bind].
  rewrite Hphs. cbn [or_panic mbind res_bind]. rewrite scan_phdrs_run.
  2: { rewrite Hload. repeat constructor. lia. }
  2: { rewrite Hload, Hbase. cbn. lia. }
  rewrite Hload, Hdyns, Hbase. cbn [fmap list_fmap foldr last default from_option id mbind res_bind].
  destruct (Z.eqb_spec (p_vaddr dyn) 0); [lia|].
  rewrite add_u_ok by (unfold in_bits; lia). cbn [mbind res_bind].
  replace (p_vaddr dyn + (bias + p_vaddr load - (p_vaddr load + 0))) with (bias + p_vaddr dyn) by lia.
  rewrite (scan_dynamic_run ds);
    [|by rewrite Z.add_0_r|lia|lia|lia|rewrite Hdb; by constructor|done].
  rewrite Hdb. cbn [fmap list_fmap last default from_option id mbind res_bind].
  rewrite (copy_ok _ _ rbs); [|apply words_fit|by rewrite Nat2Z.id]. cbn [mbind res_bind].
  rewrite Hrd. done.
Qed.
End reading.

(** ** The stream *)

Section names.
Context `{TG : Target} (mem : Memory).

(** The name of an object: none, or the text at the address up to the first NUL
    of the 256 bytes that are looked at. *)
Definition object_name (m : LinkMap) (name : RString) : Prop :=
  (l_name m = 0 /\ name = []) \/
  (0 < l_name m /\ exists data, mem_bytes mem (l_name m) 256 = Some data /\
     from_utf8 (match until_nul data with Some n => n | None => data end) = Some name).

(** What the record of an object says in the bytes [l], its name at or after
    [lo]. *)
Definition object_entry (lo : nat) (l : list byte) (m : LinkMap) (v : MDRawLinkMap) : Prop :=
  exists name r, object_name m name /\ v = mkRawLinkMap (l_addr m) r (l_ld m) /\
    stands lo l r (string_bytes name).

(** The stream [e] in the bytes [l]: the debug record, behind it the dynamic
    section, and the array of the objects. *)
Definition dso_stream_at {F : Format} (lo : nat) (l : list byte) (e : MDRawDirectory)
    (dyn_addr : Z) (dynamic : list byte) (rd : RDebug) (ms : list LinkMap) : Prop :=
  stream_type e = LinuxDsoDebug stream_types /\
  data_size (location e) = Z.of_nat (size_with MDRawDebug + length dynamic) /\
  exists map_rva entries,
    stands lo l (rva (location e))
      (encode (mkRawDebug (wrap 32 (r_version rd)) map_rva (Z.of_nat (length ms)) (r_brk rd)
         (r_ldbase rd) dyn_addr) ++ dynamic) /\
    (if decide (ms = []) then map_rva = 2 ^ 32 - 1 else stands lo l map_rva (encode_all entries)) /\
    Forall2 (object_entry lo l) ms entries.

Lemma dso_stream_moved {F : Format} hi lo l l' e dyn_addr dynamic rd ms :
  kept_outside 0 hi l l' -> (hi <= lo)%nat -> dso_stream_at lo l e dyn_addr dynamic rd ms ->
  dso_stream_at hi l' e dyn_addr dynamic rd ms.
Proof.
  intros Hk Hlo (Hty & Hsz & r & vs & Hs & Hm & HF). split_and!; [done..|]. exists r, vs. split_and!.
  - by eapply stands_moved.
  - case_decide; [done|]. by eapply stands_moved.
  - eapply Forall2_impl; [exact HF|]. intros m v (name & q & Hn & Hv & Hst). exists name, q.
    split_and!; [done..|]. by eapply stands_moved.
Qed.
End names.

Lemma object_name_text mem m name : object_name mem m name -> Forall is_char name /\ short_text name.
Proof.
  intros [[_ ->]|(_ & data & Hm & Hu)]; [by split|].
  apply from_utf8_decoded in Hu. split; [by eapply decoded_chars|]. eapply decoded_short; [done|].
  apply mem_bytes_length in Hm. destruct (until_nul data) as [n|] eqn:Hn; [|lia].
  unfold until_nul in Hn. destruct (find_idx _ data); [|done]. injection Hn as <-.
  rewrite length_take. lia.
Qed.

Section stream.
Context `{TG : Target} {F : Format} {FO : FormatOk F} {OS : Os} {G : Goblin}.
Context (pid : Pid) (mem : Memory) {MM : MemoryMapped OS pid mem}.
Notation sz := (size_with MDRawLinkMap).

Lemma dso_filename_ok m name : object_name mem m name -> dso_filename pid m = Ok name.
Proof.
  unfold dso_filename. intros [[-> ->]|(Hpos & data & Hm & Hu)]; [done|].
  destruct (Z.ltb_spec 0 (l_name m)); [|lia]. rewrite (copy_ok pid mem _ _ data); [|split; [lia|]|done].
  - cbn [mbind res_bind]. by rewrite Hu.
  - unfold usize_bits. destruct pointer_width; done.
Qed.

Definition object_body (w : MemoryArrayWriter MDRawLinkMap) (idx : nat) (map : LinkMap)
    : ST Buffer SectionDsoDebugError unit :=
  filename ← st_lift (dso_filename pid map);
  location ← buf_dso (write_string_to_location filename);
  buf_dso (set_value_at w (mkRawLinkMap (l_addr map) (rva location) (l_ld map)) idx).

Lemma grows_object_body w i m : st_rel grows (object_body w i m).
Proof. apply (frame_grows 0). unfold object_body, buf_dso. frame_tac. Qed.

Lemma write_link_maps_eq l :
  write_link_maps pid l =
  if decide (l = []) then mret (2 ^ 32 - 1)
  else linkmap ← buf_dso (alloc_array MDRawLinkMap (length l));
       st_for_enum 0 l (object_body linkmap);; mret (rva (maw_location linkmap)).
Proof. by destruct l. Qed.

Context (names : list RString) (ms : list LinkMap).
Context (Hnames : Forall2 (object_name mem) ms names).

(** The loop does not fail. *)
Lemma object_loop_runs w p b :
  maw_position w = Z.of_nat p -> (p + sz * length ms <= length (inner b))%nat ->
  ensures (st_for_enum 0 ms (object_body w)) b (fun _ _ => True).
Proof.
  intros Hw Hp.
  eapply (ensures_for_enum _ _ (fun _ b => (p + sz * length ms <= length (inner b))%nat));
    [apply grows_object_body| |done|done].
  intros j m b1 Hj Hp1. destruct (Forall2_lookup_l _ _ _ _ _ Hnames Hj) as (name & Hn & Hname).
  pose proof (lookup_lt_Some _ _ _ Hj). unfold object_body, buf_dso.
  apply ensures_bind; [intros; apply (frame_grows 0); frame_tac|].
  eapply ensures_lift; [by apply dso_filename_ok|].
  apply ensures_bind; [intros; apply (frame_grows 0); frame_tac|].
  apply ensures_map_err, ensures_string; [|by eapply object_name_text].
  apply ensures_map_err, ensures_set_value_at; cbn [inner]; rewrite Hw, Nat2Z.id;
    rewrite ?length_app; [nia|].
  rewrite length_splice; rewrite length_app; [lia|]. rewrite encode_length. nia.
Qed.

(** Each turn leaves the record of its object. *)
Lemma object_body_ok w p i m b b' :
  maw_position w = Z.of_nat p -> ms !! i = Some m -> (p + sz * length ms <= length (inner b))%nat ->
  object_body w i m b = (Ok tt, b') -> small b' ->
  exists v, slot_set p i v (inner b) (inner b') /\
    object_entry mem (length (inner b)) (inner b') m v.
Proof.
  intros Hw Hi Hp Hrun Hlt. destruct (Forall2_lookup_l _ _ _ _ _ Hnames Hi) as (name & _ & Hname).
  pose proof (lookup_lt_Some _ _ _ Hi). unfold object_body, buf_dso in Hrun. st_inv. run_inv.
  match goal with HH : dso_filename _ _ = _ |- _ =>
    rewrite (dso_filename_ok _ _ Hname) in HH; injection HH as <- end.
  match goal with HS : write_string_to_location _ ?b = _, HH : set_value_at _ _ _ _ = _ |- _ =>
    assert (Hend : (p + sz * i + sz <= length (inner b))%nat) by nia;
    destruct (string_slot w p i name (fun r => mkRawLinkMap (l_addr m) r (l_ld m)) _ _ _ _ Hw
      Hend HS HH Hlt) as [Hslot Hst] end.
  eexists. split; [exact Hslot|]. by eexists name, _.
Qed.

Lemma object_loop_fills w p b b' :
  maw_position w = Z.of_nat p -> (p + sz * length ms <= length (inner b))%nat ->
  st_for_enum 0 ms (object_body w) b = (Ok tt, b') -> small b' ->
  exists entries, stands p (inner b') (Z.of_nat p) (encode_all entries) /\
    kept_outside p (p + sz * length ms) (inner b) (inner b') /\
    Forall2 (object_entry mem p (inner b')) ms entries.
Proof.
  intros Hw Hp Hrun Hlt. set (hi := (p + sz * length ms)%nat) in *.
  destruct (fill_slots (object_body w) p ms (fun _ => True)
    (fun _ m v b => object_entry mem hi (inner b) m v)) with (s := b) (s' := b')
    as (_ & vs & Hvs & Hlv & Hk & HR); try done.
  - apply grows_object_body.
  - intros i m b1 b2 Hi _ Hend Hb Hsm.
    destruct (object_body_ok w p i m b1 b2 Hw Hi Hend Hb Hsm) as (v & Hslot & name & r & Hn & Hv & Hst).
    split; [done|]. exists v. split; [done|]. exists name, r. split_and!; [done..|].
    by eapply stands_weaken.
  - intros i m v j m' b1 b2 _ _ _ _ (name & r & Hn & Hv & Hst) Hk _ _.
    exists name, r. split_and!; [done..|]. by eapply stands_kept.
  - exists vs. split_and!; [done..|]. apply Forall2_same_length_lookup. split; [done|].
    intros i m v Hm Hv. destruct (HR i m Hm) as (v' & Hv' & name & r & Hn & Hr & Hst). simplify_eq.
    exists name, r. split_and!; [done..|]. eapply stands_weaken; [|exact Hst]. unfold hi. lia.
Qed.

Lemma write_link_maps_ensures b :
  ensures (write_link_maps pid ms) b (fun r b' =>
    extended (inner b) (inner b') /\ exists entries,
      (if decide (ms = []) then r = 2 ^ 32 - 1
       else stands (length (inner b)) (inner b') r (encode_all entries)) /\
      Forall2 (object_entry mem (length (inner b)) (inner b')) ms entries).
Proof.
  intros Hs. pose proof (surjective_pairing (write_link_maps pid ms b)) as Hrun.
  assert (Hx : extended (inner b) (inner (write_link_maps pid ms b).2)).
  { apply (extended_frame (write_link_maps pid ms) b _ _
      (fun n => frame_write_link_maps pid ms n) Hrun Hs). }
  revert Hs Hx. clear Hrun. rewrite write_link_maps_eq. case_decide as Hms.
  { intros _ Hx. exists (2 ^ 32 - 1), b. split; [done|]. split; [done|]. exists [].
    split; [done|]. rewrite Hms. constructor. }
  set (p := length (inner b)).
  set (b1 := mkBuffer (inner b ++ replicate (length ms * sz) Byte.x00)).
  erewrite st_bind_run by apply map_err_ok, alloc_array_run. fold b1. cbv beta.
  set (w := mkMemoryArrayWriter _ _). intros Hs Hx.
  assert (Hp : (p + sz * length ms <= length (inner b1))%nat)
    by (subst b1; cbn; rewrite length_app, length_replicate; lia).
  assert (Hg : st_rel grows (st_for_enum 0 ms (object_body w);; mret (rva (maw_location w)))).
  { apply st_rel_bind; [apply _| |intros; by apply st_rel_ret, _].
    apply st_rel_for_enum, grows_object_body. apply _. }
  specialize (Hg b1). unfold grows in Hg. change (buf_len b1) with (length (inner b1)) in Hg.
  assert (Hw : maw_position w = Z.of_nat p).
  { subst w. cbn. apply wrap_small. unfold small, in_bits, position in *. fold p. lia. }
  destruct (ensures_bind (st_for_enum 0 ms (object_body w)) (fun _ => mret (rva (maw_location w)))
    b1 (fun r b' => r = Z.of_nat p /\ st_for_enum 0 ms (object_body w) b1 = (Ok tt, b')))
    as (r & b' & Hr & -> & Hloop); [| |exact Hs|].
  { intros. apply st_rel_ret. apply _. }
  { intros Hsm. destruct (object_loop_runs w p b1 Hw Hp Hsm) as ([] & b2 & Hr & _).
    exists tt, b2. split; [done|]. apply ensures_ret. by rewrite <- Hw. }
  exists (Z.of_nat p), b'. rewrite Hr in Hs, Hx |- *. split; [done|]. split; [done|].
  destruct (object_loop_fills w p b1 b' Hw Hp Hloop Hs) as (entries & Hst & _ & HF).
  by exists entries.
Qed.
End stream.

(** The stream for a process with a dynamic linker. *)
Lemma dso_stream_ensures `{TG : Target} {F : Format} {FO : FormatOk F} {OS : Os} {G : Goblin} pid mem
    `{!MemoryMapped OS pid mem} fuel auxv bias load dyn ds debug rd ms names b :
  0 < size_of_Dyn < 2 ^ (usize_bits - 1) ->
  linked_process mem auxv bias load dyn ds debug rd -> link_seg mem (r_map rd) ms 0 ->
  Forall2 (object_name mem) ms names ->
  (length ds <= fuel)%nat -> (length ms < fuel)%nat ->
  Z.of_nat (size_with MDRawDebug) + size_of_Dyn * Z.of_nat (length ds) < 2 ^ 32 ->
  Z.of_nat (length ms) < 2 ^ 32 ->
  ensures (write_dso_debug_stream fuel pid auxv) b (fun e b' =>
    extended (inner b) (inner b') /\ exists dynamic,
      mem_bytes mem (bias + p_vaddr dyn) (length dynamic) = Some dynamic /\
      Z.of_nat (length dynamic) = size_of_Dyn * Z.of_nat (length ds) /\
      dso_stream_at mem (length (inner b)) (inner b') e (bias + p_vaddr dyn) dynamic rd ms).
Proof.
  intros Hdyn Hlp Hobj Hnames Hf1 Hf2 Hfit Hcount. pose proof Hlp as [_ _ Hd Hsec Hll _ _].
  destruct (dynamic_bytes mem Hdyn ds _ Hsec) as [dynamic Hdm].
  pose proof (mem_bytes_length _ _ _ _ Hdm) as Hdl.
  unfold write_dso_debug_stream. apply ensures_bind; [intros [[[? ?] ?] ?]; apply (frame_grows 0);
    unfold buf_dso; frame_tac|].
  eapply ensures_lift.
  { erewrite read_dso_finds by done. by rewrite (link_maps_complete pid mem ms). }
  cbn beta iota.
  apply ensures_bind; [intros; apply (frame_grows 0); unfold buf_dso; frame_tac|].
  eapply ensures_conseq; [by eapply write_link_maps_ensures|]. intros r b1 (Hx & entries & Hr & HF).
  apply ensures_bind; [intros; apply (frame_grows 0); unfold buf_dso; frame_tac|].
  eapply ensures_run; [apply map_err_ok, alloc_with_val_run|].
  apply ensures_bind; [intros; apply (frame_grows 0); unfold buf_dso; frame_tac|].
  cbn [location data_size mw_location mw_size stream_type rva mw_position].
  eapply ensures_lift.
  { rewrite !wrap_small by (unfold in_bits; lia). apply add_u_ok. unfold in_bits. lia. }
  apply ensures_bind; [intros; apply (frame_grows 0); unfold buf_dso; frame_tac|].
  assert (0 < Z.of_nat (length ds)) by (destruct ds; [done|cbn; lia]).
  eapply ensures_lift; [by apply (copy_ok pid mem _ _ dynamic); [nia|]|].
  eapply (ensures_run_small _ _ _ (mkBuffer _)); [reflexivity|]. intros Hs.
  unfold small, buf_len in Hs. cbn [get_buf buffer_has_buffer id inner] in Hs.
  rewrite !length_app, encode_length in Hs.
  cbn [inner]. unfold position. rewrite (wrap_small 32 (Z.of_nat (length (inner b1)))) by (unfold in_bits; lia).
  pose proof (proj1 Hx) as Hle. split.
  { eapply kept_outside_trans; [| |exact Hx|]; [done..|]. rewrite <- app_assoc. apply extended_app. }
  exists dynamic. rewrite Hdl. split; [done|]. split; [nia|].
  split; [done|]. split; [cbn; nia|]. exists r, entries. cbn [location rva]. rewrite <- app_assoc.
  split_and!.
  - rewrite (wrap_small 32 (Z.of_nat (length ms))) by (unfold in_bits; lia). by apply stands_end.
  - case_decide; [done|]. eapply stands_kept; [apply extended_app|lia|done].
  - eapply Forall2_impl; [done|]. intros m v (name & q & Hn & Hv & Hst).
    exists name, q. split_and!; [done..|]. eapply stands_kept; [apply extended_app|lia|done].
Qed.

(** ** Properties *)

(** C17: the stream of the loaded objects.  For a process whose auxiliary vector
    leads over program headers, dynamic section and debug record to a list of
    loaded objects that ends, and whose objects have no name or one that can be
    read and is UTF-8, the writer returns (no error and no panic, in every build,
    while stream and dump stay below 4 GiB) and has only appended; the entry
    covers the debug record with the number of objects and behind it the dynamic
    section of the process, and the array the record points to has one record per
    object, in the order of the list, with its addresses and a name that reads
    back. *)
Theorem dso_stream_describes `{TG : Target} (F : Format) (FO : FormatOk F) (OS : Os) (G : Goblin)
    (pid : Pid) (mem : Memory) (MM : MemoryMapped OS pid mem) (fuel : nat) (auxv : AuxvDumpInfo)
    (bias : Z) (load dyn : ProgramHeader) (ds : list Dyn) (debug : Dyn) (rd : RDebug)
    (ms : list LinkMap) (names : list RString) (b : Buffer) :
  0 < size_of_Dyn < 2 ^ (usize_bits - 1) ->
  linked_process mem auxv bias load dyn ds debug rd -> link_seg mem (r_map rd) ms 0 ->
  Forall2 (object_name mem) ms names -> (length ds <= fuel)%nat -> (length ms < fuel)%nat ->
  Z.of_nat (size_with MDRawDebug) + size_of_Dyn * Z.of_nat (length ds) < 2 ^ 32 ->
  Z.of_nat (length ms) < 2 ^ 32 ->
  Z.of_nat (length (inner (write_dso_debug_stream fuel pid auxv b).2)) < 2 ^ 32 ->
  exists e b' dynamic map_rva entries,
    write_dso_debug_stream fuel pid auxv b = (Ok e, b') /\
    take (length (inner b)) (inner b') = inner b /\
    mem_bytes mem (bias + p_vaddr dyn) (length dynamic) = Some dynamic /\
    Z.of_nat (length dynamic) = size_of_Dyn * Z.of_nat (length ds) /\
    stream_type e = LinuxDsoDebug stream_types /\
    bytes_at (Z.to_nat (rva (location e))) (Z.to_nat (data_size (location e))) (inner b') =
      encode (mkRawDebug (wrap 32 (r_version rd)) map_rva (Z.of_nat (length ms)) (r_brk rd)
        (r_ldbase rd) (bias + p_vaddr dyn)) ++ dynamic /\
    (ms <> [] -> bytes_at (Z.to_nat map_rva) (length ms * size_with MDRawLinkMap) (inner b') =
      encode_all entries) /\
    Forall2 (fun m v => lm_addr v = l_addr m /\ lm_ld v = l_ld m /\
      exists name, object_name mem m name /\ read_string (inner b') (lm_name v) = Some name)
      ms entries.
Proof.
  intros Hdyn Hlp Hobj Hnames Hf1 Hf2 Hfit Hn Hs.
  destruct (dso_stream_ensures pid mem fuel auxv bias load dyn ds debug rd ms names b
    Hdyn Hlp Hobj Hnames Hf1 Hf2 Hfit Hn Hs)
    as (e & b' & Hrun & Hx & dynamic & Hm & Hl & Hty & Hsz & map_rva & entries & Hst & Harr & HF).
  rewrite Hrun in Hs. cbn [snd] in Hs. exists e, b', dynamic, map_rva, entries.
  pose proof (Forall2_length _ _ _ HF) as Hlen. split_and!; try done.
  - by apply extended_prefix.
  - destruct Hst as (_ & _ & Hst). rewrite Hsz, Nat2Z.id, <- Hst.
    by rewrite length_app, encode_length.
  - intros Hne. rewrite decide_False in Harr by done. destruct Harr as (_ & _ & Harr).
    by rewrite encode_all_length, <- Hlen in Harr.
  - eapply Forall2_impl; [exact HF|]. intros m v (name & r & Hname & -> & Hstr). split_and!; [done..|].
    exists name. split; [done|]. cbn [lm_name]. eapply stands_string; [|exact Hs|exact Hstr].
    by eapply object_name_text.
Qed.

(** C28: a list of objects that runs into a cycle.  The walk follows the list
    without a bound: on a process whose list leads into a cycle, after any number
    of turns it has read that many objects without an error or a panic, over and
    over the ones of the list, and has not come to an end.  So the writer does
    not return, and nothing has been written. *)
Theorem dso_cycle_diverges `{TG : Target} (F : Format) (OS : Os) (G : Goblin) (pid : Pid)
    (mem : Memory) (MM : MemoryMapped OS pid mem) (auxv : AuxvDumpInfo) (bias : Z)
    (load dyn : ProgramHeader) (ds : list Dyn) (debug : Dyn) (rd : RDebug) (lead cycle : list LinkMap)
    (b : Buffer) :
  0 < size_of_Dyn < 2 ^ (usize_bits - 1) ->
  linked_process mem auxv bias load dyn ds debug rd ->
  link_cycle mem (r_map rd) lead cycle ->
  forall fuel, (length ds <= fuel)%nat ->
  (exists ms last, link_walk fuel pid (r_map rd) = Ok (ms, last) /\ length ms = fuel /\ last <> 0 /\
     ms ⊆ lead ++ cycle) /\
  read_dso fuel pid auxv =
    (ms ← link_maps fuel pid (r_map rd);
     Ok (bias + p_vaddr dyn, size_of_Dyn * Z.of_nat (length ds), rd, ms)) /\
  write_dso_debug_stream fuel pid auxv b = (Panic, b).
Proof.
  intros Hdyn Hlp Hcyc fuel Hf. pose proof (link_walk_cycle pid mem Hdyn _ _ _ Hcyc fuel) as Hw.
  pose proof (read_dso_finds pid mem Hdyn fuel auxv bias load dyn ds debug rd Hlp Hf) as Hr.
  split_and!; [exact Hw|exact Hr|]. destruct Hw as (ms & last & Hw & _ & Hlast & _).
  unfold write_dso_debug_stream. erewrite st_bind_case; [|reflexivity]. rewrite Hr.
  unfold link_maps. rewrite Hw. cbn [mbind res_bind]. by rewrite (proj2 (Z.eqb_neq last 0) Hlast).
Qed.

(** A process with two objects: the program itself, without a name, and "ld". *)
Definition words (l : list Z) : list byte := concat (le_split 8 <$> l).

Definition dso_blocks (last_next : Z) : list (Z * list byte) :=
  [(0x400040, le_split 4 1 ++ le_split 4 5 ++ words [0; 0x400000; 0; 4096; 4096; 4096] ++
              le_split 4 2 ++ le_split 4 6 ++ words [4096; 0x401000; 0; 64; 64; 8]);
   (0x401000, words [5; 0x402000; 21; 0x402000; 0; 0]);
   (0x402000, words [1; 0x403000; 0x7000; 0; 0x7f00]);
   (0x403000, words [0; 0; 0x401000; 0x403100; 0]);
   (0x403100, words [0x7f00; 0x404000; 0x7f80; last_next; 0x403000]);
   (0x404000, [Byte.x6c; Byte.x64] ++ replicate 254 Byte.x00)].

Definition dso_memory (last_next : Z) : Memory := blocks_memory (dso_blocks last_next).
Definition dso_auxv : AuxvDumpInfo := mkAuxv (Some 2) (Some 0x400040) None None.
Definition dso_load : ProgramHeader := mkProgramHeader 1 0 0x400000 4096 4096 4096.
Definition dso_dyn : ProgramHeader := mkProgramHeader 2 4096 0x401000 64 64 8.
Definition dso_ds : list Dyn := [mkDyn 5 0x402000; mkDyn 21 0x402000; mkDyn 0 0].
Definition dso_rd : RDebug := mkRDebug 1 0x403000 0x7000 0 0x7f00.
Definition dso_objects (last_next : Z) : list LinkMap :=
  [mkLinkMap 0 0 0x401000 0x403100 0; mkLinkMap 0x7f00 0x404000 0x7f80 last_next 0x403000].

Lemma dso_process_linked n :
  n = 0 \/ n = 0x403100 ->
  @linked_process x64_debug elf64 (dso_memory n) dso_auxv 0 dso_load dso_dyn dso_ds
    (mkDyn 21 0x402000) dso_rd.
Proof.
  intros Hn. split.
  - destruct Hn; subst n;
      eexists 2, 0x400040, _, _; split_and!; try reflexivity; vm_compute; reflexivity.
  - vm_compute. repeat split; discriminate.
  - vm_compute. repeat split.
  - destruct Hn; subst n; repeat split; eexists; (split; [vm_compute; reflexivity|reflexivity]).
  - vm_compute. reflexivity.
  - vm_compute. repeat split; discriminate.
  - destruct Hn; subst n; eexists; (split; [vm_compute; reflexivity|reflexivity]).
Qed.

Lemma dso_process_objects : @link_seg x64_debug (dso_memory 0) 0x403000 (dso_objects 0) 0.
Proof.
  repeat split; [discriminate| |discriminate|]; eexists; (split; [vm_compute; reflexivity|reflexivity]).
Qed.

Lemma dso_process_cycle : @link_cycle x64_debug (dso_memory 0x403100) (r_map dso_rd)
  (take 1 (dso_objects 0x403100)) (drop 1 (dso_objects 0x403100)).
Proof.
  exists 0x403100. repeat split; try discriminate; eexists; (split; [vm_compute; reflexivity|reflexivity]).
Qed.

Lemma dso_stream_describes_witness :
  exists e b', @write_dso_debug_stream x64_debug layout (toy_os (dso_memory 0)) elf64 10 7 dso_auxv
      (mkBuffer []) = (Ok e, b') /\ data_size (location e) = 84.
Proof.
  destruct (@dso_stream_describes x64_debug layout layout_ok (toy_os (dso_memory 0)) elf64 7
    (dso_memory 0) (toy_memory_mapped _ 7) 10 dso_auxv 0 dso_load dso_dyn dso_ds
    (mkDyn 21 0x402000) dso_rd (dso_objects 0) [[]; [108; 100]] (mkBuffer [])
    ltac:(vm_compute; split; reflexivity) (dso_process_linked 0 (or_introl eq_refl))
    dso_process_objects
    ltac:(constructor; [left; split; reflexivity|constructor; [right; split; [reflexivity|];
      eexists; split; [vm_compute; reflexivity|vm_compute; reflexivity]|constructor]])
    ltac:(cbn; lia) ltac:(cbn; lia) ltac:(vm_compute; reflexivity) ltac:(vm_compute; reflexivity)
    ltac:(vm_compute; reflexivity)) as (e & b' & _ & _ & _ & Hrun & _).
  exists e, b'. split; [exact Hrun|]. vm_compute in Hrun. injection Hrun as <- <-. reflexivity.
Defined.

(** The second object points to itself; the walk reads it again and again. *)
Lemma dso_cycle_diverges_witness :
  (exists ms last, @link_walk x64_debug (toy_os (dso_memory 0x403100)) 1000 7 0x403000 = Ok (ms, last) /\
     length ms = 1000%nat /\ last <> 0) /\
  @write_dso_debug_stream x64_debug layout (toy_os (dso_memory 0x403100)) elf64 1000 7 dso_auxv
    (mkBuffer []) = (Panic, mkBuffer []).
Proof.
  destruct (@dso_cycle_diverges x64_debug layout (toy_os (dso_memory 0x403100)) elf64 7
    (dso_memory 0x403100) (toy_memory_mapped _ 7) dso_auxv 0 dso_load dso_dyn dso_ds
    (mkDyn 21 0x402000) dso_rd (take 1 (dso_objects 0x403100)) (drop 1 (dso_objects 0x403100)) (mkBuffer [])
    ltac:(vm_compute; split; reflexivity) (dso_process_linked _ (or_intror eq_refl))
    dso_process_cycle 1000 ltac:(cbn; lia)) as ((ms & last & Hw & Hl & Hne & _) & _ & Hrun).
  split; [|exact Hrun]. exists ms, last. split; [exact Hw|]. split; [exact Hl|exact Hne].
Defined.
