(* ===== verification/MinidumpWriter.v ===== *)
(** * Writing a dump (src/src/linux/minidump_writer.rs)

    [generate_dump] lays out the header and the directory, runs the stream
    writers in order and mirrors the buffer to the destination after each of
    them; [dump] stops the process around it and lets it go on every exit. *)
From Stdlib Require Import ZArith Lia String.
From S2P Require Import Prelude Format Layout MemWriter DirSection Driver RustStr Errors.
From S2P Require Import Os MemReader ModuleReader MapsReader Auxv Arch PtraceDumper.
From S2P Require Import Config Streams ThreadListStream MappingsStream DsoDebug.

Local Open Scope Z_scope.

Section minidump_writer.
Context `{TG : Target} {F : Format} {OS : Os} {PF : Procfs} {G : Goblin} {A : Arch}.
Context {W : Type} `{Destination W}.
(** Bounds the loops that follow data of the target. *)
Context (fuel : nat).

(** The state of [generate_dump] once the directory exists. *)
Notation Dump E := (ST (MinidumpWriter * DirSection W * Buffer) E).

Definition flush_some (dirent : MDRawDirectory) : Dump WriterError unit :=
  st_map_err WriterError_FileWriterError (flush (Some dirent)).

Definition write_file (filename : RString) : ST Buffer MemoryWriterError MDLocationDescriptor :=
  content ← st_lift (map_err MW_IOError (os_res (fs_read (utf8_encode filename))));
  section ← write_bytes content;
  mret (maw_location section).

(** [m.or_else(|_| m')] *)
Definition st_or_else {St E T} (m m' : ST St E T) : ST St E T :=
  r ← st_try m;
  match r with inr x => mret x | inl _ => m' end.

(** A stream that is a copy of a file; the entry is left empty when the file
    cannot be read. *)
Definition file_stream (ty : Z) (m : ST Buffer MemoryWriterError MDLocationDescriptor)
    : Dump WriterError unit :=
  r ← st_try (on_dump_buf id m);
  flush_some (match r with
              | inr location => mkDirectory ty location
              | inl _ => default_directory
              end).

Definition num_writers : Z := 17.

Definition header_of (time : Z) (directory_rva : Z) : MDRawHeader :=
  mkHeader MD_HEADER_SIGNATURE MD_HEADER_VERSION num_writers directory_rva 0 (wrap 32 time) 0.

(** The header and the first flush. *)
Definition write_header (header_section : MemoryWriter MDRawHeader) : Dump WriterError unit :=
  '(_, dir_section, _) ← st_get;
  now ← st_lift (ok_or unix_time WriterError_SystemTimeError);
  on_dump_buf WriterError_MemoryWriterError
    (set_value header_section (header_of now (dir_position dir_section)));;
  st_map_err WriterError_FileWriterError (flush None).

(** The streams, each followed by a flush of its directory entry. *)
Definition write_streams (dumper : PtraceDumper) : Dump WriterError unit :=
  '(self, _, _) ← st_get;
  let proc tail := proc_path (blamed_thread self) tail in
  let types := stream_types in
  dirent ← on_writer WriterError_SectionThreadListError (thread_list_write fuel dumper);
  flush_some dirent;;
  dirent ← on_writer WriterError_SectionMappingsError (mappings_write dumper);
  flush_some dirent;;
  on_writer WriterError_SectionAppMemoryError app_memory_write;;
  st_map_err WriterError_FileWriterError (flush None);;
  dirent ← on_writer WriterError_SectionMemListError memory_list_write;
  flush_some dirent;;
  dirent ← on_writer WriterError_SectionExceptionStreamError exception_write;
  flush_some dirent;;
  dirent ← on_writer WriterError_SectionSystemInfoError systeminfo_write;
  flush_some dirent;;
  dirent ← on_writer WriterError_SectionMemoryInfoListError memory_info_list_write;
  flush_some dirent;;
  file_stream (LinuxCpuInfo types) (write_file (str_of "/proc/cpuinfo"));;
  file_stream (LinuxProcStatus types) (write_file (proc "/status"%string));;
  file_stream (LinuxLsbRelease types)
    (st_or_else (write_file (str_of "/etc/lsb-release"))
                (write_file (str_of "/etc/os-release")));;
  file_stream (LinuxCmdLine types) (write_file (proc "/cmdline"%string));;
  file_stream (LinuxEnviron types) (write_file (proc "/environ"%string));;
  file_stream (LinuxAuxv types) (write_file (proc "/auxv"%string));;
  file_stream (LinuxMaps types) (write_file (proc "/maps"%string));;
  r ← st_try (on_dump_buf id (write_dso_debug_stream fuel (process_id self) (auxv dumper)));
  flush_some (match r with inr dirent => dirent | inl _ => default_directory end);;
  file_stream (MozLinuxLimits types) (write_file (proc "/limits"%string));;
  dirent ← on_writer WriterError_SectionThreadNamesError (thread_names_write dumper);
  flush_some dirent;;
  r ← st_try (on_writer id handle_data_write);
  match r with
  | inl _ => mret tt
  | inr dirent => _ ← st_try (flush (Some dirent)); mret tt
  end.

Definition generate_dump (dumper : PtraceDumper)
    : ST (MinidumpWriter * W * Buffer) WriterError unit :=
  header_section ← st_map_err WriterError_MemoryWriterError (on_buf (alloc MDRawHeader));
  dir_section ← st_map_err WriterError_FileWriterError
    (st_zoom (fun s => (snd (fst s), snd s)) (fun t s => (fst (fst s), fst t, snd t))
       (DirSection_new num_writers));
  with_dir dir_section (write_header header_section;; write_streams dumper).

Definition crash_thread_references_principal_mapping {E} (self : MinidumpWriter)
    (dumper : PtraceDumper) : res E bool :=
  match crash_context self, principal_mapping self with
  | Some context, Some m =>
      let low_addr := sys_start_address (system_mapping_info m) in
      let high_addr := sys_end_address (system_mapping_info m) in
      let pc := cc_get_instruction_pointer context in
      let stack_pointer := cc_get_stack_pointer context in
      if (low_addr <=? pc) && (pc <? high_addr) then Ok true
      else
        match get_stack_info fuel dumper stack_pointer with
        | Err _ => Ok false
        | Panic => Panic
        | Ok (valid_stack_pointer, stack_len) =>
            match copy_from_process (blamed_thread self) valid_stack_pointer stack_len with
            | Err _ => Ok false
            | Panic => Panic
            | Ok stack_copy =>
                stack_has_pointer_to_mapping m stack_copy
                  (saturating_sub stack_pointer valid_stack_pointer)
            end
        end
  | _, _ => Ok false
  end.

Context {K : Type} `{Kernel K} {LI : LateInit}.

Notation Run E := (ST (MinidumpWriter * W * (PtraceDumper * K)) E).

Definition on_target {E E' T} (conv : E -> E') (m : ST (PtraceDumper * K) E T) : Run E' T :=
  st_map_err conv (st_zoom snd (fun t s => (fst s, t)) m).

(** [skip_stacks_if_mapping_unreferenced]: no dump unless the crashing thread
    refers to the principal mapping. *)
Definition check_principal_mapping : Run WriterError unit :=
  '(self, _, (dumper, _)) ← st_get;
  if skip_stacks_if_mapping_unreferenced self then
    let self := match principal_mapping_address self with
                | Some address => set_principal_mapping (find_mapping_no_bias dumper address) self
                | None => self
                end in
    st_modify (fun s => (self, snd (fst s), snd s));;
    b ← st_lift (crash_thread_references_principal_mapping self dumper);
    if b : bool then mret tt
    else st_lift (Err (WriterError_InitError InitError_PrincipalMappingNotReferenced))
  else mret tt.

(** [generate_dump] on a fresh buffer, which is returned. *)
Definition generate_on_new_buffer : Run WriterError (list byte) := fun '(self, w, (dumper, k)) =>
  let '(r, (self', w', b)) := generate_dump dumper (self, w, with_capacity 0) in
  (match r with Ok _ => Ok (inner b) | Err e => Err e | Panic => Panic end,
   (self', w', (dumper, k))).

(** [dump] from the point where the dumper exists. *)
Definition dump_stopped : Run WriterError (list byte) :=
  on_target WriterError_DumperError (suspend_threads fuel);;
  on_target WriterError_InitError late_init;;
  check_principal_mapping;;
  buffer ← generate_on_new_buffer;
  on_target WriterError_DumperError resume_threads;;
  mret buffer.

(** The dumper is dropped on every exit, also on an error and on a panic. *)
Definition dump : ST (MinidumpWriter * W * K) WriterError (list byte) := fun '(self, w, k) =>
  let auxv := match direct_auxv_dump_info self with
              | Some info => auxv_from info
              | None => default_auxv
              end in
  match PtraceDumper_new fuel (process_id self) (stop_timeout self) auxv k with
  | (Err e, k') => (Err (WriterError_InitError e), (self, w, k'))
  | (Panic, k') => (Panic, (self, w, k'))
  | (Ok dumper, k') =>
      let '(r, (self', w', (dumper', k''))) := dump_stopped (self, w, (dumper, k')) in
      (r, (self', w', drop_dumper dumper' k''))
  end.

End minidump_writer.
