(* ===== verification/StreamSpec.v ===== *)
(** * Where the streams end up

    Every stream writer that returns a directory entry has placed its stream
    inside the buffer: the entry has the type of the stream and its location
    ends before the end of the buffer. *)
From Stdlib Require Import ZArith Lia String.
From S2P Require Import Prelude Format Layout MemWriter DirSection Driver DumpPlan RustStr Errors.
From S2P Require Import Os MemReader ModuleReader MapsReader Auxv Arch PtraceDumper.
From S2P Require Import Config Streams ThreadListStream MappingsStream DsoDebug.
From S2P Require Import MinidumpWriter.

Local Open Scope Z_scope.

(** Turns the hypotheses about sub-runs into facts on buffer lengths. *)
Ltac len_facts :=
  repeat first
    [ match goal with
      | HH : buf _ _ _ = (Ok _, _) |- _ => unfold buf in HH
      | HH : buf_tl _ _ = (Ok _, _) |- _ => unfold buf_tl in HH
      | HH : buf_map _ _ = (Ok _, _) |- _ => unfold buf_map in HH
      | HH : buf_dso _ _ = (Ok _, _) |- _ => unfold buf_dso in HH
      end
    | alloc_fact
    | growth_fact ltac:(unfold buf_tl, buf_map, buf_dso, buf; frame_tac) ];
  rewrite ?buf_len_set, ?get_set_buf, ?buf_len_get in *.

Section placements.
Context `{TG : Target} {F : Format} {FO : FormatOk F} {OS : Os} {PF : Procfs} {G : Goblin}.
Context {A : Arch} {AO : ArchOk A}.
Context (fuel : nat).

Ltac open_run :=
  let s := fresh "s" in let a := fresh "a" in let s' := fresh "s'" in
  intros s a s' Hrun Hlt; unfold get_config, get_position in *; st_inv.

Lemma memory_list_placed : yields (placed (MemoryListStream stream_types)) memory_list_write.
Proof. unfold memory_list_write. open_run. len_facts. place. Qed.

Lemma exception_placed : yields (placed (ExceptionStream stream_types)) exception_write.
Proof. unfold exception_write. open_run. len_facts. place. Qed.

Lemma systeminfo_placed : yields (placed (SystemInfoStream stream_types)) systeminfo_write.
Proof.
  unfold systeminfo_write. destruct os_information. open_run. len_facts. place.
Qed.

Lemma memory_info_list_placed :
  yields (placed (MemoryInfoListStream stream_types)) memory_info_list_write.
Proof. unfold memory_info_list_write. open_run. len_facts. place. Qed.

Lemma thread_names_placed dumper :
  yields (placed (ThreadNamesStream stream_types)) (thread_names_write dumper).
Proof. unfold thread_names_write. open_run. len_facts. place. Qed.

Lemma handle_data_placed : yields (placed (HandleDataStream stream_types)) handle_data_write.
Proof. unfold handle_data_write. open_run. len_facts. place. Qed.

Lemma thread_list_placed dumper :
  yields (placed (ThreadListStream stream_types)) (thread_list_write fuel dumper).
Proof. unfold thread_list_write. open_run. len_facts. place. Qed.

Lemma mappings_placed dumper :
  yields (placed (ModuleListStream stream_types)) (mappings_write dumper).
Proof.
  unfold mappings_write. open_run.
  match goal with HH : match ?l with [] => _ | _ => _ end _ = _ |- _ => destruct l end;
    st_inv; len_facts; place.
Qed.

Lemma write_file_inside filename : yields loc_inside (write_file filename).
Proof.
  unfold write_file. open_run. len_facts. unfold loc_inside, maw_location. cbn [data_size rva].
  match goal with Hp : maw_position _ = _ |- _ => rewrite Hp end.
  rewrite !wrap_small by (unfold in_bits; lia). lia.
Qed.

Lemma or_else_yields {T} (P : T -> nat -> Prop) (m m' : ST Buffer MemoryWriterError T) :
  yields P m -> yields P m' -> yields P (st_or_else m m').
Proof.
  intros Hm Hm' s a s' Hrun Hlt. unfold st_or_else in Hrun. st_inv. unfold st_try in *.
  match goal with HH : match m s with _ => _ end = _ |- _ => rename HH into Ht end.
  destruct (m s) as [[y|e|] s1] eqn:E; simplify_eq; st_inv; eauto.
Qed.

(** The debug record of the stream is inside; the dynamic section copied behind
    it is as long as the entry says only when the copy was complete. *)
Definition dso_placed (e : MDRawDirectory) (n : nat) : Prop :=
  stream_type e = LinuxDsoDebug stream_types /\
  0 <= rva (location e) /\ rva (location e) + Z.of_nat (size_with MDRawDebug) <= Z.of_nat n.

Lemma dso_debug_placed pid auxv : yields dso_placed (write_dso_debug_stream fuel pid auxv).
Proof.
  unfold write_dso_debug_stream. open_run.
  match goal with x : Z * Z * RDebug * list LinkMap |- _ => destruct x as [[[? ?] ?] ?] end.
  st_inv. len_facts. unfold dso_placed, mw_location. cbn [stream_type location rva].
  match goal with Hp : mw_position _ = _ |- _ => rewrite Hp end.
  rewrite !wrap_small by (unfold in_bits; lia). split; [done|lia].
Qed.
End placements.
