(* ===== verification/DumpSpec.v ===== *)
(** * The dump on disk

    The destination of [generate_dump] (src/src/linux/minidump_writer.rs)
    through the whole run: after every step, whatever its outcome, it holds the
    bytes it had before followed by a flushed prefix of the buffer with a
    complete header and the directory entries of the streams written so far. *)
From Stdlib Require Import ZArith Lia String.
From S2P Require Import Prelude Format Layout MemWriter DirSection Driver DumpPlan RustStr Errors.
From S2P Require Import Os MemReader ModuleReader MapsReader Auxv Arch PtraceDumper.
From S2P Require Import Config Streams ThreadListStream MappingsStream DsoDebug.
From S2P Require Import MinidumpWriter StreamSpec ElfLayout.

Local Open Scope nat_scope.
Local Notation length := List.length.
Local Notation File := DirSection.File.

(** How a directory entry is filled. *)
Inductive Presence :=
  | Always
  | IfReadable
  | Dso.

Definition stream_order {F : Format} : list (Z * Presence) :=
  let types := stream_types in
  [(ThreadListStream types, Always); (ModuleListStream types, Always);
   (MemoryListStream types, Always); (ExceptionStream types, Always);
   (SystemInfoStream types, Always); (MemoryInfoListStream types, Always);
   (LinuxCpuInfo types, IfReadable); (LinuxProcStatus types, IfReadable);
   (LinuxLsbRelease types, IfReadable); (LinuxCmdLine types, IfReadable);
   (LinuxEnviron types, IfReadable); (LinuxAuxv types, IfReadable);
   (LinuxMaps types, IfReadable); (LinuxDsoDebug types, Dso);
   (MozLinuxLimits types, IfReadable); (ThreadNamesStream types, Always);
   (HandleDataStream types, Always)].

(** The entry describes its stream in a dump of [n] bytes, or is empty where
    the stream could not be had. *)
Definition entry_ok {F : Format} (n : nat) (spec : Z * Presence) (e : MDRawDirectory) : Prop :=
  match snd spec with
  | Always => placed (fst spec) e n
  | IfReadable => placed (fst spec) e n \/ e = default_directory
  | Dso => dso_placed e n \/ e = default_directory
  end.

Lemma entry_ok_mono {F : Format} n n' spec e : n <= n' -> entry_ok n spec e -> entry_ok n' spec e.
Proof.
  intros Hn. unfold entry_ok, dso_placed.
  destruct (snd spec); intuition (eauto using placed_mono; lia).
Qed.

#[export] Instance linux_plan {F : Format} : StreamPlan := {|
  slot_spec := Z * Presence;
  plan := stream_order;
  slot_ok := entry_ok;
  slot_ok_mono := entry_ok_mono;
|}.

(** ** The streams one after the other *)

Section stages.
Context `{TG : Target} {F : Format} {FO : FormatOk F} {OS : Os} {A : Arch}.
Context (pre : list byte) (hdr : MDRawHeader).

Lemma stage_file k ty m :
  stream_order !! k = Some (ty, IfReadable) -> (forall n, frame n m) -> yields loc_inside m ->
  hoare (C := MinidumpWriter) pre hdr (Clean pre hdr k) (file_stream ty m)
    (fun _ => Clean pre hdr (S k)).
Proof.
  intros Ho Hf Hy. eapply hoare_bind.
  - eapply hoare_conseq; [by apply (hoare_buf_try _ _ id k m loc_inside)|by intros s []|done].
  - intros r. apply hoare_map_err.
    eapply hoare_conseq; [by apply (hoare_flush_some (SP := linux_plan) _ _ k _ (ty, IfReadable))| |done].
    intros s Hs. cbn [slot_ok linux_plan]. unfold entry_ok. cbn [fst snd]. destruct r as [|l]; [by eauto|].
    destruct Hs. split; [done|]. left. by split.
Qed.

Lemma frame_write_file filename n : frame n (write_file filename).
Proof. unfold write_file. frame_tac. Qed.

Lemma frame_or_else {T} n (m m' : ST Buffer MemoryWriterError T) :
  frame n m -> frame n m' -> frame n (st_or_else m m').
Proof. intros. unfold st_or_else. frame_tac; done. Qed.
End stages.

(** ** The optional last stream *)

Section errless.
Context {St E : Type}.

Definition errless {T} (m : ST St E T) : Prop := forall s e, (m s).1 <> Err e.

Lemma errless_bind {T U} (m : ST St E T) (f : T -> ST St E U) :
  errless m -> (forall a, errless (f a)) -> errless (m ≫= f).
Proof.
  intros Hm Hf s e. unfold mbind, ST_bind. specialize (Hm s).
  destruct (m s) as [[a|e'|] s1]; cbn in *; [apply Hf|naive_solver|done].
Qed.

Lemma errless_ret {T} (a : T) : errless (mret a).
Proof. done. Qed.

Lemma errless_try {E' T} (m : ST St E' T) : errless (st_try m).
Proof. intros s e. unfold st_try. by destruct (m s) as [[] ?]. Qed.

Lemma errless_run {E' T} `{HasBuffer St} (conv : E' -> E) (m : ST Buffer E' T) :
  (forall b, exists a b', m b = (Ok a, b')) -> errless (st_map_err conv (on_buf m)).
Proof.
  intros Hm s e. destruct (Hm (get_buf s)) as (a & b' & Hr).
  unfold st_map_err. by rewrite (on_buf_run m s _ _ Hr).
Qed.
End errless.

Lemma extend_dirent_no_err {E} `{Target} d n (e : E) : extend_dirent d n <> Err e.
Proof. unfold extend_dirent, add_u, checked. by repeat case_match. Qed.

Section handle_data.
Context `{TG : Target} {F : Format} {FO : FormatOk F} {OS : Os} {A : Arch}.

Lemma errless_direntry dir nm : errless (direntry_to_descriptor dir nm).
Proof.
  unfold direntry_to_descriptor. destruct (filename_to_fd nm); [|apply errless_ret].
  destruct (fs_read_link _); [apply errless_ret|].
  apply errless_bind; [apply errless_try|]. intros []; [apply errless_ret|].
  destruct (file_stat _); apply errless_ret.
Qed.

Lemma errless_collect dir entries : errless (collect_descriptors dir entries).
Proof.
  induction entries as [|[nm|] entries IH]; cbn [collect_descriptors]; [apply errless_ret| |done].
  apply errless_bind; [apply errless_direntry|]. intros o.
  apply errless_bind; [done|]. intros ds. apply errless_ret.
Qed.

(** The stream fails only when the directory cannot be read, before anything is
    written. *)
Lemma handle_data_err s e s' : handle_data_write s = (Err e, s') -> s' = s.
Proof.
  unfold handle_data_write. cbv zeta.
  rewrite (st_bind_run get_config _ s (fst s) s) by done.
  set (rd := fs_read_dir _). set (rest := fun _ => _).
  intros Hrun. destruct rd as [e0|entries]; [by injection Hrun as _ <-|].
  exfalso. revert Hrun. match goal with |- ?m ?s0 = _ -> _ => enough (Hm : errless m) end.
  { intros Hrun. apply (Hm s e). by rewrite Hrun. }
  apply errless_bind; [done|]. intros l. subst rest. cbn beta.
  apply errless_bind; [apply errless_collect|]. intros ds. apply errless_bind.
  { apply errless_run. intros b. do 2 eexists. apply alloc_with_val_run. }
  intros h. apply errless_bind.
  { apply errless_run. intros b. do 2 eexists. rewrite alloc_from_iter_eq.
    apply alloc_from_array_run. }
  intros w s1 e1. apply extend_dirent_no_err.
Qed.
End handle_data.

(** ** The whole run *)

Section run.
Context `{TG : Target} {F : Format} {FO : FormatOk F}.
Context {OS : Os} {PF : Procfs} {G : Goblin} {A : Arch} {AO : ArchOk A}.
Context (fuel : nat) (dumper : PtraceDumper).

Notation hsz := (size_with MDRawHeader).
Notation dsz := (size_with MDRawDirectory).

Section streams.
Context (pre : list byte) (hdr : MDRawHeader).
Notation Clean := (Clean (C := MinidumpWriter) pre hdr).

Lemma Clean_inv k s : Clean k s -> exists j, Inv pre hdr j s.
Proof. intros []. by exists k. Qed.

Lemma last_stream :
  hoare (E := WriterError) pre hdr (Clean 16)
    (r ← st_try (on_writer id handle_data_write);
     match r with
     | inl _ => mret tt
     | inr dirent => _ ← st_try (flush (Some dirent)); mret tt
     end) (fun _ s => exists k, 16 <= k /\ Clean k s).
Proof.
  apply (hoare_bind pre hdr _ _ (fun r s => match r with
    | inr e => Inv pre hdr 16 s /\ placed (HandleDataStream stream_types) e (buf_len s)
    | inl _ => Clean 16 s end)).
  { apply hoare_try.
    - eapply hoare_conseq; [apply (hoare_writer pre hdr id 16 handle_data_write
        (placed (HandleDataStream stream_types)))|by intros s []|done].
      + intros n. by auto with mdw.
      + apply handle_data_placed.
    - intros [[c d] b] e s' Hc. unfold on_writer, st_map_err, st_zoom. cbn [fst snd].
      destruct (handle_data_write (c, b)) as [[a|e1|] [c' b']] eqn:Hrun; intros [= <- <-] _.
      apply handle_data_err in Hrun as [= -> ->]. exact Hc. }
  intros [e|e].
  - apply hoare_ret. intros s Hc. split; [by exists 16|by eapply Clean_inv].
  - apply (hoare_bind pre hdr _ _ (fun _ => Clean 17)).
    + assert (Ho : @plan linux_plan !! 16 = Some (HandleDataStream stream_types, Always)) by done.
      eapply hoare_conseq; [apply (hoare_try pre hdr _ _ (fun _ => Clean 17) (Clean 17))| |].
      * apply (hoare_flush_some (SP := linux_plan) pre hdr 16 e _ Ho).
      * intros s e1 s' [Hi He] Hrun _.
        destruct (flush_some_ok (SP := linux_plan) pre hdr 16 e _ s Ho Hi He) as [s1 Hok]. congruence.
      * intros s Hs. exact Hs.
      * by intros [].
    + intros _. apply hoare_ret. intros s Hc.
      split; [exists 17; split; [lia|done]|by eapply Clean_inv].
Qed.

Lemma write_streams_hoare :
  hoare pre hdr (Clean 0) (write_streams fuel dumper) (fun _ s => exists k, 16 <= k /\ Clean k s).
Proof.
  unfold write_streams.
  apply (hoare_bind pre hdr _ _ (fun _ => Clean 0)).
  { split; [apply st_rel_get; apply _|]. intros s Hc _. split; [by eapply Clean_inv|done]. }
  intros [[self d0] b0]. cbv zeta.
  apply (stage_stream (SP := linux_plan) pre hdr _ _ _ (ThreadListStream stream_types, Always));
    [done|by auto with mdw|apply thread_list_placed|].
  apply (stage_stream (SP := linux_plan) pre hdr _ _ _ (ModuleListStream stream_types, Always));
    [done|by auto with mdw|apply mappings_placed|].
  eapply hoare_bind.
  { eapply hoare_conseq;
      [apply (hoare_writer _ _ _ 2 app_memory_write (fun _ _ => True))|by intros s []|done].
    - by auto with mdw.
    - done. }
  intros ?. cbn beta. apply (hoare_bind pre hdr _ _ (fun _ => Clean 2)).
  { apply hoare_map_err. eapply hoare_conseq; [apply hoare_flush_none|by intros s []|done]. }
  intros _.
  apply (stage_stream (SP := linux_plan) pre hdr _ _ _ (MemoryListStream stream_types, Always));
    [done|by auto with mdw|apply memory_list_placed|].
  apply (stage_stream (SP := linux_plan) pre hdr _ _ _ (ExceptionStream stream_types, Always));
    [done|by auto with mdw|apply exception_placed|].
  apply (stage_stream (SP := linux_plan) pre hdr _ _ _ (SystemInfoStream stream_types, Always));
    [done|by auto with mdw|apply systeminfo_placed|].
  apply (stage_stream (SP := linux_plan) pre hdr _ _ _ (MemoryInfoListStream stream_types, Always));
    [done|by auto with mdw|apply memory_info_list_placed|].
  do 7 (eapply hoare_bind; [apply stage_file;
    [done|intros; try apply frame_or_else; apply frame_write_file
    |try apply or_else_yields; apply write_file_inside]|intros ?; cbn beta]).
  eapply hoare_bind.
  { eapply hoare_conseq; [apply (hoare_buf_try _ _ id 13
      (write_dso_debug_stream fuel (process_id self) (auxv dumper)) dso_placed)|by intros s []|done].
    - by auto with mdw.
    - apply dso_debug_placed. }
  intros r. apply (hoare_bind pre hdr _ _ (fun _ => Clean 14)).
  { apply hoare_map_err. eapply hoare_conseq; [by apply (hoare_flush_some (SP := linux_plan) pre hdr 13 _
      (LinuxDsoDebug stream_types, Dso))| |done].
    intros s Hs. cbn [slot_ok linux_plan]. unfold entry_ok. cbn [fst snd].
    destruct r as [|e]; [by auto|].
    destruct Hs. by auto. }
  intros _. eapply hoare_bind; [apply stage_file;
    [done|intros; apply frame_write_file|apply write_file_inside]|intros ?; cbn beta].
  apply (stage_stream (SP := linux_plan) pre hdr _ _ _ (ThreadNamesStream stream_types, Always));
    [done|by auto with mdw|apply thread_names_placed|].
  apply last_stream.
Qed.
End streams.

Definition dump_header (now : Z) : MDRawHeader :=
  header_of now (Z.of_nat (size_with MDRawHeader)).

Lemma generate_dump_start c f :
  generate_dump fuel dumper (c, f, mkBuffer []) =
  with_dir (start_dir f)
    (write_header (mkMemoryWriter (wrap 32 0) (size_with MDRawHeader));; write_streams fuel dumper)
    (c, f, start_buffer).
Proof.
  unfold generate_dump. by rewrite (dump_start (E := WriterError) WriterError_MemoryWriterError
    WriterError_FileWriterError).
Qed.

(** What [generate_dump] does to its destination, whatever it returns. *)
Lemma generate_dump_spec c f r c' f' b' :
  (0 <= cursor f <= Z.of_nat (length (contents f)))%Z -> (cursor f + 2 ^ 32 <= 2 ^ 64)%Z ->
  generate_dump fuel dumper (c, f, mkBuffer []) = (r, (c', f', b')) ->
  (Z.of_nat (length (inner b')) < 2 ^ 32)%Z ->
  match unix_time with
  | None => r = Err WriterError_SystemTimeError /\ f' = f
  | Some now => exists es n, dump_on_disk (before f) (dump_header now) es n (contents f') b' /\
      (r = Ok tt -> n = length (inner b') /\ 16 <= length es)
  end.
Proof.
  intros Hcur Hend. rewrite generate_dump_start. unfold with_dir. intros Hrun Hlt.
  destruct ((write_header _ ;; _) _) as [r0 [[c0 d0] b0]] eqn:Hrun' in Hrun.
  injection Hrun as <- <- <- <-.
  unfold write_header in Hrun'. rewrite st_bind_assoc in Hrun'.
  erewrite st_bind_run in Hrun' by reflexivity. cbn beta iota in Hrun'.
  rewrite st_bind_assoc in Hrun'.
  destruct unix_time as [now|]; [|by injection Hrun' as <- <- <- <-].
  erewrite st_bind_run in Hrun' by reflexivity. cbn beta in Hrun'.
  pose proof (write_streams_hoare (before f) (dump_header now)) as Hs.
  rewrite start_dir_position in Hrun' by (eapply dump_small; [apply Hs|exact Hrun'|exact Hlt]).
  destruct (dump_run_spec _ _ (dump_header now) 16 (write_streams fuel dumper) c f _ _ _ _
    Hcur Hend Hs Hrun' Hlt) as (es & n & Hd & Hok).
  exists es, n. split; [done|]. apply Hok.
Qed.
End run.

(** A machine on which every part of the dump succeeds: no threads, no
    mappings, no files. *)
#[export] Instance toy_procfs : Procfs := {|
  memory_maps_from _ := inr (inr []);
  memory_maps_from_file _ := inr [];
|}.

Definition bare_arch : Arch := {|
  RawContextCPU := unit;
  context_pod := pod_of 0 (fun _ => []);
  default_cpu := tt;
  CrashContext := unit;
  siginfo _ := mkSigInfo 11 1 0;
  cc_get_instruction_pointer _ := 0%Z;
  cc_get_stack_pointer _ := 0%Z;
  cc_fill_cpu_context _ c := Some c;
  ThreadInfo := unit;
  ti_create _ _ := Ok tt;
  ti_stack_pointer _ := 0%Z;
  ti_get_instruction_pointer _ := 0%Z;
  ti_fill_cpu_context _ c := Some c;
  skip_thread _ := false;
  write_cpu_information i := Ok i;
  os_information := (0x8201%Z, [76; 105]%Z);
|}.

Lemma bare_arch_ok : ArchOk bare_arch.
Proof. apply pod_of_ok. done. Qed.

Definition bare_dumper : PtraceDumper := mkDumper 7%Z true [] default_auxv [] 4096%Z.
Definition bare_config : @MinidumpWriter bare_arch := MinidumpWriter_new 7%Z 7%Z.
Definition bare_file : File := mkFile (le_split 3 0x030201) 3.

Local Notation bare_run :=
  (@generate_dump x64_release layout (toy_os (fun _ => None)) toy_procfs elf64 bare_arch
    File file_destination 10 bare_dumper (bare_config, bare_file, mkBuffer [])).

(** C2: the dump on disk.  On a destination on which every call succeeds, with its
    cursor inside or at the end of what it holds, for every process and
    configuration and every outcome of the stream writers, with a dump below
    4 GiB.  Unless the clock is before the epoch (then nothing is written), the
    destination ends up with the bytes it held before, the complete header and a
    directory of 17 slots with the entries of the streams written so far, in
    their fixed order, each of the right type and locating its stream inside the
    dump (an optional stream that could not be had leaves its entry zero), even
    when a stream writer fails or panics half way; a successful run has written
    at least the 16 mandatory entries and the whole buffer.  Destinations that
    fail are the subject of AnyDestination.v. *)
Theorem generate_dump_on_disk `{TG : Target} (F : Format) (FO : FormatOk F) (OS : Os)
    (PF : Procfs) (G : Goblin) (A : Arch) (AO : ArchOk A) (fuel : nat) (dumper : PtraceDumper)
    (c c' : MinidumpWriter) (f f' : File) (b' : Buffer) (r : res WriterError unit) :
  (0 <= cursor f <= Z.of_nat (length (contents f)))%Z -> (cursor f + 2 ^ 32 <= 2 ^ 64)%Z ->
  generate_dump fuel dumper (c, f, mkBuffer []) = (r, (c', f', b')) ->
  (Z.of_nat (length (inner b')) < 2 ^ 32)%Z ->
  match unix_time with
  | None => r = Err WriterError_SystemTimeError /\ f' = f
  | Some now => exists es n, dump_on_disk (before f) (dump_header now) es n (contents f') b' /\
      (r = Ok tt -> 16 <= length es <= 17 /\
         take (length (before f) + length (inner b')) (contents f') = before f ++ inner b')
  end.
Proof.
  intros Hcur Hend Hrun Hlt.
  pose proof (generate_dump_spec _ _ _ _ _ _ _ _ Hcur Hend Hrun Hlt) as Hspec.
  destruct unix_time as [now|]; [|done]. destruct Hspec as (es & n & Hd & Hok).
  exists es, n. split; [done|]. intros Hr. destruct (Hok Hr) as [-> H16].
  split; [|by eapply dump_on_disk_prefix].
  destruct Hd as (_ & _ & _ & _ & _ & He). apply Forall2_length in He.
  rewrite length_take in He. cbn [length plan linux_plan stream_order] in He. lia.
Qed.

Lemma generate_dump_on_disk_witness :
  exists c' f' b', bare_run = (Ok tt, (c', f', b')) /\
    exists es n, @dump_on_disk layout (@linux_plan layout) (le_split 3 0x030201) (@dump_header layout 1700000000) es n
      (contents f') b'.
Proof.
  exists bare_run.2.1.1, bare_run.2.1.2, bare_run.2.2.
  assert (Hrun : bare_run = (Ok tt, (bare_run.2.1.1, bare_run.2.1.2, bare_run.2.2))).
  { assert (H1 : bare_run.1 = Ok tt) by (vm_compute; reflexivity).
    rewrite <- H1. by destruct bare_run as [? [[? ?] ?]]. }
  split; [exact Hrun|].
  assert (H1 : (0 <= cursor bare_file <= Z.of_nat (length (contents bare_file)))%Z)
    by (vm_compute; split; discriminate).
  assert (H2 : (cursor bare_file + 2 ^ 32 <= 2 ^ 64)%Z) by (vm_compute; discriminate).
  assert (H3 : (Z.of_nat (length (inner bare_run.2.2)) < 2 ^ 32)%Z) by (vm_compute; reflexivity).
  pose proof (@generate_dump_on_disk x64_release layout layout_ok (toy_os (fun _ => None))
    toy_procfs elf64 bare_arch bare_arch_ok 10 bare_dumper bare_config bare_run.2.1.1 bare_file
    bare_run.2.1.2 bare_run.2.2 (Ok tt) H1 H2 Hrun H3) as Hd.
  destruct Hd as (es & n & Hd & _). exists es, n. exact Hd.
Defined.
