(* ===== verification/DumpLife.v ===== *)
(** * The life cycle of a dump

    [MinidumpWriter::dump] (src/src/linux/minidump_writer.rs) as a whole: which
    calls of kill(2) are made, which threads stay traced, and how the returned
    bytes relate to the destination. *)
From Stdlib Require Import ZArith Lia String.
From stdpp Require Import gmap.
From S2P Require Import Prelude Format Layout MemWriter DirSection Driver DumpPlan RustStr Errors.
From S2P Require Import Os MemReader ModuleReader MapsReader Auxv Arch PtraceDumper.
From S2P Require Import Config Streams ThreadListStream MappingsStream DsoDebug.
From S2P Require Import MinidumpWriter StreamSpec ElfLayout DumpSpec SuspendSpec.

Local Open Scope Z_scope.
Local Notation length := List.length.
Local Notation File := DirSection.File.

Section signals.
Context {K : Type} `{KO : KernelOk K}.

Lemma stop_loop_kills fuel f e : forall k : K, kills (stop_loop fuel f e k).2 = kills k.
Proof.
  induction fuel as [|fuel IH]; intros k; cbn [stop_loop]; [done|].
  destruct (proc_stopped f k) as [r k1] eqn:Es. apply stopped_law in Es as (_ & _ & Hs).
  destruct r as [[]|e1|]; cbn [snd]; try done.
  pose proof (proj2 (now_law (sleep POLL_INTERVAL k1))) as Hn.
  pose proof (proj2 (sleep_law POLL_INTERVAL k1)) as Hsl.
  destruct (instant_now (sleep POLL_INTERVAL k1)) as [now k2]. cbn [snd] in Hn.
  destruct (e <? now); cbn [snd]; rewrite ?IH; congruence.
Qed.

Lemma stop_process_kills fuel p timeout (k : K) :
  exists b, kills (stop_process fuel p timeout k).2 = kills k ++ [(p, SIGSTOP, b)].
Proof.
  unfold stop_process, mbind, ST_bind, st_map_err.
  destruct (kill p SIGSTOP k) as [r k1] eqn:Ek. apply kill_law in Ek as (Hp & _ & Hs).
  exists (succeeded r). destruct r; cbn [snd]; [|done|done].
  pose proof (proj2 (now_law k1)) as Hn. cbn beta. destruct (instant_now k1) as [now k2].
  etransitivity; [apply stop_loop_kills|]. cbn [snd] in Hn. congruence.
Qed.

Lemma continue_kills p (k : K) :
  exists b, kills (continue_process p k).2 = kills k ++ [(p, SIGCONT, b)] /\
  attached (continue_process p k).2 = attached k.
Proof.
  unfold continue_process, st_map_err. destruct (kill p SIGCONT k) as [r k1] eqn:Ek.
  apply kill_law in Ek as (_ & Ha & Hs). exists (succeeded r). by destruct r.
Qed.

Lemma continue_attached p (k : K) : attached (continue_process p k).2 = attached k.
Proof. by destruct (continue_kills p k) as (b & _ & ?). Qed.

Lemma resume_kills d (k : K) :
  kills (resume_threads (d, k)).2.2 = kills k /\ pid (resume_threads (d, k)).2.1 = pid d /\
  attached (resume_threads (d, k)).2.2 ⊆ attached k.
Proof.
  unfold resume_threads. destruct (threads_suspended d); [|done].
  destruct (resume_loop (threads d) (Ok tt) k) as [r k'] eqn:E.
  apply resume_loop_ok in E as (_ & Ha & _ & Hs & _); done.
Qed.

Lemma drop_kills d (k : K) : exists b, kills (drop_dumper d k) = kills k ++ [(pid d, SIGCONT, b)].
Proof.
  unfold drop_dumper. destruct (resume_kills d k) as (Hs & Hp & _).
  destruct (resume_threads (d, k)) as [r [d1 k1]]. cbn in Hs, Hp.
  destruct (continue_kills (pid d1) k1) as (b & Hk & _). exists b. congruence.
Qed.
End signals.

(** [suspend_threads] and [init] call kill(2) only once, to stop the process. *)
Section discovery.
Context `{TG : Target} {OS : Os} {PF : Procfs} {A : Arch} {K : Type} `{KO : KernelOk K}.

Lemma retain_kills fuel ts : forall k : K, kills (retain_suspended fuel ts k).2 = kills k.
Proof.
  induction ts as [|t ts IH]; intros k; cbn [retain_suspended]; [done|].
  unfold mbind, ST_bind, st_try.
  destruct (suspend_thread fuel (tid t) k) as [r k1] eqn:E.
  apply suspend_thread_ok in E as [(_ & _ & Hs) _].
  pose proof (IH k1) as Hk1.
  destruct r; [| |done]; destruct (retain_suspended fuel ts k1) as [[] k2];
    cbn [snd] in *; cbn; congruence.
Qed.

Lemma suspend_kills fuel d (k : K) :
  kills (suspend_threads fuel (d, k)).2.2 = kills k /\ pid (suspend_threads fuel (d, k)).2.1 = pid d.
Proof.
  unfold suspend_threads. pose proof (retain_kills fuel (threads d) k) as Hs.
  destruct (retain_suspended fuel (threads d) k) as [[[]| |] k1]; by cbn in *.
Qed.

(** The steps of [init] after [stop_process] only change the dumper. *)
Definition keeps_target (s s' : PtraceDumper * K) : Prop :=
  pid s'.1 = pid s.1 /\ kills s'.2 = kills s.2.

#[local] Instance keeps_target_preorder : PreOrder keeps_target.
Proof. unfold keeps_target. split; [by intros ?|]. intros ? ? ? [] []. split; congruence. Qed.

Lemma on_dumper_keeps {E T} (m : ST PtraceDumper E T) :
  st_rel (fun d d' => pid d' = pid d) m -> st_rel keeps_target (on_dumper m).
Proof.
  intros Hm [d k]. specialize (Hm d). unfold on_dumper, st_zoom. cbn.
  destruct (m d). by split.
Qed.

Lemma enumerate_threads_pid : st_rel (fun d d' => pid d' = pid d) enumerate_threads.
Proof. intros d. unfold enumerate_threads. by repeat case_match. Qed.

Lemma enumerate_mappings_pid : st_rel (fun d d' => pid d' = pid d) enumerate_mappings.
Proof. intros d. unfold enumerate_mappings. by repeat case_match. Qed.

Lemma init_kills fuel timeout d (k : K) :
  (exists b, kills (init fuel timeout (d, k)).2.2 = kills k ++ [(pid d, SIGSTOP, b)]) /\
  pid (init fuel timeout (d, k)).2.1 = pid d.
Proof.
  unfold init. rewrite (st_bind_run _ _ _ (d, k) (d, k)) by done. cbn [fst].
  assert (Hstop : exists o k1, st_try (E' := InitError) (on_kernel (stop_process fuel (pid d) timeout))
    (d, k) = (o, (d, k1)) /\ exists b, kills k1 = kills k ++ [(pid d, SIGSTOP, b)]).
  { pose proof (stop_process_kills fuel (pid d) timeout k) as Hs.
    unfold st_try, on_kernel, st_zoom. cbn [fst snd].
    destruct (stop_process fuel (pid d) timeout k) as [[] k1]; eauto. }
  destruct Hstop as (o & k1 & Hstop & [b Hs]).
  rewrite (st_bind_case _ _ _ _ _ Hstop).
  assert (Hrest : st_rel keeps_target
    (_ ← st_try (on_dumper (st_zoom auxv set_auxv (try_filling_missing_info (pid d))));
     _ ← on_dumper enumerate_threads;
     _ ← on_dumper enumerate_mappings;
     match sysconf_page_size with
     | inl e => st_lift (Err (InitError_PageSizeError e))
     | inr None => st_lift Panic
     | inr (Some n) => st_modify (fun s : PtraceDumper * K => (set_page_size n (fst s), snd s))
     end)).
  { apply st_rel_bind; [apply _|apply st_rel_try, on_dumper_keeps|intros _].
    { intros d1. unfold st_zoom. by destruct (try_filling_missing_info _ _). }
    apply st_rel_bind; [apply _|apply on_dumper_keeps, enumerate_threads_pid|intros _].
    apply st_rel_bind; [apply _|apply on_dumper_keeps, enumerate_mappings_pid|intros _].
    destruct sysconf_page_size as [|[n|]]; [by apply st_rel_lift; apply _| |
      by apply st_rel_lift; apply _]. by intros [d1 k2]. }
  destruct o as [o|e|]; [|split; [exists b; exact Hs|reflexivity]..].
  destruct (Hrest (d, k1)) as [H1 H2]. cbn [fst snd] in H1, H2. split; [exists b|]; congruence.
Qed.
End discovery.

Section dump.
Context `{TG : Target} {F : Format} {OS : Os} {PF : Procfs} {G : Goblin} {A : Arch}.
Context {W : Type} `{Destination W} {K : Type} `{KO : KernelOk K} {LI : LateInit} {LO : LateInitOk LI}.

Notation State := (MinidumpWriter * W * (PtraceDumper * K))%type.

Definition silent (s s' : State) : Prop := keeps_target s.2 s'.2.

#[local] Instance silent_preorder : PreOrder silent.
Proof. unfold silent, keeps_target. split; [by intros ?|]. intros ? ? ? [] []. split; congruence. Qed.

Lemma on_target_silent {E E' T} (conv : E -> E') (m : ST (PtraceDumper * K) E T) :
  st_rel keeps_target m -> st_rel silent (on_target (W := W) conv m).
Proof.
  intros Hm. apply st_rel_map_err. intros [cw t]. specialize (Hm t). unfold st_zoom. cbn [fst snd].
  by destruct (m t).
Qed.

Lemma check_silent fuel : st_rel silent (check_principal_mapping fuel).
Proof.
  unfold check_principal_mapping. apply st_rel_bind; [apply _|apply st_rel_get; apply _|].
  intros [[self w] [d k]]. destruct (skip_stacks_if_mapping_unreferenced self);
    [|apply st_rel_ret; apply _].
  cbv zeta. apply st_rel_bind; [apply _|by intros s|intros _].
  apply st_rel_bind; [apply _|apply st_rel_lift; apply _|].
  intros []; [apply st_rel_ret|apply st_rel_lift]; apply _.
Qed.

Lemma generate_silent fuel : st_rel silent (generate_on_new_buffer fuel).
Proof.
  intros [[self w] [d k]]. unfold generate_on_new_buffer.
  by destruct (generate_dump fuel d (self, w, with_capacity 0)) as [r [[c' w'] b]].
Qed.

Lemma late_silent : st_rel keeps_target (late_init (K := K)).
Proof.
  intros [d k]. unfold late_init. destruct (late_process d) as [d'|e|] eqn:Hd; [|done..].
  by apply late_keeps in Hd as [ms ->].
Qed.

Lemma dump_stopped_silent fuel : st_rel silent (dump_stopped fuel).
Proof.
  unfold dump_stopped.
  apply st_rel_bind; [apply _|apply on_target_silent|intros _].
  { intros [d k]. destruct (suspend_kills fuel d k). by split. }
  apply st_rel_bind; [apply _|apply on_target_silent, late_silent|intros _].
  apply st_rel_bind; [apply _|apply check_silent|intros _].
  apply st_rel_bind; [apply _|apply generate_silent|intros bytes].
  apply st_rel_bind; [apply _|apply on_target_silent|intros _; apply st_rel_ret; apply _].
  intros [d k]. destruct (resume_kills d k) as (? & ? & _). by split.
Qed.

Lemma new_kills fuel p timeout av (k : K) :
  p <> process_id_self ->
  match PtraceDumper_new fuel p timeout av k with
  | (Ok d, k') => pid d = p /\ exists b, kills k' = kills k ++ [(p, SIGSTOP, b)]
  | (_, k') => exists b b', kills k' = kills k ++ [(p, SIGSTOP, b); (p, SIGCONT, b')]
  end.
Proof.
  intros Hp. unfold PtraceDumper_new. rewrite (proj2 (Z.eqb_neq _ _) Hp).
  destruct (init_kills fuel timeout (mkDumper p false [] av [] 0) k) as [[b Hs] Hpid].
  destruct (init fuel timeout _) as [r [d k']]. cbn [fst snd pid] in Hs, Hpid.
  destruct (drop_kills d k') as [b' Hd].
  destruct r; [by eauto|..]; exists b, b'; by rewrite Hd, Hs, Hpid, <- app_assoc.
Qed.
End dump.

(** ** A process with one thread *)

(** Every directory lists the one entry 7; there are no readable files. *)
Definition one_thread_os : Os := {|
  process_vm_readv _ _ _ := inl 14;
  open_mem _ := inl (OsError EACCES);
  read_exact_at _ _ _ := inl (OsError EACCES);
  ptrace_read _ _ := inl ESRCH;
  alloc_succeeds _ := true;
  fs_read _ := inl (OsError 2);
  fs_open _ := inl (OsError 2);
  fs_mmap _ _ := inl (OsError 2);
  fs_exists _ := false;
  fs_is_dir _ := true;
  fs_read_dir _ := inr [Some [Byte.x37]];
  fs_read_link _ := inl (OsError 2);
  fs_metadata_mode _ := inl (OsError 2);
  process_id_self := 1;
  sysconf_page_size := inr (Some 4096);
  unix_time := Some 1700000000;
|}.

Local Notation one_thread_dump :=
  (@dump x64_release layout one_thread_os toy_procfs elf64 bare_arch File file_destination 400
     ToyKernel toy_kernel linux_late_init (bare_config, bare_file, toy_start)).

(** C12: whatever the outcome of [dump], also on errors and panics at any point,
    it calls kill(2) exactly twice, whether or not these calls succeed: first with
    SIGSTOP and at the end with SIGCONT, both for the process to be dumped and
    for no other; asked to dump itself, the process is refused before any call. *)
Theorem dump_signals `{TG : Target} (F : Format) (OS : Os) (PF : Procfs) (G : Goblin) (A : Arch)
    {W : Type} `{DW : Destination W} {K : Type} `{KO : KernelOk K}
    {LI : LateInit} {LO : LateInitOk LI} (fuel : nat)
    (self : MinidumpWriter) (w : W) (k : K) :
  let k' := (dump fuel (self, w, k)).2.2 in
  if decide (process_id self = process_id_self) then kills k' = kills k
  else exists stopped continued, kills k' = kills k ++
    [(process_id self, SIGSTOP, stopped); (process_id self, SIGCONT, continued)].
Proof.
  cbv zeta. unfold dump. case_decide as Hp.
  { unfold PtraceDumper_new. by rewrite Hp, Z.eqb_refl. }
  set (av := match direct_auxv_dump_info self with Some info => _ | None => _ end).
  pose proof (new_kills fuel (process_id self) (stop_timeout self) av k Hp) as Hn.
  destruct (PtraceDumper_new _ _ _ av k) as [[d|e|] k1]; [|exact Hn|exact Hn].
  destruct Hn as [Hd [b Hs]].
  pose proof (dump_stopped_silent fuel (self, w, (d, k1))) as [Hpid Hsent].
  destruct (dump_stopped fuel (self, w, (d, k1))) as [r [[c' w'] [d' k2]]].
  cbn [fst snd] in *. destruct (drop_kills d' k2) as [b' Hdrop]. exists b, b'.
  by rewrite Hdrop, Hpid, Hsent, Hs, Hd, <- app_assoc.
Qed.

Lemma dump_signals_witness :
  exists stopped continued,
    toy_kills (one_thread_dump.2.2) = [(7, SIGSTOP, stopped); (7, SIGCONT, continued)].
Proof.
  exact (@dump_signals x64_release layout one_thread_os toy_procfs elf64 bare_arch File
    file_destination ToyKernel toy_kernel toy_kernel_ok linux_late_init linux_late_init_ok 400 bare_config
    bare_file toy_start).
Defined.

(** C13: dropping the dumper (which happens on every exit of [dump]) calls kill(2)
    once, with SIGCONT for the process (a failure of that call is ignored), and
    traces nothing new; when every detach either succeeds or finds the thread
    gone, no thread the dumper had suspended stays traced. *)
Theorem drop_releases {K : Type} `{KO : KernelOk K} (d : PtraceDumper) (k : K) :
  (exists continued, kills (drop_dumper d k) = kills k ++ [(pid d, SIGCONT, continued)]) /\
  attached (drop_dumper d k) ⊆ attached k /\
  (detach_complies (K := K) -> threads_suspended d = true ->
   attached (drop_dumper d k) = attached k ∖ tids (threads d)).
Proof.
  split; [apply drop_kills|]. unfold drop_dumper.
  destruct (resume_kills d k) as (_ & _ & Hsub). split.
  - destruct (resume_threads (d, k)) as [r [d1 k1]]. by rewrite continue_attached.
  - intros Hd Hs. unfold resume_threads. rewrite Hs.
    destruct (resume_loop (threads d) (Ok tt) k) as [r k1] eqn:E.
    rewrite continue_attached. apply resume_loop_ok in E as (_ & _ & _ & _ & Hr); [|done].
    by apply Hr.
Qed.

Lemma drop_releases_witness :
  threads_suspended (set_threads_suspended true two_threads) = true /\
  toy_attached (drop_dumper (set_threads_suspended true two_threads) (mkToy {[7; 8; 9]} [] 0)) =
    {[7; 8; 9]} ∖ tids (threads two_threads).
Proof.
  split; [reflexivity|].
  destruct (@drop_releases ToyKernel toy_kernel toy_kernel_ok
    (set_threads_suspended true two_threads) (mkToy {[7; 8; 9]} [] 0)) as (_ & _ & Hr).
  apply Hr; [intros p k e He; discriminate He|reflexivity].
Defined.

(** [raises P m s]: an error of [m] from [s] satisfies [P]. *)
Definition raises {St E T} (P : E -> Prop) (m : ST St E T) (s : St) : Prop :=
  match (m s).1 with Err e => P e | _ => True end.

Lemma raises_bind {St E T U} (P : E -> Prop) (m : ST St E T) (f : T -> ST St E U) :
  (forall s, raises P m s) -> (forall a s, raises P (f a) s) -> forall s, raises P (m ≫= f) s.
Proof.
  intros Hm Hf s. specialize (Hm s). unfold raises, mbind, ST_bind in *.
  destruct (m s) as [[a|e|] s1]; cbn in *; [apply Hf|done|done].
Qed.

Lemma raises_map_err {St E E' T} (P : E' -> Prop) (conv : E -> E') (m : ST St E T) :
  (forall e, P (conv e)) -> forall s, raises P (st_map_err conv m) s.
Proof. intros HP s. unfold raises, st_map_err. by destruct (m s) as [[] ?]; cbn. Qed.

Lemma raises_try {St E E' T} (P : E' -> Prop) (m : ST St E T) :
  forall s, raises P (st_try m) s.
Proof. intros s. unfold raises, st_try. by destruct (m s) as [[] ?]. Qed.

(** An error that is not one of the phase before the dump is generated. *)
Definition late (e : WriterError) : Prop :=
  match e with WriterError_InitError _ => False | _ => True end.

Ltac raises_tac :=
  repeat lazymatch goal with
  | |- forall _, raises _ (_ ≫= _) _ => apply raises_bind
  | |- forall _, raises _ (flush_some _) _ => unfold flush_some
  | |- forall _, raises _ (file_stream _ _) _ => unfold file_stream
  | |- forall _, raises _ (on_writer _ _) _ => unfold on_writer
  | |- forall _, raises _ (on_dump_buf _ _) _ => unfold on_dump_buf
  | |- forall _, raises _ (st_map_err _ _) _ => apply raises_map_err; done
  | |- forall _, raises _ (st_try _) _ => apply raises_try
  | |- forall _, raises _ (st_lift (ok_or ?o _)) _ => by destruct o
  | |- forall _, raises _ (mret _) _ => done
  | |- forall _, raises _ st_get _ => done
  | |- forall _, raises _ (match ?x with _ => _ end) _ => destruct x
  | |- forall _, _ => intros ?; cbv zeta beta
  end.

(** What [dump] returns is what it wrote. *)
Section bytes.
Context `{TG : Target} {F : Format} {FO : FormatOk F} {OS : Os} {PF : Procfs} {G : Goblin}.
Context {A : Arch} {AO : ArchOk A} {K : Type} `{Kernel K} {LI : LateInit}.

Lemma check_file fuel (s : MinidumpWriter * File * (PtraceDumper * K)) :
  (check_principal_mapping fuel s).2.1.2 = s.1.2.
Proof.
  destruct s as [[self w] [d k]]. unfold check_principal_mapping, mbind, ST_bind, st_get. cbn.
  destruct (skip_stacks_if_mapping_unreferenced self); [|done]. cbn.
  by destruct (crash_thread_references_principal_mapping _ _ _) as [[]| |].
Qed.

Lemma on_target_file {E E' T} (conv : E -> E') (m : ST (PtraceDumper * K) E T)
    (s : MinidumpWriter * File * (PtraceDumper * K)) r s' :
  on_target conv m s = (r, s') -> s'.1 = s.1 /\ forall e, r = Err e -> exists e0, e = conv e0.
Proof.
  unfold on_target, st_map_err, st_zoom. destruct (m (snd s)) as [[a|e|] t'];
    intros [= <- <-]; split; try done; intros ? [= <-]; eauto.
Qed.

(** The relation between the outcome and the destination. *)
Definition wrote (f : File) (r : res WriterError (list byte)) (f' : File) : Prop :=
  match r with
  | Ok bytes => Z.of_nat (length bytes) < 2 ^ 32 ->
      take (length (before f) + length bytes) (contents f') = before f ++ bytes
  | Err (WriterError_InitError _) => f' = f
  | _ => True
  end.

Lemma streams_no_init_error fuel dumper s : raises late (generate_dump (W := File) fuel dumper) s.
Proof.
  revert s. unfold generate_dump. apply raises_bind; [by apply raises_map_err|intros hs].
  apply raises_bind; [by apply raises_map_err|intros ds]. intros [[c w] b].
  assert (Hm : forall s, raises late (write_header hs;; write_streams fuel dumper) s).
  { apply raises_bind; [|intros _]; unfold write_header, write_streams; raises_tac. }
  specialize (Hm (c, ds, b)). unfold raises, with_dir in *.
  by destruct ((write_header hs;; write_streams fuel dumper) (c, ds, b)) as [[] [[? ?] ?]].
Qed.

Lemma dump_stopped_wrote fuel (s : MinidumpWriter * File * (PtraceDumper * K)) r s' :
  0 <= cursor s.1.2 <= Z.of_nat (length (contents s.1.2)) -> cursor s.1.2 + 2 ^ 32 <= 2 ^ 64 ->
  dump_stopped fuel s = (r, s') -> wrote s.1.2 r s'.1.2.
Proof.
  intros Hcur Hend. unfold dump_stopped.
  destruct (on_target WriterError_DumperError (suspend_threads fuel) s) as [r1 s1] eqn:E1.
  rewrite (st_bind_case _ _ _ _ _ E1). apply on_target_file in E1 as [Hf1 He1].
  destruct r1 as [u1|e1|]; [|intros [= <- <-]..]; [|by destruct (He1 e1 eq_refl) as [? ->]|done].
  destruct (on_target WriterError_InitError late_init s1) as [r2 s2] eqn:E2.
  rewrite (st_bind_case _ _ _ _ _ E2). apply on_target_file in E2 as [Hf2 He2].
  destruct r2 as [u2|e2|]; [|intros [= <- <-]..]; [|destruct (He2 e2 eq_refl) as [? ->]; cbn; congruence|done].
  pose proof (check_file fuel s2) as Hf3.
  destruct (check_principal_mapping fuel s2) as [r3 s3] eqn:E3.
  rewrite (st_bind_case _ _ _ _ _ E3). cbn [snd] in Hf3.
  assert (Hf : s3.1.2 = s.1.2) by congruence.
  destruct r3 as [u3|e3|]; [|intros [= <- <-]; by destruct e3|by intros [= <- <-]].
  destruct (generate_on_new_buffer fuel s3) as [r4 s4] eqn:E4.
  rewrite (st_bind_case _ _ _ _ _ E4).
  destruct s3 as [[self w] [d k]]. unfold generate_on_new_buffer in E4.
  cbn [fst snd] in Hf. subst w.
  destruct (generate_dump fuel d _) as [r5 [[c' w'] b]] eqn:E5.
  destruct r5 as [[]|e5|]; injection E4 as <- <-; [| |by intros [= <- <-]]; cycle 1.
  { intros [= <- <-]. cbn. destruct e5; try done. pose proof (streams_no_init_error fuel d (self, s.1.2, with_capacity 0)) as Hl.
    unfold raises in Hl. by rewrite E5 in Hl. }
  destruct (on_target (W := File) WriterError_DumperError resume_threads (c', w', (d, k)))
    as [r6 s6] eqn:E6.
  rewrite (st_bind_case _ _ _ _ _ E6). apply on_target_file in E6 as [Hf6 He6].
  destruct r6 as [u6|e6|]; intros [= <- <-]; [|by destruct (He6 e6 eq_refl) as [? ->]|done].
  cbn. intros Hlt. rewrite Hf6. cbn [fst snd].
  pose proof (generate_dump_spec _ _ _ _ _ _ _ _ Hcur Hend E5 Hlt) as Hspec.
  destruct unix_time as [now|]; [|by destruct Hspec].
  destruct Hspec as (es & n & Hd & Hok). destruct (Hok eq_refl) as [-> _].
  by eapply dump_on_disk_prefix.
Qed.
End bytes.

(** the destination after [dump].  When [dump] succeeds it returns exactly
    the bytes it wrote: the destination holds what it held before, followed by
    the returned dump.  When the target cannot be examined (every [InitError],
    the refusal to dump an unreferenced principal mapping included) the
    destination is untouched. *)
Theorem dump_returns_what_it_wrote `{TG : Target} (F : Format) (FO : FormatOk F) (OS : Os)
    (PF : Procfs) (G : Goblin) (A : Arch) (AO : ArchOk A) {K : Type} `{KK : Kernel K} {LI : LateInit}
    (fuel : nat) (self self' : MinidumpWriter) (f f' : File) (k k' : K) (r : res WriterError (list byte)) :
  0 <= cursor f <= Z.of_nat (length (contents f)) -> cursor f + 2 ^ 32 <= 2 ^ 64 ->
  dump fuel (self, f, k) = (r, (self', f', k')) ->
  match r with
  | Ok bytes => Z.of_nat (length bytes) < 2 ^ 32 ->
      take (length (before f) + length bytes) (contents f') = before f ++ bytes
  | Err (WriterError_InitError _) => f' = f
  | _ => True
  end.
Proof.
  intros Hcur Hend. unfold dump.
  destruct (PtraceDumper_new _ _ _ _ k) as [[d|e|] k1]; [|by intros [= <- <- <- <-]..].
  destruct (dump_stopped fuel _) as [r0 [[c0 f0] [d0 k0]]] eqn:Hd. intros [= <- <- <- <-].
  exact (dump_stopped_wrote fuel (self, f, (d, k1)) _ _ Hcur Hend Hd).
Qed.

Lemma dump_returns_what_it_wrote_witness :
  exists bytes f', one_thread_dump.1 = Ok bytes /\ one_thread_dump.2.1.2 = f' /\
    take (3 + length bytes) (contents f') = le_split 3 0x030201 ++ bytes.
Proof.
  assert (Hcur : 0 <= cursor bare_file <= Z.of_nat (length (contents bare_file)))
    by (vm_compute; split; discriminate).
  assert (Hend : cursor bare_file + 2 ^ 32 <= 2 ^ 64) by (vm_compute; discriminate).
  assert (Hok : match one_thread_dump.1 with
                | Ok bytes => (Z.of_nat (length bytes) <? 2 ^ 32) = true
                | _ => False
                end) by (vm_compute; reflexivity).
  destruct one_thread_dump as [r [[self' f'] k']] eqn:Hrun. cbn [fst snd] in Hok |- *.
  pose proof (@dump_returns_what_it_wrote x64_release layout layout_ok one_thread_os toy_procfs
    elf64 bare_arch bare_arch_ok ToyKernel toy_kernel linux_late_init 400 bare_config self' bare_file f' toy_start
    k' r Hcur Hend Hrun) as Hw.
  destruct r as [bytes|e|]; [|destruct Hok|destruct Hok].
  exists bytes, f'. split; [reflexivity|]. split; [reflexivity|].
  exact (Hw (proj1 (Z.ltb_lt _ _) Hok)).
Defined.
