(* ===== verification/ModuleListSpec.v ===== *)
(** * What the module list contains

    The contents of the stream of [mappings::write]
    (src/src/linux/sections/mappings.rs): which mappings become modules, and what
    the record of a module says. *)
From Stdlib Require Import ZArith Lia String.
From S2P Require Import Prelude Format Layout MemWriter DirSection Driver DumpPlan Slots Ensures.
From S2P Require Import RustStr Text Errors Os MemReader ModuleReader MapsReader Auxv Arch PtraceDumper.
From S2P Require Import Config Streams MappingsStream DumpSpec ElfLayout.

Local Open Scope Z_scope.
Local Notation length := List.length.

Section picks.
Context `{TG : Target} {OS : Os} {G : Goblin} {A : Arch}.

(** A mapping that becomes a module, with its build id and its SONAME. *)
Definition Pick : Type := MappingInfo * list byte * option RString.

(** Whether the mapping becomes a module: it is interesting, not part of a
    mapping the caller supplied, and has a build id that is not zero. *)
Definition module_pick {E} (dumper : PtraceDumper) (user_list : list MappingEntry) (idx : nat)
    (m : MappingInfo) : res E (option Pick) :=
  skip ← (if negb (is_interesting m) then Ok true else is_contained_in m user_list);
  if skip : bool then Ok None else
  identifier ← mapping_build_id dumper idx m;
  if bool_decide (identifier = []) || all_zero identifier then Ok None else
  soname ← res_ok (from_process_memory_for_index SoName_read_from_module dumper idx);
  Ok (Some (m, identifier, soname)).

Lemma module_pick_mapping {E} dumper users i m p :
  module_pick (E := E) dumper users i m = Ok (Some p) -> p.1.1 = m.
Proof.
  unfold module_pick. destruct (if negb _ then _ else _) as [[]| |]; cbn; try done.
  destruct (mapping_build_id dumper i m) as [id| |]; cbn; try done.
  destruct (_ || _); [done|].
  destruct (res_ok _); cbn; try done. by intros [= <-].
Qed.

Fixpoint module_picks {E} (dumper : PtraceDumper) (user_list : list MappingEntry) (idx : nat)
    (ms : list MappingInfo) : res E (list Pick) :=
  match ms with
  | [] => Ok []
  | m :: ms' =>
      o ← module_pick dumper user_list idx m;
      rest ← module_picks dumper user_list (S idx) ms';
      Ok (match o with Some p => p :: rest | None => rest end)
  end.

Definition user_pick (u : MappingEntry) : Pick := (mapping u, identifier u, None).

(** What the record [v] of a module says in the bytes [l]. *)
Definition module_record {F : Format} (lo : nat) (l : list byte) (p : Pick) (v : MDRawModule) : Prop :=
  let '(m, identifier, soname) := p in
  exists file_path fname version,
    get_mapping_effective_path_name_and_version m soname = Ok (file_path, fname, version) /\
    base_of_image v = start_address m /\ size_of_image v = wrap 32 (size m) /\
    version_info v = version_info_of version /\
    stands lo l (module_name_rva v) (string_bytes (to_string_lossy file_path)) /\
    (if decide (identifier = []) then cv_record v = default_location
     else data_size (cv_record v) = Z.of_nat (4 + length identifier) /\
          stands lo l (rva (cv_record v)) (le_split 4 CvSignature_Elf ++ identifier)).

Lemma module_record_kept {F : Format} lo hi lo' l l' p v :
  kept_outside lo hi l l' -> (hi <= lo')%nat -> module_record lo' l p v -> module_record lo' l' p v.
Proof.
  intros Hk Hhi. destruct p as [[m i] s]. intros (fp & fn & ver & He & Hb & Hs & Hv & Hn & Hc).
  exists fp, fn, ver. split_and!; [done..|by eapply stands_kept|].
  case_decide; [done|]. destruct Hc. split; [done|]. by eapply stands_kept.
Qed.

Lemma module_record_weaken {F : Format} lo lo' l p v :
  (lo' <= lo)%nat -> module_record lo l p v -> module_record lo' l p v.
Proof.
  intros Hlo. destruct p as [[m i] s]. intros (fp & fn & ver & He & Hb & Hs & Hv & Hn & Hc).
  exists fp, fn, ver. split_and!; [done..|by eapply stands_weaken|].
  case_decide; [done|]. destruct Hc. split; [done|]. by eapply stands_weaken.
Qed.
End picks.

Section records.
Context `{TG : Target} {F : Format} {FO : FormatOk F} {OS : Os} {G : Goblin} {A : Arch}.

Lemma encode_all_u8 bs : encode_all (U8 <$> bs) = bs.
Proof.
  unfold encode_all. rewrite <- list_fmap_compose.
  induction bs as [|x bs IH]; [done|]. cbn [fmap list_fmap concat]. unfold compose. rewrite encode_u8.
  cbn [app]. f_equal. exact IH.
Qed.

(** The signature and the identifier, written byte by byte. *)
Definition sig_body (w : MemoryArrayWriter u8) (index : nat) (val : byte)
    : Writer SectionMappingsError unit :=
  buf_map (set_value_at w (U8 val) index).

Definition sig_writer (sig : list byte) : Writer SectionMappingsError MDLocationDescriptor :=
  sig_section ← buf_map (alloc_array u8 (length sig));
  st_for_enum 0 sig (sig_body sig_section);;
  mret (maw_location sig_section).

Lemma sig_writer_ok sig c b loc c' b' :
  sig_writer sig (c, b) = (Ok loc, (c', b')) -> small b' ->
  loc = mkLocation (Z.of_nat (length sig)) (Z.of_nat (length (inner b))) /\
  stands (length (inner b)) (inner b') (rva loc) sig.
Proof.
  intros Hrun Hlt. unfold sig_writer, buf_map, buf in Hrun. st_inv. run_inv.
  match goal with HH : st_for_enum _ _ _ _ = _ |- _ => rename HH into Hloop end.
  match goal with HH : alloc_array _ _ _ = _ |- _ =>
    rewrite alloc_array_run in HH; injection HH as <- <- end.
  apply run_grows in Hloop as Hg; [|unfold sig_body, buf_map, buf; frame_tac]. unfold small, buf_len in *. cbn in Hg.
  rewrite length_app, length_replicate, size_u8 in Hg. cbn in Hlt.
  rewrite (wrap_small 32 (position b)) in * by (unfold in_bits, position; lia).
  set (w := mkMemoryArrayWriter _ _) in Hloop. set (p := length (inner b)) in *.
  destruct (fill_slots (sig_body w) p sig (fun _ => True) (fun _ x v _ => v = U8 x))
    with (s := (c, mkBuffer (inner b ++ replicate (length sig * size_with u8) Byte.x00))) (s' := (c', b'))
    as (_ & vs & Hvs & Hlv & _ & HR); try done.
  - intros i x. apply (frame_grows 0). unfold sig_body, buf_map, buf. frame_tac.
  - intros i x [c1 b1] [c2 b2] Hi _ Hend Hb Hsm. pose proof (lookup_lt_Some _ _ _ Hi).
    unfold sig_body, buf_map, buf in Hb. run_inv.
    split; [done|]. exists (U8 x). split; [|done].
    match goal with HH : set_value_at _ _ _ _ = _ |- _ =>
      refine (proj1 (set_value_at_slot w p i _ (inner b1) _ _ _ _ (kept_outside_refl _ _ _) HH)) end;
      [done|]. unfold buf_len in Hend. cbn in Hend. nia.
  - unfold buf_len. cbn. rewrite length_app, length_replicate. fold p. lia.
  - cbn [get_buf pair_has_buffer snd] in Hvs. subst w. unfold maw_location.
    cbn [maw_position MemWriter.array_size rva]. rewrite size_u8, Nat.mul_1_r.
    rewrite wrap_small by (unfold in_bits; lia). split; [done|].
    replace vs with (U8 <$> sig) in Hvs; [by rewrite encode_all_u8 in Hvs|].
    apply list_eq. intros i. rewrite list_lookup_fmap. destruct (sig !! i) as [x|] eqn:Hx.
    + destruct (HR i x Hx) as (v & -> & ->). done.
    + symmetry. apply lookup_ge_None. rewrite Hlv. by apply lookup_ge_None.
Qed.

Lemma fill_raw_module_eq m identifier soname s :
  fill_raw_module m identifier soname s =
  (cv_record ← (if decide (identifier = []) then mret default_location
                else sig_writer (le_split 4 CvSignature_Elf ++ identifier));
   effective ← st_lift (map_err (SectionMappingsError_GetEffectivePathError m)
                 (get_mapping_effective_path_name_and_version m soname));
   let '(file_path, _, so_version) := effective in
   name_header ← buf_map (write_string_to_location (to_string_lossy file_path));
   mret (mkModule (start_address m) (wrap 32 (size m)) cv_record (rva name_header)
           (version_info_of so_version))) s.
Proof. by destruct identifier. Qed.

(** Filling a record appends what it points to. *)
Lemma fill_raw_module_ok m identifier soname c b v c' b' :
  fill_raw_module m identifier soname (c, b) = (Ok v, (c', b')) -> small b' ->
  c' = c /\ extended (inner b) (inner b') /\
  module_record (length (inner b)) (inner b') (m, identifier, soname) v.
Proof.
  intros Hrun Hlt.
  assert (Hc : c' = c).
  { eapply same_config_run; [|exact Hrun]. unfold fill_raw_module, buf_map. config_tac. }
  assert (Hx : extended (inner b) (inner b')).
  { apply (extended_frame _ _ _ _ (frame_fill_raw_module m identifier soname) Hrun Hlt). }
  split; [done|]. split; [done|]. subst c'. rewrite fill_raw_module_eq in Hrun.
  apply st_bind_ok in Hrun as (loc & [c1 bs] & Hsig & Hrun).
  apply st_bind_ok in Hrun as ([[fp fn] ver] & s2 & He & Hrun). injection He as He <-.
  destruct (get_mapping_effective_path_name_and_version m soname) as [eff| |] eqn:Heff; [|done..].
  injection He as ->. apply st_bind_ok in Hrun as (hd & s3 & Hname & Hrun). injection Hrun as <- ->.
  apply map_err_ok, on_buf_ok in Hname as (b3 & Hname & Hb3). injection Hb3 as -> ->.
  apply write_string_ok in Hname as (_ & -> & ->); [|exact Hlt]. cbn [get_buf pair_has_buffer snd] in *.
  exists fp, fn, ver. cbn [base_of_image size_of_image version_info module_name_rva cv_record rva inner].
  assert (Hle : (length (inner b) <= length (inner bs))%nat).
  { apply run_grows in Hsig; [exact Hsig|]. case_decide; [frame_tac|].
    unfold sig_writer, sig_body, buf_map, buf. frame_tac. }
  split_and!; [done..|by apply stands_end|].
  case_decide; [by injection Hsig as <-|].
  apply sig_writer_ok in Hsig as [Hloc Hst]; [|unfold small, buf_len in *; cbn in *; rewrite length_app in Hlt; lia].
  split; [rewrite Hloc; cbn [data_size]; rewrite length_app, length_le_split; lia|].
  eapply stands_kept; [apply extended_app|lia|done].
Qed.

Lemma module_of_mapping_eq dumper users i m s :
  module_of_mapping dumper users i m s =
  (o ← st_lift (module_pick dumper users i m);
   match o with
   | Some (_, identifier, soname) => v ← fill_raw_module m identifier soname; mret (Some v)
   | None => mret None
   end) s.
Proof.
  unfold module_of_mapping, module_pick, mbind, ST_bind, st_lift, mret, ST_ret. cbn.
  destruct (if negb (is_interesting m) then Ok true else is_contained_in m users) as [[]|e|]; try done.
  cbn. destruct (mapping_build_id dumper i m) as [id|e|]; try done. cbn.
  destruct (bool_decide (id = []) || all_zero id); [done|]. cbn.
  by destruct (res_ok (from_process_memory_for_index SoName_read_from_module dumper i)).
Qed.

Lemma modules_of_mappings_ok dumper users ms : forall i c b vs c' b',
  modules_of_mappings dumper users i ms (c, b) = (Ok vs, (c', b')) -> small b' ->
  c' = c /\ extended (inner b) (inner b') /\
  exists ps, module_picks (E := SectionMappingsError) dumper users i ms = Ok ps /\
    Forall2 (module_record (length (inner b)) (inner b')) ps vs.
Proof.
  induction ms as [|m ms IH]; intros i c b vs c' b' Hrun Hlt; cbn [modules_of_mappings] in Hrun.
  { injection Hrun as <- <- <-. split; [done|]. split; [apply kept_outside_refl|]. by exists []. }
  apply st_bind_ok in Hrun as (o & [c1 b1] & Hm & Hrun).
  apply st_bind_ok in Hrun as (rest & [c2 b2] & Hrest & Hret). injection Hret as <- <- <-.
  destruct (IH _ _ _ _ _ _ Hrest Hlt) as (-> & Hx2 & ps & Hps & HF).
  assert (Hs1 : small b1).
  { apply run_grows in Hrest; [|apply frame_modules_of_mappings].
    unfold small, buf_len in *. cbn in *. lia. }
  cbn [module_picks].
  assert (Hpick : exists o', module_pick (E := SectionMappingsError) dumper users i m = Ok o').
  { rewrite module_of_mapping_eq in Hm. apply st_bind_ok in Hm as (o' & ? & Ho & _).
    injection Ho as Ho <-. eauto. }
  destruct Hpick as [o' Ho]. rewrite module_of_mapping_eq in Hm.
  apply st_bind_ok in Hm as (o1 & s1 & Ho1 & Hm). injection Ho1 as Ho1 <-.
  rewrite Ho in Ho1. injection Ho1 as <-. rewrite Ho, Hps. cbn [mbind res_bind].
  destruct o' as [[[m' id] soname]|].
  - apply st_bind_ok in Hm as (v & s2 & Hv & Hret). injection Hret as <- ->.
    destruct (fill_raw_module_ok _ _ _ _ _ _ _ _ Hv Hs1) as (-> & Hx1 & Hrec).
    apply module_pick_mapping in Ho. cbn in Ho. subst m'. split; [done|]. split; [by eapply kept_outside_trans|]. eexists. split; [done|].
    constructor; [by eapply module_record_kept; [exact Hx2|lia|]|].
    eapply Forall2_impl; [exact HF|]. intros p r. apply module_record_weaken. apply Hx1.
  - injection Hm as <- <- <-. split; [done|]. split; [done|]. by exists ps.
Qed.

Lemma user_modules_ok us : forall c b vs c' b',
  user_modules us (c, b) = (Ok vs, (c', b')) -> small b' ->
  c' = c /\ extended (inner b) (inner b') /\
  Forall2 (module_record (length (inner b)) (inner b')) (user_pick <$> us) vs.
Proof.
  induction us as [|u us IH]; intros c b vs c' b' Hrun Hlt; cbn [user_modules] in Hrun.
  { injection Hrun as <- <- <-. split_and!; [done|apply kept_outside_refl|constructor]. }
  apply st_bind_ok in Hrun as (v & [c1 b1] & Hv & Hrun).
  apply st_bind_ok in Hrun as (rest & [c2 b2] & Hrest & Hret). injection Hret as <- <- <-.
  destruct (IH _ _ _ _ _ Hrest Hlt) as (-> & Hx2 & HF).
  assert (Hs1 : small b1).
  { apply run_grows in Hrest; [|apply frame_user_modules]. unfold small, buf_len in *. cbn in *. lia. }
  destruct (fill_raw_module_ok _ _ _ _ _ _ _ _ Hv Hs1) as (-> & Hx1 & Hrec).
  split; [done|]. split; [by eapply kept_outside_trans|]. constructor.
  - by eapply module_record_kept; [exact Hx2|lia|].
  - eapply Forall2_impl; [exact HF|]. intros p r. apply module_record_weaken. apply Hx1.
Qed.

(** The list stream behind the records that have been collected. *)
Lemma module_list_tail (vs : list MDRawModule) (c : MinidumpWriter) b e c' b' :
  (list_header ← buf_map (alloc_with_val (U32 (wrap 32 (Z.of_nat (length vs)))));
   let dirent := mkDirectory (ModuleListStream stream_types) (mw_location list_header) in
   match vs with
   | [] => mret dirent
   | _ =>
       mapping_list ← buf_map (alloc_from_iter vs);
       st_lift (extend_dirent dirent (data_size (maw_location mapping_list)))
   end) (c, b) = (Ok e, (c', b')) -> small b' ->
  c' = c /\ extended (inner b) (inner b') /\
  list_at (length (inner b)) (inner b') (ModuleListStream stream_types) e vs.
Proof.
  intros Hrun Hlt. erewrite st_bind_run in Hrun; [|apply map_err_ok, on_buf_run, alloc_with_val_run].
  cbn [get_buf set_buf pair_has_buffer fst snd] in Hrun. unfold list_at.
  rewrite encode_count in Hrun.
  destruct vs as [|v vs'].
  - injection Hrun as <- <- <-. unfold small, buf_len in Hlt. cbn [get_buf buffer_has_buffer id inner] in *.
    rewrite length_app, length_le_split in Hlt. unfold position, mw_location.
    cbn [stream_type location data_size rva mw_position mw_size length].
    rewrite size_u32, Nat.mul_0_r, !wrap_small by (unfold in_bits; cbn; lia).
    split; [done|]. split; [apply extended_app|]. split_and!; [done..|].
    unfold encode_all. cbn [fmap list_fmap concat]. rewrite app_nil_r. by apply stands_end.
  - apply st_bind_ok in Hrun as (w & s2 & Hw & He). injection He as He ->.
    apply map_err_ok, on_buf_ok in Hw as (b2 & Hw & Hb2). injection Hb2 as -> ->.
    rewrite alloc_from_iter_eq in Hw. split; [done|].
    refine (list_stream_run _ (v :: vs') b _ _ w b2 e (alloc_with_val_run _ _) _ He Hlt).
    by rewrite encode_count.
Qed.

(** The module list in the bytes [l]: one record per pick. *)
Definition module_list_at (lo : nat) (l : list byte) (e : MDRawDirectory) (ps : list Pick) : Prop :=
  exists vs, list_at lo l (ModuleListStream stream_types) e vs /\
    Forall2 (module_record lo l) ps vs.

Lemma module_list_kept lo hi lo' l l' e ps :
  kept_outside lo hi l l' -> (hi <= lo')%nat -> module_list_at lo' l e ps -> module_list_at lo' l' e ps.
Proof.
  intros Hk Hhi (vs & Hl & HF). exists vs. split; [by eapply list_at_kept|].
  eapply Forall2_impl; [exact HF|]. intros. by eapply module_record_kept.
Qed.

Lemma module_list_weaken lo lo' l e ps :
  (lo' <= lo)%nat -> module_list_at lo l e ps -> module_list_at lo' l e ps.
Proof.
  intros Hlo (vs & Hl & HF). exists vs. split; [by eapply list_at_weaken|].
  eapply Forall2_impl; [exact HF|]. intros. by eapply module_record_weaken.
Qed.

Lemma module_list_moved hi lo l l' e ps :
  kept_outside 0 hi l l' -> (hi <= lo)%nat -> module_list_at lo l e ps -> module_list_at hi l' e ps.
Proof.
  intros Hk Hlo Hm. eapply module_list_kept; [exact Hk|done|]. by eapply module_list_weaken.
Qed.

Lemma mappings_content dumper c b e c' b' :
  mappings_write dumper (c, b) = (Ok e, (c', b')) -> small b' ->
  c' = c /\ extended (inner b) (inner b') /\
  exists ps, module_picks (E := SectionMappingsError) dumper (user_mapping_list c) 0
      (mappings dumper) = Ok ps /\
    module_list_at (length (inner b)) (inner b') e (ps ++ (user_pick <$> user_mapping_list c)).
Proof.
  intros Hrun Hlt. unfold mappings_write in Hrun.
  erewrite st_bind_run in Hrun by reflexivity. cbn [fst] in Hrun.
  apply st_bind_ok in Hrun as (found & [c1 b1] & Hfound & Hrun).
  apply st_bind_ok in Hrun as (supplied & [c2 b2] & Hsup & Hrun). cbv zeta in Hrun.
  apply run_grows in Hsup as Hg1; [|apply frame_user_modules].
  assert (Hg2 : (length (inner b2) <= length (inner b'))%nat).
  { apply run_grows in Hrun; [exact Hrun|]. unfold buf_map, buf. frame_tac. }
  unfold small, buf_len in *. cbn in Hg1.
  destruct (modules_of_mappings_ok _ _ _ _ _ _ _ _ _ Hfound) as (-> & Hx1 & ps & Hps & HF1).
  { unfold small, buf_len. cbn in *. lia. }
  destruct (user_modules_ok _ _ _ _ _ _ Hsup) as (-> & Hx2 & HF2).
  { unfold small, buf_len. cbn in *. lia. }
  destruct (module_list_tail _ _ _ _ _ _ Hrun Hlt) as (-> & Hx3 & Hl).
  pose proof (proj1 Hx1). pose proof (proj1 Hx2).
  split; [done|]. split; [eapply kept_outside_trans; [| |exact Hx1|]; [done..|];
    by eapply kept_outside_trans|].
  exists ps. split; [done|]. exists (found ++ supplied). split; [eapply list_at_weaken; [|exact Hl]; lia|].
  apply Forall2_app.
  - eapply Forall2_impl; [exact HF1|]. intros p v Hp.
    eapply module_record_kept; [exact Hx3|lia|]. eapply module_record_kept; [exact Hx2|lia|done].
  - eapply Forall2_impl; [exact HF2|]. intros p v Hp.
    eapply module_record_weaken; [exact (proj1 Hx1)|].
    eapply module_record_kept; [exact Hx3|lia|done].
Qed.

(** ** The writer succeeds *)

(** The path of a module can be had and written. *)
Definition pick_ok (p : Pick) : Prop :=
  let '(m, _, soname) := p in
  exists file_path fname version,
    get_mapping_effective_path_name_and_version m soname = Ok (file_path, fname, version) /\
    short_text (to_string_lossy file_path).

Lemma sig_writer_ensures sig s : ensures (sig_writer sig) s (fun _ _ => True).
Proof.
  destruct s as [c b]. unfold sig_writer, buf_map, buf.
  apply ensures_bind; [intros; apply (frame_grows 0); unfold sig_body, buf_map, buf; frame_tac|].
  eapply ensures_run_small; [apply map_err_ok, on_buf_run, alloc_array_run|].
  cbn [set_buf get_buf pair_has_buffer fst snd]. intros Hs. unfold small, buf_len in Hs.
  cbn [get_buf pair_has_buffer snd inner] in Hs. rewrite length_app, length_replicate, size_u8 in Hs.
  apply ensures_bind; [intros; apply (frame_grows 0); frame_tac|].
  eapply (ensures_for_enum _ _ (fun _ s => length (inner b) + length sig <= length (inner s.2))%nat).
  - intros. apply (frame_grows 0). unfold sig_body, buf_map, buf. frame_tac.
  - intros j x [c1 b1] Hj Hle. pose proof (lookup_lt_Some _ _ _ Hj). cbn in Hle.
    unfold sig_body, buf_map, buf. apply ensures_map_err, ensures_on_buf, ensures_set_value_at;
      cbn [maw_position get_buf set_buf pair_has_buffer fst snd inner];
      rewrite wrap_small by (unfold in_bits, position; lia); unfold position; rewrite Nat2Z.id, size_u8;
      [lia|]. rewrite length_splice; [lia|]. rewrite encode_length, size_u8. lia.
  - cbn. rewrite length_app, length_replicate, size_u8. lia.
  - intros. by apply ensures_ret.
Qed.

Lemma fill_raw_module_ensures m id soname s :
  pick_ok (m, id, soname) -> ensures (fill_raw_module m id soname) s (fun _ _ => True).
Proof.
  intros (fp & fn & v & He & Hs) Hsm. rewrite fill_raw_module_eq in *. revert Hsm.
  change (ensures (cv_record ← (if decide (id = []) then mret default_location
                else sig_writer (le_split 4 CvSignature_Elf ++ id));
   effective ← st_lift (map_err (SectionMappingsError_GetEffectivePathError m)
                 (get_mapping_effective_path_name_and_version m soname));
   let '(file_path, _, so_version) := effective in
   name_header ← buf_map (write_string_to_location (to_string_lossy file_path));
   mret (mkModule (start_address m) (wrap 32 (size m)) cv_record (rva name_header)
           (version_info_of so_version))) s (fun _ _ => True)).
  assert (Hg : forall cv (e : OsString * RString * option SoVersion), st_rel grows
    (let '(file_path, _, so_version) := e in
     name_header ← buf_map (write_string_to_location (to_string_lossy file_path));
     mret (mkModule (start_address m) (wrap 32 (size m)) cv (rva name_header)
           (version_info_of so_version)))).
  { intros cv [[? ?] ?]. apply (frame_grows 0). unfold buf_map, buf. frame_tac. }
  apply ensures_bind.
  { intros cv. apply st_rel_bind; [apply _|apply st_rel_lift; apply _|apply Hg]. }
  eapply (ensures_conseq _ _ (fun _ _ => True)).
  { case_decide; [by apply ensures_ret|apply sig_writer_ensures]. }
  intros cv s1 _. apply ensures_bind; [apply Hg|]. rewrite He. eapply ensures_lift; [reflexivity|].
  cbn beta iota. apply ensures_bind; [intros; apply st_rel_ret; apply _|].
  unfold buf_map, buf. apply ensures_map_err, ensures_on_buf, ensures_string; [|done]. by apply ensures_ret.
Qed.

Lemma modules_ensures dumper users ms : forall i s ps,
  module_picks (E := SectionMappingsError) dumper users i ms = Ok ps -> Forall pick_ok ps ->
  ensures (modules_of_mappings dumper users i ms) s (fun _ _ => True).
Proof.
  induction ms as [|m ms IH]; intros i s ps Hps Hok; cbn [modules_of_mappings module_picks] in *;
    [by apply ensures_ret|].
  destruct (module_pick dumper users i m) as [o| |] eqn:Ho; cbn in Hps; try done.
  destruct (module_picks dumper users (S i) ms) as [rest| |] eqn:Hrest; cbn in Hps; try done.
  injection Hps as <-.
  assert (Hr : Forall pick_ok rest) by (destruct o; [by inversion Hok|done]).
  apply ensures_bind.
  { intros o'. apply (frame_grows 0), frame_bind; [apply frame_modules_of_mappings|]. frame_tac. }
  eapply (ensures_conseq _ _ (fun _ _ => True)).
  { intros Hsm. rewrite module_of_mapping_eq in *. revert Hsm.
    rewrite (st_bind_run _ _ _ o s) by (unfold st_lift; by rewrite Ho).
    destruct o as [[[m' id] soname]|]; [|by apply ensures_ret].
    apply module_pick_mapping in Ho. cbn in Ho. subst m'. inversion Hok; subst.
    apply ensures_bind; [intros; apply st_rel_ret; apply _|].
    eapply ensures_conseq; [by apply fill_raw_module_ensures|]. intros. by apply ensures_ret. }
  intros o' s1 _. apply ensures_bind; [intros; apply st_rel_ret; apply _|].
  eapply ensures_conseq; [by eapply IH|]. intros. by apply ensures_ret.
Qed.

Lemma user_modules_ensures us : forall s,
  Forall pick_ok (user_pick <$> us) -> ensures (user_modules us) s (fun _ _ => True).
Proof.
  induction us as [|u us IH]; intros s Hok; cbn [user_modules]; [by apply ensures_ret|].
  inversion Hok as [|? ? Hu Hus]; subst. apply ensures_bind.
  { intros v. apply (frame_grows 0), frame_bind; [apply frame_user_modules|]. frame_tac. }
  eapply ensures_conseq; [by apply fill_raw_module_ensures|]. intros v s1 _.
  apply ensures_bind; [intros; apply st_rel_ret; apply _|].
  eapply ensures_conseq; [by apply IH|]. intros. by apply ensures_ret.
Qed.

Lemma mappings_ensures dumper c b ps :
  module_picks (E := SectionMappingsError) dumper (user_mapping_list c) 0 (mappings dumper) = Ok ps ->
  Forall pick_ok (ps ++ (user_pick <$> user_mapping_list c)) ->
  ensures (mappings_write dumper) (c, b) (fun _ _ => True).
Proof.
  intros Hps [Hp1 Hp2]%Forall_app. unfold mappings_write.
  apply ensures_bind.
  { intros. apply (frame_grows 0). unfold buf_map, buf. frame_tac. }
  eapply ensures_run; [reflexivity|]. cbn [fst].
  apply ensures_bind.
  { intros. apply (frame_grows 0). unfold buf_map, buf. frame_tac. }
  eapply ensures_conseq; [by eapply modules_ensures|]. intros found s1 _.
  apply ensures_bind; [intros; apply (frame_grows 0); unfold buf_map, buf; frame_tac|].
  eapply ensures_conseq; [by apply user_modules_ensures|]. intros supplied [c2 b2] _. cbv zeta.
  apply ensures_bind; [intros; apply (frame_grows 0); unfold buf_map, buf; frame_tac|].
  eapply ensures_run; [apply map_err_ok, on_buf_run, alloc_with_val_run|].
  destruct (found ++ supplied) as [|v vs'] eqn:Hvs; [by apply ensures_ret|]. rewrite <- Hvs.
  apply ensures_bind; [intros; apply (frame_grows 0); frame_tac|].
  eapply ensures_run_small; [apply map_err_ok, on_buf_run; rewrite alloc_from_iter_eq;
    apply alloc_from_array_run|]. intros Hs. unfold small, buf_len in Hs.
  cbn [get_buf set_buf pair_has_buffer fst snd inner] in Hs.
  rewrite !length_app, encode_length, encode_all_length, size_u32 in Hs.
  eapply ensures_lift; [|done]. unfold extend_dirent, mw_location, maw_location.
  cbn [location data_size rva mw_position mw_size maw_position MemWriter.array_size stream_type].
  rewrite size_u32, !(wrap_small 32 (Z.of_nat _)), add_u_ok by (unfold in_bits; lia). reflexivity.
Qed.
End records.

Lemma module_pick_conditions `{TG : Target} {OS : Os} {G : Goblin} {E} dumper users i m id soname :
  module_pick (E := E) dumper users i m = Ok (Some (m, id, soname)) ->
  is_interesting m = true /\ is_contained_in (E := E) m users = Ok false /\
  mapping_build_id (E := E) dumper i m = Ok id /\ id <> [] /\ all_zero id = false.
Proof.
  unfold module_pick. destruct (is_interesting m); cbn; [|done].
  destruct (is_contained_in m users) as [[]| |]; cbn; try done.
  destruct (mapping_build_id dumper i m) as [id'| |]; cbn; try done.
  case_bool_decide as Hid; cbn; [done|]. destruct (all_zero id') eqn:Hz; [done|].
  destruct (res_ok _); cbn; try done. intros [= <- <-]. done.
Qed.

(** And every such mapping is chosen. *)
Lemma module_pick_chosen `{TG : Target} {OS : Os} {G : Goblin} {E} dumper users i m id o :
  is_interesting m = true -> is_contained_in (E := E) m users = Ok false ->
  mapping_build_id (E := E) dumper i m = Ok id -> id <> [] -> all_zero id = false ->
  module_pick (E := E) dumper users i m = Ok o -> exists soname, o = Some (m, id, soname).
Proof.
  intros Hi Hc Hid Hne Hz. unfold module_pick. rewrite Hi. cbn [negb]. rewrite Hc. cbn.
  rewrite Hid. cbn. rewrite bool_decide_false, Hz by done. cbn.
  destruct (res_ok _) as [soname| |]; cbn; try done. intros [= <-]. by exists soname.
Qed.

(** The picks are the chosen mappings, in order. *)
Lemma module_picks_spec `{TG : Target} {OS : Os} {G : Goblin} {E} dumper users ms : forall i ps,
  module_picks (E := E) dumper users i ms = Ok ps ->
  exists os, length os = length ms /\
    (forall j m, ms !! j = Some m -> exists o, os !! j = Some o /\
       module_pick (E := E) dumper users (i + j) m = Ok o) /\
    ps = omap id os.
Proof.
  induction ms as [|m ms IH]; intros i ps; cbn [module_picks].
  { intros [= <-]. by exists []. }
  destruct (module_pick dumper users i m) as [o| |] eqn:Ho; cbn; try done.
  destruct (module_picks dumper users (S i) ms) as [rest| |] eqn:Hrest; cbn; try done.
  intros [= <-]. destruct (IH _ _ Hrest) as (os & Hl & Hos & ->).
  exists (o :: os). split; [cbn; by rewrite Hl|]. split.
  - intros [|j] m' Hj; cbn in Hj; [injection Hj as <-; exists o; by rewrite Nat.add_0_r|].
    destruct (Hos j m' Hj) as (o' & Ho' & Hp). exists o'. split; [done|].
    by rewrite Nat.add_succ_r.
  - by destruct o.
Qed.

(** ** Properties *)

(** C16: the module list.  When the decision which mappings are modules does not
    panic, and for each module path and version can be computed (a file name
    whose version part makes that panic excluded) and the path takes less than
    4 GiB, the writer returns (no error and no panic, in every build), keeps the
    configuration, and appends a list of one record per chosen mapping, in the
    order of the mappings, and then one per mapping of the caller.  Chosen are
    exactly the mappings that are interesting, lie in no mapping of the caller
    and have a build id that is neither empty nor zero; each record has the
    address, size and version of its module, a name that reads back as its path
    and a debug record with its build id. *)
Theorem module_list_describes `{TG : Target} (F : Format) (FO : FormatOk F) (OS : Os) (G : Goblin)
    (A : Arch) (dumper : PtraceDumper) (c : MinidumpWriter) (b : Buffer) (ps : list Pick) :
  let users := user_mapping_list c in
  module_picks (E := SectionMappingsError) dumper users 0 (mappings dumper) = Ok ps ->
  Forall pick_ok (ps ++ (user_pick <$> users)) ->
  Z.of_nat (length (inner (mappings_write dumper (c, b)).2.2)) < 2 ^ 32 ->
  exists e b' vs,
    mappings_write dumper (c, b) = (Ok e, (c, b')) /\
    take (length (inner b)) (inner b') = inner b /\
    stream_type e = ModuleListStream stream_types /\
    bytes_at (Z.to_nat (rva (location e))) (Z.to_nat (data_size (location e))) (inner b') =
      le_split 4 (Z.of_nat (length vs)) ++ encode_all vs /\
    Forall (fun '(m, id, _) => is_interesting m = true /\
      is_contained_in (E := SectionMappingsError) m users = Ok false /\
      id <> [] /\ all_zero id = false) ps /\
    (forall i m id, mappings dumper !! i = Some m -> is_interesting m = true ->
      is_contained_in (E := SectionMappingsError) m users = Ok false ->
      mapping_build_id (E := SectionMappingsError) dumper i m = Ok id -> id <> [] -> all_zero id = false ->
      exists soname, (m, id, soname) ∈ ps) /\
    Forall2 (fun '(m, id, soname) v =>
      base_of_image v = start_address m /\ size_of_image v = wrap 32 (size m) /\
      exists file_path fname version,
        get_mapping_effective_path_name_and_version m soname = Ok (file_path, fname, version) /\
        version_info v = version_info_of version /\
        read_string (inner b') (module_name_rva v) = Some (to_string_lossy file_path) /\
        (id <> [] -> bytes_at (Z.to_nat (rva (cv_record v))) (Z.to_nat (data_size (cv_record v)))
           (inner b') = le_split 4 CvSignature_Elf ++ id))
      (ps ++ (user_pick <$> users)) vs.
Proof.
  intros users Hps Hok Hs.
  destruct (mappings_ensures dumper c b ps Hps Hok Hs) as (e & [c' b'] & Hrun & _).
  rewrite Hrun in Hs. cbn [snd] in Hs.
  destruct (mappings_content dumper c b e c' b' Hrun Hs) as (-> & Hx & ps' & Hps' & vs & Hl & HF).
  fold users in Hps', HF. rewrite Hps in Hps'. injection Hps' as <-.
  exists e, b', vs. pose proof (Forall2_length _ _ _ HF) as Hlen. destruct Hl as (Hty & Hsz & Hst).
  split_and!; try done.
  - by apply extended_prefix.
  - destruct Hst as (_ & _ & Hst). rewrite Hsz, Nat2Z.id, <- Hst.
    by rewrite length_app, length_le_split, encode_all_length, Nat.mul_comm.
  - apply module_picks_spec in Hps as (os & Hlo & Hos & ->). apply Forall_forall.
    intros [[m id] soname] Hin. apply list_elem_of_omap in Hin as (o & Hin & Ho). cbn in Ho. subst o.
    apply list_elem_of_lookup in Hin as [j Hj].
    destruct (lookup_lt_is_Some_2 (mappings dumper) j) as [m' Hm'];
      [rewrite <- Hlo; by eapply lookup_lt_Some|].
    destruct (Hos j m' Hm') as (o' & Ho' & Hp). rewrite Hj in Ho'. injection Ho' as <-.
    pose proof (module_pick_mapping _ _ _ _ _ Hp) as Hm. cbn in Hm. subst m'.
    apply module_pick_conditions in Hp. tauto.
  - intros i m id Hm Hi Hc Hid Hne Hz. apply module_picks_spec in Hps as (os & Hlo & Hos & ->).
    destruct (Hos i m Hm) as (o & Ho & Hp). cbn [Nat.add] in Hp.
    destruct (module_pick_chosen dumper users i m id o Hi Hc Hid Hne Hz Hp) as [soname ->].
    exists soname. apply list_elem_of_omap. exists (Some (m, id, soname)).
    split; [by eapply list_elem_of_lookup_2|done].
  - eapply Forall2_impl; [exact HF|]. intros [[m id] soname] v
      (fp & fn & ver & He & Hb & Hsi & Hv & Hn & Hc).
    split_and!; [done..|]. exists fp, fn, ver. split_and!; [done..| |].
    + eapply stands_string; [|exact Hs|exact Hn]. eapply decoded_chars, to_string_lossy_decoded.
    + intros Hid. rewrite decide_False in Hc by done. destruct Hc as [Hd (_ & _ & Hcv)].
      rewrite Hd, Nat2Z.id, <- Hcv. by rewrite length_app, length_le_split.
Qed.

(** A process with the small module mapped at 65536, and a mapping the caller
    adds. *)
Definition tiny_os : Os := toy_os (blocks_memory [(65536, TINY_ELF ++ replicate 4096 Byte.x00)]).
Definition tiny_mapping : MappingInfo :=
  mkMapping 65536 8192 (mkSystemMapping 65536 73728) 0 (mkPerms true false true false true)
    (Some (bytes_of "/lib/libtiny.so.1.2")).
Definition user_mapping : MappingInfo :=
  mkMapping 1048576 4096 (mkSystemMapping 1048576 1052672) 0 (mkPerms true false true false true)
    (Some (bytes_of "/opt/gen.so")).
Definition module_dumper : PtraceDumper :=
  mkDumper 7%Z true [] default_auxv [tiny_mapping] 4096%Z.
Definition module_config : @MinidumpWriter bare_arch :=
  set_user_mapping_list [mkMappingEntry user_mapping [Byte.x01; Byte.x02]] bare_config.
Definition tiny_pick : Pick :=
  (tiny_mapping, byte.of_Z <$> [1; 2; 3; 4; 5; 6; 7; 8; 9; 10; 11; 12; 13; 14; 15; 16], None).

Lemma module_list_describes_witness :
  exists e b' vs, @mappings_write x64_debug layout tiny_os elf64 bare_arch module_dumper
      (module_config, mkBuffer []) = (Ok e, (module_config, b')) /\
    length vs = 2%nat /\ base_of_image <$> vs = [65536; 1048576].
Proof.
  destruct (@module_list_describes x64_debug layout layout_ok tiny_os elf64 bare_arch module_dumper
    module_config (mkBuffer []) [tiny_pick] ltac:(vm_compute; reflexivity)
    ltac:(repeat constructor; do 3 eexists; (split; [vm_compute; reflexivity|]); vm_compute; reflexivity)
    ltac:(vm_compute; reflexivity)) as (e & b' & vs & Hrun & _ & _ & _ & _ & _ & HF).
  exists e, b', vs. split; [exact Hrun|].
  inversion HF as [|p1 v1 ps' vs' H1 HF1]; subst. inversion HF1 as [|p2 v2 ps2 vs2 H2 HF2]; subst.
  inversion HF2; subst. split; [reflexivity|].
  cbn. rewrite (proj1 H1), (proj1 H2). reflexivity.
Defined.
