(* ===== verification/StreamContents.v ===== *)
(** * What the streams contain

    The contents of the thread name and memory info streams
    (src/src/linux/sections/). *)
From Stdlib Require Import ZArith Lia String.
From S2P Require Import Prelude Format Layout MemWriter DirSection Driver DumpPlan Slots RustStr Errors.
From S2P Require Import Os MemReader ModuleReader MapsReader Auxv Arch PtraceDumper.
From S2P Require Import Config Streams ThreadListStream MappingsStream DsoDebug.
From S2P Require Import MinidumpWriter StreamSpec DumpSpec.

Local Open Scope nat_scope.
Local Notation length := List.length.

Section thread_names.
Context `{TG : Target} {F : Format} {FO : FormatOk F} {A : Arch}.
Notation sz := (size_with MDRawThreadName).

(** The body of the loop of [thread_names_write]. *)
Definition name_body (w : MemoryArrayWriter MDRawThreadName) (idx : nat) (item : Thread)
    : Writer SectionThreadNamesError unit :=
  match thread_name item with
  | None => mret tt
  | Some name =>
      pos ← buf SectionThreadNamesError_MemoryWriterError (write_string_to_location name);
      tid ← st_lift (try_u32_of SectionThreadNamesError_TryFromIntError (tid item));
      buf SectionThreadNamesError_MemoryWriterError
        (set_value_at w (mkThreadName tid (rva pos)) idx)
  end.

Lemma frame_name_body w idx t n :
  n <= Z.to_nat (maw_position w) -> frame n (name_body w idx t).
Proof. intros. unfold name_body, buf. frame_tac. Qed.

(** A turn for a named thread appends the name and fills the slot. *)
Lemma name_body_ok w p idx t name c b c' b' :
  maw_position w = Z.of_nat p -> thread_name t = Some name ->
  p + sz * idx + sz <= length (inner b) ->
  name_body w idx t (c, b) = (Ok tt, (c', b')) -> (Z.of_nat (length (inner b')) < 2 ^ 32)%Z ->
  c' = c /\ slot_set p idx (mkThreadName (tid t) (position b)) (inner b) (inner b') /\
  stands (length (inner b)) (inner b') (position b) (string_bytes name).
Proof.
  intros Hw Hn Hslot Hrun Hlt. unfold name_body, buf in Hrun. rewrite Hn in Hrun. st_inv. run_inv.
  match goal with HH : write_string_to_location _ _ = (Ok _, ?b1) |- _ =>
    rename HH into Hs; rename b1 into bs end.
  match goal with HH : set_value_at _ _ _ _ = _ |- _ => rename HH into Hset end.
  match goal with HH : try_u32_of _ _ = _ |- _ => unfold try_u32_of in HH;
    destruct (0 <=? tid t)%Z; [injection HH as <-|done] end.
  split; [done|].
  exact (string_slot w p idx name (mkThreadName (tid t)) _ _ _ _ Hw Hslot Hs Hset Hlt).
Qed.

(** What the entry of a thread says in the bytes [l], its name at or after [lo]. *)
Definition name_entry (lo : nat) (l : list byte) (t : Thread) (v : MDRawThreadName) : Prop :=
  exists name r, thread_name t = Some name /\ v = mkThreadName (tid t) r /\
    stands lo l r (string_bytes name).

Lemma name_entry_moved hi lo l l' t v :
  kept_outside 0 hi l l' -> hi <= lo -> name_entry lo l t v -> name_entry hi l' t v.
Proof.
  intros Hk Hlo (name & r & Hn & Hv & Hs). exists name, r. split_and!; [done..|]. by eapply stands_moved.
Qed.

(** From slot [i] on, the loop leaves everything before that slot alone. *)
Lemma frame_names w ts n : forall i,
  n <= Z.to_nat (maw_position w) + sz * i -> frame n (st_for_enum i ts (name_body w)).
Proof.
  induction ts as [|t ts IH]; intros i Hn; cbn [st_for_enum]; [apply frame_ret|].
  apply frame_bind; [|intros _; apply IH; lia].
  unfold name_body, buf. destruct (thread_name t); [|apply frame_ret].
  apply frame_bind; [frame_tac|intros pos]. apply frame_bind; [frame_tac|intros x].
  apply frame_map_err, frame_on_buf, frame_map_err, frame_bind; [by apply frame_write_at|].
  intros; apply frame_ret.
Qed.

(** The stream up to its loop. *)
Lemma thread_names_start d c b e c' b' :
  thread_names_write d (c, b) = (Ok e, (c', b')) -> (Z.of_nat (length (inner b')) < 2 ^ 32)%Z ->
  let n := named_threads d in
  exists w b1, maw_position w = Z.of_nat (length (inner b) + 4) /\
  e = mkDirectory (ThreadNamesStream stream_types) (mkLocation (Z.of_nat (4 + sz * n))
        (Z.of_nat (length (inner b)))) /\
  inner b1 = inner b ++ le_split 4 (Z.of_nat n) ++ replicate (n * sz) Byte.x00 /\
  length (inner b) + 4 + sz * n <= length (inner b') /\
  st_for_enum 0 (threads d) (name_body w) (c, b1) = (Ok tt, (c', b')).
Proof.
  intros Hrun Hlt n. unfold thread_names_write, buf in Hrun. fold n in Hrun. st_inv.
  match goal with HH : st_for_enum _ _ _ _ = _ |- _ => rename HH into Hloop end.
  apply run_grows in Hloop as Hg; [|frame_tac]. run_inv.
  match goal with HW : alloc_with_val _ _ = _, HA : alloc_array _ _ _ = (Ok ?w, ?b2),
    HE : extend_dirent _ _ = _ |- _ =>
    destruct (list_stream_start _ _ _ _ _ _ _ _ HW HA HE) as (-> & Hw & Hb2); [|exists w, b2] end.
  { unfold buf_len in Hg. cbn in Hg. lia. }
  split_and!; [done..| |exact Hloop]. unfold buf_len in Hg. cbn in Hg. rewrite Hb2 in Hg.
  rewrite !length_app, length_le_split, length_replicate in Hg. lia.
Qed.

(** When every thread has a name the entries are those of the threads, in
    order. *)
Lemma thread_names_content d c b e c' b' :
  Forall (fun t => is_Some (thread_name t)) (threads d) ->
  thread_names_write d (c, b) = (Ok e, (c', b')) -> (Z.of_nat (length (inner b')) < 2 ^ 32)%Z ->
  c' = c /\ exists vs, list_at (length (inner b)) (inner b') (ThreadNamesStream stream_types) e vs /\
    Forall2 (name_entry (length (inner b)) (inner b')) (threads d) vs.
Proof.
  intros Hall Hrun Hlt.
  apply thread_names_start in Hrun as (w & b1 & Hw & -> & Hb1 & Hlen & Hloop); [|done].
  assert (Hn : named_threads d = length (threads d)).
  { unfold named_threads. clear -Hall. induction Hall as [|t ts Ht _ IH]; [done|].
    rewrite filter_cons_True by done. cbn. by rewrite IH. }
  rewrite Hn in *. set (p := length (inner b) + 4) in *.
  assert (Hl1 : length (inner b1) = p + length (threads d) * sz).
  { rewrite Hb1, !length_app, length_le_split, length_replicate. lia. }
  set (hi := p + sz * length (threads d)) in *.
  destruct (fill_slots (name_body w) p (threads d) (fun s => s.1 = c)
    (fun _ t v s => name_entry hi (inner s.2) t v)) with (s := (c, b1)) (s' := (c', b'))
    as (Hc & vs & Hvs & Hlv & Hk & HR); try done.
  - intros i x. apply (frame_grows 0), frame_name_body. lia.
  - intros i t [c1 b2] [c2 b3] Ht Hc Hend Hb Hsm.
    destruct (proj1 (Forall_lookup _ _) Hall i t Ht) as [name Hname].
    pose proof (lookup_lt_Some _ _ _ Ht). unfold buf_len in *. cbn in *. subst c1.
    apply (name_body_ok w p i t name) in Hb as (-> & Hset & Hst); [|done|done|nia|done].
    split; [done|]. eexists. split; [exact Hset|]. exists name, (position b2). split_and!; try done.
    eapply stands_weaken; [|exact Hst]. exact Hend.
  - intros i t v j t' [c1 b2] [c2 b3] _ _ _ _ (name & r & Hname & -> & Hst) Hk _ _.
    exists name, r. split_and!; [done..|]. by eapply stands_kept; [exact Hk| |exact Hst].
  - unfold buf_len, hi. cbn. lia.
  - cbn in *. split; [done|]. exists vs. rewrite <- Hlv in *. split.
    + by apply (list_stream_filled _ (inner b) (inner b1)).
    + apply Forall2_same_length_lookup. split; [done|]. intros i t v Ht Hv.
      destruct (HR i t Ht) as (v' & Hv' & name & r & Hname & Hr & Hst). simplify_eq.
      exists name, r. split_and!; [done..|]. eapply stands_weaken; [|exact Hst]. unfold hi, p. lia.
Qed.
End thread_names.

(** the thread name stream when every thread has a name.  It announces one
    entry per thread, and the entry of each thread holds its id and the location
    of a string that reads back as its name. *)
Theorem thread_names_complete `{TG : Target} (F : Format) (FO : FormatOk F) (A : Arch)
    (d : PtraceDumper) (c c' : MinidumpWriter) (b b' : Buffer) (e : MDRawDirectory) :
  Forall (fun t => exists name, thread_name t = Some name /\ Forall is_char name) (threads d) ->
  thread_names_write d (c, b) = (Ok e, (c', b')) -> (Z.of_nat (length (inner b')) < 2 ^ 32)%Z ->
  bytes_at (length (inner b)) 4 (inner b') = le_split 4 (Z.of_nat (length (threads d))) /\
  forall i t name, threads d !! i = Some t -> thread_name t = Some name ->
    exists r, bytes_at (length (inner b) + 4 + size_with MDRawThreadName * i)
                (size_with MDRawThreadName) (inner b') = encode (mkThreadName (tid t) r) /\
      read_string (inner b') r = Some name.
Proof.
  intros Hall Hrun Hlt. destruct (thread_names_content d c b e c' b') as (_ & vs & Hvs & HR); try done.
  { eapply Forall_impl; [done|]. intros t (name & -> & _). by eexists. }
  apply thread_names_start in Hrun as (_ & _ & _ & -> & _); [|done].
  pose proof (Forall2_length _ _ _ HR) as Hl. split.
  - destruct Hvs as (_ & _ & Hs). apply stands_app in Hs as [(_ & _ & Hs) _]. cbn [location rva] in Hs.
    by rewrite Nat2Z.id, length_le_split, <- Hl in Hs.
  - intros i t name Ht Hname. destruct (Forall2_lookup_l _ _ _ _ _ HR Ht) as (v & Hv & Hen).
    destruct Hen as (name' & r & Hname' & -> & Hst). simplify_eq. exists r. split.
    + destruct (list_at_slot _ _ _ _ _ _ _ Hvs Hv) as (_ & _ & Hs). rewrite encode_length in Hs.
      cbn [location rva] in Hs. rewrite <- Hs. f_equal. lia.
    + destruct (proj1 (Forall_lookup _ _) Hall i t Ht) as (name' & ? & Hc). simplify_eq.
      by eapply stands_string.
Qed.

(** Two threads, named "ab" and "c". *)
Definition named_dumper : PtraceDumper :=
  mkDumper 7%Z true [mkTask 7%Z (Some [97; 98]%Z); mkTask 8%Z (Some [99]%Z)] default_auxv [] 4096%Z.

Local Notation run_names d :=
  (@thread_names_write x64_debug layout bare_arch d (bare_config, mkBuffer [])).

Lemma thread_names_complete_witness :
  Forall (fun t => exists name, thread_name t = Some name /\ Forall is_char name)
    (threads named_dumper) /\
  exists r, bytes_at 16 12 (inner (run_names named_dumper).2.2) =
      @encode _ (@pod_thread_name layout) (mkThreadName 8 r) /\
    read_string (inner (run_names named_dumper).2.2) r = Some [99%Z].
Proof.
  assert (Hall : Forall (fun t => exists name, thread_name t = Some name /\ Forall is_char name)
    (threads named_dumper)).
  { repeat constructor; eexists; (split; [reflexivity|]); repeat constructor; unfold is_char; lia. }
  split; [exact Hall|].
  assert (Hok : match (run_names named_dumper).1 with Ok _ => True | _ => False end)
    by (vm_compute; exact I).
  assert (Hlt : (Z.of_nat (length (inner (run_names named_dumper).2.2)) < 2 ^ 32)%Z)
    by (vm_compute; reflexivity).
  destruct (run_names named_dumper) as [[e|e|] [c' b']] eqn:Hrun; cbn [fst snd] in *;
    [|destruct Hok|destruct Hok].
  destruct (@thread_names_complete x64_debug layout layout_ok bare_arch named_dumper bare_config c'
    (mkBuffer []) b' e Hall Hrun Hlt) as [_ Hin].
  exact (Hin 1 (mkTask 8%Z (Some [99%Z])) [99%Z] eq_refl eq_refl).
Defined.

(** a thread without a name misplaces the entries.  Slots are numbered by
    thread but counted by name, so when the first thread has no name the first
    of the announced entries is never written: it stays zero, whatever names
    the other threads have. *)
Theorem thread_names_unnamed_first `{TG : Target} (F : Format) (FO : FormatOk F) (A : Arch)
    (d : PtraceDumper) (t0 : Thread) (rest : list Thread) (c c' : MinidumpWriter)
    (b b' : Buffer) (e : MDRawDirectory) :
  threads d = t0 :: rest -> thread_name t0 = None -> 1 <= named_threads d ->
  thread_names_write d (c, b) = (Ok e, (c', b')) -> (Z.of_nat (length (inner b')) < 2 ^ 32)%Z ->
  bytes_at (length (inner b)) 4 (inner b') = le_split 4 (Z.of_nat (named_threads d)) /\
  bytes_at (length (inner b) + 4) (size_with MDRawThreadName) (inner b') =
    replicate (size_with MDRawThreadName) Byte.x00.
Proof.
  intros Hd H0 Hn Hrun Hlt.
  apply thread_names_start in Hrun as (w & b1 & Hw & _ & Hb1 & Hlen & Hloop); [|done].
  rewrite Hd in Hloop. cbn [st_for_enum] in Hloop.
  erewrite st_bind_run in Hloop; [|unfold name_body; rewrite H0; reflexivity].
  set (n := named_threads d) in *. set (sz := size_with MDRawThreadName) in *.
  assert (Hl1 : length (inner b1) = length (inner b) + 4 + n * sz).
  { rewrite Hb1, !length_app, length_le_split, length_replicate. lia. }
  destruct (frame_names w rest (length (inner b) + 4 + sz) 1) as [_ Hkeep].
  { rewrite Hw, Nat2Z.id. fold sz. lia. }
  specialize (Hkeep (c, b1)). rewrite Hloop in Hkeep.
  unfold buf_len in Hkeep. cbn [get_buf pair_has_buffer snd] in Hkeep.
  assert (Hsz : sz <= n * sz) by nia. specialize (Hkeep ltac:(lia) Hlt).
  assert (Hat : forall j m, j + m <= length (inner b) + 4 + sz ->
    bytes_at j m (inner b') = bytes_at j m (inner b1)).
  { intros j m Hjm. apply (f_equal (bytes_at j m)) in Hkeep. unfold bytes_at in *.
    rewrite !skipn_firstn_comm, !take_take in Hkeep. by rewrite Nat.min_l in Hkeep by lia. }
  rewrite !Hat, Hb1 by lia. split.
  - rewrite <- (length_le_split 4 (Z.of_nat n)) at 1. by apply bytes_at_mid.
  - rewrite app_assoc, bytes_at_app_r by (rewrite length_app, length_le_split; lia).
    unfold bytes_at. rewrite drop_replicate, take_replicate. f_equal.
    rewrite length_app, length_le_split. lia.
Qed.

(** A thread without a name, then one named "ab". *)
Definition unnamed_dumper : PtraceDumper :=
  mkDumper 7%Z true [mkTask 7%Z None; mkTask 8%Z (Some [97; 98]%Z)] default_auxv [] 4096%Z.

(** Here the one announced entry is zero, and the entry of the named thread has
    been written over its own name. *)
Lemma thread_names_unnamed_first_witness :
  bytes_at 4 12 (inner (run_names unnamed_dumper).2.2) = replicate 12 Byte.x00 /\
  bytes_at 16 12 (inner (run_names unnamed_dumper).2.2) =
    @encode _ (@pod_thread_name layout) (mkThreadName 8 16) /\
  read_string (inner (run_names unnamed_dumper).2.2) 16 <> Some [97; 98]%Z.
Proof.
  assert (Hok : match (run_names unnamed_dumper).1 with Ok _ => True | _ => False end)
    by (vm_compute; exact I).
  assert (Hlt : (Z.of_nat (length (inner (run_names unnamed_dumper).2.2)) < 2 ^ 32)%Z)
    by (vm_compute; reflexivity).
  assert (Hover : bytes_at 16 12 (inner (run_names unnamed_dumper).2.2) =
    @encode _ (@pod_thread_name layout) (mkThreadName 8 16)) by (vm_compute; reflexivity).
  assert (Hread : read_string (inner (run_names unnamed_dumper).2.2) 16 <> Some [97; 98]%Z)
    by (vm_compute; discriminate).
  split; [|split; [exact Hover|exact Hread]]. clear Hover Hread.
  destruct (run_names unnamed_dumper) as [[e|e|] [c' b']] eqn:Hrun; cbn [fst snd] in *;
    [|destruct Hok|destruct Hok].
  exact (proj2 (@thread_names_unnamed_first x64_debug layout layout_ok bare_arch unnamed_dumper
    (mkTask 7%Z None) [mkTask 8%Z (Some [97; 98]%Z)] bare_config c' (mkBuffer []) b' e
    eq_refl eq_refl ltac:(vm_compute; lia) Hrun Hlt)).
Defined.

(** ** The memory info list *)

(** The protection of a region says what its permissions allow.  Windows has no
    write-only protection: a writable region counts as readable. *)
Definition protects (p : MMPermissions) (prot : Z) : Prop :=
  (prot ∈ [PAGE_READWRITE; PAGE_EXECUTE_READWRITE] <-> WRITE p = true) /\
  (prot ∈ [PAGE_EXECUTE; PAGE_EXECUTE_READ; PAGE_EXECUTE_READWRITE] <-> EXECUTE p = true) /\
  (prot ∈ [PAGE_READONLY; PAGE_READWRITE; PAGE_EXECUTE_READ; PAGE_EXECUTE_READWRITE] <->
     READ p = true \/ WRITE p = true) /\
  (prot = PAGE_NOACCESS <-> READ p = false /\ WRITE p = false /\ EXECUTE p = false).

Lemma get_memory_protection_protects p : protects p (get_memory_protection p).
Proof.
  unfold protects, get_memory_protection.
  destruct (READ p), (WRITE p), (EXECUTE p); rewrite !list_elem_of_In; cbn;
    unfold PAGE_NOACCESS, PAGE_READONLY, PAGE_READWRITE, PAGE_EXECUTE, PAGE_EXECUTE_READ,
      PAGE_EXECUTE_READWRITE; intuition discriminate.
Qed.

(** The record [i] describes the region [mm]. *)
Definition describes (mm : MemoryMap) (i : MDMemoryInfo) : Prop :=
  base_address i = fst (address mm) /\ (base_address i + region_size i)%Z = snd (address mm) /\
  protects (perms mm) (protection i) /\ allocation_protection i = protection i /\
  state i = MEM_COMMIT /\ (memory_type i = MEM_PRIVATE <-> PRIVATE (perms mm) = true).

Lemma memory_infos_ok `{TG : Target} {E} maps :
  Forall (fun mm => (0 <= fst (address mm) <= snd (address mm))%Z) maps ->
  exists infos, memory_infos (E := E) maps = Ok infos /\ Forall2 describes maps infos.
Proof.
  induction 1 as [|mm maps Hmm _ (infos & IH & Hd)]; [by exists []|].
  cbn [memory_infos]. unfold memory_info_of. rewrite sub_u_ok by lia.
  cbn [mbind res_bind]. rewrite IH. cbn [mbind res_bind]. eexists. split; [done|].
  constructor; [|done]. unfold describes. cbn.
  split_and!; try done; [lia|apply get_memory_protection_protects|..]; destruct (PRIVATE _); done.
Qed.

(** the memory info list describes the address space.  When the maps of the
    process can be read and the stream fits, the writer succeeds (in debug
    builds too) and appends exactly the list header and one record per region,
    in order, with the bounds of the region and a protection that says which of
    reading, writing and executing it allows; the directory entry covers exactly
    these bytes. *)
Theorem memory_info_list_describes `{TG : Target} (F : Format) (FO : FormatOk F) (PF : Procfs)
    (A : Arch) (c : MinidumpWriter) (b : Buffer) (maps : list MemoryMap) :
  memory_maps_from_file (utf8_encode (proc_path (blamed_thread c) "/maps")) = inr maps ->
  Forall (fun mm => (0 <= fst (address mm) <= snd (address mm))%Z) maps ->
  (Z.of_nat (length (inner b) + size_with MDMemoryInfoList +
             length maps * size_with MDMemoryInfo) < 2 ^ 32)%Z ->
  exists infos b',
    memory_info_list_write (c, b) =
      (Ok (mkDirectory (MemoryInfoListStream stream_types)
             (mkLocation (Z.of_nat (length (inner b') - length (inner b)))
                (Z.of_nat (length (inner b))))), (c, b')) /\
    Forall2 describes maps infos /\
    inner b' = inner b ++ encode (mkMemoryInfoList (wrap 32 size_of_MDMemoryInfoList)
                 (wrap 32 size_of_MDMemoryInfo) (Z.of_nat (length maps))) ++
               concat (encode <$> infos).
Proof.
  intros Hmaps Hwf Hfit.
  destruct (memory_infos_ok (E := SectionMemInfoListError) maps Hwf) as (infos & Hinf & Hd).
  pose proof (Forall2_length _ _ _ Hd) as Hlen.
  eexists infos, (mkBuffer _). split; [|split; [exact Hd|reflexivity]].
  unfold memory_info_list_write, buf. erewrite st_bind_run; [|reflexivity]. cbn [fst].
  rewrite Hmaps. erewrite st_bind_run; [|reflexivity].
  erewrite st_bind_run; [|apply map_err_ok, on_buf_run, alloc_with_val_run].
  cbn [set_buf get_buf pair_has_buffer fst snd]. rewrite Hinf.
  erewrite st_bind_run; [|reflexivity].
  erewrite st_bind_run; [|apply map_err_ok, on_buf_run; rewrite alloc_from_iter_eq;
    apply alloc_from_array_run].
  cbn [set_buf get_buf pair_has_buffer fst snd inner]. unfold st_lift, extend_dirent, position.
  cbn [location data_size rva mw_location maw_location mw_position MemWriter.array_size].
  rewrite !wrap_small by (unfold in_bits; lia).
  unfold add_u. rewrite checked_fits by (unfold in_bits; lia).
  cbn [mbind res_bind stream_type]. rewrite <- app_assoc. f_equal. do 3 f_equal.
  pose proof (encode_all_length infos) as Hall. unfold encode_all in Hall.
  rewrite !length_app, encode_length, Hall. lia.
Qed.

(** A read-only page followed by a private writable one. *)
Definition two_regions : list MemoryMap :=
  [mkMemoryMap (4096, 8192)%Z (mkPerms true false false false false) 0%Z Anonymous;
   mkMemoryMap (8192, 12288)%Z (mkPerms true true false false true) 0%Z Anonymous].

#[local] Instance two_region_procfs : Procfs := {|
  memory_maps_from _ := inr (inr two_regions);
  memory_maps_from_file _ := inr two_regions;
|}.

Lemma memory_info_list_describes_witness :
  exists infos b', @memory_info_list_write x64_debug layout two_region_procfs bare_arch
      (bare_config, mkBuffer []) =
      (Ok (mkDirectory 16 (mkLocation 112 0)), (bare_config, b')) /\
    Forall2 describes two_regions infos.
Proof.
  destruct (@memory_info_list_describes x64_debug layout layout_ok two_region_procfs bare_arch
    bare_config (mkBuffer []) two_regions eq_refl
    ltac:(repeat constructor; cbn; lia) ltac:(vm_compute; reflexivity))
    as (infos & b' & Hrun & Hd & Hb).
  exists infos, b'. split; [|exact Hd]. rewrite Hrun. repeat f_equal.
  apply (f_equal length) in Hb. rewrite Hb. apply Forall2_length in Hd. cbn in Hd.
  rewrite !length_app. rewrite (@encode_length _ _ (@ok_memory_info_list layout layout_ok)).
  pose proof (@encode_all_length _ _ (@ok_memory_info layout layout_ok) infos) as Hall.
  unfold encode_all in Hall. rewrite Hall, <- Hd. reflexivity.
Defined.
