(* ===== verification/SectionSpec.v ===== *)
(** * What the smaller streams contain

    The contents of the memory list, the copies of application memory, the
    exception, the system information, the memory info list and the copies of
    files (src/src/linux/sections/ and [write_file] in
    src/src/linux/minidump_writer.rs), and when their writers succeed. *)
From Stdlib Require Import ZArith Lia String.
From S2P Require Import Prelude Format Layout MemWriter DirSection Driver DumpPlan Slots Ensures.
From S2P Require Import RustStr Text Errors Os MemReader ModuleReader MapsReader Auxv Arch PtraceDumper.
From S2P Require Import Config Streams ThreadListStream MappingsStream DsoDebug MinidumpWriter.
From S2P Require Import StreamSpec DumpSpec StreamContents.

Local Open Scope Z_scope.
Local Notation length := List.length.

Section sections.
Context `{TG : Target} {F : Format} {FO : FormatOk F} {OS : Os} {PF : Procfs} {A : Arch}.

(** ** The memory list *)

Lemma memory_list_ensures c b :
  ensures memory_list_write (c, b) (fun e s => s.1 = c /\
    list_at (length (inner b)) (inner s.2) (MemoryListStream stream_types) e (memory_blocks c)).
Proof.
  unfold memory_list_write, buf. ens_bind. eapply ensures_run; [reflexivity|]. cbn [fst]. ens_bind.
  eapply ensures_run; [apply map_err_ok, on_buf_run, alloc_with_val_run|].
  cbn [get_buf set_buf pair_has_buffer fst snd].
  eapply ensures_conseq; [apply array_entry_ensures|]. intros e s [-> Hst]. split; [done|].
  apply stream_is_list. by rewrite <- encode_count.
Qed.

(** ** Application memory *)

(** The block [d] is a copy of the region [m]. *)
Definition copied (c : MinidumpWriter) (lo : nat) (l : list byte) (m : AppMemory)
    (d : MDMemoryDescriptor) : Prop :=
  start_of_memory_range d = ptr m /\ exists data,
    copy_from_process (blamed_thread c) (ptr m) (Config.length m) = Ok data /\
    data_size (memory d) = Z.of_nat (length data) /\ stands lo l (rva (memory d)) data.

Lemma copied_moved c c' hi lo l l' m d :
  blamed_thread c' = blamed_thread c -> kept_outside 0 hi l l' -> (hi <= lo)%nat ->
  copied c lo l m d -> copied c' hi l' m d.
Proof.
  intros Hc Hk Hhi (? & data & ? & ? & Hs). split; [done|]. exists data. rewrite Hc.
  split_and!; [done..|]. by eapply stands_moved.
Qed.

Definition copy_region (config : MinidumpWriter) (m : AppMemory) : Writer SectionAppMemoryError unit :=
  data_copy ← st_lift (map_err SectionAppMemoryError_CopyFromProcessError
                (copy_from_process (blamed_thread config) (ptr m) (Config.length m)));
  section ← on_buf (write_bytes data_copy);
  modify_config (push_memory_block (mkMemoryDescriptor (ptr m) (maw_location section))).

Lemma frame_copy_region config m n : frame n (copy_region config m).
Proof. unfold copy_region. frame_tac. Qed.

Lemma copy_regions_ok config ms : forall c b c' b',
  st_for ms (copy_region config) (c, b) = (Ok tt, (c', b')) -> small b' ->
  core c' = core c /\ crashing_thread_context c' = crashing_thread_context c /\
  extended (inner b) (inner b') /\
  exists ds, memory_blocks c' = memory_blocks c ++ ds /\
    Forall2 (copied config (length (inner b)) (inner b')) ms ds.
Proof.
  induction ms as [|m ms IH]; intros c b c' b'; cbn [st_for].
  { intros [= <- <-] _. split_and!; [done..|apply kept_outside_refl|]. exists []. by rewrite app_nil_r. }
  intros Hrun Hs. apply st_bind_ok in Hrun as ([] & [c1 b1] & Hm & Hrun).
  apply run_grows in Hrun as Hg; [|apply frame_for; intros; apply frame_copy_region].
  unfold buf_len in Hg. cbn in Hg.
  destruct (IH _ _ _ _ Hrun Hs) as (Hc & Hx & Hext & ds & Hds & HF).
  unfold copy_region in Hm. apply st_bind_ok in Hm as (data & s1 & Hd & Hm). injection Hd as Hd <-.
  destruct (copy_from_process (blamed_thread config) (ptr m) (Config.length m)) as [data'| |] eqn:Hcp;
    cbn in Hd; [injection Hd as ->|done..].
  erewrite st_bind_run in Hm by reflexivity. injection Hm as <- <-.
  unfold small, buf_len in Hs. cbn [inner get_buf buffer_has_buffer id] in *. rewrite length_app in Hg.
  split_and!; [destruct c; done|destruct c; done|eapply kept_outside_trans; [| |apply extended_app|]; done|].
  eexists (_ :: ds). split.
  { rewrite Hds. destruct c. cbn. by rewrite <- app_assoc. }
  constructor.
  - split; [done|]. exists data. split; [done|]. cbn. unfold position.
    rewrite size_u8, Nat.mul_1_r, !wrap_small by (unfold in_bits; lia). split; [done|].
    eapply stands_kept; [exact Hext|lia|]. by apply stands_end.
  - eapply Forall2_impl; [exact HF|]. intros m' d' (? & data' & ? & ? & Hst). split; [done|].
    exists data'. split_and!; [done..|]. eapply stands_weaken; [|exact Hst]. rewrite length_app. lia.
Qed.

Lemma app_memory_content c b c' b' :
  app_memory_write (c, b) = (Ok tt, (c', b')) -> small b' ->
  core c' = core c /\ crashing_thread_context c' = crashing_thread_context c /\
  exists ds, memory_blocks c' = memory_blocks c ++ ds /\
    Forall2 (copied c (length (inner b)) (inner b')) (app_memory c) ds.
Proof.
  intros Hrun Hs. unfold app_memory_write in Hrun. erewrite st_bind_run in Hrun by reflexivity.
  by destruct (copy_regions_ok c (app_memory c) c b c' b' Hrun Hs) as (? & ? & _ & ?).
Qed.

(** The regions can be read. *)
Definition regions_readable (c : MinidumpWriter) : Prop :=
  Forall (fun m => exists data,
    copy_from_process (blamed_thread c) (ptr m) (Config.length m) = Ok data) (app_memory c).

Lemma app_memory_ensures c b : regions_readable c -> ensures app_memory_write (c, b) (fun _ _ => True).
Proof.
  intros Hr. unfold app_memory_write. ens_bind. eapply ensures_run; [reflexivity|]. cbn [fst].
  apply (ensures_for _ _ (fun _ => True)); [|intros m [c1 b1] Hm _|done].
  { intros m. apply (frame_grows 0), (frame_copy_region c m). }
  unfold regions_readable in Hr. rewrite list.Forall_forall in Hr. destruct (Hr m Hm) as [data Hd].
  ens_bind. eapply ensures_lift; [by rewrite Hd|]. ens_bind.
  eapply ensures_run; [reflexivity|]. by eapply ensures_run; [reflexivity|].
Qed.

(** ** The exception *)

(** Where the registers of the blamed thread stand. *)
Definition context_location (x : CrashingThreadContext) : MDLocationDescriptor :=
  match x with
  | CrashContextPlusAddress ctx _ | CrashContextAt ctx => ctx
  | NoContext => mkLocation 0 0
  end.

Definition exception_stream_of (c : MinidumpWriter) : MDRawExceptionStream :=
  mkExceptionStream (wrap 32 (blamed_thread c)) (exception_record_of c) 0
    (context_location (crashing_thread_context c)).

Lemma exception_ensures c b :
  ensures exception_write (c, b) (fun e s => s.1 = c /\
    stream_is (length (inner b)) (inner s.2) (ExceptionStream stream_types) e
      (encode (exception_stream_of c))).
Proof.
  unfold exception_write, buf. ens_bind. eapply ensures_run; [reflexivity|]. cbn [fst]. cbv zeta. ens_bind.
  eapply ensures_run_small; [apply map_err_ok, on_buf_run, alloc_with_val_run|].
  cbn [get_buf set_buf pair_has_buffer fst snd]. intros Hs. unfold small, buf_len in Hs.
  cbn [get_buf pair_has_buffer snd inner] in Hs. rewrite length_app, encode_length in Hs.
  apply ensures_ret. split; [done|]. unfold mw_location, position.
  cbn [mw_position]. rewrite !(wrap_small 32 (Z.of_nat _)) by (unfold in_bits; lia).
  split; [done|]. split; [cbn; by rewrite encode_length|]. cbn [location rva snd inner]. by apply stands_end.
Qed.

(** ** System information *)

(** The record in the bytes [l]: what the processor description says, and the
    description of the system behind it. *)
Definition system_info_at (lo : nat) (l : list byte) (e : MDRawDirectory) : Prop :=
  exists r info, write_cpu_information (mkSystemInfo 0 0 0 0 0 0 0 0 os_information.1 r
      (replicate 24 Byte.x00)) = Ok info /\
    stream_is lo l (SystemInfoStream stream_types) e (encode info) /\
    stands lo l r (string_bytes os_information.2).

Lemma system_info_moved hi lo l l' e :
  kept_outside 0 hi l l' -> (hi <= lo)%nat -> system_info_at lo l e -> system_info_at hi l' e.
Proof.
  intros Hk Hhi (r & info & Hi & Hs & Ht). exists r, info.
  split_and!; [done|by eapply stream_is_moved|by eapply stands_moved].
Qed.

Lemma systeminfo_content c b e c' b' :
  systeminfo_write (c, b) = (Ok e, (c', b')) -> small b' ->
  c' = c /\ system_info_at (length (inner b)) (inner b') e.
Proof.
  intros Hrun Hs. unfold systeminfo_write, buf in Hrun. unfold system_info_at.
  destruct os_information as [platform os_version].
  erewrite st_bind_run in Hrun by (apply map_err_ok, on_buf_run, alloc_run).
  cbn [get_buf set_buf pair_has_buffer fst snd] in Hrun. cbv zeta in Hrun.
  apply st_bind_ok in Hrun as (loc & s1 & Hstr & Hrun).
  apply map_err_ok, on_buf_ok in Hstr as (b1 & Hstr & ->).
  cbn [get_buf set_buf pair_has_buffer fst snd] in Hrun, Hstr.
  apply st_bind_ok in Hrun as (info & s2 & Hinfo & Hrun). injection Hinfo as Hinfo <-.
  apply st_bind_ok in Hrun as ([] & s3 & Hset & Hrun). injection Hrun as <- ->.
  apply map_err_ok, on_buf_ok in Hset as (b2 & Hset & Hs2). injection Hs2 as -> ->. cbn in Hset.
  apply run_grows in Hset as Hg; [|apply frame_set_value; lia].
  apply write_string_ok in Hstr as (Hshort & -> & ->); [|unfold small, buf_len in *; cbn in *; lia].
  unfold buf_len in Hg. cbn [get_buf buffer_has_buffer id inner] in Hg.
  rewrite !length_app, length_replicate in Hg. unfold small, buf_len in Hs. cbn in Hs.
  assert (Hpos : wrap 32 (position b) = Z.of_nat (length (inner b)))
    by (apply wrap_small; unfold in_bits, position; lia).
  rewrite Hpos in *. unfold position in Hinfo.
  rewrite set_value_run in Hset by (cbn [mw_position inner]; rewrite Nat2Z.id, !length_app; lia).
  cbn [mw_position] in Hset. rewrite Nat2Z.id in Hset.
  injection Hset as <-. cbn [inner rva] in *. split; [done|].
  rewrite length_app, length_replicate in Hinfo.
  destruct (write_cpu_information _) as [info'| |] eqn:Hcpu; [injection Hinfo as ->|done..].
  do 2 eexists. split; [exact Hcpu|].
  assert (Hsp : splice (length (inner b)) (encode info)
      ((inner b ++ replicate (size_with MDRawSystemInfo) Byte.x00) ++ string_bytes os_version) =
    inner b ++ encode info ++ string_bytes os_version).
  { rewrite <- app_assoc. unfold splice. rewrite take_app_length, encode_length.
    rewrite drop_app_ge, Nat.add_comm, Nat.add_sub by lia.
    by rewrite drop_app_length' by (by rewrite length_replicate). }
  rewrite Hsp. split.
  - split; [done|]. unfold mw_location. cbn. rewrite encode_length, wrap_small by (unfold in_bits; lia).
    split; [done|]. by apply stands_mid.
  - replace (Z.of_nat (length (inner b) + size_with MDRawSystemInfo))
      with (Z.of_nat (length (inner b ++ encode info))) by (by rewrite length_app, encode_length).
    rewrite app_assoc. apply stands_end. rewrite length_app. lia.
Qed.

(** The processor can be described, wherever the description of the system
    stands, and that description is short. *)
Definition system_known : Prop :=
  short_text os_information.2 /\
  forall r, exists info, write_cpu_information (mkSystemInfo 0 0 0 0 0 0 0 0 os_information.1 r
    (replicate 24 Byte.x00)) = Ok info.

Lemma systeminfo_ensures c b : system_known -> ensures systeminfo_write (c, b) (fun _ _ => True).
Proof.
  unfold system_known, systeminfo_write, buf. destruct os_information as [platform os_version].
  cbn [fst snd]. intros [Hshort Hcpu]. apply ensures_bind.
  { intros w. apply st_rel_bind; [apply _|apply (frame_grows 0); frame_tac|]. intros loc.
    apply st_rel_bind; [apply _|apply (frame_grows 0); frame_tac|]. intros info.
    apply st_rel_bind; [apply _|apply (frame_grows 0), frame_map_err, frame_on_buf, frame_set_value; lia|].
    intros. apply st_rel_ret. apply _. }
  eapply ensures_run; [apply map_err_ok, on_buf_run, alloc_run|].
  cbn [get_buf set_buf pair_has_buffer fst snd]. cbv zeta.
  apply ensures_bind.
  { intros loc. apply st_rel_bind; [apply _|apply (frame_grows 0); frame_tac|]. intros info.
    apply st_rel_bind; [apply _|apply (frame_grows 0), frame_map_err, frame_on_buf, frame_set_value; lia|].
    intros. apply st_rel_ret. apply _. }
  apply ensures_map_err, ensures_on_buf, ensures_string; [|exact Hshort].
  cbn [get_buf set_buf pair_has_buffer fst snd rva inner]. destruct (Hcpu (position (mkBuffer
    (inner b ++ replicate (size_with MDRawSystemInfo) Byte.x00)))) as [info Hinfo].
  apply ensures_bind.
  { intros i. apply st_rel_bind; [apply _|apply (frame_grows 0), frame_map_err, frame_on_buf, frame_set_value; lia|].
    intros. apply st_rel_ret. apply _. }
  eapply ensures_lift; [by rewrite Hinfo|]. apply ensures_bind; [intros; apply st_rel_ret; apply _|].
  eapply ensures_run_small; [apply map_err_ok, on_buf_run, set_value_run|].
  { cbn [get_buf pair_has_buffer snd inner mw_position]. rewrite !length_app.
    pose proof (wrap_in_bits 32 (position b) ltac:(lia)) as Hw. unfold in_bits, wrap, position in *.
    pose proof (Z.mod_le (Z.of_nat (length (inner b))) (2 ^ 32) ltac:(lia) ltac:(lia)). lia. }
  intros _. by apply ensures_ret.
Qed.

(** ** The memory info list *)

Definition memory_info_at (c : MinidumpWriter) (lo : nat) (l : list byte) (e : MDRawDirectory) : Prop :=
  exists maps infos,
    memory_maps_from_file (utf8_encode (proc_path (blamed_thread c) "/maps")) = inr maps /\
    memory_infos (E := SectionMemInfoListError) maps = Ok infos /\
    stream_is lo l (MemoryInfoListStream stream_types) e
      (encode (mkMemoryInfoList (wrap 32 size_of_MDMemoryInfoList) (wrap 32 size_of_MDMemoryInfo)
         (Z.of_nat (length maps))) ++ encode_all infos).

Lemma memory_info_moved c c' hi lo l l' e :
  blamed_thread c' = blamed_thread c -> kept_outside 0 hi l l' -> (hi <= lo)%nat ->
  memory_info_at c lo l e -> memory_info_at c' hi l' e.
Proof.
  intros Hc Hk Hhi (maps & infos & Hm & Hi & Hs). exists maps, infos. rewrite Hc.
  split_and!; [done..|by eapply stream_is_moved].
Qed.

Definition maps_known (c : MinidumpWriter) : Prop :=
  exists maps infos,
    memory_maps_from_file (utf8_encode (proc_path (blamed_thread c) "/maps")) = inr maps /\
    memory_infos (E := SectionMemInfoListError) maps = Ok infos.

Lemma memory_info_list_ensures c b :
  maps_known c -> ensures memory_info_list_write (c, b) (fun e s => s.1 = c /\
    memory_info_at c (length (inner b)) (inner s.2) e).
Proof.
  intros (maps & infos & Hmaps & Hinfos). unfold memory_info_list_write, buf. ens_bind.
  eapply ensures_run; [reflexivity|]. cbn [fst]. ens_bind. eapply ensures_lift; [by rewrite Hmaps|]. ens_bind.
  eapply ensures_run; [apply map_err_ok, on_buf_run, alloc_with_val_run|].
  cbn [get_buf set_buf pair_has_buffer fst snd]. cbv zeta. ens_bind. eapply ensures_lift; [exact Hinfos|].
  eapply (ensures_conseq _ _ (fun e s => s = (c, mkBuffer (inner b ++ encode (mkMemoryInfoList
      (wrap 32 size_of_MDMemoryInfoList) (wrap 32 size_of_MDMemoryInfo) (Z.of_nat (length maps))) ++
      encode_all infos)) /\ _)).
  - intros Hs. unfold mbind, ST_bind, st_map_err, on_buf, st_zoom in Hs |- *.
    rewrite alloc_from_iter_eq in Hs |- *. by apply array_entry_ensures.
  - intros e s [-> Hst]. split; [done|]. by exists maps, infos.
Qed.

(** The writer returns only when the maps are known. *)
Lemma memory_info_list_known c b e s' :
  memory_info_list_write (c, b) = (Ok e, s') -> maps_known c.
Proof.
  intros Hrun. unfold memory_info_list_write, buf in Hrun. erewrite st_bind_run in Hrun by reflexivity.
  apply st_bind_ok in Hrun as (maps & s1 & Hm & Hrun). injection Hm as Hm <-. cbn [fst] in Hm.
  apply st_bind_ok in Hrun as (h & s1 & _ & Hrun).
  apply st_bind_ok in Hrun as (infos & s2 & Hi & _). injection Hi as Hi _.
  exists maps, infos. split; [|done].
  destruct (memory_maps_from_file _); cbn in Hm; [done|by injection Hm as ->].
Qed.

(** ** Copies of files *)

(** The first of the files that can be read. *)
Fixpoint first_readable (names : list RString) : option (list byte) :=
  match names with
  | [] => None
  | name :: names' =>
      match fs_read (utf8_encode name) with
      | inr content => Some content
      | inl _ => first_readable names'
      end
  end.

(** A stream that is the copy of a file, or missing. *)
Definition file_at (lo : nat) (l : list byte) (ty : Z) (e : MDRawDirectory) (o : option (list byte)) : Prop :=
  match o with
  | Some content => stream_is lo l ty e content
  | None => e = default_directory
  end.

Lemma file_at_moved hi lo l l' ty e o :
  kept_outside 0 hi l l' -> (hi <= lo)%nat -> file_at lo l ty e o -> file_at hi l' ty e o.
Proof. destruct o; [|done]. apply stream_is_moved. Qed.

(** What is done to the buffer to copy a file. *)
Definition copies_file (m : ST Buffer MemoryWriterError MDLocationDescriptor) (o : option (list byte)) : Prop :=
  forall b, match o with
  | Some content => m b = (Ok (mkLocation (wrap 32 (Z.of_nat (length content))) (wrap 32 (position b))),
                           mkBuffer (inner b ++ content))
  | None => exists err, m b = (Err err, b)
  end.

Lemma write_file_copies name : copies_file (write_file name) (first_readable [name]).
Proof.
  intros b. cbn [first_readable]. unfold write_file.
  destruct (fs_read (utf8_encode name)) as [err|content]; [by eexists|].
  erewrite st_bind_run by reflexivity.
  rewrite (st_bind_run (write_bytes content) _ b (mkMemoryArrayWriter (wrap 32 (position b)) (length content))
    (mkBuffer (inner b ++ content))) by done.
  unfold mret, ST_ret, maw_location.
  cbn [MemWriter.array_size maw_position]. by rewrite size_u8, Nat.mul_1_r.
Qed.

Lemma or_else_copies name name' :
  copies_file (st_or_else (write_file name) (write_file name')) (first_readable [name; name']).
Proof.
  intros b. pose proof (write_file_copies name b) as H1. pose proof (write_file_copies name' b) as H2.
  unfold st_or_else, mbind, ST_bind, st_try. cbn [first_readable] in *.
  destruct (fs_read (utf8_encode name)) as [err|content].
  - destruct H1 as [e1 ->]. exact H2.
  - by rewrite H1.
Qed.

Lemma file_copied ty b loc content b' :
  loc = mkLocation (wrap 32 (Z.of_nat (length content))) (wrap 32 (position b)) ->
  b' = mkBuffer (inner b ++ content) -> small b' ->
  stream_is (length (inner b)) (inner b') ty (mkDirectory ty loc) content.
Proof.
  intros -> -> Hs. unfold small, buf_len in Hs. cbn in Hs. rewrite length_app in Hs.
  unfold position. rewrite !wrap_small by (unfold in_bits; lia).
  split; [done|]. split; [done|]. by apply stands_end.
Qed.
(** ** Thread names *)

(** Every thread has a name that fits. *)
Definition named (d : PtraceDumper) : Prop :=
  Forall (fun t => 0 <= tid t /\ exists name, thread_name t = Some name /\ short_text name) (threads d).

Lemma named_all d : named d -> Forall (fun t => is_Some (thread_name t)) (threads d).
Proof. intros Hn. eapply Forall_impl; [exact Hn|]. intros t (_ & name & -> & _). by eexists. Qed.

Lemma named_threads_all d : named d -> named_threads d = length (threads d).
Proof.
  intros Hn. apply named_all in Hn. unfold named_threads.
  induction Hn as [|t ts Ht _ IH]; [done|]. rewrite filter_cons_True by done. cbn. by rewrite IH.
Qed.

Lemma name_body_ensures w p i t (c : MinidumpWriter) b :
  0 <= tid t -> (exists name, thread_name t = Some name /\ short_text name) ->
  maw_position w = Z.of_nat p -> (p + size_with MDRawThreadName * i <= length (inner b))%nat ->
  ensures (name_body w i t) (c, b) (fun _ _ => True).
Proof.
  intros Ht (name & Hn & Hshort) Hw Hp. unfold name_body, buf. rewrite Hn.
  assert (Hg : forall id pos, st_rel grows (st_map_err SectionThreadNamesError_MemoryWriterError
    (on_buf (St := MinidumpWriter * Buffer) (set_value_at w (mkThreadName id pos) i)))).
  { intros. apply (frame_grows 0), frame_map_err, frame_on_buf, frame_set_value_at. lia. }
  apply ensures_bind.
  { intros pos. apply st_rel_bind; [apply _|apply (frame_grows 0); frame_tac|]. intros. apply Hg. }
  apply ensures_map_err, ensures_on_buf, ensures_string; [|done].
  apply ensures_bind; [intros; apply Hg|].
  eapply ensures_lift; [unfold try_u32_of; by rewrite (proj2 (Z.leb_le _ _) Ht)|].
  apply ensures_map_err, ensures_on_buf, ensures_set_value_at; [|done].
  cbn [get_buf set_buf pair_has_buffer fst snd inner]. rewrite Hw, Nat2Z.id, length_app. lia.
Qed.

Lemma thread_names_ensures d c b : named d -> ensures (thread_names_write d) (c, b) (fun _ _ => True).
Proof.
  intros Hn. unfold thread_names_write, buf. rewrite named_threads_all by done.
  set (n := length (threads d)). cbv zeta. ens_bind.
  eapply ensures_run; [apply map_err_ok, on_buf_run, alloc_with_val_run|]. ens_bind.
  eapply ensures_run_small; [apply map_err_ok, on_buf_run, alloc_array_run|].
  cbn [get_buf set_buf pair_has_buffer fst snd inner]. intros Hs. unfold small, buf_len, position in *.
  cbn [get_buf pair_has_buffer snd inner] in *.
  rewrite !length_app, encode_length, length_replicate, size_u32 in Hs.
  rewrite length_app, encode_length, size_u32. set (w := mkMemoryArrayWriter _ _).
  assert (Hw : maw_position w = Z.of_nat (length (inner b) + 4))
    by (subst w; cbn; apply wrap_small; unfold in_bits; lia).
  ens_bind. eapply ensures_lift.
  { unfold extend_dirent, mw_location, maw_location. subst w.
    cbn [location data_size rva mw_position mw_size maw_position MemWriter.array_size stream_type].
    rewrite size_u32, !(wrap_small 32 (Z.of_nat _)), add_u_ok by (unfold in_bits; lia). reflexivity. }
  assert (Hb : forall i t, frame 0 (name_body (A := A) w i t)) by (intros; apply frame_name_body; lia).
  ens_bind. eapply (ensures_for_enum _ (name_body (A := A) w) (fun _ s =>
    (length (inner b) + 4 + size_with MDRawThreadName * n <= length (inner s.2))%nat)).
  - intros. by apply (frame_grows 0).
  - intros j t [c1 b1] Hj Hle Hsm. pose proof (lookup_lt_Some _ _ _ Hj). cbn [fst snd] in *.
    destruct (proj1 (Forall_lookup _ _) Hn j t Hj) as [Ht Hname].
    destruct (name_body_ensures w (length (inner b) + 4) j t c1 b1 Ht Hname Hw ltac:(unfold n in *; nia) Hsm)
      as ([] & [c2 b2] & Hr & _).
    exists tt, (c2, b2). split; [exact Hr|]. apply run_grows in Hr; [|apply Hb].
    unfold buf_len in Hr. cbn in *. lia.
  - cbn [fst snd inner]. rewrite !length_app, encode_length, length_replicate, size_u32. lia.
  - intros. by apply ensures_ret.
Qed.

(** ** Open files *)

(** What the writer finds out about an entry of /proc/<pid>/fd: its number, the
    path it stands for and its mode. *)
Definition open_file (dir name : OsString) : option (Z * RString * Z) :=
  h ← filename_to_fd name;
  realpath ← match fs_read_link (path_push dir name) with inl _ => None | inr p => Some p end;
  st_mode ← file_stat (path_push dir name);
  Some (h, to_string_lossy realpath, st_mode).

(** The record [v] in the bytes [l]. *)
Definition handle_entry (lo : nat) (l : list byte) (f : Z * RString * Z) (v : MDRawHandleDescriptor) : Prop :=
  exists r, v = mkHandleDescriptor f.1.1 0 r f.2 0 0 0 /\ stands lo l r (string_bytes f.1.2).

Lemma handle_entry_kept lo hi lo' l l' f v :
  kept_outside lo hi l l' -> (hi <= lo')%nat -> handle_entry lo' l f v -> handle_entry lo' l' f v.
Proof. intros Hk Hhi (r & Hv & Hs). exists r. split; [done|]. by eapply stands_kept. Qed.

Lemma handle_entry_weaken lo lo' l f v :
  (lo' <= lo)%nat -> handle_entry lo l f v -> handle_entry lo' l f v.
Proof. intros Hlo (r & Hv & Hs). exists r. split; [done|]. by eapply stands_weaken. Qed.

(** The links of the directory are short. *)
Definition links_short (dir : OsString) (names : list OsString) : Prop :=
  Forall (fun name => forall p, fs_read_link (path_push dir name) = inr p ->
    short_text (to_string_lossy p)) names.

Lemma direntry_ensures dir name (c : MinidumpWriter) b :
  (forall p, fs_read_link (path_push dir name) = inr p -> short_text (to_string_lossy p)) ->
  ensures (direntry_to_descriptor dir name) (c, b) (fun o s => s.1 = c /\
    extended (inner b) (inner s.2) /\
    Forall2 (handle_entry (length (inner b)) (inner s.2)) (option_list (open_file dir name)) (option_list o)).
Proof.
  intros Hshort. unfold direntry_to_descriptor, open_file. cbv zeta.
  assert (Hnone : forall s, s = (c, b) -> s.1 = c /\ extended (inner b) (inner s.2) /\
    Forall2 (handle_entry (length (inner b)) (inner s.2)) [] []).
  { intros s ->. split_and!; [done|apply kept_outside_refl|constructor]. }
  destruct (filename_to_fd name) as [h|]; [|by apply ensures_ret, Hnone]. cbn [mbind option_bind].
  destruct (fs_read_link (path_push dir name)) as [err|p] eqn:Hl; [by apply ensures_ret, Hnone|].
  cbn [mbind option_bind]. apply ensures_bind.
  { intros [?|?]; [|destruct (file_stat _)]; apply st_rel_ret; apply _. }
  apply ensures_try_ok, ensures_on_buf. intros Hs.
  assert (He : ensures (write_string_to_location (to_string_lossy p)) b (fun loc b' => rva loc = position b /\
    b' = mkBuffer (inner b ++ string_bytes (to_string_lossy p))))
    by (apply ensures_string; [done|by apply Hshort]).
  destruct (He Hs) as (loc & b' & Hr & Hloc & ->). exists loc. eexists. split; [exact Hr|].
  destruct (file_stat (path_push dir name)) as [mode|]; cbn [mbind option_bind option_list];
    apply ensures_ret; (split; [done|]); (split; [apply extended_app|]).
  - constructor; [|constructor]. exists (position b). rewrite Hloc. split; [done|]. by apply stands_end.
  - constructor.
Qed.

Lemma collect_ensures dir entries : forall (c : MinidumpWriter) b,
  links_short dir (omap id entries) ->
  ensures (collect_descriptors dir entries) (c, b) (fun ds s => s.1 = c /\
    extended (inner b) (inner s.2) /\
    Forall2 (handle_entry (length (inner b)) (inner s.2)) (omap (open_file dir) (omap id entries)) ds).
Proof.
  induction entries as [|[name|] entries IH]; intros c b Hshort; cbn [collect_descriptors].
  - apply ensures_ret. split_and!; [done|apply kept_outside_refl|constructor].
  - inversion Hshort as [|? ? Hn Hns]; subst. apply ensures_bind; [intros; apply (frame_grows 0); frame_tac|].
    eapply ensures_conseq; [by apply direntry_ensures|]. intros o [c1 b1] (Hc & Hx & HF).
    cbn [fst snd] in *. subst c1. apply ensures_bind; [intros; apply st_rel_ret; apply _|].
    eapply ensures_conseq; [by apply IH|]. intros ds [c2 b2] (Hc & Hx' & HF'). cbn [fst snd] in *.
    apply ensures_ret. cbn [fst snd]. pose proof (proj1 Hx).
    split; [done|]. split; [by eapply kept_outside_trans|].
    assert (H2 : Forall2 (handle_entry (length (inner b)) (inner b2))
      (omap (open_file dir) (omap id entries)) ds).
    { eapply Forall2_impl; [exact HF'|]. intros. by eapply handle_entry_weaken. }
    cbn [omap list_omap id]. destruct (open_file dir name), o; cbn [option_list] in HF;
      inversion HF as [|? ? ? ? H1]; subst; [|done].
    constructor; [|done]. by eapply handle_entry_kept; [exact Hx'|lia|].
  - by apply IH.
Qed.

(** The stream in the bytes [l]. *)
Definition handle_data_at (lo : nat) (l : list byte) (e : MDRawDirectory) (files : list (Z * RString * Z))
    : Prop :=
  exists vs, Forall2 (handle_entry lo l) files vs /\
    stream_is lo l (HandleDataStream stream_types) e
      (encode (mkHandleDataStream (wrap 32 size_of_MDRawHandleDataStream)
         (wrap 32 size_of_MDRawHandleDescriptor) (wrap 32 (Z.of_nat (length vs))) 0) ++ encode_all vs).

Lemma handle_data_moved hi lo l l' e files :
  kept_outside 0 hi l l' -> (hi <= lo)%nat -> handle_data_at lo l e files -> handle_data_at hi l' e files.
Proof.
  intros Hk Hlo (vs & HF & Hs). exists vs. split; [|by eapply stream_is_moved].
  eapply Forall2_impl; [exact HF|]. intros f v (r & Hv & Hst). exists r. split; [done|].
  by eapply stands_moved.
Qed.

Lemma handle_data_ensures c b entries :
  let dir := utf8_encode (proc_path (process_id c) "/fd") in
  fs_read_dir dir = inr entries -> links_short dir (omap id entries) ->
  ensures handle_data_write (c, b) (fun e s => s.1 = c /\
    handle_data_at (length (inner b)) (inner s.2) e (omap (open_file dir) (omap id entries))).
Proof.
  intros dir Hdir Hshort. unfold handle_data_write, buf. cbv zeta. ens_bind.
  eapply ensures_run; [reflexivity|]. cbn [fst]. fold dir. ens_bind.
  eapply ensures_lift; [by rewrite Hdir|]. ens_bind.
  eapply ensures_conseq; [by apply collect_ensures|]. intros ds [c1 b1] (Hc & Hx & HF).
  cbn [fst snd] in *. subst c1. ens_bind.
  eapply ensures_run; [apply map_err_ok, on_buf_run, alloc_with_val_run|].
  cbn [get_buf set_buf pair_has_buffer fst snd].
  match goal with |- context [encode ?h] => set (hd := h) end.
  eapply (ensures_conseq _ _ (fun e s => s = (c, mkBuffer (inner b1 ++ encode hd ++ encode_all ds)) /\ _)).
  - intros Hs. unfold mbind, ST_bind, st_map_err, on_buf, st_zoom in Hs |- *.
    rewrite alloc_from_iter_eq in Hs |- *. by apply array_entry_ensures.
  - intros e s [-> Hst]. split; [done|]. exists ds. cbn [snd inner]. pose proof (proj1 Hx). split.
    + eapply Forall2_impl; [exact HF|]. intros. eapply handle_entry_kept; [apply extended_app|lia|done].
    + eapply stream_is_weaken; [|exact Hst]. lia.
Qed.
End sections.
