(* ===== verification/MemoryBlocks.v ===== *)
(** * The memory blocks of a dump

    The stream writers collect the memory they copied in
    [MinidumpWriter::memory_blocks], which the memory list stream publishes.
    Every block they record lies inside the dump. *)
From Stdlib Require Import ZArith Lia String.
From S2P Require Import Prelude Format Layout MemWriter DirSection Driver DumpPlan RustStr Errors.
From S2P Require Import Os MemReader ModuleReader MapsReader Auxv Arch PtraceDumper.
From S2P Require Import Config Streams ThreadListStream MappingsStream DsoDebug.
From S2P Require Import MinidumpWriter StreamSpec DumpSpec ElfLayout.

Local Open Scope Z_scope.
Local Notation length := List.length.
Local Notation File := DirSection.File.

(** Every recorded block is inside the first [n] bytes. *)
Definition blocks_inside {A : Arch} (c : MinidumpWriter) (n : nat) : Prop :=
  Forall (fun m => loc_inside (memory m) n) (memory_blocks c).

Lemma blocks_mono {A : Arch} c n n' : blocks_inside c n -> (n <= n')%nat -> blocks_inside c n'.
Proof.
  intros Hb Hn. eapply Forall_impl; [done|]. unfold loc_inside. intros m. cbn. lia.
Qed.

Lemma blocks_push {A : Arch} c n m :
  blocks_inside c n -> loc_inside (memory m) n -> blocks_inside (push_memory_block m c) n.
Proof.
  intros Hb Hm. unfold blocks_inside. destruct c. cbn. apply Forall_app. split; [exact Hb|].
  by constructor.
Qed.

(** ** States with a configuration and a buffer *)

Class HasConfig {A : Arch} (St : Type) `{HasBuffer St} := config_of : St -> MinidumpWriter.

Section keeps.
Context {A : Arch}.

#[export] Instance writer_has_config : HasConfig (MinidumpWriter * Buffer) := fst.
#[export] Instance dump_has_config {W} : HasConfig (MinidumpWriter * W * Buffer) :=
  fun s => fst (fst s).

(** Whatever the outcome, the recorded blocks stay inside a buffer below 4 GiB. *)
Definition keeps_blocks {St E T} `{HasConfig St} (m : ST St E T) : Prop :=
  st_rel grows m /\
  forall s, blocks_inside (config_of s) (buf_len s) -> Z.of_nat (buf_len (m s).2) < 2 ^ 32 ->
    blocks_inside (config_of (m s).2) (buf_len (m s).2).

Section rules.
Context {St E : Type} `{HC : HasConfig St}.

Lemma keeps_ret {T} (a : T) : keeps_blocks (St := St) (E := E) (mret a).
Proof. split; [apply st_rel_ret; apply _|done]. Qed.

Lemma keeps_lift {T} (r : res E T) : keeps_blocks (St := St) (st_lift r).
Proof. split; [apply st_rel_lift; apply _|done]. Qed.

Lemma keeps_get : keeps_blocks (St := St) (E := E) st_get.
Proof. split; [apply st_rel_get; apply _|done]. Qed.

Lemma blocks_bind {T U} (m : ST St E T) (f : T -> ST St E U) :
  keeps_blocks m -> (forall a, keeps_blocks (f a)) -> keeps_blocks (m ≫= f).
Proof.
  intros [Hg Hm] Hf. split; [apply st_rel_bind; [apply _|done|intros; apply Hf]|].
  intros s Hs. unfold mbind, ST_bind. specialize (Hm s Hs).
  destruct (m s) as [[a|e|] s1]; cbn in *; [|done|done].
  destruct (Hf a) as [Hga Hfa]. intros Hlt. specialize (Hga s1). unfold grows in Hga.
  apply Hfa; [apply Hm; lia|done].
Qed.

Lemma keeps_ext {T} (m m' : ST St E T) :
  (forall s, m s = m' s) -> keeps_blocks m' -> keeps_blocks m.
Proof.
  intros He [Hg Hm]. split; [intros s; rewrite He; apply Hg|]. intros s. rewrite He. apply Hm.
Qed.

Lemma keeps_map_err {E' T} (conv : E' -> E) (m : ST St E' T) :
  keeps_blocks m -> keeps_blocks (st_map_err conv m).
Proof.
  intros [Hg Hm]. split; [by apply st_rel_map_err|]. intros s. specialize (Hm s).
  unfold st_map_err. by destruct (m s) as [[] ?].
Qed.

Lemma keeps_try {E' T} (m : ST St E' T) : keeps_blocks m -> keeps_blocks (st_try (E' := E) m).
Proof.
  intros [Hg Hm]. split; [by apply st_rel_try|]. intros s. specialize (Hm s).
  unfold st_try. by destruct (m s) as [[] ?].
Qed.

Lemma keeps_for {T} (l : list T) (body : T -> ST St E unit) :
  (forall x, keeps_blocks (body x)) -> keeps_blocks (st_for l body).
Proof. intros Hb. induction l; simpl; [apply keeps_ret|by apply blocks_bind]. Qed.

Lemma keeps_for_enum {T} (l : list T) (body : nat -> T -> ST St E unit) :
  (forall i x, keeps_blocks (body i x)) -> forall i, keeps_blocks (st_for_enum i l body).
Proof.
  intros Hb. induction l; intros i; simpl; [apply keeps_ret|by apply blocks_bind].
Qed.
End rules.

(** A step that does not touch the configuration. *)
Lemma keeps_on_buf {St E T} `{HC : HasConfig St} (m : ST Buffer E T) :
  (forall b s, config_of (set_buf b s) = config_of s) -> frame 0 m ->
  keeps_blocks (St := St) (on_buf m).
Proof.
  intros Hc [Hg _]. split; [by apply grows_on_buf|]. intros s Hs _.
  specialize (Hg (get_buf s)). unfold on_buf, st_zoom. destruct (m (get_buf s)) as [r b].
  cbn [fst snd] in *. rewrite Hc, buf_len_set. by eapply blocks_mono.
Qed.

Lemma keeps_modify_config {E} f :
  (forall c, memory_blocks (f c) = memory_blocks c) -> keeps_blocks (modify_config (E := E) f).
Proof.
  intros Hf. split; [apply (frame_grows 0), frame_modify_config|]. intros [c b] Hs _.
  unfold blocks_inside in *. cbn in *. by rewrite Hf.
Qed.
End keeps.

(** ** The three places that record a block *)

Section writers.
Context `{TG : Target} {F : Format} {FO : FormatOk F} {OS : Os} {PF : Procfs} {G : Goblin}.
Context {A : Arch} {AO : ArchOk A}.
Context (fuel : nat).

(** A copy appended to the buffer and recorded with the location returned. *)
Lemma keeps_recorded {E T} (m : ST Buffer E T) (addr : Z) (loc : T -> MDLocationDescriptor) :
  frame 0 m -> yields (fun a => loc_inside (loc a)) m ->
  keeps_blocks (a ← on_buf m; modify_config (push_memory_block (mkMemoryDescriptor addr (loc a)))).
Proof.
  intros Hf Hy. split.
  { apply (frame_grows 0), frame_bind; [by apply frame_on_buf|]. intros; apply frame_modify_config. }
  intros [c b] Hs. unfold mbind, ST_bind, on_buf, st_zoom.
  cbn [get_buf set_buf pair_has_buffer fst snd].
  pose proof (frame_grows _ _ Hf b) as Hg. specialize (Hy b).
  destruct (m b) as [[a|e|] b'] eqn:Hm; cbn [fst snd] in *; intros Hlt.
  - apply blocks_push; [by eapply blocks_mono|]. by apply (Hy a b').
  - by eapply blocks_mono.
  - by eapply blocks_mono.
Qed.

Lemma keeps_recorded_err {E T} (conv : MemoryWriterError -> E)
    (m : ST Buffer MemoryWriterError T) (addr : Z)
    (loc : T -> MDLocationDescriptor) :
  frame 0 m -> yields (fun a => loc_inside (loc a)) m ->
  keeps_blocks
    (a ← buf conv m; modify_config (push_memory_block (mkMemoryDescriptor addr (loc a)))).
Proof.
  intros Hf Hy. apply (keeps_ext _ (a ← on_buf (st_map_err conv m);
    modify_config (push_memory_block (mkMemoryDescriptor addr (loc a))))).
  - intros [c b]. unfold mbind, ST_bind, buf, st_map_err, on_buf, st_zoom. cbn.
    by destruct (m b) as [[] ?].
  - apply keeps_recorded; [by apply frame_map_err|]. intros s a s' Hrun. apply map_err_ok in Hrun.
    by apply Hy in Hrun.
Qed.

Lemma write_bytes_inside {E} bs :
  yields (fun (w : MemoryArrayWriter u8) => loc_inside (maw_location w)) (write_bytes (E := E) bs).
Proof.
  intros s w s' Hrun Hlt. apply write_bytes_len in Hrun as [Hp Hl].
  unfold loc_inside, maw_location. cbn [data_size rva].
  rewrite Hp, !wrap_small by (unfold in_bits; lia). lia.
Qed.

Lemma alloc_from_array_inside {T} `{PodOk T} (vs : list T) :
  yields (fun w => loc_inside (maw_location w)) (alloc_from_array vs).
Proof.
  intros s w s' Hrun Hlt. pose proof (alloc_from_array_len _ _ _ _ Hrun) as Hl.
  rewrite alloc_from_array_run in Hrun. injection Hrun as <- <-.
  unfold loc_inside, maw_location, position in *. cbn [data_size rva maw_position MemWriter.array_size] in *.
  unfold buf_len in *. rewrite !wrap_small by (unfold in_bits; cbn in *; lia). cbn in *. lia.
Qed.

(** The stack of a thread: the location is computed before the copy is
    appended. *)
Lemma keeps_stack {E T} bs addr (k : Z -> T) :
  keeps_blocks (E := E)
    (pos ← get_position;
     on_buf (write_all bs);;
     modify_config (push_memory_block (mkMemoryDescriptor addr
       (mkLocation (wrap 32 (Z.of_nat (length bs))) (wrap 32 pos))));;
     mret (k pos)).
Proof.
  split; [apply (frame_grows 0); frame_tac|]. intros [c b] Hs.
  match goal with |- context [snd (?m (c, b))] =>
    assert (Hrun : m (c, b) = (Ok (k (position b)),
      (push_memory_block (mkMemoryDescriptor addr
         (mkLocation (wrap 32 (Z.of_nat (length bs))) (wrap 32 (position b)))) c,
       mkBuffer (inner b ++ bs)))) by reflexivity; rewrite Hrun; clear Hrun end.
  unfold buf_len in *. cbn [snd get_buf pair_has_buffer inner] in *. rewrite length_app.
  intros Hlt. apply blocks_push; [eapply blocks_mono; [exact Hs|lia]|].
  unfold loc_inside, position. cbn [memory data_size rva].
  rewrite !wrap_small by (unfold in_bits; lia). lia.
Qed.

Ltac keeps_step :=
  lazymatch goal with
  | |- forall _, _ => intros
  | |- keeps_blocks (_ ≫= _) => apply blocks_bind
  | |- keeps_blocks (st_map_err _ _) => apply keeps_map_err
  | |- keeps_blocks (st_try _) => apply keeps_try
  | |- keeps_blocks (on_buf _) => apply keeps_on_buf; [done|solve [frame_tac]]
  | |- keeps_blocks (st_for _ _) => apply keeps_for
  | |- keeps_blocks (st_for_enum _ _ _) => apply keeps_for_enum
  | |- keeps_blocks (match ?x with _ => _ end) => destruct x
  | |- keeps_blocks st_get => apply keeps_get
  | |- keeps_blocks (mret _) => apply keeps_ret
  | |- keeps_blocks (st_lift _) => apply keeps_lift
  | |- keeps_blocks get_config => unfold get_config
  | |- keeps_blocks get_position => unfold get_position
  | |- keeps_blocks (modify_config _) => apply keeps_modify_config; by intros []
  | |- keeps_blocks _ => solve [eauto 2 with mdw]
  end.
Ltac keeps_tac := unfold buf_tl, buf_map, buf; cbv zeta; repeat keeps_step.

Lemma keeps_app_memory : keeps_blocks app_memory_write.
Proof.
  unfold app_memory_write. apply blocks_bind; [keeps_tac|]. intros c. apply keeps_for. intros x.
  apply blocks_bind; [apply keeps_lift|]. intros data.
  apply (keeps_recorded (write_bytes data) (ptr x) maw_location);
    [apply frame_write_bytes|apply write_bytes_inside].
Qed.

Lemma keeps_fill_stack dumper t ip sp m : keeps_blocks (fill_thread_stack fuel dumper t ip sp m).
Proof.
  unfold fill_thread_stack, lift_dumper. cbv zeta.
  repeat lazymatch goal with
  | |- keeps_blocks (get_position ≫= fun _ => on_buf (write_all _) ≫= _) => fail
  | _ => keeps_step
  end.
  apply (keeps_stack _ _ (fun pos => _)).
Qed.
Hint Resolve keeps_fill_stack : mdw.

Lemma keeps_ip_memory ip t ms : keeps_blocks (ip_memory ip t ms).
Proof.
  induction ms as [|m ms IH]; cbn [ip_memory]; unfold lift_dumper; cbv zeta; [apply keeps_ret|].
  repeat lazymatch goal with
  | |- keeps_blocks (buf_tl _ ≫= _) => fail
  | |- keeps_blocks (ip_memory _ _ _) => apply IH
  | _ => keeps_step
  end.
  apply (keeps_recorded_err _ _ _ maw_location); [frame_tac|apply alloc_from_array_inside].
Qed.
Hint Resolve keeps_ip_memory : mdw.

Lemma keeps_thread_list dumper : keeps_blocks (thread_list_write fuel dumper).
Proof.
  unfold thread_list_write, write_thread, write_crashed_thread, write_live_thread. keeps_tac.
Qed.

(** ** The writers that record nothing *)

Lemma keeps_fill_raw_module m i s : keeps_blocks (fill_raw_module m i s).
Proof. unfold fill_raw_module. keeps_tac. Qed.
Hint Resolve keeps_fill_raw_module : mdw.

Lemma keeps_mappings dumper : keeps_blocks (mappings_write dumper).
Proof.
  assert (Hms : forall u ms i, keeps_blocks (modules_of_mappings dumper u i ms)).
  { intros u ms. induction ms as [|m ms IH]; intros i; cbn [modules_of_mappings];
      unfold module_of_mapping; keeps_tac; apply IH. }
  assert (Hus : forall us, keeps_blocks (user_modules us)).
  { induction us as [|u us IH]; cbn [user_modules]; keeps_tac; apply IH. }
  unfold mappings_write. keeps_tac; auto.
Qed.

Lemma keeps_memory_list : keeps_blocks memory_list_write.
Proof. unfold memory_list_write. keeps_tac. Qed.

Lemma keeps_exception : keeps_blocks exception_write.
Proof. unfold exception_write. keeps_tac. Qed.

Lemma keeps_systeminfo : keeps_blocks systeminfo_write.
Proof. unfold systeminfo_write. keeps_tac. Qed.

Lemma keeps_memory_info_list : keeps_blocks memory_info_list_write.
Proof. unfold memory_info_list_write. keeps_tac. Qed.

Lemma keeps_thread_names dumper : keeps_blocks (thread_names_write dumper).
Proof. unfold thread_names_write. keeps_tac. Qed.

Lemma keeps_handle_data : keeps_blocks handle_data_write.
Proof.
  assert (Hc : forall dir es, keeps_blocks (collect_descriptors dir es)).
  { intros dir es. induction es as [|[e|] es IH]; cbn [collect_descriptors];
      unfold direntry_to_descriptor; keeps_tac; apply IH. }
  unfold handle_data_write. keeps_tac; auto.
Qed.

(** ** The whole dump *)

Lemma keeps_on_writer {E E' T} (conv : E -> E') (m : Writer E T) :
  keeps_blocks m -> keeps_blocks (on_writer (W := File) conv m).
Proof.
  intros [Hg Hm]. split; [by apply grows_on_writer|]. intros [[c d] b].
  specialize (Hm (c, b)). unfold on_writer, st_map_err, st_zoom. cbn [fst snd].
  by destruct (m (c, b)) as [[] [c' b']].
Qed.

Lemma keeps_flush dirent : keeps_blocks (flush (W := File) dirent).
Proof.
  pose proof (grows_flush (C := MinidumpWriter) (W := File) dirent) as Hg. split; [done|]. intros [[c d] b] Hs _.
  specialize (Hg (c, d, b)). revert Hg. unfold flush, st_zoom. cbn [fst snd].
  destruct (write_to_file dirent (d, b)) as [r [d' b']]. intros Hg. by eapply blocks_mono.
Qed.
Hint Resolve keeps_flush keeps_thread_list keeps_mappings keeps_app_memory keeps_memory_list
  keeps_exception keeps_systeminfo keeps_memory_info_list keeps_thread_names
  keeps_handle_data : mdw.

Lemma keeps_flush_some e : keeps_blocks (flush_some (W := File) e).
Proof. apply keeps_map_err, keeps_flush. Qed.
Hint Resolve keeps_flush_some : mdw.

Lemma keeps_file_stream ty m : frame 0 m -> keeps_blocks (file_stream (W := File) ty m).
Proof.
  intros Hf. apply blocks_bind; [|keeps_tac].
  by apply keeps_try, keeps_map_err, keeps_on_buf.
Qed.

Lemma keeps_streams w dumper :
  keeps_blocks (write_header (W := File) w;; write_streams fuel dumper).
Proof.
  unfold write_header, write_streams, on_dump_buf. cbv zeta.
  repeat lazymatch goal with
  | |- keeps_blocks (on_writer _ _) => apply keeps_on_writer
  | |- keeps_blocks (file_stream _ _) => apply keeps_file_stream
  | |- frame _ (st_or_else _ _) => apply frame_or_else
  | |- frame _ (write_file _) => apply frame_write_file
  | |- _ => keeps_step
  end.
Qed.
End writers.

(** C14: every memory block a dump records lies inside it.  Started by a writer
    that has recorded none, [generate_dump] records only blocks whose location
    lies inside the buffer it leaves, whatever its outcome and however many
    stacks, instruction windows and application regions it copies. *)
Theorem memory_blocks_inside_dump `{TG : Target} (F : Format) (FO : FormatOk F) (OS : Os)
    (PF : Procfs) (G : Goblin) (A : Arch) (AO : ArchOk A) (fuel : nat) (dumper : PtraceDumper)
    (c c' : MinidumpWriter) (f f' : File) (b' : Buffer) (r : res WriterError unit) :
  memory_blocks c = [] ->
  generate_dump fuel dumper (c, f, mkBuffer []) = (r, (c', f', b')) ->
  Z.of_nat (length (inner b')) < 2 ^ 32 ->
  Forall (fun m => loc_inside (memory m) (length (inner b'))) (memory_blocks c').
Proof.
  intros Hc. rewrite generate_dump_start. unfold with_dir. set (w := mkMemoryWriter _ _).
  destruct (keeps_streams fuel w dumper) as [_ Hk].
  specialize (Hk (c, start_dir f, start_buffer)).
  destruct ((write_header w;; write_streams fuel dumper) _) as [r0 [[c0 d0] b0]].
  intros [= <- <- <- <-] Hlt. apply Hk; [|exact Hlt].
  unfold blocks_inside, config_of, dump_has_config. cbn [fst]. rewrite Hc. by constructor.
Qed.

(** A dump with four bytes of application memory. *)
Definition app_config : @MinidumpWriter bare_arch :=
  set_app_memory [mkAppMemory 4096 4] bare_config.

Local Notation app_run :=
  (@generate_dump x64_release layout (toy_os (fun _ => Some Byte.x41)) toy_procfs elf64 bare_arch
    File file_destination 10 bare_dumper (app_config, bare_file, mkBuffer [])).

Lemma memory_blocks_inside_dump_witness :
  length (memory_blocks app_run.2.1.1) = 1%nat /\
  Forall (fun m => loc_inside (memory m) (length (inner app_run.2.2))) (memory_blocks app_run.2.1.1).
Proof.
  split; [vm_compute; reflexivity|].
  assert (Hlt : Z.of_nat (length (inner app_run.2.2)) < 2 ^ 32) by (vm_compute; reflexivity).
  assert (Hrun : app_run = (app_run.1, (app_run.2.1.1, app_run.2.1.2, app_run.2.2)))
    by (by destruct app_run as [? [[? ?] ?]]).
  exact (@memory_blocks_inside_dump x64_release layout layout_ok (toy_os (fun _ => Some Byte.x41))
    toy_procfs elf64 bare_arch bare_arch_ok 10 bare_dumper app_config app_run.2.1.1 bare_file
    app_run.2.1.2 app_run.2.2 app_run.1 eq_refl Hrun Hlt).
Defined.
