(* ===== verification/MemoryList.v ===== *)
(** * The memory list of a dump

    What the memory list stream (src/src/linux/sections/memory_list_stream.rs)
    publishes, and how the list it is taken from,
    [MinidumpWriter::memory_blocks], changes from one dump to the next. *)
From Stdlib Require Import ZArith Lia String.
From S2P Require Import Prelude Format Layout MemWriter DirSection Driver DumpPlan RustStr Errors.
From S2P Require Import Os MemReader ModuleReader MapsReader Auxv Arch PtraceDumper.
From S2P Require Import Config Streams ThreadListStream MappingsStream DsoDebug.
From S2P Require Import MinidumpWriter StreamSpec DumpSpec ElfLayout SuspendSpec DumpLife MemoryBlocks.

Local Open Scope Z_scope.
Local Notation length := List.length.
Local Notation File := DirSection.File.

(** the memory list publishes the recorded blocks.  When the list fits a
    dump below 4 GiB the writer succeeds (in debug builds too), leaves the
    configuration alone, and appends exactly the number of the blocks and their
    descriptors, in the order in which they were recorded; the directory entry
    covers exactly these bytes. *)
Theorem memory_list_publishes `{TG : Target} (F : Format) (FO : FormatOk F) (A : Arch)
    (c : MinidumpWriter) (b : Buffer) :
  Z.of_nat (length (inner b) + 4 +
            length (memory_blocks c) * size_with MDMemoryDescriptor) < 2 ^ 32 ->
  Z.of_nat (length (memory_blocks c)) < 2 ^ 32 ->
  exists b',
    memory_list_write (c, b) =
      (Ok (mkDirectory (MemoryListStream stream_types)
             (mkLocation (Z.of_nat (length (inner b') - length (inner b)))
                (Z.of_nat (length (inner b))))), (c, b')) /\
    inner b' = inner b ++ le_split 4 (Z.of_nat (length (memory_blocks c))) ++
               concat (encode <$> memory_blocks c).
Proof.
  intros Hfit Hn. eexists (mkBuffer _). split; [|reflexivity].
  unfold memory_list_write, buf. erewrite st_bind_run; [|reflexivity]. cbn [fst].
  erewrite st_bind_run; [|apply map_err_ok, on_buf_run, alloc_with_val_run].
  cbn [set_buf get_buf pair_has_buffer fst snd].
  erewrite st_bind_run; [|apply map_err_ok, on_buf_run, alloc_from_array_run].
  cbn [set_buf get_buf pair_has_buffer fst snd inner]. unfold st_lift, extend_dirent, position.
  cbn [location data_size rva mw_location maw_location mw_position MemWriter.array_size].
  rewrite size_u32, encode_u32, !wrap_small by (unfold in_bits; lia).
  unfold add_u. rewrite checked_fits by (unfold in_bits; lia).
  cbn [mbind res_bind stream_type]. rewrite <- app_assoc. f_equal. do 3 f_equal.
  pose proof (encode_all_length (memory_blocks c)) as Hall. unfold encode_all in Hall.
  rewrite !length_app, length_le_split, Hall. lia.
Qed.

(** A list of two blocks. *)
Definition block_config : @MinidumpWriter bare_arch :=
  push_memory_block (mkMemoryDescriptor 4096 (mkLocation 16 64))
    (push_memory_block (mkMemoryDescriptor 8192 (mkLocation 8 32)) bare_config).

Lemma memory_list_publishes_witness :
  exists b', @memory_list_write x64_debug layout bare_arch (block_config, mkBuffer []) =
      (Ok (mkDirectory 5 (mkLocation 36 0)), (block_config, b')) /\
    take 4 (inner b') = le_split 4 2.
Proof.
  destruct (@memory_list_publishes x64_debug layout layout_ok bare_arch block_config (mkBuffer [])
    ltac:(vm_compute; reflexivity) ltac:(vm_compute; reflexivity)) as (b' & Hrun & Hb).
  exists b'. rewrite Hrun, Hb. split; vm_compute; reflexivity.
Defined.

(** ** The list only grows *)

Section more.
Context {A : Arch}.

Definition more_blocks {St} `{HasConfig St} : relation St := fun s s' =>
  memory_blocks (config_of s) `prefix_of` memory_blocks (config_of s').

#[export] Instance more_blocks_preorder {St} `{HasConfig St} : PreOrder more_blocks.
Proof.
  unfold more_blocks. split; [by intros s|]. intros s1 s2 s3 H1 H2. by etransitivity.
Qed.

Lemma more_on_buf {St E T} `{HC : HasConfig St} (m : ST Buffer E T) :
  (forall b s, config_of (set_buf b s) = config_of s) -> st_rel more_blocks (on_buf (St := St) m).
Proof.
  intros Hc s. unfold more_blocks, on_buf, st_zoom. destruct (m (get_buf s)) as [r b].
  cbn [snd]. by rewrite Hc.
Qed.

Lemma more_modify_config {E} f :
  (forall c, memory_blocks c `prefix_of` memory_blocks (f c)) ->
  st_rel more_blocks (modify_config (E := E) f).
Proof. intros Hf [c b]. apply Hf. Qed.

Lemma push_more m (c : MinidumpWriter) :
  memory_blocks c `prefix_of` memory_blocks (push_memory_block m c).
Proof. destruct c. cbn. by eexists. Qed.
End more.

Section history.
Context `{TG : Target} {F : Format} {OS : Os} {PF : Procfs} {G : Goblin} {A : Arch}.
Context (fuel : nat).

Ltac more_leaf := first
  [ apply more_on_buf; done | apply more_modify_config, push_more
  | apply more_modify_config; by intros [] ].
Ltac more_tac :=
  unfold lift_dumper, buf_tl, buf_map, buf, get_config, get_position; rel_tac more_leaf.

Lemma more_ip_memory ip t ms : st_rel more_blocks (ip_memory ip t ms).
Proof. induction ms; cbn [ip_memory]; more_tac. Qed.
Hint Resolve more_ip_memory : mdw.

Lemma more_write_thread dumper x w i t : st_rel more_blocks (write_thread fuel dumper x w i t).
Proof.
  unfold write_thread, write_crashed_thread, write_live_thread, fill_thread_stack. more_tac.
Qed.
Hint Resolve more_write_thread : mdw.

Lemma more_thread_list dumper : st_rel more_blocks (thread_list_write fuel dumper).
Proof. unfold thread_list_write. more_tac. Qed.

Lemma more_mappings dumper : st_rel more_blocks (mappings_write dumper).
Proof.
  assert (Hms : forall u ms i, st_rel more_blocks (modules_of_mappings dumper u i ms)).
  { intros u ms. induction ms as [|m ms IH]; intros i; cbn [modules_of_mappings];
      unfold module_of_mapping, fill_raw_module; more_tac; apply IH. }
  assert (Hus : forall us, st_rel more_blocks (user_modules us)).
  { induction us as [|u us IH]; cbn [user_modules]; unfold fill_raw_module; more_tac; apply IH. }
  unfold mappings_write. more_tac; auto.
Qed.

Lemma more_handle_data : st_rel more_blocks handle_data_write.
Proof.
  assert (Hc : forall dir es, st_rel more_blocks (collect_descriptors dir es)).
  { intros dir es. induction es as [|[e|] es IH]; cbn [collect_descriptors];
      unfold direntry_to_descriptor; more_tac; apply IH. }
  unfold handle_data_write. more_tac; auto.
Qed.
Hint Resolve more_thread_list more_mappings more_handle_data : mdw.

Lemma more_on_writer {E E' T} (conv : E -> E') (m : Writer E T) :
  st_rel more_blocks m -> st_rel more_blocks (on_writer (W := File) conv m).
Proof.
  intros Hm [[c d] b]. specialize (Hm (c, b)). unfold on_writer, st_map_err, st_zoom.
  cbn [fst snd]. by destruct (m (c, b)) as [[] [c' b']].
Qed.

Lemma more_flush dirent : st_rel more_blocks (flush (W := File) dirent).
Proof.
  intros [[c d] b]. unfold more_blocks, flush, st_zoom. cbn [fst snd].
  by destruct (write_to_file dirent (d, b)) as [r [d' b']].
Qed.
Hint Resolve more_flush : mdw.

Lemma more_streams w dumper :
  st_rel more_blocks (write_header (W := File) w;; write_streams fuel dumper).
Proof.
  unfold write_header, write_streams, file_stream, flush_some, on_dump_buf, app_memory_write,
    memory_list_write, exception_write, systeminfo_write, memory_info_list_write,
    thread_names_write, buf, get_config. cbv zeta.
  repeat lazymatch goal with
  | |- st_rel _ (on_writer _ _) => apply more_on_writer
  | |- _ => rel_step more_leaf
  end.
Qed.

(** ** The whole dump *)

Context {FO : FormatOk F} {K : Type} `{Kernel K} {LI : LateInit}.

(** On the states of [dump]; the buffer exists only inside it. *)
Definition run_more : relation (MinidumpWriter * File * (PtraceDumper * K)) := fun s s' =>
  memory_blocks s.1.1 `prefix_of` memory_blocks s'.1.1.

#[local] Instance run_more_preorder : PreOrder run_more.
Proof.
  unfold run_more. split; [by intros s|]. intros s1 s2 s3 H1 H2. by etransitivity.
Qed.

Lemma more_on_target {E E' T} (conv : E -> E') (m : ST (PtraceDumper * K) E T) :
  st_rel run_more (on_target conv m).
Proof.
  apply st_rel_map_err. intros [cf s]. unfold run_more, st_zoom. cbn [fst snd].
  by destruct (m s).
Qed.

Lemma more_check : st_rel run_more (check_principal_mapping fuel).
Proof.
  intros [[self w] [d k]]. unfold run_more, check_principal_mapping, mbind, ST_bind, st_get. cbn.
  destruct (skip_stacks_if_mapping_unreferenced self); [|done]. cbn.
  destruct (crash_thread_references_principal_mapping _ _ _) as [[]| |]; cbn;
    destruct (principal_mapping_address self); by destruct self.
Qed.

Lemma generate_more dumper c f :
  memory_blocks c `prefix_of` memory_blocks (generate_dump fuel dumper (c, f, mkBuffer [])).2.1.1.
Proof.
  rewrite generate_dump_start. unfold with_dir. set (h := mkMemoryWriter _ _).
  pose proof (more_streams h dumper (c, start_dir f, start_buffer)) as Hm.
  by destruct ((write_header h;; write_streams fuel dumper) _) as [r [[c' d'] b']].
Qed.

Lemma more_generate : st_rel run_more (generate_on_new_buffer fuel).
Proof.
  intros [[self w] [d k]]. unfold run_more, generate_on_new_buffer, with_capacity.
  pose proof (generate_more d self w) as Hm.
  by destruct (generate_dump fuel d _) as [r [[c' w'] b']].
Qed.

Lemma more_dump_stopped : st_rel run_more (dump_stopped fuel).
Proof.
  unfold dump_stopped.
  repeat first [apply more_on_target|apply more_check|apply more_generate
               |apply st_rel_ret; apply _|apply st_rel_bind; [apply _| |intros]].
Qed.
End history.

(** A writer never forgets the blocks of an earlier dump.  Whatever its outcome,
    [dump] keeps the blocks it finds in the writer and adds its own behind
    them. *)
Theorem memory_blocks_accumulate `{TG : Target} (F : Format) (FO : FormatOk F) (OS : Os)
    (PF : Procfs) (G : Goblin) (A : Arch) {K : Type} `{KK : Kernel K} {LI : LateInit}
    (fuel : nat) (self : MinidumpWriter) (f : File) (k : K) :
  memory_blocks self `prefix_of` memory_blocks (dump fuel (self, f, k)).2.1.1.
Proof.
  unfold dump. destruct (PtraceDumper_new _ _ _ _ k) as [[d|e|] k1]; [|done..].
  pose proof (more_dump_stopped fuel (self, f, (d, k1))) as Hm.
  by destruct (dump_stopped fuel _) as [r0 [[c0 f0] [d0 k0]]].
Qed.

(** A dump by a writer that holds two blocks: the new dump lists both, at
    positions it has not chosen. *)
Lemma memory_blocks_accumulate_witness :
  memory_blocks block_config `prefix_of`
    memory_blocks (@dump x64_release layout one_thread_os toy_procfs elf64 bare_arch File
      file_destination 400 ToyKernel toy_kernel linux_late_init (block_config, bare_file, toy_start)).2.1.1.
Proof.
  exact (@memory_blocks_accumulate x64_release layout layout_ok one_thread_os toy_procfs elf64
    bare_arch ToyKernel toy_kernel linux_late_init 400 block_config bare_file toy_start).
Defined.
