(* ===== verification/ThreadListSpec.v ===== *)
(** * What the thread list contains

    The contents of the stream of [thread_list_stream::write]
    (src/src/linux/sections/thread_list_stream.rs): for every thread its id, its
    registers and its stack, and the link from the exception to the registers of
    the thread that is blamed. *)
From Stdlib Require Import ZArith Lia String.
From S2P Require Import Prelude Format Layout MemWriter DirSection Driver DumpPlan Slots Ensures.
From S2P Require Import RustStr Text Errors Os MemReader ModuleReader MapsReader Auxv Arch PtraceDumper.
From S2P Require Import MapsReaderSpec StackSpec.
From S2P Require Import Config Streams ThreadListStream MinidumpWriter DumpSpec MemoryBlocks MemoryList.

Local Open Scope Z_scope.
Local Notation length := List.length.

Section spec.
Context `{TG : Target} {F : Format} {OS : Os} {A : Arch} (fuel : nat) (d : PtraceDumper).

(** Where the registers of a thread come from. *)
Record Source := mkSource {
  src_cpu : RawContextCPU;
  src_ip : Z;
  src_sp : Z;
  src_max : MaxStackLen;
}.

(** The thread the crash context describes. *)
Definition is_crashed (c : MinidumpWriter) (t : Thread) : bool :=
  match crash_context c with
  | Some _ => tid t =? wrap 32 (blamed_thread c)
  | None => false
  end.

Definition source_of (c : MinidumpWriter) (extra : MaxStackLen) (idx : nat) (t : Thread) (s : Source)
    : Prop :=
  if is_crashed c t then
    exists cc, crash_context c = Some cc /\ cc_fill_cpu_context cc default_cpu = Some (src_cpu s) /\
      src_ip s = cc_get_instruction_pointer cc /\ src_sp s = cc_get_stack_pointer cc /\
      src_max s = NoMax
  else
    exists info, get_thread_info_by_index d idx = Ok info /\
      ti_fill_cpu_context info default_cpu = Some (src_cpu s) /\
      src_ip s = ti_get_instruction_pointer info /\ src_sp s = ti_stack_pointer info /\
      src_max s = (if bool_decide (is_Some (minidump_size_limit c)) &&
                      bool_decide (LIMIT_BASE_THREAD_COUNT <= idx)%nat
                   then extra else NoMax).

Definition bounded (max : MaxStackLen) (len : Z) : Z :=
  match max with Len n => Z.min len n | NoMax => len end.

(** The bytes of the stack that are written: a copy of the memory, sanitized when
    that is asked for. *)
Definition stack_bytes (c : MinidumpWriter) (tid : Z) (src : Source) (start : Z) (bs : list byte) : Prop :=
  exists len raw,
    get_stack_info fuel d (src_sp src) = Ok (start, len) /\
    copy_from_process tid start (bounded (src_max src) len) = Ok raw /\
    stack_skipped c raw (saturating_sub (src_sp src) start) (src_ip src) = Ok false /\
    (if sanitize_stack c
     then sanitize_stack_copy d raw (src_sp src) (saturating_sub (src_sp src) start) = Ok bs
     else bs = raw).

(** No stack: its mapping is not known, or the stack does not refer to the
    principal mapping. *)
Definition stack_left_out (c : MinidumpWriter) (tid : Z) (src : Source) : Prop :=
  (exists e, get_stack_info fuel d (src_sp src) = Err e) \/
  exists start len raw, get_stack_info fuel d (src_sp src) = Ok (start, len) /\
    copy_from_process tid start (bounded (src_max src) len) = Ok raw /\
    stack_skipped c raw (saturating_sub (src_sp src) start) (src_ip src) = Ok true.

(** The stack of a record in the bytes [l] of a dump with the memory blocks
    [blocks]. *)
Definition stack_record (c : MinidumpWriter) (tid : Z) (src : Source) (lo : nat) (l : list byte)
    (blocks : list MDMemoryDescriptor) (s : MDMemoryDescriptor) : Prop :=
  (stack_left_out c tid src /\ start_of_memory_range s = src_sp src /\ data_size (memory s) = 0) \/
  exists bs, stack_bytes c tid src (start_of_memory_range s) bs /\
    data_size (memory s) = Z.of_nat (length bs) /\ stands lo l (rva (memory s)) bs /\ s ∈ blocks.

(** The record [v] of the thread [t]. *)
Definition thread_record (c : MinidumpWriter) (extra : MaxStackLen) (idx : nat) (t : Thread)
    (lo : nat) (l : list byte) (blocks : list MDMemoryDescriptor) (v : MDRawThread) : Prop :=
  exists src, source_of c extra idx t src /\
    thread_id v = tid t /\
    data_size (thread_context v) = Z.of_nat (size_with RawContextCPU) /\
    stands lo l (rva (thread_context v)) (encode (src_cpu src)) /\
    stack_record c (tid t) src lo l blocks (stack v).

Lemma stack_record_kept c t src lo hi lo' l l' blocks blocks' s :
  kept_outside lo hi l l' -> (hi <= lo')%nat -> blocks ⊆ blocks' ->
  stack_record c t src lo' l blocks s -> stack_record c t src lo' l' blocks' s.
Proof.
  intros Hk Hhi Hb [H|(bs & Hbs & Hsz & Hst & Hin)]; [by left|]. right. exists bs.
  split_and!; [done..|by eapply stands_kept|by apply Hb].
Qed.

Lemma thread_record_kept c x idx t lo hi lo' l l' blocks blocks' v :
  kept_outside lo hi l l' -> (hi <= lo')%nat -> blocks ⊆ blocks' ->
  thread_record c x idx t lo' l blocks v -> thread_record c x idx t lo' l' blocks' v.
Proof.
  intros Hk Hhi Hb (src & Hsrc & Hid & Hsz & Hst & Hstack). exists src.
  split_and!; [done..|by eapply stands_kept|by eapply stack_record_kept].
Qed.

Lemma thread_record_weaken c x idx t lo lo' l blocks v :
  (lo' <= lo)%nat -> thread_record c x idx t lo l blocks v -> thread_record c x idx t lo' l blocks v.
Proof.
  intros Hlo (src & Hsrc & Hid & Hsz & Hst & Hstack). exists src.
  split_and!; [done..|by eapply stands_weaken|].
  destruct Hstack as [H|(bs & Hbs & Hsz' & Hst' & Hin)]; [by left|]. right. exists bs.
  split_and!; [done..|by eapply stands_weaken|done].
Qed.

(** The definitions read only the fields the writers leave alone. *)
Lemma is_crashed_core c c' t : core c' = core c -> is_crashed c' t = is_crashed c t.
Proof.
  intros Hc. unfold is_crashed. by rewrite (core_blamed_thread c c'), (core_crash_context c c').
Qed.

Lemma thread_record_core c c' x idx t lo l blocks v :
  core c' = core c -> thread_record c' x idx t lo l blocks v -> thread_record c x idx t lo l blocks v.
Proof. destruct c, c'. cbn. by intros [= -> -> -> -> -> -> -> -> -> -> -> ->]. Qed.
End spec.

Section writer.
Context `{TG : Target} {F : Format} {FO : FormatOk F} {OS : Os} {A : Arch} {AO : ArchOk A}.
Context (fuel : nat) (d : PtraceDumper).

Ltac tl_frame := unfold lift_dumper, buf_tl, buf; frame_tac.

(** Nothing but the two fields of the configuration is assigned. *)
Lemma core_fill_stack t ip sp m : st_rel same_core (fill_thread_stack fuel d t ip sp m).
Proof. unfold fill_thread_stack, lift_dumper. config_tac. Qed.

Lemma core_ip_memory ip t ms : st_rel same_core (ip_memory ip t ms).
Proof. induction ms; cbn [ip_memory]; unfold lift_dumper, buf_tl; config_tac. Qed.
Hint Resolve core_fill_stack core_ip_memory : mdw.

Lemma core_write_thread x w i t : st_rel same_core (write_thread fuel d x w i t).
Proof. unfold write_thread, write_crashed_thread, write_live_thread, buf_tl. config_tac. Qed.

(** Which thread is blamed is recorded only where its registers are written. *)
Definition same_crashing : relation (MinidumpWriter * Buffer) := fun s s' =>
  crashing_thread_context s'.1 = crashing_thread_context s.1.

#[local] Instance same_crashing_preorder : PreOrder same_crashing.
Proof. unfold same_crashing. split; [by intros s|]. by intros s1 s2 s3 -> ->. Qed.

Lemma crashing_buf {E T} (m : ST Buffer E T) : st_rel same_crashing (on_buf m).
Proof. intros [c b]. unfold same_crashing, on_buf, st_zoom. cbn. by destruct (m b). Qed.

Lemma crashing_push {E} x : st_rel same_crashing (modify_config (E := E) (push_memory_block x)).
Proof. by intros [[] b]. Qed.

Ltac crashing_tac := unfold lift_dumper, buf_tl, buf, get_config, get_position;
  rel_tac ltac:(first [apply crashing_buf | apply crashing_push]).

Lemma crashing_fill_stack t ip sp m : st_rel same_crashing (fill_thread_stack fuel d t ip sp m).
Proof. unfold fill_thread_stack. crashing_tac. Qed.

Lemma crashing_ip_memory ip t ms : st_rel same_crashing (ip_memory ip t ms).
Proof. induction ms; cbn [ip_memory]; crashing_tac. Qed.

(** The stack. *)
Lemma fill_thread_stack_ok t ip sp max c b t' c' b' :
  fill_thread_stack fuel d t ip sp max (c, b) = (Ok t', (c', b')) -> small b' ->
  exists s, t' = with_stack t s /\ forall cpu,
    stack_record fuel d c (thread_id t) (mkSource cpu ip sp max) (length (inner b)) (inner b')
      (memory_blocks c') s.
Proof.
  intros Hrun Hlt. unfold fill_thread_stack in Hrun.
  erewrite st_bind_run in Hrun by reflexivity. cbn [fst] in Hrun.
  erewrite st_bind_run in Hrun by reflexivity. cbn [snd] in Hrun. cbv zeta in Hrun.
  unfold stack_record, stack_left_out, stack_bytes. cbn [src_sp src_max src_ip].
  apply st_bind_ok in Hrun as (info & s1 & Hi & Hrun). unfold lift_dumper in Hi. injection Hi as Hi <-.
  destruct (get_stack_info fuel d sp) as [[start len]|e|] eqn:Hinfo; cbn in Hi; [| |done].
  2: { injection Hi as <-. injection Hrun as <- <- <-. eexists. split; [reflexivity|].
       intros _. left. split; [left; eauto|done]. }
  injection Hi as <-. apply st_bind_ok in Hrun as (child & s1 & Hch & Hrun). injection Hch as Hch <-.
  unfold try_i32_of in Hch. cbn [thread_id with_stack] in Hch.
  destruct (thread_id t <? 2 ^ 31); [injection Hch as <-|done].
  apply st_bind_ok in Hrun as (raw & s1 & Hraw & Hrun). injection Hraw as Hraw <-.
  change (match max with Len n => Z.min len n | NoMax => len end) with (bounded max len) in *.
  destruct (copy_from_process (thread_id t) start (bounded max len)) as [raw'| |] eqn:Hcp; cbn in Hraw;
    [injection Hraw as ->|done..].
  apply st_bind_ok in Hrun as (sk & s1 & Hsk & Hrun). injection Hsk as Hsk <-.
  destruct (stack_skipped c raw _ ip) as [sk'| |] eqn:Hskip; cbn in Hsk; [injection Hsk as ->|done..].
  destruct sk.
  { injection Hrun as <- <- <-. eexists. split; [reflexivity|]. intros _. left.
    split; [right; eauto 8|done]. }
  apply st_bind_ok in Hrun as (bs & s1 & Hbs & Hrun). injection Hbs as Hbs <-.
  erewrite st_bind_run in Hrun by reflexivity. cbn [snd] in Hrun.
  injection Hrun as <- <- <-. unfold small, buf_len in Hlt. cbn in Hlt. rewrite length_app in Hlt.
  eexists. split; [reflexivity|]. intros _. right. exists bs. cbn [memory start_of_memory_range data_size rva].
  unfold position. rewrite !wrap_small by (unfold in_bits; lia). split; [|split_and!].
  - exists len, raw. split_and!; try done.
    destruct (sanitize_stack c); [|by injection Hbs].
    by destruct (sanitize_stack_copy d raw sp _); cbn in Hbs; [injection Hbs as ->|done..].
  - done.
  - by apply stands_end.
  - destruct c. cbn. apply elem_of_app. right. by apply list_elem_of_singleton.
Qed.

(** What a turn says about the blamed thread. *)
Definition crash_link (c : MinidumpWriter) (t : Thread) (v : MDRawThread)
    (before after : CrashingThreadContext) : Prop :=
  if is_crashed c t then after = CrashContextAt (thread_context v)
  else if tid t =? blamed_thread c then exists ip, after = CrashContextPlusAddress (thread_context v) ip
  else after = before.

(** The registers of a thread, appended behind its stack. *)
Lemma alloc_context cpu c b w s' :
  buf_tl (alloc_with_val cpu) (c, b) = (Ok w, s') -> small s'.2 ->
  s' = (c, mkBuffer (inner b ++ encode cpu)) /\
  mw_location w = mkLocation (Z.of_nat (size_with RawContextCPU)) (Z.of_nat (length (inner b))).
Proof.
  intros Hrun Hlt. apply map_err_ok, on_buf_ok in Hrun as (b' & Hrun & ->). cbn in Hrun, Hlt |- *.
  apply alloc_with_val_stands in Hrun as [Hb Hw]; [|exact Hlt]. destruct b'. cbn in Hb. by subst.
Qed.

Lemma with_context_record c x i t src lo l blocks (st : MDMemoryDescriptor) loc bs t0 :
  source_of d c x i t src -> thread_id t0 = tid t ->
  loc = mkLocation (Z.of_nat (size_with RawContextCPU)) (Z.of_nat (length l)) -> (lo <= length l)%nat ->
  bs = encode (src_cpu src) -> stack_record fuel d c (tid t) src lo l blocks st ->
  thread_record fuel d c x i t lo (l ++ bs) blocks (with_context (with_stack t0 st) loc).
Proof.
  intros Hsrc Hid -> Hlo -> Hst. exists src. cbn. split_and!; [done..|by apply stands_end|].
  eapply stack_record_kept; [apply extended_app|lia|done|done].
Qed.

Lemma write_crashed_ok t0 cc c b v c' b' x i t :
  crash_context c = Some cc -> tid t = wrap 32 (blamed_thread c) -> thread_id t0 = tid t ->
  write_crashed_thread fuel d t0 cc (c, b) = (Ok v, (c', b')) -> small b' ->
  thread_record fuel d c x i t (length (inner b)) (inner b') (memory_blocks c') v /\
  crashing_thread_context c' = CrashContextAt (thread_context v).
Proof.
  intros Hcc Htid Hid Hrun Hlt. unfold write_crashed_thread in Hrun.
  apply st_bind_ok in Hrun as (t1 & [c1 b1] & Hst & Hrun).
  apply st_bind_ok in Hrun as ([] & [c2 b2] & Hip & Hrun).
  apply st_bind_ok in Hrun as (cpu & s2 & Hcpu & Hrun). injection Hcpu as Hcpu <-.
  apply st_bind_ok in Hrun as (w & s3 & Hctx & Hrun). injection Hrun as <- <- <-.
  apply alloc_context in Hctx as [Hs3 Hloc]; [|exact Hlt]. subst s3. cbn [fst snd inner] in *.
  destruct (cc_fill_cpu_context cc default_cpu) as [cpu'|] eqn:Hf; [injection Hcpu as ->|done].
  unfold small, buf_len in Hlt. cbn in Hlt. rewrite length_app in Hlt.
  assert (Hs2 : small b2) by (unfold small, buf_len; cbn; lia).
  apply (extended_frame _ _ _ _ (fun n => frame_ip_memory _ _ _ n)) in Hip as Hx2; [|exact Hs2].
  pose proof (more_ip_memory (cc_get_instruction_pointer cc) (thread_id t1) (mappings d) (c1, b1)) as Hm.
  rewrite Hip in Hm. unfold more_blocks, config_of in Hm. cbn in Hm, Hx2.
  destruct (fill_thread_stack_ok _ _ _ _ _ _ _ _ _ Hst) as (st & -> & Hrec).
  { destruct Hx2. unfold small, buf_len in *. cbn in *. lia. }
  apply (run_grows _ _ _ _ (frame_fill_thread_stack fuel d _ _ _ _ 0)) in Hst as Hg1.
  unfold buf_len in Hg1. cbn in Hg1. pose proof (proj1 Hx2).
  split; [|by destruct c2]. replace (memory_blocks (set_crashing_thread_context _ c2))
    with (memory_blocks c2) by by destruct c2.
  eapply (with_context_record c x i t (mkSource cpu (cc_get_instruction_pointer cc)
    (cc_get_stack_pointer cc) NoMax)); [|done|done|lia|done|].
  - unfold source_of, is_crashed. rewrite Hcc, Htid, Z.eqb_refl. exists cc. done.
  - rewrite <- Hid. eapply stack_record_kept; [exact Hx2|lia| |apply Hrec].
    destruct Hm as [tl ->]. apply list_subseteq_app_l. done.
Qed.

Lemma write_live_ok t0 c b v c' b' x i t :
  is_crashed c t = false -> thread_id t0 = tid t ->
  write_live_thread fuel d x i t t0 (c, b) = (Ok v, (c', b')) -> small b' ->
  thread_record fuel d c x i t (length (inner b)) (inner b') (memory_blocks c') v /\
  crash_link c t v (crashing_thread_context c) (crashing_thread_context c').
Proof.
  intros Hcr Hid Hrun Hlt. unfold write_live_thread in Hrun.
  erewrite st_bind_run in Hrun by reflexivity. cbn [fst] in Hrun.
  apply st_bind_ok in Hrun as (info & s1 & Hinfo & Hrun). injection Hinfo as Hinfo <-.
  destruct (get_thread_info_by_index d i) as [info'| |] eqn:Hget; [injection Hinfo as ->|done..].
  cbv zeta in Hrun. apply st_bind_ok in Hrun as (t1 & [c1 b1] & Hst & Hrun).
  apply st_bind_ok in Hrun as (cpu & s2 & Hcpu & Hrun). injection Hcpu as Hcpu <-.
  apply st_bind_ok in Hrun as (w & s3 & Hctx & Hrun).
  apply st_bind_ok in Hrun as ([] & s4 & Hset & Hrun). injection Hrun as <- ->.
  assert (Hs3 : s3.2 = b').
  { destruct (tid t =? blamed_thread c); [by injection Hset|by injection Hset as ->]. }
  apply alloc_context in Hctx as [-> Hloc]; [|by rewrite Hs3]. cbn [snd] in Hs3. subst b'.
  destruct (ti_fill_cpu_context info default_cpu) as [cpu'|] eqn:Hf; [injection Hcpu as ->|done].
  unfold small, buf_len in Hlt. cbn in Hlt. rewrite length_app in Hlt.
  set (max := if _ && _ then x else NoMax) in Hst.
  destruct (fill_thread_stack_ok _ _ _ _ _ _ _ _ _ Hst) as (st & -> & Hrec);
    [unfold small, buf_len; cbn; lia|].
  apply (run_grows _ _ _ _ (frame_fill_thread_stack fuel d _ _ _ _ 0)) in Hst as Hg1.
  unfold buf_len in Hg1. cbn in Hg1.
  pose proof (crashing_fill_stack t0 (ti_get_instruction_pointer info) (ti_stack_pointer info) max (c, b))
    as Hsame. rewrite Hst in Hsame. unfold same_crashing in Hsame. cbn in Hsame.
  assert (Hmb : memory_blocks c' = memory_blocks c1).
  { destruct (tid t =? blamed_thread c); injection Hset as <-; by destruct c1. }
  split.
  - cbn [inner]. rewrite Hmb. eapply (with_context_record c x i t (mkSource cpu (ti_get_instruction_pointer info)
      (ti_stack_pointer info) max)); [|done|done|lia|done|by rewrite <- Hid].
    unfold source_of. rewrite Hcr. exists info. done.
  - unfold crash_link. rewrite Hcr. destruct (tid t =? blamed_thread c); injection Hset as <-.
    + eexists. destruct c1. cbn. reflexivity.
    + done.
Qed.

Lemma write_thread_ok x w p i t c b c' b' :
  maw_position w = Z.of_nat p -> (p + size_with MDRawThread * i + size_with MDRawThread <= length (inner b))%nat ->
  write_thread fuel d x w i t (c, b) = (Ok tt, (c', b')) -> small b' ->
  exists v, slot_set p i v (inner b) (inner b') /\
    thread_record fuel d c x i t (length (inner b)) (inner b') (memory_blocks c') v /\
    crash_link c t v (crashing_thread_context c) (crashing_thread_context c').
Proof.
  intros Hw Hp Hrun Hlt. unfold write_thread in Hrun.
  erewrite st_bind_run in Hrun by reflexivity. cbn [fst] in Hrun.
  apply st_bind_ok in Hrun as (id & s1 & Hid & Hrun). injection Hid as Hid <-.
  unfold try_u32_of in Hid. destruct (0 <=? tid t); [injection Hid as <-|done]. cbv zeta in Hrun.
  apply st_bind_ok in Hrun as (v & [c1 b1] & Hv & Hset). cbn [thread_id] in Hv.
  apply map_err_ok, on_buf_ok in Hset as (b2 & Hset & Hs2). injection Hs2 as -> ->. cbn in Hset.
  set (t0 := mkThread _ _ _ _ _ _ _) in Hv.
  assert (Hs1 : small b1).
  { apply run_grows in Hset; [|frame_tac]. unfold small, buf_len in *. cbn in *. lia. }
  assert (Hx : extended (inner b) (inner b1)).
  { refine (extended_frame _ (c, b) _ _ _ Hv Hs1). intros n.
    destruct (crash_context c); [case_match|]; first [by apply frame_crashed|by apply frame_live]. }
  destruct (set_value_at_slot w p i v (inner b) b1 b2 Hw Hp Hx Hset) as [Hslot Hk].
  exists v. split; [done|].
  assert (Hrec : thread_record fuel d c x i t (length (inner b)) (inner b1) (memory_blocks c1) v /\
    crash_link c t v (crashing_thread_context c) (crashing_thread_context c1)).
  { assert (Hlive : is_crashed c t = false ->
      write_live_thread fuel d x i t t0 (c, b) = (Ok v, (c1, b1)) ->
      thread_record fuel d c x i t (length (inner b)) (inner b1) (memory_blocks c1) v /\
      crash_link c t v (crashing_thread_context c) (crashing_thread_context c1))
      by (intros Hcr Hr; exact (write_live_ok t0 c b v c1 b1 x i t Hcr eq_refl Hr Hs1)).
    destruct (crash_context c) as [cc|] eqn:Hcc; [|apply Hlive; [unfold is_crashed; by rewrite Hcc|done]].
    destruct (Z.eqb_spec (tid t) (wrap 32 (blamed_thread c))) as [He|He].
    - destruct (write_crashed_ok t0 cc c b v c1 b1 x i t Hcc He eq_refl Hv Hs1) as [Hr Hc].
      split; [done|]. unfold crash_link, is_crashed. rewrite Hcc. cbn in He. by rewrite He, Z.eqb_refl.
    - apply Hlive; [|done]. unfold is_crashed. rewrite Hcc. by apply Z.eqb_neq. }
  destruct Hrec as [Hrec Hl]. split; [|done].
  eapply thread_record_kept; [exact Hk|lia|done|done].
Qed.

(** The record of the blamed thread is the one the exception will point to. *)
Definition blamed_record (c : MinidumpWriter) (t : Thread) (v : MDRawThread)
    (ctx : CrashingThreadContext) : Prop :=
  tid t = blamed_thread c ->
  if is_crashed c t then ctx = CrashContextAt (thread_context v)
  else exists ip, ctx = CrashContextPlusAddress (thread_context v) ip.

(** The thread list in the bytes [l]. *)
Definition thread_list_at (c : MinidumpWriter) (extra : MaxStackLen) (lo : nat) (l : list byte)
    (blocks : list MDMemoryDescriptor) (ctx : CrashingThreadContext) (e : MDRawDirectory) : Prop :=
  exists vs, list_at lo l (ThreadListStream stream_types) e vs /\ length vs = length (threads d) /\
    forall i t, threads d !! i = Some t -> exists v, vs !! i = Some v /\
      thread_record fuel d c extra i t lo l blocks v /\ blamed_record c t v ctx.

Lemma thread_list_moved c x hi lo l l' blocks blocks' ctx e :
  kept_outside 0 hi l l' -> (hi <= lo)%nat -> blocks ⊆ blocks' ->
  thread_list_at c x lo l blocks ctx e -> thread_list_at c x hi l' blocks' ctx e.
Proof.
  intros Hk Hlo Hb (vs & Hl & Hn & Hrec). exists vs. split; [by eapply list_at_moved|]. split; [done|].
  intros i t Ht. destruct (Hrec i t Ht) as (v & Hv & Hr & Hbl). exists v. split_and!; [done| |done].
  eapply thread_record_kept; [exact Hk|done|exact Hb|]. by eapply thread_record_weaken.
Qed.

(** Thread ids are positive [i32] values, and no two threads share one. *)
Definition tids_ok (c : MinidumpWriter) : Prop :=
  NoDup (tid <$> threads d) /\ Forall (fun t => 0 <= tid t < 2 ^ 31) (threads d) /\
  - 2 ^ 31 <= blamed_thread c < 2 ^ 31.

Lemma crashed_is_blamed c t :
  0 <= tid t < 2 ^ 31 -> - 2 ^ 31 <= blamed_thread c < 2 ^ 31 ->
  is_crashed c t = true -> tid t = blamed_thread c.
Proof.
  unfold is_crashed. destruct (crash_context c); [|done]. intros Ht Hb He. apply Z.eqb_eq in He.
  destruct (decide (0 <= blamed_thread c)) as [Hp|Hn].
  - rewrite wrap_small in He by (unfold in_bits; lia). done.
  - unfold wrap in He. rewrite <- (Z.mod_unique_pos (blamed_thread c) (2 ^ 32) (-1)
      (blamed_thread c + 2 ^ 32)) in He; lia.
Qed.

Lemma blamed_record_link c t v before after :
  crash_link c t v before after -> blamed_record c t v after.
Proof.
  unfold crash_link, blamed_record. intros Hl Hb. destruct (is_crashed c t); [done|].
  by rewrite Hb, Z.eqb_refl in Hl.
Qed.

Lemma thread_list_content c b e c' b' :
  tids_ok c -> thread_list_write fuel d (c, b) = (Ok e, (c', b')) -> small b' ->
  core c' = core c /\ exists extra, extra_stack_len c (length (threads d))
      (Z.of_nat (length (inner b) + 4 + size_with MDRawThread * length (threads d))) = Ok extra /\
    thread_list_at c extra (length (inner b)) (inner b') (memory_blocks c') (crashing_thread_context c') e.
Proof.
  intros (Hnd & Hids & Hbl) Hrun Hlt. unfold thread_list_write in Hrun. cbv zeta in Hrun.
  apply st_bind_ok in Hrun as (h & s1 & Hh & Hrun). apply st_bind_ok in Hrun as (w & s2 & Hw & Hrun).
  apply st_bind_ok in Hrun as (e' & s3 & He & Hrun). injection He as He <-.
  apply map_err_ok, on_buf_ok in Hh as (b1 & Hh & ->). cbn in Hh, Hw.
  apply map_err_ok, on_buf_ok in Hw as (b2 & Hw & ->). cbn in Hw, Hrun.
  erewrite st_bind_run in Hrun by reflexivity. erewrite st_bind_run in Hrun by reflexivity.
  apply st_bind_ok in Hrun as (extra & s3 & Hextra & Hrun). injection Hextra as Hextra <-.
  apply st_bind_ok in Hrun as ([] & [c3 b3] & Hloop & Hrun). injection Hrun as -> -> ->.
  cbn [fst snd] in *. set (n := length (threads d)) in *.
  apply run_grows in Hloop as Hg; [|frame_tac].
  unfold buf_len in Hg. cbn in Hg.
  destruct (list_stream_start _ _ _ _ _ _ _ _ Hh Hw He) as (-> & Hpos & Hb2);
    [unfold small, buf_len in Hlt; cbn in Hlt; lia|].
  set (p := (length (inner b) + 4)%nat) in *. set (sz := size_with MDRawThread) in *.
  set (hi := (p + sz * n)%nat) in *.
  assert (Hl2 : length (inner b2) = hi).
  { rewrite Hb2, !length_app, length_le_split, length_replicate. unfold hi, p. lia. }
  assert (Hturn : forall i t c1 b4 c2 b5, threads d !! i = Some t -> core c1 = core c ->
    (hi <= length (inner b4))%nat -> write_thread fuel d extra w i t (c1, b4) = (Ok tt, (c2, b5)) ->
    small b5 -> core c2 = core c /\ exists v, slot_set p i v (inner b4) (inner b5) /\
      thread_record fuel d c extra i t hi (inner b5) (memory_blocks c2) v /\
      crash_link c t v (crashing_thread_context c1) (crashing_thread_context c2)).
  { intros i t c1 b4 c2 b5 Ht Hc1 Hend Hb Hsm. pose proof (lookup_lt_Some _ _ _ Ht).
    assert (Hin : (p + sz * i + sz <= length (inner b4))%nat) by (unfold hi, n in *; nia).
    destruct (write_thread_ok extra w p i t c1 b4 c2 b5 Hpos Hin Hb Hsm) as (v & Hslot & Hrec & Hlink).
    split; [rewrite <- Hc1; eapply same_core_run; [apply core_write_thread|done]|].
    exists v. split; [done|]. split.
    - eapply (thread_record_core fuel d c c1); [done|]. by eapply thread_record_weaken.
    - revert Hlink. unfold crash_link. rewrite (is_crashed_core c c1) by done.
      by rewrite (core_blamed_thread c c1). }
  destruct (fill_slots (write_thread fuel d extra w) p (threads d)
    (fun s => core s.1 = core c /\ (hi <= length (inner s.2))%nat)
    (fun i t v s => thread_record fuel d c extra i t hi (inner s.2) (memory_blocks s.1) v /\
       blamed_record c t v (crashing_thread_context s.1)))
    with (s := (c, b2)) (s' := (c', b')) as ([Hc _] & vs & Hvs & Hlv & Hk & HR); try done.
  - intros i t. by apply (frame_grows 0), frame_write_thread_grows.
  - intros i t [c1 b4] [c2 b5] Ht [Hc1 _] Hend Hb Hsm. cbn [fst snd] in *.
    destruct (Hturn i t c1 b4 c2 b5 Ht Hc1 Hend Hb Hsm) as (Hc2 & v & Hslot & Hrec & Hlink).
    destruct Hslot as [[Hl Hkk] Hv]. split; [split; [done|]|].
    + unfold buf_len in Hend. cbn in Hend, Hl |- *. fold sz n in Hend. fold hi in Hend. lia.
    + exists v. split; [done|]. split; [done|]. by eapply blamed_record_link.
  - intros i t v j t' [c1 b4] [c2 b5] Hij Ht Ht' [Hc1 Hend] [Hrec Hbr] Hk Hb Hsm. cbn [fst snd] in *.
    split.
    + eapply thread_record_kept; [exact Hk|done| |exact Hrec].
      pose proof (more_write_thread fuel d extra w j t' (c1, b4)) as Hm. rewrite Hb in Hm.
      destruct Hm as [tl Htl]. cbn in Htl. rewrite Htl. by apply list_subseteq_app_l.
    + intros Hblamed. specialize (Hbr Hblamed).
      assert (Hne : tid t' <> blamed_thread c).
      { intros Heq. assert (i = j); [|lia]. apply (NoDup_lookup _ i j (tid t) Hnd);
          rewrite list_lookup_fmap, ?Ht, ?Ht'; cbn; congruence. }
      destruct (Hturn j t' c1 b4 c2 b5 Ht' Hc1 Hend Hb Hsm) as (_ & v' & _ & _ & Hlink).
      unfold crash_link in Hlink. destruct (is_crashed c t') eqn:Hcr.
      * exfalso. apply Hne. eapply crashed_is_blamed; [|done|done]. exact (Forall_lookup_1 _ _ _ _ Hids Ht').
      * apply Z.eqb_neq in Hne. rewrite Hne in Hlink. by rewrite Hlink.
  - cbn. split; [done|lia].
  - unfold buf_len. cbn. lia.
  - cbn [fst snd get_buf pair_has_buffer] in *. split; [done|]. exists extra. split.
    + rewrite <- Hextra. f_equal. unfold position. rewrite Hl2. done.
    + assert (Hn : n = length vs) by done. rewrite <- Hlv in Hk. exists vs. split; [|split; [done|]].
      * rewrite Hn in Hb2 |- *. by apply (list_stream_filled _ (inner b) (inner b2)).
      * intros i t Ht. destruct (HR i t Ht) as (v & Hv & Hrec & Hbr). exists v. split_and!; [done| |done].
        eapply thread_record_weaken; [|exact Hrec]. unfold hi, p. lia.
Qed.
End writer.

(** ** The writer succeeds *)

Section succeeds.
Context `{TG : Target} {F : Format} {FO : FormatOk F} {OS : Os} {A : Arch} {AO : ArchOk A}.
Context (fuel : nat) (d : PtraceDumper).
Hint Resolve frame_fill_thread_stack frame_ip_memory frame_crashed frame_live frame_write_thread : mdw.

(** The window around the instruction pointer: its start and length in the first
    mapping that contains the pointer. *)
Fixpoint ip_window {E} (instruction_ptr : Z) (ms : list MappingInfo) : res E (option (Z * Z)) :=
  let ip_memory_size := 256 in
  match ms with
  | [] => Ok None
  | mapping :: ms' =>
      outside ← (if instruction_ptr <? start_address mapping then Ok true
                 else e ← add_u usize_bits (start_address mapping) (size mapping);
                      Ok (e <=? instruction_ptr));
      if outside : bool then ip_window instruction_ptr ms' else
      low ← sub_u usize_bits instruction_ptr (ip_memory_size / 2);
      let start := Z.max (start_address mapping) low in
      e ← add_u usize_bits (start_address mapping) (size mapping);
      high ← add_u usize_bits instruction_ptr (ip_memory_size / 2);
      let end_of_range := Z.min e high in
      len ← sub_u 64 end_of_range start;
      Ok (Some (start, len))
  end.

Lemma ip_memory_eq ip t ms s :
  ip_memory ip t ms s =
  (o ← st_lift (ip_window ip ms);
   match o with
   | None => mret tt
   | Some (start, len) =>
       memory_copy ← lift_dumper (copy_from_process (swrap 32 t) (wrap usize_bits start) (wrap 32 len));
       mem_section ← buf_tl (alloc_from_array (U8 <$> memory_copy));
       modify_config (push_memory_block (mkMemoryDescriptor start (maw_location mem_section)))
   end) s.
Proof.
  induction ms as [|m ms IH]; [done|]. cbn [ip_memory ip_window].
  unfold mbind at 1, ST_bind at 1. unfold st_lift at 1.
  match goal with |- context [match ?r with Ok _ => _ | Err _ => _ | Panic => _ end] =>
    destruct r as [[]|e|] end; cbn [mbind res_bind]; [exact IH| |done|done].
  unfold mbind, ST_bind, st_lift.
  repeat match goal with |- context [match ?r with Ok _ => _ | Err _ => _ | Panic => _ end] =>
    lazymatch r with
    | context [match _ with _ => _ end] => fail
    | _ => destruct r as [?|?|]; cbn [res_bind]; try done
    end end.
Qed.

Definition ip_fit (ip t : Z) : Prop :=
  exists o, ip_window (E := SectionThreadListError) ip (mappings d) = Ok o /\
    match o with
    | None => True
    | Some (start, len) => exists data,
        copy_from_process (swrap 32 t) (wrap usize_bits start) (wrap 32 len) = Ok data
    end.

(** What the record of a thread needs: its registers, its stack or a reason to
    leave it out, and the memory around the crash. *)
Definition thread_fit (c : MinidumpWriter) (extra : MaxStackLen) (idx : nat) (t : Thread) : Prop :=
  0 <= tid t < 2 ^ 31 /\ exists src, source_of d c extra idx t src /\
    (stack_left_out fuel d c (tid t) src \/ exists start bs, stack_bytes fuel d c (tid t) src start bs) /\
    (is_crashed c t = true -> ip_fit (src_ip src) (tid t)).

Lemma thread_fit_core c c' x i t : core c' = core c -> thread_fit c x i t -> thread_fit c' x i t.
Proof. destruct c, c'. cbn. by intros [= -> -> -> -> -> -> -> -> -> -> -> ->]. Qed.

Ltac tl_bind := apply ensures_bind;
  [solve [intros; apply (frame_grows 0); unfold lift_dumper, buf_tl, buf; frame_tac]|].

Lemma fill_stack_ensures t src c b :
  thread_id t < 2 ^ 31 ->
  stack_left_out fuel d c (thread_id t) src \/
    (exists start bs, stack_bytes fuel d c (thread_id t) src start bs) ->
  ensures (fill_thread_stack fuel d t (src_ip src) (src_sp src) (src_max src)) (c, b)
    (fun t' _ => thread_id t' = thread_id t).
Proof.
  intros Hid Hst. unfold fill_thread_stack. tl_bind. eapply ensures_run; [reflexivity|]. cbn [fst].
  tl_bind. eapply ensures_run; [reflexivity|]. cbv zeta. tl_bind.
  assert (Hch : try_i32_of SectionThreadListError_TryFromIntError (thread_id t) = Ok (thread_id t)).
  { unfold try_i32_of. by rewrite (proj2 (Z.ltb_lt _ _) Hid). }
  destruct Hst as [[[e He]|(start & len & raw & Hi & Hraw & Hsk)]|
    (start & bs & len & raw & Hi & Hraw & Hsk & Hbs)].
  - eapply ensures_lift; [by rewrite He|]. by apply ensures_ret.
  - eapply ensures_lift; [by rewrite Hi|]. cbn beta iota. tl_bind.
    eapply ensures_lift; [exact Hch|]. tl_bind.
    fold (bounded (src_max src) len). eapply ensures_lift; [by rewrite Hraw|]. tl_bind.
    eapply ensures_lift; [by rewrite Hsk|]. by apply ensures_ret.
  - eapply ensures_lift; [by rewrite Hi|]. cbn beta iota. tl_bind.
    eapply ensures_lift; [exact Hch|]. tl_bind.
    fold (bounded (src_max src) len). eapply ensures_lift; [by rewrite Hraw|]. tl_bind.
    eapply ensures_lift; [by rewrite Hsk|]. cbn beta iota. tl_bind.
    eapply (ensures_lift _ bs).
    { destruct (sanitize_stack c); [by rewrite Hbs|by rewrite Hbs]. }
    by eapply ensures_run; [reflexivity|].
Qed.

Lemma ip_memory_ensures ip t s : ip_fit ip t -> ensures (ip_memory ip t (mappings d)) s (fun _ _ => True).
Proof.
  intros (o & Ho & Hcopy) Hs. rewrite ip_memory_eq in *. revert Hs.
  match goal with |- small (?m s).2 -> _ => change (ensures m s (fun _ _ => True)) end.
  apply ensures_bind.
  { intros [[? ?]|]; apply (frame_grows 0); unfold lift_dumper, buf_tl, buf; frame_tac. }
  eapply ensures_lift; [exact Ho|]. destruct o as [[start len]|]; [|by apply ensures_ret].
  destruct Hcopy as [data Hd]. tl_bind. eapply ensures_lift; [by rewrite Hd|]. tl_bind.
  eapply ensures_run; [apply map_err_ok, on_buf_run, alloc_from_array_run|].
  by eapply ensures_run; [reflexivity|].
Qed.

Lemma write_thread_ensures x w p i t c b :
  maw_position w = Z.of_nat p -> (p + size_with MDRawThread * i <= length (inner b))%nat ->
  thread_fit c x i t -> ensures (write_thread fuel d x w i t) (c, b) (fun _ _ => True).
Proof.
  intros Hw Hp (Htid & src & Hsrc & Hst & Hip). unfold write_thread.
  assert (Hg : forall t0, st_rel grows
    match crash_context c with
    | Some context => if thread_id t0 =? wrap 32 (blamed_thread c)
        then write_crashed_thread fuel d t0 context else write_live_thread fuel d x i t t0
    | None => write_live_thread fuel d x i t t0
    end).
  { intros t0. apply (frame_grows 0). destruct (crash_context c); [case_match|];
      first [by apply frame_crashed|by apply frame_live]. }
  apply ensures_bind.
  { intros c0. apply (frame_grows 0), frame_bind; [frame_tac|]. intros id. cbv zeta.
    apply frame_bind; [destruct (crash_context c0); [destruct (_ =? _)|];
      first [by apply frame_crashed|by apply frame_live]|].
    intros v. unfold buf_tl, buf. apply frame_map_err, frame_on_buf, frame_set_value_at. lia. }
  eapply ensures_run; [reflexivity|]. cbn [fst].
  apply ensures_bind.
  { intros id. apply st_rel_bind; [apply _|apply Hg|]. intros v. apply (frame_grows 0).
    unfold buf_tl, buf. apply frame_map_err, frame_on_buf, frame_set_value_at. lia. }
  eapply ensures_lift; [unfold try_u32_of; by rewrite (proj2 (Z.leb_le 0 (tid t)) (proj1 Htid))|].
  cbv zeta. cbn [thread_id]. set (t0 := mkThread _ _ _ _ _ _ _).
  apply ensures_bind.
  { intros v. apply (frame_grows 0).
    unfold buf_tl, buf. apply frame_map_err, frame_on_buf, frame_set_value_at. lia. }
  eapply (ensures_conseq _ _ (fun _ s1 => (length (inner b) <= length (inner s1.2))%nat)); cycle 1.
  { intros v [c1 b1] Hle. apply ensures_map_err, ensures_on_buf, ensures_set_value_at; [|done].
    cbn in *. rewrite Hw, Nat2Z.id. lia. }
  intros Hs. specialize (Hg t0 (c, b)). revert Hs Hg. cbn [thread_id t0].
  match goal with |- small (?m _).2 -> _ => set (run := m) end. intros Hs Hg.
  enough (He : ensures run (c, b) (fun _ _ => True)).
  { destruct (He Hs) as (v & s1 & Hr & _). exists v, s1. split; [done|]. rewrite Hr in Hg. exact Hg. }
  subst run. clear Hs Hg. unfold source_of, is_crashed in Hsrc, Hip.
  assert (Hlive : (exists info, get_thread_info_by_index d i = Ok info /\
      ti_fill_cpu_context info default_cpu = Some (src_cpu src) /\
      src_ip src = ti_get_instruction_pointer info /\ src_sp src = ti_stack_pointer info /\
      src_max src = (if bool_decide (is_Some (minidump_size_limit c)) &&
                        bool_decide (LIMIT_BASE_THREAD_COUNT <= i)%nat then x else NoMax)) ->
    ensures (write_live_thread fuel d x i t t0) (c, b) (fun _ _ => True)).
  { intros (info & Hget & Hfill & Hsip & Hssp & Hmax). unfold write_live_thread. tl_bind.
    eapply ensures_run; [reflexivity|]. cbn [fst]. tl_bind. eapply ensures_lift; [by rewrite Hget|].
    cbv zeta. rewrite <- Hsip, <- Hssp, <- Hmax. tl_bind.
    eapply ensures_conseq; [apply (fill_stack_ensures t0 src); [cbn; lia|exact Hst]|]. intros t1 s1 _. tl_bind.
    eapply ensures_lift; [by rewrite Hfill|]. tl_bind.
    eapply ensures_run; [apply map_err_ok, on_buf_run, alloc_with_val_run|]. tl_bind.
    eapply (ensures_conseq _ _ (fun _ _ => True)); [|intros; by apply ensures_ret].
    destruct (tid t =? blamed_thread c); [by eapply ensures_run; [reflexivity|]|by apply ensures_ret]. }
  destruct (crash_context c) as [cc|] eqn:Hcc; [|by apply Hlive].
  destruct (tid t =? wrap 32 (blamed_thread c)) eqn:He; [|by apply Hlive].
  destruct Hsrc as (cc' & [= <-] & Hfill & Hsip & Hssp & Hmax). unfold write_crashed_thread. cbv zeta.
  rewrite <- Hsip, <- Hssp, <- Hmax. tl_bind.
  eapply ensures_conseq; [apply (fill_stack_ensures t0 src); [cbn; lia|exact Hst]|]. intros t1 s1 Hid1. tl_bind.
  eapply ensures_conseq; [rewrite Hid1; by apply ip_memory_ensures, Hip|]. intros _ s2 _. tl_bind.
  eapply ensures_lift; [by rewrite Hfill|]. tl_bind.
  eapply ensures_run; [apply map_err_ok, on_buf_run, alloc_with_val_run|]. tl_bind.
  eapply ensures_run; [reflexivity|]. by apply ensures_ret.
Qed.

Lemma thread_list_ensures c b extra :
  extra_stack_len c (length (threads d))
    (Z.of_nat (length (inner b) + 4 + size_with MDRawThread * length (threads d))) = Ok extra ->
  (forall i t, threads d !! i = Some t -> thread_fit c extra i t) ->
  ensures (thread_list_write fuel d) (c, b) (fun _ _ => True).
Proof.
  intros Hextra Hfit. unfold thread_list_write. cbv zeta. set (n := length (threads d)) in *.
  tl_bind. eapply ensures_run; [apply map_err_ok, on_buf_run, alloc_with_val_run|]. tl_bind.
  eapply ensures_run_small; [apply map_err_ok, on_buf_run, alloc_array_run|].
  unfold position. cbn [set_buf get_buf pair_has_buffer fst snd inner]. intros Hs.
  unfold small, buf_len in Hs. cbn [get_buf pair_has_buffer snd inner] in Hs.
  rewrite !length_app, encode_length, length_replicate, size_u32 in Hs.
  rewrite length_app, encode_length, size_u32.
  set (w := mkMemoryArrayWriter (wrap 32 (Z.of_nat (length (inner b) + 4))) n).
  assert (Hw : maw_position w = Z.of_nat (length (inner b) + 4))
    by (subst w; cbn; apply wrap_small; unfold in_bits; lia).
  tl_bind. eapply ensures_lift.
  { unfold extend_dirent, mw_location, maw_location. subst w.
    cbn [location data_size rva mw_position mw_size maw_position MemWriter.array_size stream_type].
    rewrite size_u32, !(wrap_small 32 (Z.of_nat _)), add_u_ok by (unfold in_bits; lia). reflexivity. }
  tl_bind. eapply ensures_run; [reflexivity|]. cbn [fst]. tl_bind.
  eapply ensures_run; [reflexivity|]. cbn [snd]. tl_bind.
  eapply ensures_lift.
  { unfold position. cbn [inner]. rewrite !length_app, encode_length, length_replicate, size_u32.
    rewrite <- Hextra. do 2 f_equal. unfold n. lia. }
  tl_bind.
  eapply (ensures_for_enum _ _ (fun _ s => core s.1 = core c /\
    (length (inner b) + 4 + size_with MDRawThread * n <= length (inner s.2))%nat)).
  - intros. by apply (frame_grows 0), frame_write_thread_grows.
  - intros j t [c1 b1] Hj [Hc1 Hle] Hsm. pose proof (lookup_lt_Some _ _ _ Hj). cbn [fst snd] in *.
    destruct (write_thread_ensures extra w (length (inner b) + 4) j t c1 b1 Hw ltac:(unfold n in *; nia)
      (thread_fit_core c c1 extra j t Hc1 (Hfit j t Hj)) Hsm) as ([] & [c2 b2] & Hr & _).
    exists tt, (c2, b2). split; [exact Hr|]. cbn [fst snd].
    split; [rewrite <- Hc1; eapply same_core_run; [apply (core_write_thread fuel d)|exact Hr]|].
    apply run_grows in Hr; [|by apply frame_write_thread_grows]. unfold buf_len in Hr. cbn in Hr. lia.
  - cbn [fst snd inner]. split; [done|]. rewrite !length_app, encode_length, length_replicate, size_u32. lia.
  - intros. by apply ensures_ret.
Qed.
End succeeds.

(** ** Properties *)

(** The stack of a record is what the memory of the process holds, when it is
    not sanitized. *)
Lemma stack_bytes_memory `{TG : Target} {OS : Os} {A : Arch} mem t `{!MemoryOk OS t mem} fuel d c src
    start bs :
  Forall module_ok (mappings d) -> (forall n, src_max src = Len n -> 0 <= n) ->
  stack_bytes fuel d c t src start bs -> sanitize_stack c = false ->
  mem_bytes mem start (length bs) = Some bs.
Proof.
  intros Hms Hmax (len & raw & Hi & Hraw & _ & Hbs) Hs. rewrite Hs in Hbs. subst bs.
  apply get_stack_info_inside in Hi as (m & Hm & Hlen & Hv & Hend); [|done].
  rewrite list.Forall_forall in Hms. pose proof (Hms m Hm) as [? ? ? ? ?].
  assert (0 <= bounded (src_max src) len <= len).
  { unfold bounded. destruct (src_max src) as [|n]; [lia|]. specialize (Hmax n eq_refl). lia. }
  unfold usize_max in *.
  destruct (copy_from_process_mem t mem start (bounded (src_max src) len) raw) as (_ & _ & ?); [lia..|done|done].
Qed.

Lemma extra_stack_len_cases `{TG : Target} {A : Arch} c n p extra :
  extra_stack_len c n p = Ok extra -> forall k, extra = Len k -> 0 <= k.
Proof.
  unfold extra_stack_len. destruct (minidump_size_limit c) as [lim|]; [|by intros [= <-]].
  destruct (mul_u _ _ _); cbn [mbind res_bind]; [|done..].
  destruct (add_u _ p _); cbn [mbind res_bind]; [|done..].
  destruct (add_u _ _ LIMIT_MINIDUMP_FUDGE_FACTOR); cbn [mbind res_bind]; [|done..].
  intros [= <-] k. case_match; [|done]. by intros [= <-].
Qed.

Lemma source_max `{TG : Target} {A : Arch} d c extra i t src :
  source_of d c extra i t src -> src_max src = NoMax \/ src_max src = extra.
Proof.
  unfold source_of. destruct (is_crashed c t).
  - intros (cc & _ & _ & _ & _ & ?). by left.
  - intros (info & _ & _ & _ & _ & ->). case_match; auto.
Qed.

(** C15: the thread list.  When every thread has its registers and either a stack
    that can be copied or a reason to leave it out, the writer succeeds; the
    stream announces one record per thread in the order of the dumper's list,
    each with the id of its thread, the place of its registers (from the crash
    context for the crashed thread, from the kernel for the others) and of its
    stack, which is also among the memory blocks; what stands there is what the
    process has in memory unless it is sanitized, nothing that was in the buffer
    changes, and the registers of the blamed thread are the ones the exception
    stream will point to. *)
Theorem thread_list_describes `{TG : Target} (F : Format) (FO : FormatOk F) (OS : Os) (A : Arch)
    (AO : ArchOk A) (fuel : nat) (d : PtraceDumper) (mem : Memory) (c : MinidumpWriter) (b : Buffer)
    (extra : MaxStackLen) :
  tids_ok d c -> Forall module_ok (mappings d) ->
  (forall t, t ∈ threads d -> MemoryOk OS (tid t) mem) ->
  extra_stack_len c (length (threads d))
    (Z.of_nat (length (inner b) + 4 + size_with MDRawThread * length (threads d))) = Ok extra ->
  (forall i t, threads d !! i = Some t -> thread_fit fuel d c extra i t) ->
  small (thread_list_write fuel d (c, b)).2 ->
  exists e c' b' vs, thread_list_write fuel d (c, b) = (Ok e, (c', b')) /\
    extended (inner b) (inner b') /\ core c' = core c /\
    list_at (length (inner b)) (inner b') (ThreadListStream stream_types) e vs /\
    length vs = length (threads d) /\
    forall i t, threads d !! i = Some t -> exists v, vs !! i = Some v /\
      thread_record fuel d c extra i t (length (inner b)) (inner b') (memory_blocks c') v /\
      blamed_record c t v (crashing_thread_context c') /\
      (sanitize_stack c = false -> 0 < data_size (memory (stack v)) ->
       mem_bytes mem (start_of_memory_range (stack v)) (Z.to_nat (data_size (memory (stack v)))) =
       Some (bytes_at (Z.to_nat (rva (memory (stack v)))) (Z.to_nat (data_size (memory (stack v))))
         (inner b'))).
Proof.
  intros Hids Hms Hmem Hextra Hfit Hs.
  destruct (thread_list_ensures fuel d c b extra Hextra Hfit Hs) as (e & [c' b'] & Hrun & _).
  rewrite Hrun in Hs. cbn in Hs.
  destruct (thread_list_content fuel d c b e c' b' Hids Hrun Hs) as (Hc & x & Hx & vs & Hl & Hn & Hrec).
  rewrite Hextra in Hx. injection Hx as <-.
  exists e, c', b', vs. split; [done|]. split_and!; [|done..|].
  { refine (extended_frame _ (c, b) _ _ _ Hrun Hs). by auto with mdw. }
  intros i t Ht. destruct (Hrec i t Ht) as (v & Hv & Hr & Hb). exists v. split_and!; [done..|].
  intros Hsan Hpos. destruct Hr as (src & Hsrc & _ & _ & _ & [(_ & _ & Hz)|(bs & Hbs & Hsz & Hst & _)]); [lia|].
  destruct Hst as (_ & _ & Hat). rewrite Hsz, Nat2Z.id, Hat.
  pose proof (Hmem t (list_elem_of_lookup_2 _ _ _ Ht)).
  refine (stack_bytes_memory mem (tid t) fuel d c src _ bs Hms _ Hbs Hsan).
  intros n Hm. destruct (source_max _ _ _ _ _ _ Hsrc) as [H0|H0]; rewrite Hm in H0; [done|].
  by eapply extra_stack_len_cases.
Qed.

(** A process with two threads: each has its stack in the same page, 8 bytes
    apart for each id, and its stack pointer as its registers. *)
Definition stacked_arch : Arch := {|
  RawContextCPU := Z;
  context_pod := pod_of 8 (le_split 8);
  default_cpu := 0;
  CrashContext := Z;
  siginfo _ := mkSigInfo 11 1 0;
  cc_get_instruction_pointer _ := 0;
  cc_get_stack_pointer cc := cc;
  cc_fill_cpu_context cc _ := Some cc;
  ThreadInfo := Z;
  ti_create _ t := Ok (65536 + 8 * t);
  ti_stack_pointer info := info;
  ti_get_instruction_pointer _ := 0;
  ti_fill_cpu_context info _ := Some info;
  skip_thread _ := false;
  write_cpu_information i := Ok i;
  os_information := (0x8201, [76; 105]);
|}.

Lemma stacked_arch_ok : ArchOk stacked_arch.
Proof. apply pod_of_ok. intros v. apply length_le_split. Qed.

Definition stack_page : Memory := blocks_memory [(65536, replicate 128 Byte.x2a)].
Definition stack_mapping : MappingInfo :=
  mkMapping 65536 128 (mkSystemMapping 65536 65664) 0 rwp None.
Definition stacked_dumper (ids : list Z) : PtraceDumper :=
  mkDumper 7 true ((fun t => mkTask t (Some [110])) <$> ids) default_auxv [stack_mapping] 4096.
Definition stacked_config : @MinidumpWriter stacked_arch := MinidumpWriter_new 7 8.

Local Notation stacked_write :=
  (@thread_list_write x64_release layout (toy_os stack_page) stacked_arch 2 (stacked_dumper [7; 8])
    (stacked_config, mkBuffer [])).

Lemma stacked_tids_ok : tids_ok (stacked_dumper [7; 8]) stacked_config.
Proof.
  split; [apply (bool_decide_unpack _); vm_compute; exact I|]. split; [|vm_compute; split; congruence].
  repeat constructor; vm_compute; congruence.
Qed.

(** Whatever the machine and the other mappings, as long as the stack is found and
    can be copied. *)
Lemma stacked_fit `{TG : Target} (OS : Os) fuel d :
  threads d = threads (stacked_dumper [7; 8]) ->
  (forall k, k = 7 \/ k = 8 -> get_stack_info fuel d (65536 + 8 * k) = Ok (65536, 128)) ->
  (forall p, copy_from_process p 65536 128 = Ok (replicate 128 Byte.x2a)) ->
  forall i t, threads d !! i = Some t -> @thread_fit TG OS stacked_arch fuel d stacked_config NoMax i t.
Proof.
  destruct d as [p flag ts av ms page]. cbn [threads]. intros -> Hinfo Hcopy i t. set (d := mkDumper _ _ _ _ _ _) in *.
  assert (Hfit : forall k sp, k = 7 \/ k = 8 -> sp = 65536 + 8 * k ->
    stack_bytes (A := stacked_arch) fuel d stacked_config k (@mkSource stacked_arch sp 0 sp NoMax) 65536
      (replicate 128 Byte.x2a)).
  { intros k sp Hk ->. exists 128, (replicate 128 Byte.x2a). split; [by apply Hinfo|].
    split; [apply Hcopy|by split]. }
  intros Ht. destruct i as [|[|i]]; [injection Ht as <-..|discriminate Ht];
    (split; [cbn; lia|]);
    [exists (@mkSource stacked_arch 65592 0 65592 NoMax)|exists (@mkSource stacked_arch 65600 0 65600 NoMax)];
    (split; [eexists; split_and!; reflexivity|]);
    (split; [right; do 2 eexists; apply Hfit; auto|done]).
Qed.

Lemma thread_list_describes_witness :
  exists e c' b' vs, stacked_write = (Ok e, (c', b')) /\ (thread_id <$> vs) = [7; 8].
Proof.
  destruct (@thread_list_describes x64_release layout layout_ok (toy_os stack_page) stacked_arch
    stacked_arch_ok 2 (stacked_dumper [7; 8]) stack_page stacked_config (mkBuffer []) NoMax
    stacked_tids_ok ltac:(repeat constructor; vm_compute; congruence)
    (fun _ _ => @toy_memory_ok _ _ _) ltac:(vm_compute; reflexivity)
    (stacked_fit (TG := x64_release) (toy_os stack_page) 2 (stacked_dumper [7; 8]) eq_refl ltac:(intros k [-> | ->]; vm_compute; reflexivity)
      ltac:(intros p; vm_compute; reflexivity))
    ltac:(vm_compute; reflexivity)) as (e & c' & b' & vs & Hrun & _ & _ & _ & Hn & Hrec).
  exists e, c', b', vs. split; [exact Hrun|].
  destruct vs as [|v1 [|v2 [|]]]; try discriminate Hn.
  destruct (Hrec 0%nat _ eq_refl) as (w1 & [= <-] & (s1 & _ & E1 & _) & _).
  destruct (Hrec 1%nat _ eq_refl) as (w2 & [= <-] & (s2 & _ & E2 & _) & _).
  cbn. rewrite E1, E2. reflexivity.
Defined.

Lemma hit_bits_no_err `{TG : Target} {E} ms : forall hits (e : E), hit_bits ms hits <> Err e.
Proof.
  induction ms as [|m ms IH]; intros hits e; cbn [hit_bits]; [done|]. case_match; [apply IH|].
  unfold add_u, checked. repeat case_match; try done; cbn [mbind res_bind]; apply IH.
Qed.

(** A copy that ends below the stack pointer cannot be sanitized. *)
Lemma sanitize_short_copy `{TG : Target} d raw sp off :
  0 <= off -> off + Z.of_nat size_of_usize < 2 ^ usize_bits -> Z.of_nat (length raw) < off ->
  sanitize_stack_copy d raw sp off = Panic.
Proof.
  intros H0 Hfit Hlt. unfold sanitize_stack_copy.
  destruct (hit_bits (mappings d) _) as [hits|e|] eqn:Hh; cbn [mbind res_bind];
    [|by apply hit_bits_no_err in Hh|done].
  rewrite align_word_ok by done. cbn [mbind res_bind]. destruct (align_word_spec off) as [_ Hr].
  by rewrite (proj2 (Z.ltb_lt _ _)) by lia.
Qed.

(** The stack step for a copy that ends below the stack pointer. *)
Lemma fill_short_stack `{TG : Target} {OS : Os} {A : Arch} fuel d c b t ip sp max start len raw :
  skip_stacks_if_mapping_unreferenced c = false -> thread_id t < 2 ^ 31 ->
  get_stack_info fuel d sp = Ok (start, len) ->
  copy_from_process (thread_id t) start (bounded max len) = Ok raw ->
  0 <= start -> start + Z.of_nat (length raw) < sp -> sp + Z.of_nat size_of_usize < 2 ^ usize_bits ->
  let run := fill_thread_stack fuel d t ip sp max (c, b) in
  if sanitize_stack c then run = (Panic, (c, b))
  else let s := mkMemoryDescriptor start
         (mkLocation (wrap 32 (Z.of_nat (length raw))) (wrap 32 (position b))) in
       run = (Ok (with_stack t s), (push_memory_block s c, mkBuffer (inner b ++ raw))).
Proof.
  intros Hskip Hid Hst Hraw Hstart Hlt Hfit run. subst run. unfold fill_thread_stack.
  erewrite st_bind_run by reflexivity. erewrite st_bind_run by reflexivity. cbn [fst snd]. cbv zeta.
  erewrite st_bind_run by (unfold lift_dumper, st_lift; by rewrite Hst). cbn beta iota.
  erewrite st_bind_run by (unfold st_lift, try_i32_of; cbn [thread_id with_stack];
    by rewrite (proj2 (Z.ltb_lt _ _) Hid)).
  fold (bounded max len). erewrite st_bind_run by (unfold lift_dumper, st_lift; by rewrite Hraw).
  erewrite st_bind_run by (unfold lift_dumper, st_lift, stack_skipped; by rewrite Hskip).
  cbn beta iota. destruct (sanitize_stack c); [|reflexivity].
  unfold mbind at 1, ST_bind at 1, lift_dumper at 1, st_lift at 1.
  rewrite sanitize_short_copy; [done|..]; unfold saturating_sub; lia.
Qed.

(** C27: a stack that is cut to its first 2048 bytes.  The copy starts at the page
    of the stack pointer, so it may end below the stack pointer.  For a thread
    beyond the first 20 in a dump with a size limit whose copy does so, the
    writer panics when stacks are sanitized, whatever else the process looks
    like; when they are not, the stack it records does not contain the address
    the thread's stack pointer holds. *)
Theorem limited_stack_misses_pointer `{TG : Target} (OS : Os) (A : Arch)
    (AO : ArchOk A) (fuel : nat) (d : PtraceDumper) (c : MinidumpWriter) (b : Buffer) (limit : Z) (idx : nat)
    (t : Thread) (t0 : MDRawThread) (info : ThreadInfo) (start len : Z) (raw : list byte) :
  minidump_size_limit c = Some limit -> (LIMIT_BASE_THREAD_COUNT <= idx)%nat ->
  skip_stacks_if_mapping_unreferenced c = false -> thread_id t0 < 2 ^ 31 ->
  get_thread_info_by_index d idx = Ok info ->
  get_stack_info fuel d (ti_stack_pointer info) = Ok (start, len) ->
  copy_from_process (thread_id t0) start (Z.min len LIMIT_MAX_EXTRA_THREAD_STACK_LEN) = Ok raw ->
  0 <= start -> start + Z.of_nat (length raw) < ti_stack_pointer info ->
  ti_stack_pointer info + Z.of_nat size_of_usize < 2 ^ usize_bits ->
  Z.of_nat (length raw) < 2 ^ 32 ->
  let run := write_live_thread fuel d (Len LIMIT_MAX_EXTRA_THREAD_STACK_LEN) idx t t0 (c, b) in
  if sanitize_stack c then run.1 = Panic
  else forall v, run.1 = Ok v ->
    let s := stack v in
    start_of_memory_range s = start /\
    start_of_memory_range s + data_size (memory s) < ti_stack_pointer info.
Proof.
  intros Hlim Hidx Hskip Hid Hinfo Hst Hraw Hstart Hlt Hfit Hsmall. cbv zeta. unfold write_live_thread.
  erewrite st_bind_run by reflexivity. cbn [fst].
  erewrite st_bind_run by (unfold st_lift; by rewrite Hinfo).
  rewrite Hlim, bool_decide_true, (bool_decide_true (_ <= idx)%nat) by eauto. cbn [andb].
  pose proof (fill_short_stack fuel d c b t0 (ti_get_instruction_pointer info) (ti_stack_pointer info)
    (Len LIMIT_MAX_EXTRA_THREAD_STACK_LEN) start len raw Hskip Hid Hst Hraw Hstart Hlt Hfit) as Hfill.
  cbv zeta in Hfill. destruct (sanitize_stack c).
  - unfold mbind at 1, ST_bind at 1. by rewrite Hfill.
  - intros v. erewrite st_bind_run by exact Hfill.
    destruct (ti_fill_cpu_context info default_cpu) as [cpu|]; [|done].
    erewrite st_bind_run by reflexivity.
    erewrite st_bind_run by (apply map_err_ok, on_buf_run, alloc_with_val_run).
    destruct (tid t =? blamed_thread c); (erewrite st_bind_run by reflexivity); intros [= <-]; cbn;
      rewrite wrap_small by (unfold in_bits; lia); lia.
Qed.

(** 21 threads, the last with its stack pointer in the upper half of its page. *)
Definition crowd_os : Os := toy_os (blocks_memory [(65536, replicate 4096 Byte.x2a)]).
Definition crowd_dumper : PtraceDumper :=
  mkDumper 7 true ((fun t => mkTask t None) <$> (seqZ 7 20 ++ [300])) default_auxv
    [mkMapping 65536 4096 (mkSystemMapping 65536 69632) 0 rwp None] 4096.
Definition crowd_config : @MinidumpWriter stacked_arch :=
  set_sanitize_stack (set_minidump_size_limit 65536 stacked_config).

Lemma limited_stack_misses_pointer_witness :
  (@write_live_thread x64_release crowd_os stacked_arch 2 crowd_dumper
    (Len LIMIT_MAX_EXTRA_THREAD_STACK_LEN) 20 (mkTask 300 None)
    (mkThread 300 0 0 0 0 default_memory default_location) (crowd_config, mkBuffer [])).1 = Panic.
Proof.
  exact (@limited_stack_misses_pointer x64_release crowd_os stacked_arch stacked_arch_ok 2
    crowd_dumper crowd_config (mkBuffer []) 65536 20 (mkTask 300 None)
    (mkThread 300 0 0 0 0 default_memory default_location) 67936 65536 4096 (replicate 2048 Byte.x2a)
    eq_refl ltac:(unfold LIMIT_BASE_THREAD_COUNT; lia) eq_refl ltac:(vm_compute; reflexivity)
    eq_refl ltac:(vm_compute; reflexivity) ltac:(vm_compute; reflexivity) ltac:(lia)
    ltac:(vm_compute; reflexivity) ltac:(vm_compute; reflexivity) ltac:(vm_compute; reflexivity)).
Defined.
