(* ===== verification/DumpContents.v ===== *)
(** * What a dump contains

    The streams of [generate_dump] (src/src/linux/minidump_writer.rs) together:
    what each of them says about the process stands in the finished dump, where
    the directory locates it; and the conditions on the process under which the
    dump succeeds. *)
From Stdlib Require Import ZArith Lia String.
From S2P Require Import Prelude Format Layout MemWriter DirSection Driver DumpPlan Slots Ensures DumpStages.
From S2P Require Import RustStr Text Errors Os MemReader ModuleReader ElfLayout MapsReader MapsReaderSpec.
From S2P Require Import Auxv Arch PtraceDumper StackSpec Config Streams ThreadListStream MappingsStream.
From S2P Require Import DsoDebug DsoSpec MinidumpWriter StreamSpec DumpSpec ModuleListSpec StreamContents.
From S2P Require Import SectionSpec MemoryBlocks MemoryList ThreadListSpec.

Local Open Scope nat_scope.
Local Notation length := List.length.
Local Notation File := DirSection.File.

Section contents.
Context `{TG : Target} {F : Format} {FO : FormatOk F}.
Context {OS : Os} {PF : Procfs} {G : Goblin} {A : Arch} {AO : ArchOk A}.
Context (fuel : nat) (dumper : PtraceDumper).

Notation dir_end := (size_with MDRawHeader + length plan * size_with MDRawDirectory).

(** The streams that are copies of files: directory entry, type, and the files
    of which the first readable one is taken. *)
Definition file_streams (c : MinidumpWriter) : list (nat * Z * list RString) :=
  let proc tail := proc_path (blamed_thread c) tail in
  let types := stream_types in
  [(6, LinuxCpuInfo types, [str_of "/proc/cpuinfo"]);
   (7, LinuxProcStatus types, [proc "/status"%string]);
   (8, LinuxLsbRelease types, [str_of "/etc/lsb-release"; str_of "/etc/os-release"]);
   (9, LinuxCmdLine types, [proc "/cmdline"%string]);
   (10, LinuxEnviron types, [proc "/environ"%string]);
   (11, LinuxAuxv types, [proc "/auxv"%string]);
   (12, LinuxMaps types, [proc "/maps"%string]);
   (14, MozLinuxLimits types, [proc "/limits"%string])].

(** The process has a dynamic linker with the loaded objects [ms]. *)
Record loaded_objects (pid : Pid) (auxv : AuxvDumpInfo) (mem : Memory) (bias : Z)
    (load dyn : ProgramHeader) (ds : list Dyn) (debug : Dyn) (rd : RDebug) (ms : list LinkMap)
    (names : list RString) : Prop := {
  lo_mapped : MemoryMapped OS pid mem;
  lo_dyn : (0 < size_of_Dyn < 2 ^ (usize_bits - 1))%Z;
  lo_linked : linked_process mem auxv bias load dyn ds debug rd;
  lo_list : link_seg mem (r_map rd) ms 0%Z;
  lo_names : Forall2 (object_name mem) ms names;
  lo_fuel : length ds <= fuel /\ length ms < fuel;
  lo_fit : (Z.of_nat (size_with MDRawDebug) + size_of_Dyn * Z.of_nat (length ds) < 2 ^ 32)%Z;
  lo_count : (Z.of_nat (length ms) < 2 ^ 32)%Z;
}.

(** The entries of the directory of open files, when it can be read. *)
Definition fd_dir (c : MinidumpWriter) : OsString := utf8_encode (proc_path (process_id c) "/fd").

(** The dump with the bytes [l] and the directory [es] describes the process:
    [c] is the writer before the dump, [c'] after it. *)
Record main_streams (c c' : MinidumpWriter) (es : list MDRawDirectory) (l : list byte) : Prop := {
  ms_core : core c' = core c;
  ms_threads : exists extra,
    extra_stack_len c (length (threads dumper))
      (Z.of_nat (dir_end + 4 + size_with MDRawThread * length (threads dumper))) = Ok extra /\
    entry es 0 (thread_list_at fuel dumper c extra dir_end l (memory_blocks c')
      (crashing_thread_context c'));
  ms_modules : exists ps,
    module_picks (E := SectionMappingsError) dumper (user_mapping_list c) 0 (mappings dumper) = Ok ps /\
    entry es 1 (fun e => module_list_at dir_end l e (ps ++ (user_pick <$> user_mapping_list c)));
  ms_memory : entry es 2 (fun e =>
    list_at dir_end l (MemoryListStream stream_types) e (memory_blocks c'));
  ms_regions : exists ds, ds ⊆ memory_blocks c' /\ Forall2 (copied c dir_end l) (app_memory c) ds;
  ms_exception : entry es 3 (fun e =>
    stream_is dir_end l (ExceptionStream stream_types) e (encode (exception_stream_of c')));
  ms_system : entry es 4 (system_info_at dir_end l);
  ms_maps : entry es 5 (memory_info_at c dir_end l);
}.

Record further_streams (c : MinidumpWriter) (es : list MDRawDirectory) (l : list byte) : Prop := {
  fs_files : Forall (fun '(k, ty, names) =>
    entry es k (fun e => file_at dir_end l ty e (first_readable names))) (file_streams c);
  fs_objects : forall mem bias load dyn ds debug rd ms names,
    loaded_objects (process_id c) (auxv dumper) mem bias load dyn ds debug rd ms names ->
    entry es 13 (fun e => exists dynamic,
      mem_bytes mem (bias + p_vaddr dyn) (length dynamic) = Some dynamic /\
      dso_stream_at mem dir_end l e (bias + p_vaddr dyn) dynamic rd ms);
  fs_names : Forall (fun t => is_Some (thread_name t)) (threads dumper) ->
    entry es 15 (fun e => exists vs, list_at dir_end l (ThreadNamesStream stream_types) e vs /\
      Forall2 (name_entry dir_end l) (threads dumper) vs);
  fs_handles : forall entries, fs_read_dir (fd_dir c) = inr entries ->
    links_short (fd_dir c) (omap id entries) ->
    entry es 16 (fun e => handle_data_at dir_end l e (omap (open_file (fd_dir c)) (omap id entries)));
}.

Definition dump_describes (c c' : MinidumpWriter) (es : list MDRawDirectory) (l : list byte) : Prop :=
  main_streams c c' es l /\ further_streams c es l.

(** What the process must be like for the dump to succeed. *)
Record orderly (c : MinidumpWriter) : Prop := {
  or_threads : exists extra,
    extra_stack_len c (length (threads dumper))
      (Z.of_nat (dir_end + 4 + size_with MDRawThread * length (threads dumper))) = Ok extra /\
    forall i t, threads dumper !! i = Some t -> thread_fit fuel dumper c extra i t;
  or_modules : exists ps,
    module_picks (E := SectionMappingsError) dumper (user_mapping_list c) 0 (mappings dumper) = Ok ps /\
    Forall pick_ok (ps ++ (user_pick <$> user_mapping_list c));
  or_regions : regions_readable c;
  or_system : system_known;
  or_maps : maps_known c;
  or_objects : (exists err, read_dso fuel (process_id c) (auxv dumper) = Err err) \/
    exists mem bias load dyn ds debug rd ms names,
      loaded_objects (process_id c) (auxv dumper) mem bias load dyn ds debug rd ms names;
  or_names : named dumper;
  or_handles : forall entries, fs_read_dir (fd_dir c) = inr entries ->
    links_short (fd_dir c) (omap id entries);
}.

(** ** The stages *)

Section stages.
Context (pre : list byte) (hdr : MDRawHeader) (total : bool).
Notation At := (At (SP := linux_plan) (C := MinidumpWriter) pre hdr).
Notation survives := (survives (SP := linux_plan)).

Lemma judge_file es ls ty m o c d b {T} (rest : ST (MinidumpWriter * DirSection File * Buffer) WriterError T) Q :
  At es ls (c, d, b) -> stream_order !! length es = Some (ty, IfReadable) -> copies_file m o ->
  (forall n, frame n m) -> st_rel grows rest ->
  (forall e b' d' b'', small b' -> file_at (length (inner b)) (inner b') ty e o ->
    At (es ++ [e]) (inner b' :: ls) (c, d', b'') -> judge total rest (c, d', b'') Q) ->
  judge total (file_stream ty m;; rest) (c, d, b) Q.
Proof.
  intros Hat Ho Hm Hf Hg Hrest. unfold judge, file_stream. rewrite st_bind_assoc.
  change (judge total (r ← st_try (on_dump_buf (fun e => e) m);
    st_map_err WriterError_FileWriterError (flush (Some ((fun r => match r with
      | inr location => mkDirectory ty location | inl _ => default_directory end) r)));; rest) (c, d, b) Q).
  eapply (judge_try_stage (SP := linux_plan) pre hdr total _ es ls (ty, IfReadable) m _ c d b (fun r b' =>
    file_at (length (inner b)) (inner b') ty (match r with
      | inr location => mkDirectory ty location | inl _ => default_directory end) o));
    [done|exact Ho|done|done| |].
  - intros r b' Hrun Hs. specialize (Hm b). cbn [slot_ok linux_plan]. unfold entry_ok. cbn [fst snd].
    destruct o as [content|].
    + rewrite Hm in Hrun. injection Hrun as <- <-.
      pose proof (file_copied ty b _ content _ eq_refl eq_refl Hs) as Hst.
      split; [left; by eapply stream_is_placed|exact Hst].
    + destruct Hm as [err Hm]. rewrite Hm in Hrun. injection Hrun as <- <-. split; [by right|done].
  - intros r b' d' b'' Hs Hfile Hat'. by eapply Hrest.
Qed.

(** The streams after the memory info list. *)
Definition late_streams (self : MinidumpWriter)
    : ST (MinidumpWriter * DirSection File * Buffer) WriterError unit :=
  let proc tail := proc_path (blamed_thread self) tail in
  let types := stream_types in
  file_stream (LinuxCpuInfo types) (write_file (str_of "/proc/cpuinfo"));;
  file_stream (LinuxProcStatus types) (write_file (proc "/status"%string));;
  file_stream (LinuxLsbRelease types)
    (st_or_else (write_file (str_of "/etc/lsb-release"))
                (write_file (str_of "/etc/os-release")));;
  file_stream (LinuxCmdLine types) (write_file (proc "/cmdline"%string));;
  file_stream (LinuxEnviron types) (write_file (proc "/environ"%string));;
  file_stream (LinuxAuxv types) (write_file (proc "/auxv"%string));;
  file_stream (LinuxMaps types) (write_file (proc "/maps"%string));;
  r ← st_try (on_dump_buf id (write_dso_debug_stream fuel (process_id self) (auxv dumper)));
  flush_some (match r with inr dirent => dirent | inl _ => default_directory end);;
  file_stream (MozLinuxLimits types) (write_file (proc "/limits"%string));;
  dirent ← on_writer WriterError_SectionThreadNamesError (thread_names_write dumper);
  flush_some dirent;;
  r ← st_try (on_writer id handle_data_write);
  match r with
  | inl _ => mret tt
  | inr dirent => _ ← st_try (flush (Some dirent)); mret tt
  end.

Lemma grows_file_stream ty m : frame 0 m -> st_rel grows (file_stream (W := File) ty m).
Proof.
  intros Hf. unfold file_stream, flush_some, on_dump_buf. apply st_rel_bind; [apply _| |].
  - by apply st_rel_try, st_rel_map_err, grows_on_buf, (frame_grows 0).
  - intros. apply st_rel_map_err, grows_flush.
Qed.

Lemma grows_last : st_rel grows (r ← st_try (on_writer (W := File) (E' := SectionHandleDataStreamError) id
    handle_data_write);
  match r with
  | inl _ => mret tt
  | inr dirent => _ ← st_try (E' := WriterError) (flush (Some dirent)); mret tt
  end).
Proof.
  apply st_rel_bind; [apply _|apply st_rel_try, grows_on_writer, (frame_grows 0); by auto with mdw|].
  intros []; [apply st_rel_ret; apply _|].
  apply st_rel_bind; [apply _|apply st_rel_try, grows_flush|intros; apply st_rel_ret; apply _].
Qed.
End stages.
End contents.

(** The growth of the stages that are still to come. *)
Ltac stage_grows :=
  repeat lazymatch goal with
  | |- forall _, _ => intros
  | |- PreOrder _ => apply _
  | |- st_rel _ (file_stream _ _) => apply grows_file_stream
  | |- st_rel _ (r ← st_try (on_writer id handle_data_write); _) => apply grows_last
  | |- st_rel _ (_ ≫= _) => apply st_rel_bind
  | |- st_rel _ (on_writer _ _) => apply grows_on_writer, (frame_grows 0)
  | |- st_rel _ (st_try _) => apply st_rel_try
  | |- st_rel _ (on_dump_buf _ _) => apply st_rel_map_err, grows_on_buf, (frame_grows 0)
  | |- st_rel _ (flush_some _) => apply st_rel_map_err, grows_flush
  | |- st_rel _ (st_map_err _ (flush _)) => apply st_rel_map_err, grows_flush
  | |- frame _ (st_or_else _ _) => apply frame_or_else
  | |- frame _ (write_file _) => apply frame_write_file
  | |- frame _ _ => solve [auto with mdw]
  end.

Section run.
Context `{TG : Target} {F : Format} {FO : FormatOk F}.
Context {OS : Os} {PF : Procfs} {G : Goblin} {A : Arch} {AO : ArchOk A}.
Context (fuel : nat) (dumper : PtraceDumper).
Context (pre : list byte) (hdr : MDRawHeader) (total : bool).
Notation At := (At (SP := linux_plan) (C := MinidumpWriter) pre hdr).
Notation dir_end := (size_with MDRawHeader + length plan * size_with MDRawDirectory).

(** The loaded objects: the writer returns, fails or panics; the entry is that
    of the stream when it returns. *)
Lemma dso_judged self b r b' :
  (total = true -> orderly fuel dumper self) ->
  write_dso_debug_stream fuel (process_id self) (auxv dumper) b = (r, b') -> small b' ->
  let entry := fun r : SectionDsoDebugError + MDRawDirectory =>
    match r with inr dirent => dirent | inl _ => default_directory end in
  let P := fun r b' => forall mem bias load dyn ds debug rd ms names,
    loaded_objects fuel (process_id self) (auxv dumper) mem bias load dyn ds debug rd ms names ->
    exists dynamic, mem_bytes mem (bias + p_vaddr dyn) (length dynamic) = Some dynamic /\
      dso_stream_at mem (length (inner b)) (inner b') (entry r) (bias + p_vaddr dyn) dynamic rd ms in
  match r with
  | Ok a => slot_ok (StreamPlan := linux_plan) (length (inner b')) (LinuxDsoDebug stream_types, Dso)
      (entry (inr a)) /\ P (inr a) b'
  | Err e => slot_ok (StreamPlan := linux_plan) (length (inner b')) (LinuxDsoDebug stream_types, Dso)
      (entry (inl e)) /\ P (inl e) b'
  | Panic => total = false
  end.
Proof.
  intros Hor Hrun Hs entry P.
  assert (Hlo : forall mem bias load dyn ds debug rd ms names,
    loaded_objects fuel (process_id self) (auxv dumper) mem bias load dyn ds debug rd ms names ->
    exists e, r = Ok e /\ exists dynamic,
      mem_bytes mem (bias + p_vaddr dyn) (length dynamic) = Some dynamic /\
      dso_stream_at mem (length (inner b)) (inner b') e (bias + p_vaddr dyn) dynamic rd ms).
  { intros mem bias load dyn ds debug rd ms names [Hmm Hd Hl Hseg Hn [Hf1 Hf2] Hfit Hc].
    pose proof (dso_stream_ensures (process_id self) mem fuel (auxv dumper) bias load dyn ds debug rd ms
      names b Hd Hl Hseg Hn Hf1 Hf2 Hfit Hc) as He. unfold ensures in He. rewrite Hrun in He.
    destruct (He Hs) as (e & b1 & [= -> <-] & _ & dynamic & Hm & _ & Hst). eauto 6. }
  destruct r as [a|e|]; cbn [slot_ok linux_plan]; unfold entry_ok; cbn [fst snd].
  - split; [left; exact (dso_debug_placed fuel _ _ _ _ _ Hrun Hs)|].
    intros mem bias load dyn ds debug rd ms names Hl.
    by destruct (Hlo _ _ _ _ _ _ _ _ _ Hl) as (e & [= <-] & ?).
  - split; [by right|]. intros mem bias load dyn ds debug rd ms names Hl.
    by destruct (Hlo _ _ _ _ _ _ _ _ _ Hl) as (e' & ? & _).
  - destruct total; [|done]. destruct (or_objects _ _ _ (Hor eq_refl)) as [[err Herr]|Hl].
    + unfold write_dso_debug_stream in Hrun. unfold mbind, ST_bind, st_lift in Hrun.
      by rewrite Herr in Hrun.
    + destruct Hl as (mem & bias & load & dyn & ds & debug & rd & ms & names & Hl).
      by destruct (Hlo _ _ _ _ _ _ _ _ _ Hl) as (e' & ? & _).
Qed.

Lemma config_handle_data : st_rel same_config handle_data_write.
Proof.
  assert (Hc : forall dir es, st_rel same_config (collect_descriptors dir es)).
  { intros dir es. induction es as [|[e|] es IH]; cbn [collect_descriptors];
      unfold direntry_to_descriptor; config_tac; apply IH. }
  unfold handle_data_write. config_tac; apply Hc.
Qed.

Lemma config_thread_names : st_rel same_config (thread_names_write dumper).
Proof. unfold thread_names_write. config_tac. Qed.

(** What is known of a run of the last writer. *)
Lemma handle_data_judged (self c : MinidumpWriter) b r c' b' :
  core c = core self -> (total = true -> orderly fuel dumper self) ->
  handle_data_write (c, b) = (r, (c', b')) -> small b' ->
  c' = c /\ (r = Panic -> total = false) /\
  forall entries, fs_read_dir (fd_dir self) = inr entries -> links_short (fd_dir self) (omap id entries) ->
    exists e, r = Ok e /\
      handle_data_at (length (inner b)) (inner b') e (omap (open_file (fd_dir self)) (omap id entries)).
Proof.
  intros Hc Hor Hrun Hs.
  assert (Hfd : fd_dir self = fd_dir c).
  { unfold fd_dir. by rewrite (proj1 (core_fields self)), (proj1 (core_fields c)), Hc. }
  assert (Hok : forall entries, fs_read_dir (fd_dir self) = inr entries ->
    links_short (fd_dir self) (omap id entries) -> exists e, r = Ok e /\
      handle_data_at (length (inner b)) (inner b') e (omap (open_file (fd_dir self)) (omap id entries))).
  { intros entries Hd Hl. rewrite Hfd in *.
    pose proof (handle_data_ensures c b entries Hd Hl) as He. unfold ensures in He. rewrite Hrun in He.
    destruct (He Hs) as (e & s' & [= -> <-] & _ & Hat). eauto. }
  split; [by eapply same_config_run; [apply config_handle_data|]|]. split; [|done].
  intros ->. destruct total; [|done]. specialize (Hor eq_refl).
  destruct (fs_read_dir (fd_dir self)) as [err|entries] eqn:Hd.
  - exfalso. unfold handle_data_write in Hrun. erewrite st_bind_run in Hrun by reflexivity.
    unfold fd_dir in Hfd, Hd. cbn [fst] in Hrun. rewrite <- Hfd, Hd in Hrun. discriminate Hrun.
  - destruct (Hok entries eq_refl (or_handles _ _ _ Hor entries Hd)) as (e & ? & _). done.
Qed.

Lemma last_judge self c d b es ls :
  At es ls (c, d, b) -> length es = 16 -> core c = core self ->
  (total = true -> orderly fuel dumper self) ->
  judge (E := WriterError) total
    (r ← st_try (on_writer id handle_data_write);
     match r with
     | inl _ => mret tt
     | inr dirent => _ ← st_try (flush (Some dirent)); mret tt
     end) (c, d, b)
    (fun _ s => s.1.1 = c /\ exists tl ls', At (es ++ tl) (ls' ++ ls) s /\
      forall entries, fs_read_dir (fd_dir self) = inr entries ->
        links_short (fd_dir self) (omap id entries) ->
        exists e, tl = [e] /\ handle_data_at dir_end (inner s.2) e
          (omap (open_file (fd_dir self)) (omap id entries))).
Proof.
  intros Hat Hlen Hc Hor. apply judge_bind.
  { intros []; [apply st_rel_ret; apply _|].
    apply st_rel_bind; [apply _|apply st_rel_try, grows_flush|intros; apply st_rel_ret; apply _]. }
  apply judge_try. intros r s'. unfold on_writer, st_map_err, st_zoom. cbn [fst snd].
  destruct (handle_data_write (c, b)) as [r0 [c' b']] eqn:Hrun. intros Hr Hs.
  assert (Hs' : s' = (c', d, b')) by (destruct r0; by injection Hr as _ <-). subst s'.
  destruct (handle_data_judged self c b r0 c' b' Hc Hor Hrun Hs) as (-> & Hp & Hok).
  destruct r0 as [e|err|]; injection Hr as <-; [| |by apply Hp].
  - destruct (writer_survives (SP := linux_plan) pre hdr es ls handle_data_write c d b _ c b'
      ltac:(by auto with mdw) Hat Hrun Hs) as (Hi & _ & Hl).
    assert (Ho : @plan linux_plan !! length es = Some (HandleDataStream stream_types, Always))
      by by rewrite Hlen.
    destruct (flush_slot (SP := linux_plan) pre hdr es d b' e _ Hi Ho
      (handle_data_placed _ _ _ Hrun Hs)) as (d' & b'' & Hf & Hi' & Hfl & Hk).
    apply judge_bind; [intros; apply st_rel_ret; apply _|].
    eapply (judge_run _ _ _ (inr tt) (c, d', b'')).
    { unfold st_try, flush, st_zoom. cbn [fst snd]. by rewrite Hf. }
    eapply judge_run; [reflexivity|]. split; [done|]. exists [e], []. split.
    + constructor; [done..|]. eapply Forall_impl; [exact Hl|]. intros l Hsv.
      exact (survives_trans _ _ _ Hsv Hk).
    + intros entries Hd Hlk. destruct (Hok entries Hd Hlk) as (e' & [= <-] & Hh). exists e.
      split; [done|]. eapply handle_data_moved; [exact Hk| |exact Hh]. exact (at_length _ _ _ _ _ Hat).
  - apply handle_data_err in Hrun as [= ->]. eapply judge_run; [reflexivity|]. split; [done|].
    exists [], []. rewrite app_nil_r. split; [done|].
    intros entries Hd Hlk. by destruct (Hok entries Hd Hlk) as (e' & ? & _).
Qed.

(** One of the copies of files. *)
Ltac file_step Hat e Hf Hat' Hl :=
  eapply judge_file;
    [ exact Hat | reflexivity | first [apply write_file_copies|apply or_else_copies]
    | intros; try apply frame_or_else; apply frame_write_file | stage_grows |];
  let b' := fresh "b" in let d' := fresh "d" in let b'' := fresh "b" in
  intros e b' d' b'' _ Hf Hat'; cbn [app] in Hat'; clear Hat;
  pose proof (at_length _ _ _ _ _ Hat') as Hl.

(** The buffer a stage left, as the end of the run has it. *)
Ltac survivor Hsv S := apply Forall_cons in Hsv as [[_ S] Hsv].

Lemma late_judge self c d b e0 e1 e2 e3 e4 e5 ls :
  At [e0; e1; e2; e3; e4; e5] ls (c, d, b) -> core c = core self ->
  (total = true -> orderly fuel dumper self) ->
  judge total (late_streams fuel dumper self) (c, d, b) (fun _ s => s.1.1 = c /\
    exists tl ls', 10 <= length tl /\ At ([e0; e1; e2; e3; e4; e5] ++ tl) (ls' ++ ls) s /\
      further_streams fuel dumper self ([e0; e1; e2; e3; e4; e5] ++ tl) (inner s.2)).
Proof.
  intros Hat Hc Hor. unfold late_streams. cbv zeta.
  pose proof (at_length _ _ _ _ _ Hat) as L0.
  file_step Hat e6 F6 H6 L6.
  file_step H6 e7 F7 H7 L7.
  file_step H7 e8 F8 H8 L8.
  file_step H8 e9 F9 H9 L9.
  file_step H9 e10 F10 H10 L10.
  file_step H10 e11 F11 H11 L11.
  file_step H11 e12 F12 H12 L12.
  eapply (judge_try_stage (SP := linux_plan) pre hdr total _ _ _ (LinuxDsoDebug stream_types, Dso) _
    (fun r => match r with inr dirent => dirent | inl _ => default_directory end));
    [exact H12|reflexivity|by auto with mdw|stage_grows| |].
  { intros r b' Hrun Hs. exact (dso_judged self _ r b' Hor Hrun Hs). }
  intros r13 bo do bo' _ F13 H13. clear H12. cbn [app] in H13. set (e13 := match r13 with inr dirent => dirent | inl _ => default_directory end) in *.
  pose proof (at_length _ _ _ _ _ H13) as L13.
  file_step H13 e14 F14 H14 L14.
  eapply (judge_stage (SP := linux_plan) pre hdr total _ _ _ _ (ThreadNamesStream stream_types, Always) _ _ _ _
    (fun e s1 => s1.1 = c /\ (Forall (fun t => is_Some (thread_name t)) (threads dumper) ->
       exists vs, list_at _ (inner s1.2) (ThreadNamesStream stream_types) e vs /\
         Forall2 (name_entry _ (inner s1.2)) (threads dumper) vs)));
    [exact H14|reflexivity|by auto with mdw|apply thread_names_placed|apply grows_last| |].
  { eapply judge_of; [|intros Ht; apply thread_names_ensures, (or_names _ _ _ (Hor Ht))].
    intros e [c' b'] Hrun Hs. split; [by eapply same_config_run; [apply config_thread_names|]|].
    intros Hn. by destruct (thread_names_content _ _ _ _ _ _ Hn Hrun Hs) as [_ ?]. }
  intros e15 c15 bn dn bn' _ [Hc15 F15] H15. cbn [fst snd app] in *. subst c15. clear H14.
  eapply judge_conseq; [by apply (last_judge self)|]. intros [] s _ (Hcs & tl & ls' & Hfin & F16).
  split; [done|]. exists ([e6; e7; e8; e9; e10; e11; e12; e13; e14; e15] ++ tl).
  eexists (ls' ++ [_; _; _; _; _; _; _; _; _; _]). split; [cbn; lia|]. split.
  { rewrite <- app_assoc. exact Hfin. }
  pose proof (at_survive _ _ _ _ _ Hfin) as Hsv. apply Forall_app in Hsv as [_ Hsv].
  survivor Hsv S15. survivor Hsv S14. survivor Hsv S13. survivor Hsv S12. survivor Hsv S11.
  survivor Hsv S10. survivor Hsv S9. survivor Hsv S8. survivor Hsv S7. survivor Hsv S6.
  constructor.
  - repeat (apply Forall_cons; split); [..|done]; (eexists; split; [reflexivity|]);
      eauto using file_at_moved.
  - intros mem bias load dyn ds debug rd ms names Hl. exists e13. split; [done|].
    destruct (F13 _ _ _ _ _ _ _ _ _ Hl) as (dynamic & Hm & Hst). exists dynamic. split; [done|].
    eapply dso_stream_moved; [exact S13|exact L12|exact Hst].
  - intros Hn. destruct (F15 Hn) as (vs & Hvs & HF). exists e15. split; [done|]. exists vs.
    split; [eapply list_at_moved; [exact S15|exact L14|exact Hvs]|].
    eapply Forall2_impl; [exact HF|]. intros t v Hv. eapply name_entry_moved; [exact S15|exact L14|exact Hv].
  - intros entries Hd Hl. destruct (F16 entries Hd Hl) as (e16 & -> & Hh). by exists e16.
Qed.

Lemma config_systeminfo : st_rel same_config systeminfo_write.
Proof. unfold systeminfo_write. config_tac. Qed.

Lemma orderly_core c c' : core c' = core c -> orderly fuel dumper c -> orderly fuel dumper c'.
Proof.
  intros Hc [[x [Hx Ht]] Hm Hr Hs Hmm Ho Hn Hh]. destruct c, c'. cbn in Hc. injection Hc as ? ? ? ? ? ? ? ? ? ? ? ?.
  subst. constructor; try done. exists x. split; [done|]. intros i t Hi.
  eapply thread_fit_core; [|by apply Ht]. done.
Qed.

(** The streams after the copies of application memory. *)
Definition middle_streams (self : MinidumpWriter)
    : ST (MinidumpWriter * DirSection File * Buffer) WriterError unit :=
  dirent ← on_writer WriterError_SectionMemListError memory_list_write;
  flush_some dirent;;
  dirent ← on_writer WriterError_SectionExceptionStreamError exception_write;
  flush_some dirent;;
  dirent ← on_writer WriterError_SectionSystemInfoError systeminfo_write;
  flush_some dirent;;
  dirent ← on_writer WriterError_SectionMemoryInfoListError memory_info_list_write;
  flush_some dirent;;
  late_streams fuel dumper self.

(** A stage: the writer's contents and the state after it. *)
Ltac stage_step spec P Hat Hy :=
  eapply (judge_stage (SP := linux_plan) pre hdr total _ _ _ _ (spec, Always) _ _ _ _ P);
    [exact Hat|reflexivity|by auto with mdw|apply Hy|stage_grows|..].

Lemma middle_judge self c d b e0 e1 ls :
  At [e0; e1] ls (c, d, b) -> core c = core self -> (total = true -> orderly fuel dumper self) ->
  judge total (middle_streams self) (c, d, b) (fun _ s => s.1.1 = c /\
    exists e2 e3 e4 e5 tl ls', 10 <= length tl /\
      At ([e0; e1; e2; e3; e4; e5] ++ tl) (ls' ++ ls) s /\
      list_at dir_end (inner s.2) (MemoryListStream stream_types) e2 (memory_blocks c) /\
      stream_is dir_end (inner s.2) (ExceptionStream stream_types) e3 (encode (exception_stream_of c)) /\
      system_info_at dir_end (inner s.2) e4 /\ memory_info_at self dir_end (inner s.2) e5 /\
      further_streams fuel dumper self ([e0; e1; e2; e3; e4; e5] ++ tl) (inner s.2)).
Proof.
  intros Hat Hc Hor. unfold middle_streams, late_streams. pose proof (at_length _ _ _ _ _ Hat) as L1.
  stage_step (MemoryListStream stream_types) (fun e (s1 : MinidumpWriter * Buffer) => s1.1 = c /\
    list_at (length (inner b)) (inner s1.2) (MemoryListStream stream_types) e (memory_blocks c))
    Hat memory_list_placed; [apply judge_ensures, memory_list_ensures|].
  intros e2 c2 b2 d2 b2' _ [Hc2 F2] H2. cbn [fst snd app] in *. subst c2. clear Hat.
  pose proof (at_length _ _ _ _ _ H2) as L2.
  stage_step (ExceptionStream stream_types) (fun e (s1 : MinidumpWriter * Buffer) => s1.1 = c /\
    stream_is (length (inner b2')) (inner s1.2) (ExceptionStream stream_types) e
      (encode (exception_stream_of c))) H2 exception_placed; [apply judge_ensures, exception_ensures|].
  intros e3 c3 b3 d3 b3' _ [Hc3 F3] H3. cbn [fst snd app] in *. subst c3. clear H2.
  pose proof (at_length _ _ _ _ _ H3) as L3.
  stage_step (SystemInfoStream stream_types) (fun e (s1 : MinidumpWriter * Buffer) => s1.1 = c /\
    system_info_at (length (inner b3')) (inner s1.2) e) H3 systeminfo_placed.
  { eapply judge_of; [|intros Ht; apply systeminfo_ensures, (or_system _ _ _ (Hor Ht))].
    intros e [c4 b4]. apply systeminfo_content. }
  intros e4 c4 b4 d4 b4' _ [Hc4 F4] H4. cbn [fst snd app] in *. subst c4. clear H3.
  pose proof (at_length _ _ _ _ _ H4) as L4.
  assert (Hbl : blamed_thread self = blamed_thread c) by (symmetry; by apply core_blamed_thread).
  stage_step (MemoryInfoListStream stream_types) (fun e (s1 : MinidumpWriter * Buffer) => s1.1 = c /\
    memory_info_at c (length (inner b4')) (inner s1.2) e) H4 memory_info_list_placed.
  { eapply judge_of.
    - intros e s5 Hrun Hs. 
      exact (ensures_ok _ _ _ _ _ (memory_info_list_ensures c b4' (memory_info_list_known _ _ _ _ Hrun)) Hrun Hs).
    - intros Ht. apply memory_info_list_ensures. destruct (or_maps _ _ _ (Hor Ht)) as (maps & infos & Hm & Hi).
      exists maps, infos. by rewrite <- Hbl. }
  intros e5 c5 b5 d5 b5' _ [Hc5 F5] H5. cbn [fst snd app] in *. subst c5. clear H4.
  eapply judge_conseq; [by apply (late_judge self)|].
  intros [] s _ (Hcs & tl & ls' & Htl & Hfin & Hfur). split; [done|].
  exists e2, e3, e4, e5, tl. eexists (ls' ++ [_; _; _; _]). split; [done|]. split.
  { rewrite <- app_assoc. exact Hfin. }
  pose proof (at_survive _ _ _ _ _ Hfin) as Hsv. apply Forall_app in Hsv as [_ Hsv].
  survivor Hsv S5. survivor Hsv S4. survivor Hsv S3. survivor Hsv S2.
  split_and!; [exact (list_at_moved _ _ _ _ _ _ _ S2 L1 F2)|exact (stream_is_moved _ _ _ _ _ _ _ S3 L2 F3)
    |exact (system_info_moved _ _ _ _ _ S4 L3 F4)|exact (memory_info_moved _ _ _ _ _ _ _ Hbl S5 L4 F5)|exact Hfur].
Qed.

Lemma streams_judge c d b :
  At [] [] (c, d, b) -> length (inner b) = dir_end -> tids_ok dumper c ->
  (total = true -> orderly fuel dumper c) ->
  judge total (write_streams fuel dumper) (c, d, b) (fun _ s => exists es ls,
    16 <= length es /\ At es ls s /\ dump_describes fuel dumper c s.1.1 es (inner s.2)).
Proof.
  intros Hat Hlen Hids Hor. unfold write_streams. apply judge_bind.
  { intros [[? ?] ?]. cbv zeta. stage_grows. }
  eapply judge_run; [reflexivity|]. cbv zeta. pose proof (at_length _ _ _ _ _ Hat) as L0.
  stage_step (ThreadListStream stream_types) (fun e (s1 : MinidumpWriter * Buffer) => core s1.1 = core c /\
    exists extra, extra_stack_len c (length (threads dumper))
      (Z.of_nat (dir_end + 4 + size_with MDRawThread * length (threads dumper))) = Ok extra /\
      thread_list_at fuel dumper c extra (length (inner b)) (inner s1.2) (memory_blocks s1.1)
        (crashing_thread_context s1.1) e) Hat (thread_list_placed fuel dumper).
  { rewrite <- Hlen. eapply judge_of.
    - intros e [c1 b1] Hrun Hs. exact (thread_list_content fuel dumper c b e c1 b1 Hids Hrun Hs).
    - intros Ht. destruct (or_threads _ _ _ (Hor Ht)) as (extra & Hx & Hfit). rewrite <- Hlen in Hx.
      by eapply thread_list_ensures. }
  intros e0 c1 b1 d1 b1' _ (Hc1 & extra & Hx & F0) H0. cbn [fst snd app] in *. clear Hat.
  pose proof (at_length _ _ _ _ _ H0) as L1.
  assert (Hor1 : total = true -> orderly fuel dumper c1) by (intros Ht; by eapply orderly_core, Hor).
  stage_step (ModuleListStream stream_types) (fun e (s1 : MinidumpWriter * Buffer) => s1.1 = c1 /\
    exists ps, module_picks (E := SectionMappingsError) dumper (user_mapping_list c1) 0 (mappings dumper) = Ok ps /\
      module_list_at (length (inner b1')) (inner s1.2) e (ps ++ (user_pick <$> user_mapping_list c1)))
    H0 (mappings_placed dumper).
  { eapply judge_of.
    - intros e [c2 b2] Hrun Hs. destruct (mappings_content _ _ _ _ _ _ Hrun Hs) as (? & _ & ?). done.
    - intros Ht. destruct (or_modules _ _ _ (Hor1 Ht)) as (ps & Hps & Hok). by eapply mappings_ensures. }
  intros e1 c2 b2 d2 b2' _ [Hc2 (ps & Hps & F1)] H1. cbn [fst snd app] in *. subst c2. clear H0.
  pose proof (at_length _ _ _ _ _ H1) as L2.
  eapply (judge_quiet_stage (SP := linux_plan) pre hdr total _ _ _ _ _ _ _ _ (fun _ s1 =>
    core s1.1 = core c1 /\ crashing_thread_context s1.1 = crashing_thread_context c1 /\
    exists ds, memory_blocks s1.1 = memory_blocks c1 ++ ds /\
      Forall2 (copied c1 (length (inner b2')) (inner s1.2)) (app_memory c1) ds));
    [exact H1|by auto with mdw|stage_grows| |].
  { eapply judge_of; [|intros Ht; apply app_memory_ensures, (or_regions _ _ _ (Hor1 Ht))].
    intros [] [c3 b3]. apply app_memory_content. }
  intros c3 b3 d3 _ (Hc3 & Hctx & ds & Hds & Fa) H3. cbn [fst snd] in *. clear H1.
  assert (Hc03 : core c3 = core c) by congruence.
  eapply judge_conseq; [by apply (middle_judge c)|].
  intros [] s _ (Hcs & e2 & e3 & e4 & e5 & tl & ls' & Htl & Hfin & F2 & F3 & F4 & F5 & Hfur).
  exists ([e0; e1; e2; e3; e4; e5] ++ tl). eexists. split; [cbn; lia|]. split; [exact Hfin|].
  split; [|exact Hfur]. rewrite Hcs.
  pose proof (at_survive _ _ _ _ _ Hfin) as Hsv. apply Forall_app in Hsv as [_ Hsv].
  survivor Hsv Sa. survivor Hsv S1. survivor Hsv S0.
  assert (Hbl : blamed_thread c = blamed_thread c1) by (symmetry; by apply core_blamed_thread).
  assert (Hul : user_mapping_list c1 = user_mapping_list c /\ app_memory c1 = app_memory c).
  { destruct (core_fields c) as (_ & _ & -> & -> & _), (core_fields c1) as (_ & _ & -> & -> & _).
    by rewrite Hc1. }
  destruct Hul as [Hul Ham]. rewrite Hul in *. rewrite Ham in *.
  constructor; [done|..|by exists e4|by exists e5].
  - exists extra. split; [done|]. exists e0. split; [done|]. rewrite Hctx.
    eapply thread_list_moved; [exact S0|exact L0| |exact F0]. rewrite Hds. by apply list_subseteq_app_l.
  - exists ps. split; [done|]. exists e1. split; [done|].
    eapply module_list_moved; [exact S1|exact L1|exact F1].
  - by exists e2.
  - exists ds. split; [rewrite Hds; by apply list_subseteq_app_r|]. eapply Forall2_impl; [exact Fa|].
    intros m v Hv. eapply copied_moved; [exact Hbl|exact Sa|exact L2|exact Hv].
  - by exists e3.
Qed.
End run.

(** ** The whole dump *)

Section whole.
Context `{TG : Target} {F : Format} {FO : FormatOk F}.
Context {OS : Os} {PF : Procfs} {G : Goblin} {A : Arch} {AO : ArchOk A}.
Context (fuel : nat) (dumper : PtraceDumper) (total : bool).

Lemma grows_write_streams : st_rel grows (write_streams (W := File) fuel dumper).
Proof. exact (proj1 (write_streams_hoare fuel dumper [] (dump_header 0))). Qed.

Lemma generate_dump_judged c f r c' f' b' now :
  (0 <= cursor f <= Z.of_nat (length (contents f)))%Z -> (cursor f + 2 ^ 32 <= 2 ^ 64)%Z ->
  unix_time = Some now -> tids_ok dumper c -> (total = true -> orderly fuel dumper c) ->
  generate_dump fuel dumper (c, f, mkBuffer []) = (r, (c', f', b')) -> small b' ->
  match r with
  | Ok _ => exists es, 16 <= length es /\
      dump_on_disk (SP := linux_plan) (before f) (dump_header now) es (length (inner b')) (contents f') b' /\
      dump_describes fuel dumper c c' es (inner b')
  | _ => total = false
  end.
Proof.
  intros Hcur Hend Hnow Hids Hor. rewrite generate_dump_start. unfold with_dir. intros Hrun Hlt.
  destruct ((write_header _ ;; _) _) as [r0 [[c0 d0] b0]] eqn:Hrun' in Hrun.
  injection Hrun as <- <- <- <-.
  unfold write_header in Hrun'. rewrite st_bind_assoc in Hrun'.
  erewrite st_bind_run in Hrun' by reflexivity. cbn beta iota in Hrun'.
  rewrite st_bind_assoc, Hnow in Hrun'. erewrite st_bind_run in Hrun' by reflexivity. cbn beta in Hrun'.
  rewrite start_dir_position in Hrun'
    by (eapply (dump_small (SP := linux_plan)); [apply grows_write_streams|exact Hrun'|exact Hlt]).
  pose proof (judged_run (SP := linux_plan) WriterError_MemoryWriterError WriterError_FileWriterError
    (dump_header now) total f c (write_streams fuel dumper)
    (fun es s => 16 <= length es /\ dump_describes fuel dumper c s.1.1 es (inner s.2)) r0 c0 d0 b0
    Hcur Hend grows_write_streams) as Hj.
  ospecialize (Hj _ Hrun' Hlt); [|destruct r0; naive_solver].
  intros d b Hat Hlen. eapply judge_conseq; [by apply streams_judge|naive_solver].
Qed.
End whole.

(** ** Properties *)

(** C5: when a dump succeeds.  For a process whose threads have registers and a
    readable stack (or a reason to leave it out) and a name, whose modules have
    a path, whose loaded objects form a list that ends (or that has no dynamic
    linker), and with the application memory, the memory map and the processor
    description readable, [generate_dump] returns without an error or a panic in
    every build, as long as the dump stays below 4 GiB; the destination then
    holds what it held before followed by the whole dump, with the header and at
    least the 16 mandatory directory entries. *)
Theorem generate_dump_succeeds `{TG : Target} (F : Format) (FO : FormatOk F) (OS : Os)
    (PF : Procfs) (G : Goblin) (A : Arch) (AO : ArchOk A) (fuel : nat) (dumper : PtraceDumper)
    (c : MinidumpWriter) (f : File) (now : Z) :
  (0 <= cursor f <= Z.of_nat (length (contents f)))%Z -> (cursor f + 2 ^ 32 <= 2 ^ 64)%Z ->
  unix_time = Some now -> tids_ok dumper c -> orderly fuel dumper c ->
  (Z.of_nat (length (inner (generate_dump fuel dumper (c, f, mkBuffer [])).2.2)) < 2 ^ 32)%Z ->
  exists c' f' b' es, generate_dump fuel dumper (c, f, mkBuffer []) = (Ok tt, (c', f', b')) /\
    16 <= length es /\
    dump_on_disk (SP := linux_plan) (before f) (dump_header now) es (length (inner b')) (contents f') b' /\
    take (length (before f) + length (inner b')) (contents f') = before f ++ inner b'.
Proof.
  intros Hcur Hend Hnow Hids Hor Hs.
  destruct (generate_dump fuel dumper (c, f, mkBuffer [])) as [r [[c' f'] b']] eqn:Hrun. cbn in Hs.
  pose proof (generate_dump_judged fuel dumper true c f r c' f' b' now Hcur Hend Hnow Hids
    (fun _ => Hor) Hrun Hs) as Hj.
  destruct r as [[]|e|]; [|done..]. destruct Hj as (es & H16 & Hd & _). exists c', f', b', es.
  split_and!; [done..|]. by eapply dump_on_disk_prefix.
Qed.

(** C1: what a successful dump says.  Whatever the process, when [generate_dump]
    returns, the dump on the destination has in the streams its directory
    locates: a record for every thread with its registers and stack, a record for
    every module with its path and build id, the list of all memory blocks (the
    stacks and the copies of application memory among them), the exception, the
    description of the system, the memory map, the files that could be read, and
    where they can be had the loaded objects, thread names and open files. *)
Theorem generate_dump_describes `{TG : Target} (F : Format) (FO : FormatOk F) (OS : Os)
    (PF : Procfs) (G : Goblin) (A : Arch) (AO : ArchOk A) (fuel : nat) (dumper : PtraceDumper)
    (c c' : MinidumpWriter) (f f' : File) (b' : Buffer) (now : Z) :
  (0 <= cursor f <= Z.of_nat (length (contents f)))%Z -> (cursor f + 2 ^ 32 <= 2 ^ 64)%Z ->
  unix_time = Some now -> tids_ok dumper c ->
  generate_dump fuel dumper (c, f, mkBuffer []) = (Ok tt, (c', f', b')) ->
  (Z.of_nat (length (inner b')) < 2 ^ 32)%Z ->
  exists es, dump_on_disk (SP := linux_plan) (before f) (dump_header now) es (length (inner b'))
      (contents f') b' /\ dump_describes fuel dumper c c' es (inner b').
Proof.
  intros Hcur Hend Hnow Hids Hrun Hs.
  destruct (generate_dump_judged fuel dumper false c f _ c' f' b' now Hcur Hend Hnow Hids
    (fun Ht => match Bool.diff_false_true Ht with end) Hrun Hs) as (es & _ & Hd & Hdd). by exists es.
Qed.

(** C6: the streams of a dump refer to each other.  In every successful dump the
    exception stream names the blamed thread and points to the very registers
    that the thread list has for it, and these registers stand there; and every
    stack in the thread list is also in the memory list, at the same place. *)
Theorem dump_streams_agree `{TG : Target} (F : Format) (FO : FormatOk F) (OS : Os)
    (PF : Procfs) (G : Goblin) (A : Arch) (AO : ArchOk A) (fuel : nat) (dumper : PtraceDumper)
    (c c' : MinidumpWriter) (f f' : File) (b' : Buffer) (now : Z) (i : nat) (t : Thread) :
  (0 <= cursor f <= Z.of_nat (length (contents f)))%Z -> (cursor f + 2 ^ 32 <= 2 ^ 64)%Z ->
  unix_time = Some now -> tids_ok dumper c ->
  generate_dump fuel dumper (c, f, mkBuffer []) = (Ok tt, (c', f', b')) ->
  (Z.of_nat (length (inner b')) < 2 ^ 32)%Z -> threads dumper !! i = Some t ->
  exists es e0 e2 e3 v cpu x, dump_on_disk (SP := linux_plan) (before f) (dump_header now) es
      (length (inner b')) (contents f') b' /\
    es !! 0 = Some e0 /\ es !! 2 = Some e2 /\ es !! 3 = Some e3 /\
    stands 0 (inner b') (rva (location e0) + 4 + Z.of_nat (size_with MDRawThread * i)) (encode v) /\
    thread_id v = tid t /\ stands 0 (inner b') (rva (thread_context v)) (encode cpu) /\
    stands 0 (inner b') (rva (location e3)) (encode x) /\
    (tid t = blamed_thread c -> x = mkExceptionStream (wrap 32 (tid t)) (exception_record_of c') 0
      (thread_context v)) /\
    (data_size (memory (stack v)) <> 0%Z -> exists j, stands 0 (inner b')
      (rva (location e2) + 4 + Z.of_nat (size_with MDMemoryDescriptor * j)) (encode (stack v))).
Proof.
  intros Hcur Hend Hnow Hids Hrun Hs Ht.
  destruct (generate_dump_judged fuel dumper false c f _ c' f' b' now Hcur Hend Hnow Hids
    (fun Ht => match Bool.diff_false_true Ht with end) Hrun Hs) as (es & _ & Hd & Hm & _).
  destruct Hm as [Hc (extra & _ & e0 & He0 & vs & Hl & _ & Hrec) _ (e2 & He2 & Hmem) _
    (e3 & He3 & _ & _ & Hx) _ _].
  destruct (Hrec i t Ht) as (v & Hv & (src & _ & Hid & _ & Hcpu & Hst) & Hbl).
  exists es, e0, e2, e3, v, (src_cpu src), (exception_stream_of c').
  split_and!; try done; try (eapply stands_weaken; [apply Nat.le_0_l|done]).
  - eapply stands_weaken; [apply Nat.le_0_l|]. by eapply list_at_slot.
  - intros Hb. unfold exception_stream_of. rewrite (core_blamed_thread c c') by done. rewrite <- Hb.
    f_equal. specialize (Hbl Hb). destruct (is_crashed c t); [by rewrite Hbl|].
    by destruct Hbl as [ip ->].
  - intros Hsz. destruct Hst as [(_ & _ & Hz)|(bs & _ & _ & _ & Hin)]; [done|].
    apply list_elem_of_lookup in Hin as [j Hj]. exists j.
    eapply stands_weaken; [apply Nat.le_0_l|]. by eapply list_at_slot.
Qed.

Local Notation dir_end := (size_with MDRawHeader + length plan * size_with MDRawDirectory).

(** The memory list of a successful dump, and that it starts with what the writer
    had recorded before. *)
Lemma memory_list_of_dump `{TG : Target} {F : Format} {FO : FormatOk F} {OS : Os}
    {PF : Procfs} {G : Goblin} {A : Arch} {AO : ArchOk A} fuel dumper c c' f f' b' now :
  (0 <= cursor f <= Z.of_nat (length (contents f)))%Z -> (cursor f + 2 ^ 32 <= 2 ^ 64)%Z ->
  unix_time = Some now -> tids_ok dumper c ->
  generate_dump fuel dumper (c, f, mkBuffer []) = (Ok tt, (c', f', b')) -> small b' ->
  exists es e new regions,
    dump_on_disk (SP := linux_plan) (before f) (dump_header now) es (length (inner b')) (contents f') b' /\
    es !! 2 = Some e /\ memory_blocks c' = memory_blocks c ++ new /\
    list_at dir_end (inner b') (MemoryListStream stream_types) e (memory_blocks c') /\
    regions ⊆ memory_blocks c' /\ Forall2 (copied c dir_end (inner b')) (app_memory c) regions /\
    blamed_thread c' = blamed_thread c.
Proof.
  intros Hcur Hend Hnow Hids Hrun Hs.
  destruct (generate_dump_judged fuel dumper false c f _ c' f' b' now Hcur Hend Hnow Hids
    (fun Ht => match Bool.diff_false_true Ht with end) Hrun Hs) as (es & _ & Hd & [Hmain _]).
  destruct (ms_memory _ _ _ _ _ _ Hmain) as (e & He & Hl).
  destruct (ms_regions _ _ _ _ _ _ Hmain) as (regions & Hin & Hcop).
  pose proof (generate_more fuel dumper c f) as Hm. rewrite Hrun in Hm. destruct Hm as [new Hm].
  pose proof (ms_core _ _ _ _ _ _ Hmain) as Hcore.
  exists es, e, new, regions. split_and!; try done. by apply (core_blamed_thread c c').
Qed.

(** C35: a second dump repeats the memory of the first.  When the same writer
    produces two dumps, both successfully and on destinations on which every call
    succeeds, whatever the processes, the memory list of the second one begins with all the blocks of the list of the first
    one, the copies of application memory among them, unchanged: with the
    locations they have in the first dump, although that has other bytes. *)
Theorem second_dump_repeats_memory `{TG : Target} (F : Format) (FO : FormatOk F) (OS : Os)
    (PF : Procfs) (G : Goblin) (A : Arch) (AO : ArchOk A) (fuel : nat) (dumper1 dumper2 : PtraceDumper)
    (c c1 c2 : MinidumpWriter) (f f1 f2 f2' : File) (b1 b2 : Buffer) (now : Z) :
  (0 <= cursor f <= Z.of_nat (length (contents f)))%Z -> (cursor f + 2 ^ 32 <= 2 ^ 64)%Z ->
  (0 <= cursor f2 <= Z.of_nat (length (contents f2)))%Z -> (cursor f2 + 2 ^ 32 <= 2 ^ 64)%Z ->
  unix_time = Some now -> tids_ok dumper1 c -> tids_ok dumper2 c ->
  generate_dump fuel dumper1 (c, f, mkBuffer []) = (Ok tt, (c1, f1, b1)) ->
  generate_dump fuel dumper2 (c1, f2, mkBuffer []) = (Ok tt, (c2, f2', b2)) ->
  (Z.of_nat (length (inner b1)) < 2 ^ 32)%Z -> (Z.of_nat (length (inner b2)) < 2 ^ 32)%Z ->
  exists es1 e1 es2 e2 first second regions,
    dump_on_disk (SP := linux_plan) (before f) (dump_header now) es1 (length (inner b1)) (contents f1) b1 /\
    es1 !! 2 = Some e1 /\ list_at dir_end (inner b1) (MemoryListStream stream_types) e1 first /\
    regions ⊆ first /\ Forall2 (copied c dir_end (inner b1)) (app_memory c) regions /\
    dump_on_disk (SP := linux_plan) (before f2) (dump_header now) es2 (length (inner b2)) (contents f2') b2 /\
    es2 !! 2 = Some e2 /\
    list_at dir_end (inner b2) (MemoryListStream stream_types) e2 (first ++ second).
Proof.
  intros Hcur1 Hend1 Hcur2 Hend2 Hnow Hids1 Hids2 Hrun1 Hrun2 Hs1 Hs2.
  destruct (memory_list_of_dump fuel dumper1 c c1 f f1 b1 now Hcur1 Hend1 Hnow Hids1 Hrun1 Hs1)
    as (es1 & e1 & new1 & regions & Hd1 & He1 & _ & Hl1 & Hin & Hcop & Hblamed).
  destruct (memory_list_of_dump fuel dumper2 c1 c2 f2 f2' b2 now Hcur2 Hend2 Hnow) as
    (es2 & e2 & new2 & ? & Hd2 & He2 & Hnew & Hl2 & _);
    [unfold tids_ok in *; by rewrite Hblamed|done|done|].
  exists es1, e1, es2, e2, (memory_blocks c1), new2, regions. rewrite <- Hnew. by split_and!.
Qed.

(** ** A process that is dumped *)

(** A process with the threads 7 and 8, each with its stack; every readable file
    holds one letter, so the threads have a name. *)
Definition target_os : Os := {|
  process_vm_readv := process_vm_readv (Os := toy_os stack_page);
  open_mem _ := inl (OsError EACCES);
  read_exact_at _ _ _ := inl (OsError EACCES);
  ptrace_read _ _ := inl ESRCH;
  alloc_succeeds _ := true;
  fs_read _ := inr [Byte.x6e];
  fs_open _ := inl (OsError 2);
  fs_mmap _ _ := inl (OsError 2);
  fs_exists _ := false;
  fs_is_dir _ := true;
  fs_read_dir _ := inr [Some [Byte.x37]; Some [Byte.x38]];
  fs_read_link _ := inl (OsError 2);
  fs_metadata_mode _ := inl (OsError 2);
  process_id_self := 1%Z;
  sysconf_page_size := inr (Some 4096%Z);
  unix_time := Some 1700000000%Z;
|}.

(** The kernel's view of the stack is the one line of the memory map. *)
Definition target_procfs : Procfs := {|
  memory_maps_from _ := inr (inr [mkMemoryMap (65536, 65664)%Z rwp 0%Z Anonymous]);
  memory_maps_from_file _ := inr [mkMemoryMap (65536, 65664)%Z rwp 0%Z Anonymous];
|}.

Local Notation whole_run :=
  (@generate_dump x64_release layout (target_os) target_procfs elf64 stacked_arch
    File file_destination 400 (stacked_dumper [7; 8]%Z) (stacked_config, bare_file, mkBuffer [])).

Lemma whole_orderly :
  @orderly x64_release layout (target_os) target_procfs elf64 stacked_arch 400 (stacked_dumper [7; 8]%Z)
    stacked_config.
Proof.
  constructor.
  - exists NoMax. split; [vm_compute; reflexivity|]. apply stacked_fit;
      [done|intros k [-> | ->]; vm_compute; reflexivity|intros p; vm_compute; reflexivity].
  - exists []. split; [vm_compute; reflexivity|constructor].
  - constructor.
  - split; [vm_compute; reflexivity|]. intros r. eexists. reflexivity.
  - eexists _, _. split; [reflexivity|]. vm_compute. reflexivity.
  - left. eexists. reflexivity.
  - assert (Hn : forall k, (0 <= k)%Z -> (0 <= tid (mkTask k (Some [110%Z])))%Z /\
      exists name, thread_name (mkTask k (Some [110%Z])) = Some name /\ short_text name).
    { intros k Hk. split; [exact Hk|]. exists [110%Z]. split; [reflexivity|vm_compute; reflexivity]. }
    apply Forall_cons. split; [apply Hn; lia|]. apply Forall_cons. split; [apply Hn; lia|constructor].
  - intros entries _. apply Forall_forall. intros name _ p Hp. discriminate Hp.
Qed.

Lemma whole_file :
  (0 <= cursor bare_file <= Z.of_nat (length (contents bare_file)))%Z /\ (cursor bare_file + 2 ^ 32 <= 2 ^ 64)%Z.
Proof. split; [split|]; vm_compute; discriminate. Qed.

Lemma generate_dump_succeeds_witness :
  exists c' f' b', whole_run = (Ok tt, (c', f', b')).
Proof.
  destruct (@generate_dump_succeeds x64_release layout layout_ok (target_os) target_procfs elf64
    stacked_arch stacked_arch_ok 400 (stacked_dumper [7; 8]%Z) stacked_config bare_file 1700000000%Z
    (proj1 whole_file) (proj2 whole_file) eq_refl stacked_tids_ok whole_orderly
    ltac:(vm_compute; reflexivity)) as (c' & f' & b' & es & Hrun & _).
  exists c', f', b'. exact Hrun.
Defined.

Lemma whole_returns : whole_run = (Ok tt, (whole_run.2.1.1, whole_run.2.1.2, whole_run.2.2)) /\
  (Z.of_nat (length (inner whole_run.2.2)) < 2 ^ 32)%Z.
Proof.
  split; [|vm_compute; reflexivity].
  assert (H1 : whole_run.1 = Ok tt) by (vm_compute; reflexivity).
  rewrite <- H1. by destruct whole_run as [? [[? ?] ?]].
Qed.

Lemma generate_dump_describes_witness :
  exists es, @dump_describes x64_release layout (target_os) target_procfs elf64 stacked_arch 400
    (stacked_dumper [7; 8]%Z) stacked_config whole_run.2.1.1 es (inner whole_run.2.2).
Proof.
  destruct (@generate_dump_describes x64_release layout layout_ok (target_os) target_procfs elf64
    stacked_arch stacked_arch_ok 400 (stacked_dumper [7; 8]%Z) stacked_config whole_run.2.1.1 bare_file
    whole_run.2.1.2 whole_run.2.2 1700000000%Z (proj1 whole_file) (proj2 whole_file) eq_refl
    stacked_tids_ok (proj1 whole_returns) (proj2 whole_returns)) as (es & _ & Hd).
  exists es. exact Hd.
Defined.

(** The second thread is the blamed one. *)
Lemma dump_streams_agree_witness :
  exists (v : MDRawThread) x r, stands 0 (inner whole_run.2.2) r (@encode _ (@pod_exception layout) x) /\
    x = mkExceptionStream 8 (@exception_record_of layout stacked_arch whole_run.2.1.1) 0 (thread_context v).
Proof.
  destruct (@dump_streams_agree x64_release layout layout_ok (target_os) target_procfs elf64
    stacked_arch stacked_arch_ok 400 (stacked_dumper [7; 8]%Z) stacked_config whole_run.2.1.1 bare_file
    whole_run.2.1.2 whole_run.2.2 1700000000%Z 1 (mkTask 8%Z (Some [110]%Z)) (proj1 whole_file)
    (proj2 whole_file) eq_refl stacked_tids_ok (proj1 whole_returns) (proj2 whole_returns) eq_refl)
    as (es & e0 & e2 & e3 & v & cpu & x & _ & _ & _ & _ & _ & _ & _ & Hx & Hb & _).
  exists v, x, (rva (location e3)). split; [exact Hx|]. exact (Hb eq_refl).
Defined.

(** The writer of the dump above is used again: the two stacks of the first dump
    are listed twice. *)
Local Notation second_run :=
  (@generate_dump x64_release layout (target_os) target_procfs elf64 stacked_arch
    File file_destination 400 (stacked_dumper [7; 8]%Z) (whole_run.2.1.1, bare_file, mkBuffer [])).

Lemma second_returns : second_run = (Ok tt, (second_run.2.1.1, second_run.2.1.2, second_run.2.2)) /\
  (Z.of_nat (length (inner second_run.2.2)) < 2 ^ 32)%Z.
Proof.
  split; [|vm_compute; reflexivity].
  assert (H1 : second_run.1 = Ok tt) by (vm_compute; reflexivity).
  rewrite <- H1. by destruct second_run as [? [[? ?] ?]].
Qed.

Lemma second_dump_repeats_memory_witness :
  exists lo e1 e2 first second,
    @list_at layout _ (@pod_memory layout) lo (inner whole_run.2.2)
      (MemoryListStream (@stream_types layout)) e1 first /\
    @list_at layout _ (@pod_memory layout) lo (inner second_run.2.2)
      (MemoryListStream (@stream_types layout)) e2 (first ++ second).
Proof.
  destruct (@second_dump_repeats_memory x64_release layout layout_ok (target_os) target_procfs elf64
    stacked_arch stacked_arch_ok 400 (stacked_dumper [7; 8]%Z) (stacked_dumper [7; 8]%Z) stacked_config
    whole_run.2.1.1 second_run.2.1.1 bare_file whole_run.2.1.2 bare_file second_run.2.1.2
    whole_run.2.2 second_run.2.2 1700000000%Z (proj1 whole_file) (proj2 whole_file) (proj1 whole_file)
    (proj2 whole_file) eq_refl stacked_tids_ok stacked_tids_ok (proj1 whole_returns) (proj1 second_returns)
    (proj2 whole_returns) (proj2 second_returns))
    as (es1 & e1 & es2 & e2 & first & second & regions & _ & _ & Hl1 & _ & _ & _ & _ & Hl2).
  eexists _, e1, e2, first, second. split; [exact Hl1|exact Hl2].
Defined.

Example second_dump_lists_four :
  length (memory_blocks whole_run.2.1.1) = 2 /\ length (memory_blocks second_run.2.1.1) = 4 /\
  take 2 (memory_blocks second_run.2.1.1) = memory_blocks whole_run.2.1.1.
Proof. vm_compute. split_and!; reflexivity. Qed.
