(* ===== verification/AnyDestination.v ===== *)
(** * Destinations that fail

    The theorems on the contents of a dump are about a destination on which every
    call succeeds.  Here [generate_dump] (src/src/linux/minidump_writer.rs) runs
    on any destination that implements [Write] and [Seek] (src/src/dir_section.rs)
    and may fail at any call: what is already in the destination is spared, and
    the run goes the way it goes on the file the destination shows, up to the
    first call that fails. *)
From Stdlib Require Import ZArith Lia String.
From S2P Require Import Prelude Format Layout MemWriter DirSection Driver DumpPlan RustStr Errors.
From S2P Require Import Os MemReader ModuleReader MapsReader Auxv Arch PtraceDumper.
From S2P Require Import Config Streams ThreadListStream MappingsStream DsoDebug MinidumpWriter.
From S2P Require Import StreamSpec DumpSpec ElfLayout ThreadListSpec DumpContents.

Local Open Scope nat_scope.
Local Notation length := List.length.
Local Notation File := DirSection.File.

(** ** The contract *)

(** What is documented of the calls beyond their effect when they succeed: a seek
    returns the new position; no call panics; a query or a seek that fails
    leaves the contents; a write that fails has written some of the bytes. *)
Class DestinationFails (W : Type) `{DO : DestinationOk W} := {
  stream_position_fails : forall w r w', stream_position w = (r, w') ->
    r <> Panic /\ contents (view w') = contents (view w);
  seek_start_fails : forall p w r w', seek_start p w = (r, w') ->
    r <> Panic /\ contents (view w') = contents (view w) /\ (forall q, r = Ok q -> q = p);
  dest_write_all_fails : forall bs w r w', dest_write_all bs w = (r, w') ->
    r <> Panic /\ (contents (view w') = contents (view w) \/
      exists n, contents (view w') = contents (file_write (take n bs) (view w)));
}.

#[export] Instance file_destination_fails : DestinationFails File.
Proof.
  split.
  - by intros w r w' [= <- <-].
  - intros p w r w' [= <- <-]. split_and!; [done..|]. by intros q [= <-].
  - intros bs w r w' [= <- <-]. split; [done|]. right. exists (length bs). by rewrite take_ge.
Qed.

(** ** Two runs side by side *)

(** Two results agree: the same result and the same state, seen through [vw], in
    which [I] holds; or the first run was stopped by a [bad] error, in a state
    that is [Safe]. *)
Section agree.
Context {S S' E : Type} (vw : S -> S') (I Safe : S -> Prop) (bad : E -> Prop).

Definition agree {A} (x : res E A * S) (x' : res E A * S') : Prop :=
  (x'.1 = x.1 /\ x'.2 = vw x.2 /\ I x.2) \/
  (match x.1 with Err e => bad e | _ => False end /\ Safe x.2).

(** Sequences: the first part agrees, and from agreeing states so does the rest,
    in the sense of [Q]. *)
Lemma agree_bind {A B} (Q : res E B * S -> res E B * S' -> Prop) (m : ST S E A) (m' : ST S' E A)
    (f : A -> ST S E B) (f' : A -> ST S' E B) s s' :
  (forall x x', agree x x' -> Q x x') ->
  agree (m s) (m' s') ->
  (forall a s1, I s1 -> m s = (Ok a, s1) -> Q (f a s1) (f' a (vw s1))) ->
  Q ((m ≫= f) s) ((m' ≫= f') s').
Proof.
  unfold mbind, ST_bind. intros Hq Hm Hf.
  destruct (m s) as [r s1]. destruct (m' s') as [r' s1'].
  destruct Hm as [(H1 & H2 & H3)|[Hb Hs]]; cbn in *.
  - subst r' s1'. destruct r as [a|e|]; [by apply Hf| |]; apply Hq; left; by split_and!.
  - destruct r as [a|e|]; [done| |done]. apply Hq. right. by destruct r'.
Qed.

Lemma agree_seq {A B} (m : ST S E A) (m' : ST S' E A) (f : A -> ST S E B) (f' : A -> ST S' E B) s s' :
  agree (m s) (m' s') ->
  (forall a s1, I s1 -> m s = (Ok a, s1) -> agree (f a s1) (f' a (vw s1))) ->
  agree ((m ≫= f) s) ((m' ≫= f') s').
Proof. by apply (agree_bind agree). Qed.

Lemma agree_same {A} (r : res E A) s : I s -> agree (r, s) (r, vw s).
Proof. intros Hs. by left. Qed.

Lemma agree_get {B} (f : S -> ST S E B) (f' : S' -> ST S' E B) s s' :
  agree (f s s) (f' s' s') -> agree ((st_get ≫= f) s) ((st_get ≫= f') s').
Proof. done. Qed.

Lemma agree_lift {A} (r : res E A) s : I s -> agree (st_lift r s) (st_lift r (vw s)).
Proof. apply agree_same. Qed.
End agree.

Section faults.
Context `{TG : Target} {F : Format} {W : Type} `{DF : DestinationFails W}.
Context (start : Z) (pre : list byte).

(** The directory section over the file that the destination shows. *)
Definition view_dir (d : DirSection W) : DirSection File :=
  mkDirSection (curr_idx d) (section d) (destination_start_offset d) (view (destination d))
    (last_position_written_to_file d).

(** The bytes in front of the dump are still there. *)
Definition spared (f : File) : Prop :=
  (start <= Z.of_nat (length (contents f)))%Z /\ take (Z.to_nat start) (contents f) = pre.

(** The destination stands behind them, and so does everything it is told. *)
Record ahead (d : DirSection W) : Prop := {
  ahead_start : destination_start_offset d = start;
  ahead_cursor : (start <= cursor (view (destination d)))%Z;
  ahead_spared : spared (view (destination d));
}.

Context (Hstart : (0 <= start)%Z) (Hend : (start + 2 ^ 32 <= 2 ^ 64)%Z).

Lemma file_write_spares bs (f : File) : (start <= cursor f)%Z -> spared f -> spared (file_write bs f).
Proof.
  intros Hc [Hl Hp]. unfold spared, file_write. cbn [contents].
  set (l := contents f ++ _). assert (Hll : Z.to_nat start <= length l) by (subst l; rewrite length_app; lia).
  split.
  - unfold splice. rewrite !length_app, length_take, length_drop. subst l. rewrite length_app, length_replicate in *.
    lia.
  - rewrite take_splice; [|lia|lia]. subst l. by rewrite take_app_le by lia.
Qed.

(** *** The calls of the destination *)

Notation View := (fun s : DirSection W * Buffer => (view_dir s.1, s.2)).
Notation Ahead := (fun s : DirSection W * Buffer => ahead s.1).
Notation Spared := (fun s : DirSection W * Buffer => spared (view (destination s.1))).

Definition io_error (e : FileWriterError) : Prop := exists io, e = FW_IOError io.

Local Notation agree1 := (agree View Ahead Spared io_error).

Lemma on_dest_agree {A} (m : ST W IoError A) (m' : ST File IoError A) d b :
  (m (destination d)).1 <> Panic ->
  (forall a w', m (destination d) = (Ok a, w') ->
     m' (view (destination d)) = (Ok a, view w') /\ (start <= cursor (view w'))%Z) ->
  spared (view (m (destination d)).2) ->
  ahead d -> agree1 (on_dest m (d, b)) (on_dest m' (view_dir d, b)).
Proof.
  intros Hnp Hok Hsp [Hs Hc _]. unfold agree, on_dest, st_map_err, st_zoom. cbn [fst snd destination view_dir].
  destruct (m (destination d)) as [[a|e|] w'] eqn:Em; cbn [fst snd] in *; [| |done].
  - destruct (Hok a w' eq_refl) as [-> Hc']. left. split_and!; [done|done|]. by split.
  - right. by split; [exists e|].
Qed.

Lemma position_agree d b : ahead d ->
  agree1 (on_dest stream_position (d, b)) (on_dest stream_position (view_dir d, b)).
Proof.
  intros Ha. pose proof (ahead_spared _ Ha) as Hsp. apply on_dest_agree; [..|done].
  - destruct (stream_position (destination d)) as [r w'] eqn:E. by apply stream_position_fails in E as [? _].
  - intros p w' (-> & Hv)%stream_position_ok. rewrite Hv. split; [done|apply Ha].
  - destruct (stream_position (destination d)) as [r w'] eqn:E.
    apply stream_position_fails in E as [_ Hc]. unfold spared in *. cbn. by rewrite Hc.
Qed.

Lemma seek_agree p d b : ahead d -> (start <= p)%Z ->
  agree1 (on_dest (seek_start p) (d, b)) (on_dest (seek_start p) (view_dir d, b)).
Proof.
  intros Ha Hp. pose proof (ahead_spared _ Ha) as Hsp. apply on_dest_agree; [..|done].
  - destruct (seek_start p (destination d)) as [r w'] eqn:E. by apply seek_start_fails in E as [? _].
  - intros q w' E. pose proof (seek_start_fails _ _ _ _ E) as (_ & _ & Hq). rewrite (Hq q eq_refl).
    apply seek_start_ok in E as ->. done.
  - destruct (seek_start p (destination d)) as [r w'] eqn:E.
    apply seek_start_fails in E as (_ & Hc & _). unfold spared in *. cbn. by rewrite Hc.
Qed.

Lemma write_agree bs d b : ahead d ->
  agree1 (on_dest (dest_write_all bs) (d, b)) (on_dest (dest_write_all bs) (view_dir d, b)).
Proof.
  intros Ha. pose proof (ahead_spared _ Ha) as Hsp. pose proof (ahead_cursor _ Ha) as Hcur.
  apply on_dest_agree; [..|done].
  - destruct (dest_write_all bs (destination d)) as [r w'] eqn:E. by apply dest_write_all_fails in E as [? _].
  - intros [] w' ->%dest_write_all_ok. cbn. split; [done|lia].
  - destruct (dest_write_all bs (destination d)) as [r w'] eqn:E.
    apply dest_write_all_fails in E as [_ [Hc|[n Hc]]]; unfold spared in *; cbn; rewrite Hc; [done|].
    by apply file_write_spares.
Qed.

Lemma buffer_agree {A} (m : ST Buffer MemoryWriterError A) d b : ahead d ->
  agree1 (on_buffer m (d, b)) (on_buffer m (view_dir d, b)).
Proof.
  intros Ha. unfold agree, on_buffer, st_map_err, on_buf, st_zoom. cbn. destruct (m b) as [r b'].
  cbn. by left.
Qed.
(** *** A flush *)

Lemma location_rva {E} (w : MemoryArrayWriter MDRawDirectory) idx (l : MDLocationDescriptor) :
  location_of_index (E := E) w idx = Ok l -> in_bits 32 (rva l).
Proof.
  unfold location_of_index. destruct (add_u _ _ _) as [r| |] eqn:Ha; cbn; [|done..].
  intros [= <-]. cbn. unfold add_u in Ha. by eapply checked_in_bits.
Qed.

Lemma dump_dir_entry_agree e d b : ahead d ->
  agree1 (dump_dir_entry e (d, b)) (dump_dir_entry e (view_dir d, b)).
Proof.
  intros Ha. unfold dump_dir_entry.
  apply agree_get. cbn beta iota.
  apply agree_seq; [by apply buffer_agree|].
  intros [] [d1 b1] Ha1 Hb1. apply on_buffer_ok in Hb1 as (? & _ & [= -> ->]). cbn [fst snd] in *.
  apply agree_seq; [by apply position_agree|].
  intros pos [d2 b2] Ha2 Hp2. apply on_dest_ok in Hp2 as (w2 & Hp2 & [= -> ->]). cbn [fst snd] in *.
  apply stream_position_ok in Hp2 as [-> _].
  apply agree_seq; [by apply (agree_lift View Ahead Spared io_error _ (_, _))|].
  intros l ? _ [= Hl <-]. apply location_rva in Hl.
  apply agree_seq; [left; split_and!; [done|done|by destruct Ha2; split]|]. intros [] ? Ha3 [= <-].
  apply agree_seq; [by apply (agree_lift View Ahead Spared io_error _ (_, _))|].
  intros target ? _ [= Ht <-].
  assert (Htarget : (start <= target)%Z).
  { cbn [destination_start_offset view_dir] in Ht. rewrite (ahead_start _ Ha) in Ht.
    rewrite add_u_ok in Ht by (unfold in_bits in *; lia). injection Ht as <-. unfold in_bits in *. lia. }
  apply agree_seq; [by apply seek_agree|]. intros q [d4 b4] Ha4 _.
  apply agree_seq; [by apply (agree_lift View Ahead Spared io_error _ (_, _))|]. intros stop ? _ [= _ <-].
  apply agree_get. cbn beta iota.
  apply agree_seq; [by apply (agree_lift View Ahead Spared io_error _ (_, _))|]. intros bs ? _ [= _ <-].
  apply agree_seq; [by apply write_agree|]. intros [] [d5 b5] Ha5 _.
  apply agree_seq; [apply seek_agree; [done|apply Ha]|].
  intros ? [d6 b6] Ha6 _. by apply (agree_same View Ahead Spared io_error _ (_, _)).
Qed.

Lemma write_to_file_agree dirent d b : ahead d ->
  agree1 (write_to_file dirent (d, b)) (write_to_file dirent (view_dir d, b)).
Proof.
  intros Ha. unfold write_to_file. apply agree_seq; [ |].
  { destruct dirent; [by apply dump_dir_entry_agree|by apply (agree_same View Ahead Spared io_error _ (_, _))]. }
  intros [] [d1 b1] Ha1 _.
  apply agree_get. cbn beta iota.
  apply agree_seq; [by apply (agree_lift View Ahead Spared io_error _ (_, _))|]. intros bs ? _ [= _ <-].
  apply agree_seq; [by apply write_agree|]. intros [] [d2 b2] Ha2 _.
  left. split_and!; [done..|]. destruct Ha2. by split.
Qed.
End faults.

(** The buffer after a flush does not depend on the destination. *)
Definition flushed_buffer `{TG : Target} {F : Format} {W} (dirent : option MDRawDirectory) (d : DirSection W) (b : Buffer)
    : Buffer :=
  match dirent with
  | Some e => (set_value_at (section d) e (curr_idx d) b).2
  | None => b
  end.

Lemma on_dest_buffer {W A} (m : ST W IoError A) (s : DirSection W * Buffer) : (on_dest m s).2.2 = s.2.
Proof. unfold on_dest, st_map_err, st_zoom. by destruct (m _). Qed.

(** [m] leaves the buffer alone. *)
Definition keeps_buffer {W E A} (m : ST (DirSection W * Buffer) E A) : Prop :=
  forall s, (m s).2.2 = s.2.

Lemma keeps_buffer_bind {W E A B} (m : ST (DirSection W * Buffer) E A) (f : A -> ST (DirSection W * Buffer) E B) :
  keeps_buffer m -> (forall a, keeps_buffer (f a)) -> keeps_buffer (m ≫= f).
Proof.
  intros Hm Hf s. specialize (Hm s). unfold mbind, ST_bind. destruct (m s) as [[a|e|] s1]; cbn in *; [|done..].
  by rewrite Hf.
Qed.

Ltac keeps_buffer_tac :=
  repeat first
    [ apply keeps_buffer_bind; [|intros ?]
    | progress case_match
    | by intros s; apply on_dest_buffer
    | by intros s ].

Lemma write_to_file_buffer `{TG : Target} {F : Format} {W} `{Destination W} dirent (d : DirSection W) b :
  (write_to_file dirent (d, b)).2.2 = flushed_buffer dirent d b.
Proof.
  assert (Htail : keeps_buffer (W := W) ('(self, buffer) ← st_get;
    let start_pos := Z.to_nat (last_position_written_to_file self) in
    bytes ← st_lift (match slice start_pos (length (inner buffer)) (inner buffer) with
                     | Some bs => Ok bs
                     | None => Panic
                     end);
    on_dest (dest_write_all bytes);;
    st_modify (fun s => (set_last_position (position buffer) (fst s), snd s)))).
  { cbv zeta. keeps_buffer_tac. }
  unfold write_to_file. destruct dirent as [e|]; [|apply Htail]. cbn [flushed_buffer].
  unfold dump_dir_entry. rewrite st_bind_assoc.
  erewrite st_bind_run by reflexivity. cbn beta iota. rewrite st_bind_assoc.
  destruct (on_buffer (set_value_at (section d) e (curr_idx d)) (d, b)) as [r s1] eqn:Hs.
  assert (Hb : s1.2 = (set_value_at (section d) e (curr_idx d) b).2).
  { unfold on_buffer, st_map_err, on_buf, st_zoom in Hs. cbn in Hs.
    destruct (set_value_at _ _ _ b) as [r1 b1]. by injection Hs as <- <-. }
  rewrite <- Hb, (st_bind_case _ _ _ _ _ Hs). destruct r as [[]| |]; [|done..].
  match goal with |- (?m s1).2.2 = _ => assert (Hk : keeps_buffer m); [|apply Hk] end.
  apply keeps_buffer_bind; [|intros ?; exact Htail]. keeps_buffer_tac.
Qed.

(** ** The whole dump *)

Section generate.
Context `{TG : Target} {F : Format} {FO : FormatOk F} {OS : Os} {PF : Procfs} {G : Goblin} {A : Arch}.
Context {W : Type} `{DF : DestinationFails W} (fuel : nat) (dumper : PtraceDumper).
Context (start : Z) (pre : list byte).
Context (Hstart : (0 <= start)%Z) (Hend : (start + 2 ^ 32 <= 2 ^ 64)%Z).

Notation State := (MinidumpWriter * DirSection W * Buffer)%type.
Notation ahead := (ahead start pre).
Notation spared := (spared start pre).

Definition view_state (s : State) : MinidumpWriter * DirSection File * Buffer :=
  (s.1.1, view_dir s.1.2, s.2).
Definition state_ahead (s : State) : Prop := ahead s.1.2.
Definition state_spared (s : State) : Prop := spared (view (destination s.1.2)).

(** The error of a call on the destination. *)
Definition destination_error (e : WriterError) : Prop :=
  exists io, e = WriterError_FileWriterError (FW_IOError io).

Local Notation agree2 := (agree view_state state_ahead state_spared destination_error).

Lemma on_writer_agree {E T} (conv : E -> WriterError) (m : ST (MinidumpWriter * Buffer) E T) s :
  state_ahead s -> agree2 (on_writer conv m s) (on_writer conv m (view_state s)).
Proof.
  intros Ha. destruct s as [[c d] b]. unfold agree, on_writer, st_map_err, st_zoom. cbn.
  destruct (m (c, b)) as [r [c' b']]. by left.
Qed.

Lemma try_on_writer_agree {E T} (m : ST (MinidumpWriter * Buffer) E T) s :
  state_ahead s -> agree2 (st_try (on_writer id m) s) (st_try (on_writer id m) (view_state s)).
Proof.
  intros Ha. destruct s as [[c d] b]. unfold agree, st_try, on_writer, st_map_err, st_zoom. cbn.
  destruct (m (c, b)) as [[] [c' b']]; by left.
Qed.

Lemma on_dump_buf_agree {E T} (conv : E -> WriterError) (m : ST Buffer E T) s :
  state_ahead s -> agree2 (on_dump_buf conv m s) (on_dump_buf conv m (view_state s)).
Proof.
  intros Ha. destruct s as [[c d] b]. unfold agree, on_dump_buf, st_map_err, on_buf, st_zoom. cbn.
  destruct (m b) as [r b']. by left.
Qed.

Lemma try_on_dump_buf_agree {E T} (m : ST Buffer E T) s :
  state_ahead s -> agree2 (st_try (on_dump_buf id m) s) (st_try (on_dump_buf id m) (view_state s)).
Proof.
  intros Ha. destruct s as [[c d] b]. unfold agree, st_try, on_dump_buf, st_map_err, on_buf, st_zoom. cbn.
  destruct (m b) as [[] b']; by left.
Qed.

Lemma flush_agree dirent s : state_ahead s ->
  agree2 (st_map_err WriterError_FileWriterError (flush dirent) s)
    (st_map_err WriterError_FileWriterError (flush dirent) (view_state s)).
Proof.
  intros Ha. destruct s as [[c d] b].
  pose proof (write_to_file_agree start pre Hstart Hend dirent d b Ha) as Hw.
  unfold agree, st_map_err, flush, st_zoom, view_state in *. cbn [fst snd] in *.
  destruct (write_to_file dirent (d, b)) as [r [d1 b1]].
  destruct (write_to_file dirent (view_dir d, b)) as [r' [d1' b1']]. cbn [fst snd] in *.
  destruct Hw as [(-> & [= -> ->] & Hi)|[Hb Hs]]; [by left|right].
  destruct r as [|e|]; [done| |done]. destruct Hb as [io ->]. split; [by exists io|done].
Qed.

Lemma flush_some_agree e s : state_ahead s ->
  agree2 (flush_some e s) (flush_some e (view_state s)).
Proof. apply flush_agree. Qed.

Lemma file_stream_agree ty m s : state_ahead s ->
  agree2 (file_stream ty m s) (file_stream ty m (view_state s)).
Proof.
  intros Ha. apply agree_seq; [by apply try_on_dump_buf_agree|].
  intros r s1 Ha1 _. by apply flush_some_agree.
Qed.

(** Either the runs agree, or the first one returned although the last flush
    failed. *)
Definition outcome (x : res WriterError unit * State)
    (x' : res WriterError unit * (MinidumpWriter * DirSection File * Buffer)) : Prop :=
  agree2 x x' \/
  (x.1 = Ok tt /\ x'.2.1.1 = x.2.1.1 /\ x'.2.2 = x.2.2 /\ state_spared x.2).

Lemma outcome_seq {T} (m : ST State WriterError T)
    (m' : ST (MinidumpWriter * DirSection File * Buffer) WriterError T)
    (f : T -> ST State WriterError unit)
    (f' : T -> ST (MinidumpWriter * DirSection File * Buffer) WriterError unit) s s' :
  agree2 (m s) (m' s') -> (forall a s1, state_ahead s1 -> outcome (f a s1) (f' a (view_state s1))) ->
  outcome ((m ≫= f) s) ((m' ≫= f') s').
Proof.
  intros Hm Hf. apply (agree_bind view_state state_ahead state_spared destination_error outcome); [|done|].
  - intros x x' Hx. by left.
  - intros a s1 Hs1 _. by apply Hf.
Qed.

Lemma outcome_get (f : State -> ST State WriterError unit)
    (f' : MinidumpWriter * DirSection File * Buffer -> ST _ WriterError unit) s s' :
  outcome (f s s) (f' s' s') -> outcome ((st_get ≫= f) s) ((st_get ≫= f') s').
Proof. done. Qed.

Lemma last_flush_outcome e s : state_ahead s ->
  outcome ((_ ← st_try (flush (Some e)); mret tt) s)
    ((_ ← st_try (flush (Some e)); mret tt) (view_state s)).
Proof.
  intros Ha. destruct s as [[c d] b].
  pose proof (write_to_file_agree start pre Hstart Hend (Some e) d b Ha) as Hw.
  pose proof (write_to_file_buffer (Some e) d b) as Hb1.
  pose proof (write_to_file_buffer (Some e) (view_dir d) b) as Hb2.
  change (flushed_buffer (Some e) (view_dir d) b) with (flushed_buffer (Some e) d b) in Hb2.
  unfold outcome, agree, mbind, ST_bind, st_try, flush, st_zoom, view_state in *. cbn [fst snd] in *.
  destruct (write_to_file (Some e) (d, b)) as [r [d1 b1]].
  destruct (write_to_file (Some e) (view_dir d, b)) as [r' [d1' b1']]. cbn [fst snd] in *.
  destruct Hw as [(-> & [= -> ->] & Hi)|[Hb Hs]].
  - left. by destruct r as [[]| |]; left.
  - right. destruct r as [|e1|]; [done| |done]. rewrite Hb1, Hb2. by destruct r'.
Qed.

Lemma write_streams_outcome s : state_ahead s ->
  outcome (write_streams fuel dumper s) (write_streams fuel dumper (view_state s)).
Proof.
  intros Ha. destruct s as [[self d] b]. unfold write_streams.
  apply outcome_get. cbn [view_state fst snd]. cbv zeta.
  change (self, view_dir d, b) with (view_state (self, d, b)).
  repeat (apply outcome_seq;
    [first [by apply on_writer_agree|by apply flush_some_agree|by apply flush_agree
           |by apply file_stream_agree|by apply try_on_dump_buf_agree|by apply try_on_writer_agree]
    |clear dependent d b; intros ? [[? d] b] Ha]).
  case_match; [by (left; left)|]. by apply last_flush_outcome.
Qed.
Lemma write_header_agree h s : state_ahead s ->
  agree2 (write_header h s) (write_header h (view_state s)).
Proof.
  intros Ha. destruct s as [[self d] b]. unfold write_header.
  apply agree_get. cbn [view_state fst snd].
  change (self, view_dir d, b) with (view_state (self, d, b)).
  apply agree_seq; [by apply agree_lift|]. intros now s1 Ha1 _.
  apply agree_seq; [by apply on_dump_buf_agree|]. intros [] s2 Ha2 _. by apply flush_agree.
Qed.

(** The directory section that a dump starts with. *)
Definition start_section (p : Z) (w : W) : DirSection W :=
  mkDirSection 0 (mkMemoryArrayWriter (wrap 32 (Z.of_nat (size_with MDRawHeader)))
    (length (plan (StreamPlan := linux_plan)))) p w 0.

Lemma generate_dump_any c w :
  generate_dump fuel dumper (c, w, mkBuffer []) =
  match stream_position w with
  | (Ok p, w1) => with_dir (start_section p w1)
      (write_header (mkMemoryWriter (wrap 32 0) (size_with MDRawHeader));; write_streams fuel dumper)
      (c, w1, start_buffer (SP := linux_plan))
  | (Err e, w1) => (Err (WriterError_FileWriterError (FW_IOError e)), (c, w1, start_buffer (SP := linux_plan)))
  | (Panic, w1) => (Panic, (c, w1, start_buffer (SP := linux_plan)))
  end.
Proof.
  unfold generate_dump. erewrite st_bind_run; [|apply map_err_ok, on_buf_run, alloc_run]. cbn [set_buf].
  unfold DirSection_new. unfold mbind at 1, ST_bind at 1. unfold st_map_err at 1, st_zoom at 1. cbn [fst snd].
  erewrite st_bind_run; [|apply map_err_ok, on_buf_run, alloc_array_run]. cbn [set_buf].
  unfold start_section, start_buffer. rewrite replicate_add. unfold num_writers.
  unfold mbind at 1, ST_bind at 1. unfold st_map_err, st_zoom. cbn.
  destruct (stream_position w) as [[p|e|] w1]; cbn; [|reflexivity..].
  unfold position. cbn [inner]. rewrite length_replicate. reflexivity.
Qed.
End generate.

(** ** Properties *)


(** ** A disk that runs full *)

(** A file that cannot grow beyond a size; a write that does not fit is cut off. *)
Record Disk := mkDisk { disk_file : File; disk_size : nat }.

Definition disk_write (bs : list byte) (d : Disk) : res IoError unit * Disk :=
  let space := disk_size d - Z.to_nat (cursor (disk_file d)) in
  (if decide (length bs <= space) then Ok tt else Err (OsError 28),
   mkDisk (file_write (take space bs) (disk_file d)) (disk_size d)).

#[export] Instance disk_destination : Destination Disk := {|
  stream_position d := (Ok (cursor (disk_file d)), d);
  seek_start p d := (Ok p, mkDisk (file_seek p (disk_file d)) (disk_size d));
  dest_write_all := disk_write;
|}.

#[export] Instance disk_destination_ok : DestinationOk Disk.
Proof.
  refine {| view := disk_file |}.
  - by intros d p d' [= <- <-].
  - by intros p d q d' [= <- <-].
  - intros bs d d'. cbn. unfold disk_write. case_decide; [|done]. intros [= <-]. cbn.
    by rewrite take_ge.
Defined.

#[export] Instance disk_destination_fails : DestinationFails Disk.
Proof.
  split.
  - by intros d r d' [= <- <-].
  - intros p d r d' [= <- <-]. split_and!; [done..|]. by intros q [= <-].
  - intros bs d r d' [= <- <-]. split; [by case_decide|]. right. by eexists.
Qed.

(** The process of DumpContents.v dumped to a disk with the given size, and to a
    file. *)
Local Notation full_disk_run n :=
  (@generate_dump x64_release layout target_os target_procfs elf64 stacked_arch Disk disk_destination 400
    (stacked_dumper [7; 8]%Z) (stacked_config, mkDisk bare_file n, mkBuffer [])).
Local Notation file_run :=
  (@generate_dump x64_release layout target_os target_procfs elf64 stacked_arch File file_destination 400
    (stacked_dumper [7; 8]%Z) (stacked_config, view (mkDisk bare_file 300), mkBuffer [])).

Lemma full_disk_fails :
  full_disk_run 300 = (Err (WriterError_FileWriterError (FW_IOError (OsError 28))),
    ((full_disk_run 300).2.1.1, (full_disk_run 300).2.1.2, (full_disk_run 300).2.2)) /\
  file_run = (file_run.1, (file_run.2.1.1, file_run.2.1.2, file_run.2.2)).
Proof.
  split; [|by destruct file_run as [? [[? ?] ?]]].
  assert (Hr : (full_disk_run 300).1 = Err (WriterError_FileWriterError (FW_IOError (OsError 28))))
    by (vm_compute; reflexivity).
  rewrite <- Hr. by destruct (full_disk_run 300) as [? [[? ?] ?]].
Qed.


(** The disk is full just before the end of the dump: success is returned, and the
    last directory entry is on the disk, but not all of the stream it locates. *)
Example last_flush_error_dropped :
  let '(r, (_, w', b')) := full_disk_run (2 + length (inner (full_disk_run 100000).2.2)) in
  let last_entry := 32 + 16 * 12 in
  r = Ok tt /\ length (contents (disk_file w')) = 2 + length (inner b') /\
  bytes_at (3 + last_entry) 4 (contents (disk_file w')) = le_split 4 (HandleDataStream (@stream_types layout)) /\
  bytes_at (3 + last_entry) 12 (contents (disk_file w')) = bytes_at last_entry 12 (inner b').
Proof. vm_compute. split_and!; reflexivity. Qed.

