(* ===== verification/DumpTarget.v ===== *)
(** * From the process to the dump

    [MinidumpWriter::dump] (src/src/linux/minidump_writer.rs) from end to end:
    the process is stopped, described and let go. *)
From Stdlib Require Import ZArith Lia String.
From stdpp Require Import gmap.
From S2P Require Import Prelude Format Layout MemWriter DirSection Driver DumpPlan Slots Ensures.
From S2P Require Import RustStr Text Errors Os MemReader ModuleReader ElfLayout MapsReader MapsReaderSpec.
From S2P Require Import Auxv Arch PtraceDumper StackSpec SuspendSpec Config Streams ThreadListStream.
From S2P Require Import MappingsStream DsoDebug DsoSpec MinidumpWriter StreamSpec DumpSpec DumpLife.
From S2P Require Import ModuleListSpec StreamContents SectionSpec MemoryBlocks MemoryList ThreadListSpec.
From S2P Require Import DumpContents.

Local Open Scope Z_scope.
Local Notation length := List.length.
Local Notation File := DirSection.File.

Section target.
Context `{TG : Target} {F : Format} {FO : FormatOk F} {OS : Os} {PF : Procfs} {G : Goblin}.
Context {A : Arch} {AO : ArchOk A} {K : Type} `{KO : KernelOk K} {LI : LateInit} {LO : LateInitOk LI} (fuel : nat).

(** Letting the threads go succeeds when every detach does or finds the thread
    gone. *)
Lemma resume_complies d (k : K) : detach_complies (K := K) -> (resume_threads (d, k)).1 = Ok tt.
Proof.
  intros Hd. unfold resume_threads. destruct (threads_suspended d); [|done].
  destruct (resume_loop (threads d) (Ok tt) k) as [r k1] eqn:E.
  apply resume_loop_ok in E as (_ & _ & _ & _ & Hr); [|done]. by apply Hr.
Qed.

Lemma suspended_flag d k d' (k' : K) :
  suspend_threads fuel (d, k) = (Ok tt, (d', k')) -> threads_suspended d' = true.
Proof.
  unfold suspend_threads. destruct (retain_suspended fuel (threads d) k) as [[kept|e|] k1]; [|done..].
  destruct kept; [done|]. by intros [= <- _].
Qed.

(** What is known of the target when [dump] comes to describe it as [d]: it has
    been examined ([d0]), its threads have been stopped ([d1]), the late part of
    the initialisation is over, and the dump is not one to be refused. *)
Record ready (self : MinidumpWriter) (k : K) (d0 d1 d : PtraceDumper) (k1 k2 : K) : Prop := {
  ready_new : PtraceDumper_new fuel (process_id self) (stop_timeout self)
    (match direct_auxv_dump_info self with Some info => auxv_from info | None => default_auxv end) k
    = (Ok d0, k1);
  ready_suspended : suspend_threads fuel (d0, k1) = (Ok tt, (d1, k2));
  ready_late : late_process d1 = Ok d;
  ready_wanted : skip_stacks_if_mapping_unreferenced self = false;
}.

(** A run of [dump] around a run of [generate_dump] that returned. *)
Lemma dump_around self f k d0 d1 k1 d k2 self' f' b' :
  ready self k d0 d1 d k1 k2 -> detach_complies (K := K) ->
  generate_dump fuel d (self, f, mkBuffer []) = (Ok tt, (self', f', b')) ->
  exists d', resume_threads (d, k2) = (Ok tt, d') /\
    dump fuel (self, f, k) = (Ok (inner b'), (self', f', drop_dumper d'.1 d'.2)).
Proof.
  intros [Hnew Hsus Hlate Hskip] Hdet Hgen. pose proof (resume_complies d k2 Hdet) as Hres.
  destruct (resume_threads (d, k2)) as [r [d' k']] eqn:Hr. cbn in Hres. subst r.
  exists (d', k'). split; [done|].
  assert (Hcheck : check_principal_mapping fuel (self, f, (d, k2)) = (Ok tt, (self, f, (d, k2)))).
  { unfold check_principal_mapping, mbind, ST_bind, st_get. by rewrite Hskip. }
  assert (Hb : generate_on_new_buffer fuel (self, f, (d, k2)) = (Ok (inner b'), (self', f', (d, k2)))).
  { unfold generate_on_new_buffer, with_capacity. by rewrite Hgen. }
  unfold dump. rewrite Hnew. unfold dump_stopped.
  rewrite (st_bind_run _ _ _ tt (self, f, (d1, k2))).
  2: { unfold on_target, st_map_err, st_zoom. cbn [fst snd]. by rewrite Hsus. }
  rewrite (st_bind_run _ _ _ tt (self, f, (d, k2))).
  2: { unfold on_target, st_map_err, st_zoom, late_init. cbn [fst snd]. by rewrite Hlate. }
  rewrite (st_bind_run _ _ _ _ _ Hcheck), (st_bind_run _ _ _ _ _ Hb).
  rewrite (st_bind_run _ _ _ tt (self', f', (d', k'))); [done|].
  unfold on_target, st_map_err, st_zoom. cbn [fst snd]. by rewrite Hr.
Qed.

(** The threads that were stopped are let go. *)
Lemma released d0 d1 d k1 k2 d' :
  suspend_threads fuel (d0, k1) = (Ok tt, (d1, k2)) -> late_process d1 = Ok d ->
  detach_complies (K := K) -> resume_threads (d, k2) = (Ok tt, d') ->
  attached (drop_dumper d'.1 d'.2) ⊆ attached k2 ∖ tids (threads d1).
Proof.
  intros Hsus Hlate Hdet Hr. pose proof (suspended_flag _ _ _ _ Hsus) as Hts.
  apply late_keeps in Hlate as [ms ->]. unfold resume_threads in Hr.
  cbn [threads_suspended set_mappings threads] in Hr. rewrite Hts in Hr.
  destruct (resume_loop (threads d1) (Ok tt) k2) as [r k3] eqn:E. injection Hr as -> <-.
  apply resume_loop_ok in E as (_ & _ & _ & _ & Hrel); [|done]. rewrite <- (proj2 (Hrel Hdet)).
  cbn [fst snd]. unfold drop_dumper. set (d2 := set_threads_suspended _ _).
  destruct (resume_kills d2 k3) as (_ & _ & Hsub).
  destruct (resume_threads (d2, k3)) as [r1 [d3 k4]]. by rewrite continue_attached.
Qed.

(** The dump from end to end. *)
Lemma ready_dumped self f k d0 d1 d k1 k2 now :
  ready self k d0 d1 d k1 k2 -> detach_complies (K := K) ->
  0 <= cursor f <= Z.of_nat (length (contents f)) -> cursor f + 2 ^ 32 <= 2 ^ 64 ->
  unix_time = Some now -> tids_ok d self -> orderly fuel d self ->
  Z.of_nat (length (inner (generate_dump fuel d (self, f, mkBuffer [])).2.2)) < 2 ^ 32 ->
  exists bytes self' f' k' es, dump fuel (self, f, k) = (Ok bytes, (self', f', k')) /\
    take (length (before f) + length bytes) (contents f') = before f ++ bytes /\
    dump_on_disk (SP := linux_plan) (before f) (dump_header now) es (length bytes) (contents f')
      (mkBuffer bytes) /\
    dump_describes fuel d self self' es bytes /\
    attached k' ⊆ attached k2 ∖ tids (threads d1).
Proof.
  intros Hready Hdet Hcur Hend Hnow Hids Hor Hs.
  destruct (generate_dump fuel d (self, f, mkBuffer [])) as [r [[self' f'] b']] eqn:Hgen. cbn in Hs.
  pose proof (generate_dump_judged fuel d true self f r self' f' b' now Hcur Hend Hnow Hids
    (fun _ => Hor) Hgen Hs) as Hj.
  destruct r as [[]|e|]; [|done..]. destruct Hj as (es & _ & Hd & Hdd).
  destruct (dump_around self f k d0 d1 k1 d k2 self' f' b' Hready Hdet Hgen) as (d' & Hr & Hrun).
  exists (inner b'), self', f', (drop_dumper d'.1 d'.2), es. destruct b' as [bytes]. cbn [inner] in *.
  split_and!; [done|exact (dump_on_disk_prefix _ _ _ _ (mkBuffer bytes) Hd)|done|done|].
  by eapply (released d0 d1 d k1 k2 d'); [apply Hready|apply Hready|..].
Qed.
End target.


Lemma target_new :
  @PtraceDumper_new x64_release target_os target_procfs ToyKernel toy_kernel 400 7
    (stop_timeout stacked_config) default_auxv toy_start =
  (Ok (set_threads_suspended false (stacked_dumper [7; 8])), mkToy ∅ [(7, SIGSTOP, true)] 0).
Proof. vm_compute. reflexivity. Qed.

(** The kernel when both threads are stopped. *)
Definition stopped_kernel : ToyKernel := mkToy {[7; 8]} [(7, SIGSTOP, true)] 0.

Lemma target_ready : ready (LI := linux_late_init) (PF := target_procfs) (OS := target_os) (TG := x64_release)
  400 stacked_config toy_start (set_threads_suspended false (stacked_dumper [7; 8]))
  (stacked_dumper [7; 8]) (stacked_dumper [7; 8]) (mkToy ∅ [(7, SIGSTOP, true)] 0) stopped_kernel.
Proof. constructor; [exact target_new|vm_compute; reflexivity|reflexivity..]. Qed.

