(* ===== verification/AndroidDump.v ===== *)
(** * The dump of an Android process

    [MinidumpWriter::dump] in an Android build, where [late_init]
    (src/src/linux/android.rs) moves the start of the mappings of packed
    libraries between the stop of the process and the dump: the dump from end to
    end, and what the moved start means for the module list. *)
From Stdlib Require Import ZArith Lia String.
From stdpp Require Import gmap.
From S2P Require Import Prelude Format Layout MemWriter DirSection Driver DumpPlan Slots Ensures.
From S2P Require Import RustStr Text Errors Os MemReader ModuleReader ElfLayout MapsReader MapsReaderSpec.
From S2P Require Import Auxv Arch PtraceDumper Android StackSpec SuspendSpec Config Streams ThreadListStream.
From S2P Require Import MappingsStream DsoDebug DsoSpec MinidumpWriter StreamSpec DumpSpec DumpLife.
From S2P Require Import ModuleListSpec StreamContents SectionSpec MemoryBlocks MemoryList ThreadListSpec.
From S2P Require Import DumpContents DumpTarget.

Local Open Scope Z_scope.
Local Notation length := List.length.
Local Notation File := DirSection.File.

Section modules.
Context `{TG : Target} {OS : Os} {G : Goblin} {AE : AndroidElf}.

(** The late part of the initialisation, mapping by mapping. *)
Lemma late_process_each d d' :
  late_process (LateInit := build_late_init) d = Ok d' -> Forall2 same_mapping (mappings d) (mappings d').
Proof.
  unfold late_process, build_late_init. destruct target_android.
  - unfold android_late_init. destruct (late_process_mappings _ _) as [ms|e|] eqn:Hms; [|done..].
    intros [= <-]. by apply late_process_mappings_same in Hms.
  - intros [= <-]. apply Forall_Forall2_diag, Forall_true. intros m. apply same_mapping_refl.
Qed.

Lemma late_process_lookup pid ms : forall ms' i m m',
  late_process_mappings pid ms = Ok ms' -> ms !! i = Some m -> ms' !! i = Some m' ->
  process_mapping pid m = Ok m'.
Proof.
  induction ms as [|m0 ms IH]; intros ms' i m m'; cbn [late_process_mappings]; [done|].
  destruct (process_mapping pid m0) as [m1| |] eqn:Hm0; cbn [mbind res_bind]; [|done..].
  destruct (late_process_mappings pid ms) as [rest| |]; cbn [mbind res_bind]; [|done..].
  intros [= <-]. destruct i as [|i]; cbn; [congruence|]. by apply IH.
Qed.

(** A mapping that was moved has an ELF header where it began. *)
Lemma moved_header pid m m' :
  process_mapping pid m = Ok m' -> start_address m' <> start_address m ->
  exists header, copy_from_process pid (start_address m) SIZEOF_EHDR = Ok header.
Proof.
  unfold process_mapping. destruct (is_executable m && name_is_path m); [|by intros [= <-]].
  destruct (copy_from_process _ _ _) as [header|e|]; cbn [res_ok mbind res_bind]; [by eexists|..]; [|done].
  by intros [= <-].
Qed.

(** The modules that are picked come from the mappings of the dumper. *)
Lemma picked_mapping {E} d users ms i ps p :
  module_picks (E := E) d users i ms = Ok ps -> p ∈ ps -> p.1.1 ∈ ms.
Proof.
  intros Hps Hp. destruct (module_picks_spec d users ms i ps Hps) as (os & Hl & Hos & ->).
  apply list_elem_of_omap in Hp as (o & Ho & Hp). cbn in Hp. subst o.
  apply list_elem_of_lookup in Ho as [j Hj].
  destruct (lookup_lt_is_Some_2 ms j) as [m Hm]; [rewrite <- Hl; by eapply lookup_lt_Some|].
  destruct (Hos j m Hm) as (o & Ho & Hpick). rewrite Hj in Ho. injection Ho as <-.
  rewrite (module_pick_mapping _ _ _ _ _ Hpick). by eapply list_elem_of_lookup_2.
Qed.

(** A module whose first bytes cannot be read has neither build id nor name. *)
Lemma unread_module memory e :
  (pm_read 0 header_size_big memory).1 = Err e ->
  BuildId_read_from_module memory = Err e /\ SoName_read_from_module memory = Err e.
Proof.
  unfold BuildId_read_from_module, SoName_read_from_module, ModuleReader_new.
  destruct (pm_read 0 header_size_big memory) as [r memory']. cbn. by intros ->.
Qed.

Lemma unread_pick {E} d users i m e :
  mappings d !! i = Some m ->
  (pm_read 0 header_size_big (Process (ProcessReader_new (pid d) (start_address m)))).1 = Err e ->
  (forall path, name m = Some path -> fs_exists path = false) ->
  forall p, module_pick (E := E) d users i m <> Ok (Some p).
Proof.
  intros Hm Hread Hfile [[m0 id] soname] Hp. pose proof (module_pick_mapping _ _ _ _ _ Hp) as Hmm.
  cbn in Hmm. subst m0. apply module_pick_conditions in Hp as (_ & _ & Hid & Hne & _). revert Hid.
  unfold mapping_build_id, from_process_memory_for_index, from_process_memory_for_mapping.
  rewrite Hm, (proj1 (unread_module _ _ Hread)). cbn [map_err].
  destruct (name m) as [path|]; [rewrite (Hfile path eq_refl)|]; congruence.
Qed.
End modules.


(** A moved library that cannot be read.  When relocation moves the start of a
    library below the memory of the library, so that nothing can be read there,
    although its ELF header could be read where it was, the name of the library
    is lost, and without its file so is the library: it is not in the module
    list, whatever it contains. *)
Theorem moved_library_lost `{TG : Target} (OS : Os) (G : Goblin) (AE : AndroidElf) (d d' : PtraceDumper)
    (i : nat) (m m' : MappingInfo) (e : ModuleReaderError) (users : list MappingEntry) :
  late_process (LateInit := build_late_init) d = Ok d' ->
  mappings d !! i = Some m -> mappings d' !! i = Some m' -> start_address m' <> start_address m ->
  (pm_read 0 header_size_big (Process (ProcessReader_new (pid d) (start_address m')))).1 = Err e ->
  (exists header, copy_from_process (pid d) (start_address m) SIZEOF_EHDR = Ok header) /\
  from_process_memory_for_index SoName_read_from_module d' i = Err (DumperError_ModuleReaderError e) /\
  ((forall path, name m = Some path -> fs_exists path = false) ->
   forall p, module_pick (E := SectionMappingsError) d' users i m' <> Ok (Some p)).
Proof.
  intros Hlate Hm Hm' Hmoved Hread. pose proof (late_process_each _ _ Hlate) as Hsame.
  destruct (Forall2_lookup_l _ _ _ _ _ Hsame Hm) as (m1 & Hm1 & Hmm). rewrite Hm' in Hm1. injection Hm1 as <-.
  destruct (late_keeps _ _ Hlate) as [ms Hd]. assert (Hpid : pid d' = pid d) by by subst.
  rewrite <- Hpid in Hread. split; [|split].
  - revert Hlate. unfold late_process, build_late_init. destruct target_android; [|intros [= Heq]; congruence].
    unfold android_late_init. destruct (late_process_mappings _ _) as [ms'|?|] eqn:Hms; [|done..].
    intros [= <-]. eapply moved_header; [by eapply late_process_lookup|done].
  - unfold from_process_memory_for_index, from_process_memory_for_mapping.
    by rewrite Hm', (proj2 (unread_module _ _ Hread)).
  - intros Hfile. eapply unread_pick; [done..|]. destruct Hmm as (_ & _ & _ & _ & -> & _). exact Hfile.
Qed.

(** ** An Android process with a packed library *)

Definition android_release : Target :=
  {| pointer_width := W64; overflow_checks := false; target_android := true |}.

Definition libc_path : OsString := bytes_of "/system/lib64/libc.so".

(** The process of DumpContents.v with the library of Android.v at 0x20000; its
    file, if it is there, has a build id. *)
Definition android_os (file : bool) : Os := {|
  process_vm_readv := process_vm_readv (Os := toy_os (blocks_memory
    [(65536, replicate 128 Byte.x2a); (0x20000, library_bytes)]));
  open_mem _ := inl (OsError EACCES);
  read_exact_at _ _ _ := inl (OsError EACCES);
  ptrace_read _ _ := inl ESRCH;
  alloc_succeeds _ := true;
  fs_read _ := inr [Byte.x6e];
  fs_open _ := inl (OsError 2);
  fs_mmap _ _ := inr TINY_ELF;
  fs_exists path := file && bool_decide (path = libc_path);
  fs_is_dir _ := true;
  fs_read_dir _ := inr [Some [Byte.x37]; Some [Byte.x38]];
  fs_read_link _ := inl (OsError 2);
  fs_metadata_mode _ := inl (OsError 2);
  process_id_self := 1%Z;
  sysconf_page_size := inr (Some 4096%Z);
  unix_time := Some 1700000000%Z;
|}.

Definition android_maps : list MemoryMap :=
  [mkMemoryMap (65536, 65664) rwp 0 Anonymous;
   mkMemoryMap (0x20000, 0x22000) (mkPerms true false true false true) 0 (Path libc_path)].

Definition android_procfs : Procfs := {|
  memory_maps_from _ := inr (inr android_maps);
  memory_maps_from_file _ := inr android_maps;
|}.

Definition android_libc (start size : Z) : MappingInfo :=
  mkMapping start size (mkSystemMapping 0x20000 0x22000) 0 (mkPerms true false true false true)
    (Some libc_path).

Definition android_dumper (suspended : bool) (libc : MappingInfo) : PtraceDumper :=
  set_threads_suspended suspended (set_mappings [stack_mapping; libc] (stacked_dumper [7; 8])).

Definition found_libc : MappingInfo := android_libc 0x20000 0x2000.
Definition moved_libc : MappingInfo := android_libc 0x1f000 0x3000.

Local Notation android_ready := (@ready android_release (android_os true) android_procfs stacked_arch ToyKernel toy_kernel
  (@build_late_init android_release (android_os true) elf64 android64)).

Lemma android_is_ready : android_ready 400 stacked_config toy_start (android_dumper false found_libc)
  (android_dumper true found_libc) (android_dumper true moved_libc) (mkToy ∅ [(7, SIGSTOP, true)] 0) stopped_kernel.
Proof. constructor; vm_compute; reflexivity. Qed.

Lemma android_tids_ok : tids_ok (android_dumper true moved_libc) stacked_config.
Proof. exact stacked_tids_ok. Qed.

Lemma android_orderly :
  @orderly android_release layout (android_os true) android_procfs elf64 stacked_arch 400
    (android_dumper true moved_libc) stacked_config.
Proof.
  constructor.
  - exists NoMax. split; [vm_compute; reflexivity|]. apply stacked_fit;
      [done|intros k [-> | ->]; vm_compute; reflexivity|intros p; vm_compute; reflexivity].
  - eexists. split; [vm_compute; reflexivity|]. repeat constructor. do 3 eexists.
    split; [vm_compute; reflexivity|]. vm_compute. reflexivity.
  - constructor.
  - split; [vm_compute; reflexivity|]. intros r. eexists. reflexivity.
  - eexists _, _. split; [reflexivity|]. vm_compute. reflexivity.
  - left. eexists. reflexivity.
  - assert (Hn : forall k, 0 <= k -> 0 <= tid (mkTask k (Some [110])) /\
      exists name, thread_name (mkTask k (Some [110])) = Some name /\ short_text name).
    { intros k Hk. split; [exact Hk|]. exists [110]. split; [reflexivity|vm_compute; reflexivity]. }
    apply Forall_cons. split; [apply Hn; lia|]. apply Forall_cons. split; [apply Hn; lia|constructor].
  - intros entries _. apply Forall_forall. intros name _ p Hp. discriminate Hp.
Qed.


(** Without its file the library is not listed. *)
Lemma moved_library_lost_witness :
  (exists e, from_process_memory_for_index (@SoName_read_from_module android_release (android_os false) elf64)
    (android_dumper true moved_libc) 1 = Err (DumperError_ModuleReaderError e)) /\
  forall p, @module_pick android_release (android_os false) elf64 SectionMappingsError
    (android_dumper true moved_libc) [] 1 moved_libc <> Ok (Some p).
Proof.
  destruct (@moved_library_lost android_release (android_os false) elf64 android64
    (android_dumper true found_libc) (android_dumper true moved_libc) 1 found_libc moved_libc
    (ModuleReaderError_ReadModuleMemory 0 64 (Some 0x1f000) ESRCH) []
    ltac:(vm_compute; reflexivity) eq_refl eq_refl ltac:(vm_compute; discriminate)
    ltac:(vm_compute; reflexivity)) as (_ & Hname & Hlost).
  split; [eexists; exact Hname|]. apply Hlost. intros path _. reflexivity.
Defined.
