(* ===== verification/Mach.v ===== *)
(** * Mach structures and system queries (src/src/mac/mach.rs)

    The kernel errors, the Mach-O structures the writer reads out of the memory
    of a task, the iterator over the load commands of an image and the [sysctl]
    helpers.  The kernel and the C library are the class [Mach].

    The sources view raw bytes as C structures without a length check of their
    own.  A view that reaches past the bytes there are is an out-of-bounds read;
    the model gives such a run the outcome [Panic], like every run that does not
    return a value, so a theorem that excludes [Panic] excludes it as well. *)
From Stdlib Require Import ZArith Lia String.
From S2P Require Import Prelude RustStr Os.

Local Open Scope Z_scope.

(** ** Kernel errors *)

Inductive KernelError :=
  | InvalidAddress | ProtectionFailure | NoSpace | InvalidArgument | Failure | ResourceShortage
  | NotReceiver | NoAccess | MemoryFailure | MemoryError | AlreadyInSet | NotInSet | NameExists
  | Aborted | InvalidName | InvalidTask | InvalidRight | InvalidValue | UserRefsOverflow
  | InvalidCapability | RightExists | InvalidHost | MemoryPresent | InvalidProcessorSet
  | PolicyLimit | InvalidPolicy | InvalidObject | AlreadyWaiting | DefaultSet
  | ExceptionProtected | InvalidLedger | InvalidMemoryControl | InvalidSecurity | NotDepressed
  | Terminated | LockSetDestroyed | LockUnstable | LockOwned | LockOwnedSelf
  | SemaphoreDestroyed | RpcServerTerminated | RpcTerminateOrphan | RpcContinueOrphan
  | NotSupported | NodeDown | NotWaiting | OperationTimedOut | CodesignError | PoicyStatic
  | InsufficientBufferSize | Denied | MissingKC | InvalidKC | NotFound.

#[export] Instance KernelError_eq_dec : EqDecision KernelError.
Proof. solve_decision. Defined.

(** [e as i32], the value of kern_return.h; the constants [KERN_*] have the
    same values. *)
Definition kern_code (e : KernelError) : Z :=
  match e with
  | InvalidAddress => 1 | ProtectionFailure => 2 | NoSpace => 3 | InvalidArgument => 4
  | Failure => 5 | ResourceShortage => 6 | NotReceiver => 7 | NoAccess => 8
  | MemoryFailure => 9 | MemoryError => 10 | AlreadyInSet => 11 | NotInSet => 12
  | NameExists => 13 | Aborted => 14 | InvalidName => 15 | InvalidTask => 16
  | InvalidRight => 17 | InvalidValue => 18 | UserRefsOverflow => 19 | InvalidCapability => 20
  | RightExists => 21 | InvalidHost => 22 | MemoryPresent => 23 | InvalidProcessorSet => 26
  | PolicyLimit => 27 | InvalidPolicy => 28 | InvalidObject => 29 | AlreadyWaiting => 30
  | DefaultSet => 31 | ExceptionProtected => 32 | InvalidLedger => 33
  | InvalidMemoryControl => 34 | InvalidSecurity => 35 | NotDepressed => 36 | Terminated => 37
  | LockSetDestroyed => 38 | LockUnstable => 39 | LockOwned => 40 | LockOwnedSelf => 41
  | SemaphoreDestroyed => 42 | RpcServerTerminated => 43 | RpcTerminateOrphan => 44
  | RpcContinueOrphan => 45 | NotSupported => 46 | NodeDown => 47 | NotWaiting => 48
  | OperationTimedOut => 49 | CodesignError => 50 | PoicyStatic => 51
  | InsufficientBufferSize => 52 | Denied => 53 | MissingKC => 54 | InvalidKC => 55
  | NotFound => 56
  end.

(** The arms of the conversion, in order. *)
Definition kern_arms : list KernelError :=
  [InvalidAddress; ProtectionFailure; NoSpace; InvalidArgument; Failure; ResourceShortage;
   NotReceiver; NoAccess; MemoryFailure; MemoryError; AlreadyInSet; NameExists; InvalidName;
   InvalidTask; InvalidRight; InvalidValue; UserRefsOverflow; InvalidCapability; RightExists;
   InvalidHost; MemoryPresent; InvalidProcessorSet; PolicyLimit; InvalidPolicy; InvalidObject;
   AlreadyWaiting; DefaultSet; ExceptionProtected; InvalidLedger; InvalidMemoryControl;
   InvalidSecurity; NotDepressed; Terminated; LockSetDestroyed; LockUnstable; LockOwned;
   LockOwnedSelf; SemaphoreDestroyed; RpcServerTerminated; RpcTerminateOrphan;
   RpcContinueOrphan; NotSupported; NodeDown; NotWaiting; OperationTimedOut; CodesignError;
   PoicyStatic; InsufficientBufferSize; Denied; MissingKC; InvalidKC; NotFound].

(** [impl From<kern_return_t> for KernelError] *)
Definition kernel_error_from (kr : Z) : KernelError :=
  default Failure (List.find (fun e => kern_code e =? kr) kern_arms).

(** ** Load commands *)

Definition MH_EXECUTE : Z := 0x2.
Definition MH_DYLINKER : Z := 0x7.
Definition MH_MAGIC_64 : Z := 0xfeedfacf.

Inductive LoadCommandKind := Segment | IdDylib | Uuid | LoadDylinker | IdDylinker.

Definition kind_code (k : LoadCommandKind) : Z :=
  match k with
  | Segment => 0x19 | IdDylib => 0xd | Uuid => 0x1b | LoadDylinker => 0xe | IdDylinker => 0xf
  end.

Definition kind_from_u32 (kind : Z) : option LoadCommandKind :=
  if kind =? kind_code Segment then Some Segment
  else if kind =? kind_code IdDylib then Some IdDylib
  else if kind =? kind_code Uuid then Some Uuid
  else if kind =? kind_code LoadDylinker then Some LoadDylinker
  else if kind =? kind_code IdDylinker then Some IdDylinker
  else None.

(** Fields of C structures at an offset. *)
Definition u32_at (i : nat) (l : list byte) : Z := le_combine (bytes_at i 4 l).
Definition u64_at (i : nat) (l : list byte) : Z := le_combine (bytes_at i 8 l).
Definition i32_at (i : nat) (l : list byte) : Z := swrap 32 (u32_at i l).

(** [&*ptr.cast::<T>()] for a structure of [n] bytes. *)
Definition cast {E T} (n : nat) (decode : list byte -> T) (l : list byte) : res E T :=
  if decide (n <= length l)%nat then Ok (decode (take n l)) else Panic.

Record MachHeader := mkMachHeader {
  magic : Z; cpu_type : Z; cpu_sub_type : Z; file_type : Z;
  num_commands : Z; size_commands : Z; mh_flags : Z;
}.
Definition size_of_MachHeader : nat := 32.
Definition MachHeader_of (l : list byte) : MachHeader :=
  mkMachHeader (u32_at 0 l) (i32_at 4 l) (i32_at 8 l) (u32_at 12 l) (u32_at 16 l) (u32_at 20 l)
    (u32_at 24 l).

Record LoadCommandBase := mkLoadCommandBase { cmd : Z; cmd_size : Z }.
Definition size_of_LoadCommandBase : nat := 8.
Definition LoadCommandBase_of (l : list byte) : LoadCommandBase :=
  mkLoadCommandBase (u32_at 0 l) (u32_at 4 l).

Record SegmentCommand64 := mkSegment {
  seg_cmd_size : Z; segment_name : list byte; vm_addr : Z; vm_size : Z; file_off : Z;
  file_size : Z; max_prot : Z; init_prot : Z; num_sections : Z; seg_flags : Z;
}.
Definition size_of_SegmentCommand64 : nat := 72.
Definition SegmentCommand64_of (l : list byte) : SegmentCommand64 :=
  mkSegment (u32_at 4 l) (bytes_at 8 16 l) (u64_at 24 l) (u64_at 32 l) (u64_at 40 l)
    (u64_at 48 l) (i32_at 56 l) (i32_at 60 l) (u32_at 64 l) (u32_at 68 l).

Record Dylib := mkDylib {
  dylib_name : Z; timestamp : Z; current_version : Z; compatibility_version : Z;
}.
Record DylibCommand := mkDylibCommand { dylib_cmd_size : Z; dylib : Dylib }.
Definition size_of_DylibCommand : nat := 24.
Definition DylibCommand_of (l : list byte) : DylibCommand :=
  mkDylibCommand (u32_at 4 l) (mkDylib (u32_at 8 l) (u32_at 12 l) (u32_at 16 l) (u32_at 20 l)).

Record UuidCommand := mkUuidCommand { uuid_cmd_size : Z; cmd_uuid : list byte }.
Definition size_of_UuidCommand : nat := 24.
Definition UuidCommand_of (l : list byte) : UuidCommand :=
  mkUuidCommand (u32_at 4 l) (bytes_at 8 16 l).

Record DylinkerCommandRepr := mkDylinkerRepr { dcr_cmd : Z; dcr_cmd_size : Z; dcr_name : Z }.
Definition size_of_DylinkerCommandRepr : nat := 12.
Definition DylinkerCommandRepr_of (l : list byte) : DylinkerCommandRepr :=
  mkDylinkerRepr (u32_at 0 l) (u32_at 4 l) (u32_at 8 l).

Record DylinkerCommand := mkDylinker {
  dl_cmd : Z; dl_cmd_size : Z; dl_name_offset : Z; dl_name : list Z;
}.

Inductive LoadCommand :=
  | LC_Segment (seg : SegmentCommand64)
  | LC_Dylib (d : DylibCommand)
  | LC_Uuid (u : UuidCommand)
  | LC_Dylinker (d : DylinkerCommand).

Record LoadCommands := mkLoadCommands { lc_buffer : list byte; lc_count : Z }.

(** [LoadCommandsIter] *)
Record LoadCommandsIter := mkIter { it_buffer : list byte; it_count : nat }.

Definition lc_iter (c : LoadCommands) : LoadCommandsIter :=
  mkIter (lc_buffer c) (Z.to_nat (lc_count c)).

Definition is_nul (b : byte) : bool := bool_decide (b = Byte.x00).

(** The command at the start of [buffer], of a known kind; [None] when its
    string does not end or is not UTF-8. *)
Definition load_command {E} (buffer : list byte) (header : LoadCommandBase)
    (kind : LoadCommandKind) : res E (option LoadCommand) :=
  match kind with
  | Segment => seg ← cast size_of_SegmentCommand64 SegmentCommand64_of buffer;
               Ok (Some (LC_Segment seg))
  | IdDylib => d ← cast size_of_DylibCommand DylibCommand_of buffer;
               Ok (Some (LC_Dylib d))
  | Uuid => u ← cast size_of_UuidCommand UuidCommand_of buffer;
            Ok (Some (LC_Uuid u))
  | LoadDylinker | IdDylinker =>
      dcr ← cast size_of_DylinkerCommandRepr DylinkerCommandRepr_of buffer;
      let name := Z.to_nat (dcr_name dcr) in
      tail ← or_panic (slice name (Z.to_nat (cmd_size header)) buffer);
      match find_idx is_nul tail with
      | None => Ok None
      | Some nul =>
          text ← or_panic (slice name (name + nul) buffer);
          match from_utf8 text with
          | None => Ok None
          | Some s => Ok (Some (LC_Dylinker
              (mkDylinker (dcr_cmd dcr) (dcr_cmd_size dcr) (dcr_name dcr) s)))
          end
      end
  end.

(** [Iterator::next]; every turn of the loop takes one from the count. *)
Fixpoint lc_next_from {E} (count : nat) (buffer : list byte)
    : res E (option LoadCommand * LoadCommandsIter) :=
  match count with
  | O => Ok (None, mkIter buffer 0)
  | S count' =>
      if decide (length buffer < size_of_LoadCommandBase)%nat
      then Ok (None, mkIter buffer count)
      else
        let header := LoadCommandBase_of (take size_of_LoadCommandBase buffer) in
        if (Z.of_nat (length buffer) <? cmd_size header) then Ok (None, mkIter buffer count)
        else
          cmd ← match kind_from_u32 (cmd header) with
                | None => Ok None
                | Some kind => load_command buffer header kind
                end;
          let rest := drop (Z.to_nat (cmd_size header)) buffer in
          match cmd with
          | Some c => Ok (Some c, mkIter rest count')
          | None => lc_next_from count' rest
          end
  end.

Definition lc_next {E} (it : LoadCommandsIter) : res E (option LoadCommand * LoadCommandsIter) :=
  lc_next_from (it_count it) (it_buffer it).

(** [size_hint] *)
Definition lc_size_hint (it : LoadCommandsIter) : nat * option nat :=
  (it_count it, Some (it_count it)).

(** ** The kernel and the C library (interface)

    The calls the writer makes, as functions: while a task is dumped its threads
    are suspended and the answers do not change.  A [kern_return_t] other than
    success is on the left.  Structures the kernel fills are their bytes. *)
Record vm_region_submap_info_64 := mkRegionInfo { user_tag : Z; vm_protection : Z }.

Class Mach := {
  sysconf_pagesize : Z;
  mach_task_self : Z;
  mach_thread_self : Z;
  (** task, address, size: the bytes copied *)
  mach_vm_read : Z -> Z -> Z -> Z + list byte;
  (** task, address: base, size and description of the region found there or
      above *)
  mach_vm_region_recurse : Z -> Z -> Z + (Z * Z * vm_region_submap_info_64);
  (** thread, flavor, capacity *)
  thread_get_state : Z -> Z -> Z -> Z + list byte;
  (** task or thread, flavor, number of words asked for *)
  task_info_call : Z -> Z -> nat -> Z + list byte;
  thread_info_call : Z -> Z -> nat -> Z + list byte;
  task_threads : Z -> Z + list Z;
  pid_for_task_call : Z -> Z + Z;
  (** [pbi_start_tvsec] when [proc_pidinfo] filled the whole structure *)
  proc_pidinfo_start : Z -> option Z;
  (** [sysctlbyname] with a buffer of that many bytes, and without one; [None]
      is a failure *)
  sysctl_read : list byte -> nat -> option (list byte);
  sysctl_size : list byte -> option nat;
  (** seconds since the epoch; [None]: the clock is before it *)
  system_time : option Z;
}.

(** ** Thread states *)

Definition THREAD_STATE_MAX : nat := 1296.

(** The words as the bytes they are. *)
Record ThreadState := mkThreadState { ts_state : list byte; state_size : Z }.

Definition default_thread_state : ThreadState :=
  mkThreadState (replicate (THREAD_STATE_MAX * 4) Byte.x00) (Z.of_nat (THREAD_STATE_MAX * 4)).

(** [x86_thread_state64_t] *)
Record x86_thread_state64 := mkX86State {
  s_rax : Z; s_rbx : Z; s_rcx : Z; s_rdx : Z; s_rdi : Z; s_rsi : Z; s_rbp : Z; s_rsp : Z;
  s_r8 : Z; s_r9 : Z; s_r10 : Z; s_r11 : Z; s_r12 : Z; s_r13 : Z; s_r14 : Z; s_r15 : Z;
  s_rip : Z; s_rflags : Z; s_cs : Z; s_fs : Z; s_gs : Z;
}.

Definition x86_arch_state (ts : ThreadState) : x86_thread_state64 :=
  let r i := u64_at (8 * i) (ts_state ts) in
  mkX86State (r 0%nat) (r 1%nat) (r 2%nat) (r 3%nat) (r 4%nat) (r 5%nat) (r 6%nat) (r 7%nat)
    (r 8%nat) (r 9%nat) (r 10%nat) (r 11%nat) (r 12%nat) (r 13%nat) (r 14%nat) (r 15%nat)
    (r 16%nat) (r 17%nat) (r 18%nat) (r 19%nat) (r 20%nat).

(** [Arm64ThreadState] *)
Record Arm64ThreadState := mkArm64State {
  a_x : list Z; a_fp : Z; a_lr : Z; a_sp : Z; a_pc : Z; a_cpsr : Z;
}.

Definition arm64_arch_state (ts : ThreadState) : Arm64ThreadState :=
  let r i := u64_at (8 * i) (ts_state ts) in
  mkArm64State (r <$> seq 0 29) (r 29%nat) (r 30%nat) (r 31%nat) (r 32%nat)
    (u32_at 264 (ts_state ts)).

Definition x86_pc (ts : ThreadState) : Z := s_rip (x86_arch_state ts).
Definition x86_sp (ts : ThreadState) : Z := s_rsp (x86_arch_state ts).
Definition arm64_pc (ts : ThreadState) : Z := a_pc (arm64_arch_state ts).
Definition arm64_sp (ts : ThreadState) : Z := a_sp (arm64_arch_state ts).

(** ** sysctl *)

Section sysctl.
Context {M : Mach}.

(** A value of [n] bytes, zero before the call. *)
Definition sysctl_by_name (n : nat) (name : string) : Z :=
  match sysctl_read (bytes_of name) n with
  | None => 0
  | Some out => le_combine (take n (splice 0 out (replicate n Byte.x00)))
  end.

(** [T::try_from(val).unwrap_or_default()] for an unsigned [T] of [bits] bits. *)
Definition int_sysctl_by_name (bits : Z) (name : string) : Z :=
  let val := swrap 32 (sysctl_by_name 4 name) in
  if decide (in_bits bits val) then val else 0.

Definition sysctl_string (name : string) : list Z :=
  match sysctl_size (bytes_of name) with
  | None => []
  | Some buf_len =>
      if (buf_len <=? 1)%nat then []
      else match sysctl_read (bytes_of name) buf_len with
           | None => []
           | Some out =>
               let buff := take buf_len (splice 0 out (replicate buf_len Byte.x00)) in
               default [] (from_utf8 (take (buf_len - 1) buff))
           end
  end.
End sysctl.

(** ** Theory of the iterator *)

(** A [for] loop over the commands that runs to the end. *)
Fixpoint lc_collect {E} (fuel : nat) (it : LoadCommandsIter) : res E (list LoadCommand) :=
  match fuel with
  | O => Panic
  | S fuel' =>
      '(o, it') ← lc_next it;
      match o with
      | None => Ok []
      | Some c => cs ← lc_collect fuel' it'; Ok (c :: cs)
      end
  end.

(** A load command as a linker lays it out. *)
Record RawCommand := mkRawCommand { raw_cmd : Z; raw_body : list byte }.

Definition raw_size (c : RawCommand) : nat := 8 + length (raw_body c).

Definition encode_command (c : RawCommand) : list byte :=
  le_split 4 (raw_cmd c) ++ le_split 4 (Z.of_nat (raw_size c)) ++ raw_body c.

Definition encode_commands (cs : list RawCommand) : list byte := concat (encode_command <$> cs).

(** The string at [name] up to its NUL. *)
Definition dylinker_text (c : RawCommand) : option (list byte) :=
  let tail := drop (Z.to_nat (u32_at 8 (encode_command c))) (encode_command c) in
  nul ← find_idx is_nul tail; Some (take nul tail).

(** What a command says, read from its own bytes only. *)
Definition command_value (c : RawCommand) : option LoadCommand :=
  let bytes := encode_command c in
  k ← kind_from_u32 (raw_cmd c);
  match k with
  | Segment => Some (LC_Segment (SegmentCommand64_of (take size_of_SegmentCommand64 bytes)))
  | IdDylib => Some (LC_Dylib (DylibCommand_of (take size_of_DylibCommand bytes)))
  | Uuid => Some (LC_Uuid (UuidCommand_of (take size_of_UuidCommand bytes)))
  | LoadDylinker | IdDylinker =>
      s ← dylinker_text c ≫= from_utf8;
      Some (LC_Dylinker (mkDylinker (raw_cmd c) (Z.of_nat (raw_size c)) (u32_at 8 bytes) s))
  end.

(** The sizes a linker guarantees. *)
Definition command_fits (c : RawCommand) : bool :=
  match kind_from_u32 (raw_cmd c) with
  | None => true
  | Some Segment => (size_of_SegmentCommand64 <=? raw_size c)%nat
  | Some IdDylib => (size_of_DylibCommand <=? raw_size c)%nat
  | Some Uuid => (size_of_UuidCommand <=? raw_size c)%nat
  | Some LoadDylinker | Some IdDylinker =>
      (size_of_DylinkerCommandRepr <=? raw_size c)%nat &&
      (Z.to_nat (u32_at 8 (encode_command c)) <=? raw_size c)%nat
  end.

Record command_ok (c : RawCommand) : Prop := {
  ok_cmd : in_bits 32 (raw_cmd c);
  ok_size : Z.of_nat (raw_size c) < 2 ^ 32;
  ok_fits : command_fits c = true;
}.

Lemma u32_at_app i l l' : (i + 4 <= length l)%nat -> u32_at i (l ++ l') = u32_at i l.
Proof. intros. unfold u32_at. by rewrite bytes_at_app_l. Qed.

Lemma u32_at_take i n l : (i + 4 <= n)%nat -> u32_at i (take n l) = u32_at i l.
Proof.
  intros. unfold u32_at, bytes_at. rewrite skipn_firstn_comm, take_take. do 2 f_equal. lia.
Qed.

Lemma u32_at_split z l : in_bits 32 z -> u32_at 0 (le_split 4 z ++ l) = z.
Proof.
  intros Hz. unfold u32_at. rewrite bytes_at_app_l by (rewrite length_le_split; lia).
  rewrite bytes_at_all by apply length_le_split. rewrite le_combine_split.
  by apply Z.mod_small.
Qed.

Section encoded.
Context (c : RawCommand) (Hc : command_ok c).

Lemma length_encode_command : length (encode_command c) = raw_size c.
Proof. unfold encode_command, raw_size. rewrite !length_app, !length_le_split. lia. Qed.

Lemma encoded_cmd : u32_at 0 (encode_command c) = raw_cmd c.
Proof. apply u32_at_split, Hc. Qed.

Lemma encoded_size : u32_at 4 (encode_command c) = Z.of_nat (raw_size c).
Proof.
  unfold encode_command, u32_at. rewrite bytes_at_app_r by (rewrite length_le_split; lia).
  rewrite length_le_split. apply u32_at_split. split; [lia|apply Hc].
Qed.

(** The header of the command at the start of a buffer. *)
Lemma encoded_header tl :
  LoadCommandBase_of (take size_of_LoadCommandBase (encode_command c ++ tl)) =
    mkLoadCommandBase (raw_cmd c) (Z.of_nat (raw_size c)).
Proof.
  pose proof length_encode_command as Hl. unfold raw_size in Hl.
  unfold LoadCommandBase_of, size_of_LoadCommandBase. rewrite !u32_at_take by lia.
  by rewrite !u32_at_app, encoded_cmd, encoded_size by lia.
Qed.

Lemma cast_app {E T} n (d : list byte -> T) l tl :
  (n <= length l)%nat -> cast (E := E) n d (l ++ tl) = Ok (d (take n l)).
Proof.
  intros Hn. unfold cast. rewrite decide_True by (rewrite length_app; lia).
  by rewrite take_app_le.
Qed.

Lemma load_command_encoded {E} k tl :
  kind_from_u32 (raw_cmd c) = Some k ->
  load_command (E := E) (encode_command c ++ tl)
    (mkLoadCommandBase (raw_cmd c) (Z.of_nat (raw_size c))) k = Ok (command_value c).
Proof.
  intros Hk. pose proof (ok_fits _ Hc) as Hf. unfold command_fits in Hf.
  pose proof length_encode_command as Hl. unfold command_value. rewrite Hk in Hf |- *. cbn [mbind option_bind].
  destruct k; cbn [load_command cmd_size]; try apply Nat.leb_le in Hf;
    try (rewrite cast_app by lia; reflexivity).
  all: apply andb_prop in Hf as [H12 Hn]; apply Nat.leb_le in H12, Hn.
  all: rewrite cast_app by lia; cbn [mbind res_bind DylinkerCommandRepr_of dcr_name dcr_cmd dcr_cmd_size].
  all: unfold size_of_DylinkerCommandRepr in *; rewrite !u32_at_take by lia.
  all: rewrite encoded_cmd, encoded_size, Nat2Z.id.
  all: set (nm := Z.to_nat (u32_at 8 (encode_command c))) in *.
  all: rewrite slice_ok by (rewrite ?length_app; lia).
  all: rewrite bytes_at_app_l by lia; cbn [or_panic mbind res_bind].
  all: assert (Ht : bytes_at nm (raw_size c - nm) (encode_command c) = drop nm (encode_command c))
    by (unfold bytes_at; apply take_ge; rewrite length_drop; lia).
  all: rewrite Ht; unfold dylinker_text; fold nm.
  all: destruct (find_idx is_nul (drop nm (encode_command c))) as [nul|] eqn:En; [|done].
  all: pose proof (find_idx_spec _ _ _ En) as (x & Hx & _).
  all: apply lookup_lt_Some in Hx; rewrite length_drop in Hx.
  all: rewrite slice_ok by (rewrite ?length_app; lia); rewrite bytes_at_app_l by lia.
  all: replace (nm + nul - nm)%nat with nul by lia.
  all: cbn [or_panic mbind res_bind option_bind].
  all: unfold bytes_at; by destruct (from_utf8 _).
Qed.

(** One turn of the loop consumes exactly one command. *)
Lemma lc_next_encoded {E} n tl :
  lc_next_from (E := E) (S n) (encode_command c ++ tl) =
  match command_value c with
  | Some v => Ok (Some v, mkIter tl n)
  | None => lc_next_from n tl
  end.
Proof.
  pose proof length_encode_command as Hl. cbn [lc_next_from].
  rewrite decide_False by (unfold size_of_LoadCommandBase; rewrite length_app; unfold raw_size in *; lia).
  rewrite encoded_header. cbn [cmd_size cmd].
  rewrite (proj2 (Z.ltb_ge _ _)) by (rewrite length_app; lia).
  rewrite Nat2Z.id, drop_app_length' by done.
  destruct (kind_from_u32 (raw_cmd c)) as [k|] eqn:Hk.
  - rewrite (load_command_encoded k tl Hk). by destruct (command_value c).
  - unfold command_value. by rewrite Hk.
Qed.
End encoded.

Lemma lc_next_from_collect {E} fuel n m buf buf' :
  lc_next_from (E := E) n buf = lc_next_from m buf' ->
  lc_collect (E := E) fuel (mkIter buf n) = lc_collect fuel (mkIter buf' m).
Proof. destruct fuel; [done|]. cbn. unfold lc_next. cbn. by intros ->. Qed.

Lemma lc_collect_encoded {E} cs tl fuel :
  Forall command_ok cs -> (length cs < fuel)%nat ->
  lc_collect (E := E) fuel (mkIter (encode_commands cs ++ tl) (length cs)) =
    Ok (omap command_value cs).
Proof.
  intros Hcs. revert fuel. induction Hcs as [|c cs Hc _ IH]; intros fuel Hf.
  - destruct fuel; [lia|]. done.
  - destruct fuel as [|fuel]; [lia|]. cbn [length] in *.
    unfold encode_commands. cbn [fmap list_fmap concat]. rewrite <- app_assoc.
    change (concat (encode_command <$> cs)) with (encode_commands cs).
    pose proof (lc_next_encoded (E := E) c Hc (length cs) (encode_commands cs ++ tl)) as Hn.
    cbn [omap list_omap]. destruct (command_value c) as [v|] eqn:Hv.
    + cbn [lc_collect]. unfold lc_next. cbn [it_count it_buffer]. rewrite Hn.
      cbn [mbind res_bind]. rewrite IH by lia. done.
    + rewrite (lc_next_from_collect (S fuel) _ _ _ _ Hn). apply IH. lia.
Qed.

(** Whatever the bytes, an item costs at least one of the count. *)
Lemma lc_next_progress {E} n buf c it :
  lc_next_from (E := E) n buf = Ok (Some c, it) -> (it_count it < n)%nat.
Proof.
  revert buf. induction n as [|n IH]; intros buf; cbn [lc_next_from]; [done|].
  case_decide; [done|]. cbv zeta. case_match; [done|].
  match goal with |- context [mbind _ ?m] => destruct m as [[c'|]|e|] end;
    cbn [mbind res_bind]; [| |done|done].
  - intros [= -> <-]. cbn. lia.
  - intros Hr. apply IH in Hr. lia.
Qed.

Lemma cast_no_err {E T} n (d : list byte -> T) l (e : E) : cast n d l <> Err e.
Proof. unfold cast. by case_decide. Qed.

Lemma lc_next_no_err {E} n buf (e : E) : lc_next_from n buf <> Err e.
Proof.
  revert buf. induction n as [|n IH]; intros buf; cbn [lc_next_from]; [done|].
  case_decide; [done|]. cbv zeta. case_match; [done|].
  assert (Hl : forall h k, load_command (E := E) buf h k <> Err e).
  { intros h k. destruct k; cbn [load_command]; unfold cast; case_decide; cbn [mbind res_bind];
      try done; destruct (slice _ _ _); cbn [or_panic mbind res_bind]; try done;
      destruct (find_idx _ _); try done; destruct (slice _ _ _); cbn [or_panic mbind res_bind]; try done;
      by destruct (from_utf8 _). }
  destruct (kind_from_u32 _) as [k|]; [|apply IH].
  specialize (Hl (LoadCommandBase_of (take size_of_LoadCommandBase buf)) k).
  destruct (load_command _ _ _) as [[]|e'|]; cbn [mbind res_bind]; try done. by intros [= ->].
Qed.

(** ** Properties *)

(** the conversion of kernel results gives every error back from its own
    code, with two exceptions: the codes of [NotInSet] and [Aborted] have no arm
    and become [Failure], as does every number that is no code at all. *)
Theorem kernel_error_codes (kr : Z) :
  match List.find (fun e => kern_code e =? kr) ([NotInSet; Aborted] ++ kern_arms) with
  | Some NotInSet | Some Aborted | None => kernel_error_from kr = Failure
  | Some e => kern_code e = kr /\ kernel_error_from kr = e
  end.
Proof.
  destruct (List.find _ ([NotInSet; Aborted] ++ _)) as [e|] eqn:F.
  - apply List.find_some in F as [_ F%Z.eqb_eq]. subst kr. by destruct e.
  - unfold kernel_error_from. destruct (List.find _ kern_arms) as [e|] eqn:G; [|done].
    apply List.find_some in G as [Hin G].
    pose proof (List.find_none _ _ F e (List.in_or_app _ _ _ (or_intror Hin))). congruence.
Qed.

(** C25: iterating over the load commands of an image.  On the bytes a linker
    lays out, any commands one after the other and anything behind them, the
    iterator neither fails nor reads out of bounds and yields exactly the
    commands the writer knows, in order, each decoded from its own bytes;
    unknown commands and linker names that are not UTF-8 are skipped. *)
Theorem load_commands_roundtrip (E : Type) (cs : list RawCommand) (tl : list byte) :
  Forall command_ok cs ->
  lc_collect (E := E) (S (length cs))
    (lc_iter (mkLoadCommands (encode_commands cs ++ tl) (Z.of_nat (length cs)))) =
  Ok (omap command_value cs).
Proof.
  intros Hcs. unfold lc_iter. cbn [lc_buffer lc_count]. rewrite Nat2Z.id.
  apply lc_collect_encoded; [done|lia].
Qed.

(** A text segment, a linker path and a command of an unknown kind. *)
Definition sample_segment : RawCommand :=
  mkRawCommand 0x19 (bytes_of "__TEXT" ++ replicate 10 Byte.x00 ++ le_split 8 4096 ++
    le_split 8 8192 ++ replicate 32 Byte.x00).
Definition sample_dylinker : RawCommand :=
  mkRawCommand 0xe (le_split 4 12 ++ bytes_of "/usr/lib/dyld" ++ replicate 7 Byte.x00).
Definition sample_uuid : RawCommand := mkRawCommand 0x1b (bytes_of "0123456789abcdef").
Definition sample_commands : list RawCommand :=
  [sample_segment; mkRawCommand 0x2 (le_split 16 0); sample_dylinker; sample_uuid].

Lemma load_commands_roundtrip_witness :
  exists seg u, lc_collect (E := unit) 5
    (lc_iter (mkLoadCommands (encode_commands sample_commands ++ [Byte.x01]) 4)) =
  Ok [LC_Segment seg; LC_Dylinker (mkDylinker 0xe 32 12 (str_of "/usr/lib/dyld")); LC_Uuid u] /\
  vm_addr seg = 4096 /\ vm_size seg = 8192.
Proof.
  exists (SegmentCommand64_of (encode_command sample_segment)),
    (UuidCommand_of (encode_command sample_uuid)). split; [|split; vm_compute; reflexivity].
  etransitivity; [apply (load_commands_roundtrip unit sample_commands [Byte.x01])
                 |vm_compute; reflexivity].
  repeat constructor; vm_compute; (reflexivity || discriminate).
Defined.

(** the iterator checks only the size a command announces.  A segment
    command at the end of a buffer shorter than the structure is read out of
    bounds, and a linker name that starts behind the end its command announces
    makes the slice panic, although both commands pass the checks of the
    iterator. *)
Theorem load_commands_unchecked (E : Type) (buffer : list byte) (n : nat) :
  let header := LoadCommandBase_of (take 8 buffer) in
  (8 <= length buffer)%nat -> cmd_size header <= Z.of_nat (length buffer) ->
  cmd header = kind_code Segment /\ (length buffer < 72)%nat \/
  cmd header = kind_code LoadDylinker /\ cmd_size header < u32_at 8 buffer ->
  lc_next (E := E) (mkIter buffer (S n)) = Panic.
Proof.
  intros header Hl Hs Hcase. unfold lc_next. cbn [it_count it_buffer lc_next_from].
  unfold size_of_LoadCommandBase. rewrite decide_False by lia. cbv zeta. fold header.
  rewrite (proj2 (Z.ltb_ge _ _)) by lia.
  destruct Hcase as [[-> Hsh]|[-> Hnm]]; cbn [kind_from_u32 kind_code Z.eqb Pos.eqb load_command].
  - unfold cast, size_of_SegmentCommand64. by rewrite decide_False by lia.
  - unfold cast, size_of_DylinkerCommandRepr. case_decide; [|done].
    cbn [mbind res_bind DylinkerCommandRepr_of dcr_name]. rewrite u32_at_take by lia.
    assert (0 <= cmd_size header) by apply le_combine_bound.
    unfold slice. rewrite decide_False by lia. done.
Qed.

Lemma load_commands_unchecked_witness :
  lc_next (E := unit) (mkIter (le_split 4 0x19 ++ le_split 4 8) 1) = Panic /\
  lc_next (E := unit) (mkIter (le_split 4 0xe ++ le_split 4 16 ++ le_split 8 17) 1) = Panic.
Proof.
  split; apply (load_commands_unchecked unit _ 0); try (vm_compute; (discriminate || lia));
    vm_compute; (left; split; [reflexivity|lia]) || (right; split; reflexivity).
Defined.
