(* ===== verification/TaskDumper.v ===== *)
(** * Access to a task (src/src/mac/task_dumper.rs)

    [TaskDumper] reads memory, regions, threads and images of a task through
    the Mach calls.  A vector of structures read from the task is the list of
    their bytes, one element each, decoded by the callers. *)
From Stdlib Require Import ZArith Lia String.
From S2P Require Import Prelude Layout RustStr Os Mach.

Local Open Scope Z_scope.

Inductive TaskDumpError :=
  | Kernel (syscall : string) (error : KernelError)
  | InvalidMachHeader
  | NonUtf8String (bytes : list byte)
  | NoExecutableImage
  | MissingLoadCommand (name : string) (id : LoadCommandKind).

(** [mach_call!]; the name is the text of the call up to its parenthesis. *)
Definition mach_call {A} (syscall : string) (r : Z + A) : res TaskDumpError A :=
  match r with
  | inr a => Ok a
  | inl kr => Err (Kernel syscall (kernel_error_from kr))
  end.

Record AllImagesInfo := mkAllImagesInfo {
  ai_version : Z; info_array_count : Z; info_array_addr : Z; lib_system_initialized : Z;
  dyld_image_load_address : Z;
}.
Definition size_of_AllImagesInfo : nat := 40.
Definition AllImagesInfo_of (l : list byte) : AllImagesInfo :=
  mkAllImagesInfo (u32_at 0 l) (u32_at 4 l) (u64_at 8 l) (le_combine (bytes_at 25 1 l))
    (u64_at 32 l).

Record ImageInfo := mkImageInfo { load_address : Z; img_file_path : Z; file_mod_date : Z }.
Definition size_of_ImageInfo : nat := 24.
Definition ImageInfo_of (l : list byte) : ImageInfo :=
  mkImageInfo (u64_at 0 l) (u64_at 8 l) (u64_at 16 l).

(** [PartialEq] and [Ord] look at the load address only. *)
Definition image_eqb (a b : ImageInfo) : bool := load_address a =? load_address b.
Definition image_cmp (a b : ImageInfo) : comparison := (load_address a ?= load_address b).
Definition image_partial_cmp (a b : ImageInfo) : option comparison := Some (image_cmp a b).

Record VMRegionInfo := mkRegion {
  region_info : vm_region_submap_info_64; range_start : Z; range_end : Z;
}.

Record TaskDumper := mkTaskDumper { td_task : Z; page_size : Z }.

(** The flavors of mach/task_info.h and mach/thread_info.h. *)
Definition TASK_DYLD_INFO : Z := 17.
Definition size_of_task_dyld_info : nat := 20.

Section task_dumper.
Context `{TG : Target} {M : Mach}.

Definition TaskDumper_new (task : Z) : TaskDumper := mkTaskDumper task sysconf_pagesize.

(** [count] values of [size] bytes each, as one block of bytes. *)
Definition read_task_memory (self : TaskDumper) (size : nat) (address count : Z)
    : res TaskDumpError (list byte) :=
  length ← mul_u usize_bits count (Z.of_nat size);
  let mask := wrap 64 (- page_size self) in
  let page_address := Z.land address mask in
  end_address ← add_u 64 address length;
  rounded ← add_u 64 end_address (wrap 64 (page_size self - 1));
  let last_page_address := Z.land rounded mask in
  read_size ← sub_u 64 last_page_address page_address;
  local ← mach_call "mach::mach_vm_read"
            (mach_vm_read (td_task self) page_address read_size);
  (if count * Z.of_nat size <? 2 ^ (usize_bits - 1) then Ok () else Panic);;
  offset ← sub_u 64 address page_address;
  let start := Z.to_nat offset in
  or_panic (slice start (start + Z.to_nat count * size) local).

(** The elements of a block of structures of [size] bytes. *)
Definition elements {T} (size : nat) (decode : list byte -> T) (count : Z) (block : list byte)
    : list T :=
  (fun i => decode (bytes_at (i * size) size block)) <$> seq 0 (Z.to_nat count).

Definition get_vm_region (self : TaskDumper) (addr : Z) : res TaskDumpError VMRegionInfo :=
  '(region_base, region_size, submap_info) ←
    mach_call "mach::mach_vm_region_recurse" (mach_vm_region_recurse (td_task self) addr);
  region_end ← add_u 64 region_base region_size;
  Ok (mkRegion submap_info region_base region_end).

(** The closure [get_region_size] of [read_string]. *)
Definition get_region_size (self : TaskDumper) (addr : Z) : res TaskDumpError Z :=
  region ← get_vm_region self addr;
  size_to_end ← sub_u 64 (range_end region) addr;
  if size_to_end <? 4 * 1024 then
    maybe_adjacent ← get_vm_region self (range_end region);
    if range_start maybe_adjacent =? range_end region then
      extent ← sub_u 64 (range_end maybe_adjacent) (range_start maybe_adjacent);
      add_u 64 size_to_end extent
    else Ok size_to_end
  else Ok size_to_end.

Definition read_string (self : TaskDumper) (addr : Z) (expected_size : option Z)
    : res TaskDumpError (option (list Z)) :=
  r ← res_ok (get_region_size self addr);
  match r with
  | None => Ok None
  | Some size_to_end =>
      bytes ← read_task_memory self 1 addr
                (Z.min (wrap usize_bits size_to_end) (default (8 * 1024) expected_size));
      let bytes := match find_idx is_nul bytes with
                   | Some null_pos => take null_pos bytes
                   | None => bytes
                   end in
      s ← ok_or (from_utf8 bytes) (NonUtf8String bytes);
      Ok (Some s)
  end.

Definition read_thread_state (self : TaskDumper) (flavor tid : Z)
    : res TaskDumpError ThreadState :=
  let thread_state := default_thread_state in
  out ← mach_call "mach::thread_get_state"
          (thread_get_state tid flavor (state_size thread_state));
  if decide (length out <= length (ts_state thread_state))%nat
  then Ok (mkThreadState (splice 0 out (ts_state thread_state)) (Z.of_nat (length out) / 4))
  else Panic.

(** [task_info::<T>] and [thread_info::<T>] for a [T] of [size] bytes. *)
Definition task_info {T} (self : TaskDumper) (flavor : Z) (size : nat) (decode : list byte -> T)
    : res TaskDumpError T :=
  info ← mach_call "mach::task::task_info" (task_info_call (td_task self) flavor (size / 4));
  cast size decode info.

Definition thread_info {T} (self : TaskDumper) (flavor : Z) (size : nat)
    (decode : list byte -> T) (tid : Z) : res TaskDumpError T :=
  info ← mach_call "mach::thread_info" (thread_info_call tid flavor (size / 4));
  cast size decode info.

Definition read_images (self : TaskDumper)
    : res TaskDumpError (AllImagesInfo * list ImageInfo) :=
  all_images_addr ← task_info self TASK_DYLD_INFO size_of_task_dyld_info (u64_at 0);
  dyld_all_info_buf ← read_task_memory self 1 all_images_addr (Z.of_nat size_of_AllImagesInfo);
  all_images_info ← cast size_of_AllImagesInfo AllImagesInfo_of dyld_all_info_buf;
  images ← read_task_memory self size_of_ImageInfo (info_array_addr all_images_info)
             (info_array_count all_images_info);
  Ok (all_images_info,
      elements size_of_ImageInfo ImageInfo_of (info_array_count all_images_info) images).

Definition read_mach_header (self : TaskDumper) (img : ImageInfo)
    : res TaskDumpError MachHeader :=
  mach_header ← read_task_memory self size_of_MachHeader (load_address img) 1;
  header ← or_panic (elements size_of_MachHeader MachHeader_of 1 mach_header !! 0%nat);
  if negb (magic header =? MH_MAGIC_64) then Err InvalidMachHeader else Ok header.

(** The loop over the images. *)
Fixpoint find_executable (self : TaskDumper) (images : list ImageInfo)
    : res TaskDumpError ImageInfo :=
  match images with
  | [] => Err NoExecutableImage
  | img :: images' =>
      header ← read_mach_header self img;
      if file_type header =? MH_EXECUTE then Ok img else find_executable self images'
  end.

Definition read_executable_image (self : TaskDumper) : res TaskDumpError ImageInfo :=
  '(_, images) ← read_images self;
  find_executable self images.

Definition read_load_commands (self : TaskDumper) (img : ImageInfo)
    : res TaskDumpError LoadCommands :=
  header ← read_mach_header self img;
  start ← add_u 64 (load_address img) (Z.of_nat size_of_MachHeader);
  load_commands_buf ← read_task_memory self 1 start (size_commands header);
  Ok (mkLoadCommands load_commands_buf (num_commands header)).

Definition read_threads (self : TaskDumper) : res TaskDumpError (list Z) :=
  mach_call "mach::task_threads" (task_threads (td_task self)).

Definition pid_for_task (self : TaskDumper) : res TaskDumpError Z :=
  mach_call "mach::pid_for_task" (pid_for_task_call (td_task self)).
End task_dumper.

(** ** Theory *)

(** The documented behaviour of the memory calls: pages are a power of two of
    bytes, and a successful read returns the bytes asked for. *)
Class MachOk (M : Mach) (task : Z) (mem : Memory) : Prop := {
  page_pow2 : exists k, 0 <= k < 63 /\ sysconf_pagesize = 2 ^ k;
  vm_read_ok : forall a n bs, mach_vm_read task a n = inr bs ->
    mem_bytes mem a (Z.to_nat n) = Some bs;
}.

Definition page_floor (ps a : Z) : Z := a - a mod ps.
Definition page_ceil (ps a : Z) : Z := page_floor ps (a + (ps - 1)).

Lemma land_page_mask a k :
  0 <= k < 63 -> in_bits 64 a -> Z.land a (wrap 64 (- 2 ^ k)) = page_floor (2 ^ k) a.
Proof.
  intros Hk Ha.
  assert (Hpk : 0 < 2 ^ k) by lia. assert (Hlt : 2 ^ k < 2 ^ 64) by (apply Z.pow_lt_mono_r; lia).
  assert (Hm : wrap 64 (- 2 ^ k) = Z.shiftl (Z.ones (64 - k)) k).
  { unfold wrap. rewrite Z.shiftl_mul_pow2, Z.ones_equiv by lia.
    rewrite <- (Z.mod_unique (- 2 ^ k) (2 ^ 64) (-1) (2 ^ 64 - 2 ^ k)); [|lia|lia].
    rewrite <- Z.sub_1_r, Z.mul_sub_distr_r, <- Z.pow_add_r by lia.
    replace (64 - k + k) with 64 by lia. lia. }
  unfold page_floor. rewrite Hm.
  replace (a - a mod 2 ^ k) with (Z.shiftl (Z.shiftr a k) k).
  - apply Z.bits_inj'. intros i Hi. rewrite Z.land_spec, !Z.shiftl_spec by lia.
    destruct (decide (i < k)).
    { rewrite !(Z.testbit_neg_r _ (i - k)) by lia. apply andb_false_r. }
    rewrite Z.shiftr_spec by lia. replace (i - k + k) with i by lia.
    destruct (decide (i < 64)).
    + rewrite Z.ones_spec_low by lia. apply andb_true_r.
    + rewrite Z.ones_spec_high by lia. rewrite andb_false_r. symmetry.
      rewrite <- (Z.mod_small a (2 ^ 64)) by apply Ha. apply Z.mod_pow2_bits_high. lia.
  - rewrite Z.shiftl_mul_pow2, Z.shiftr_div_pow2 by lia.
    pose proof (Z.div_mod a (2 ^ k)). lia.
Qed.

Lemma page_floor_bounds ps a : 0 < ps -> 0 <= a -> 0 <= page_floor ps a <= a.
Proof.
  intros. unfold page_floor. pose proof (Z.mod_pos_bound a ps). pose proof (Z.mod_le a ps). lia.
Qed.

Lemma page_ceil_bounds ps a : 0 < ps -> a <= page_ceil ps a < a + ps.
Proof.
  intros. unfold page_ceil, page_floor. pose proof (Z.mod_pos_bound (a + (ps - 1)) ps). lia.
Qed.

Lemma mem_bytes_at mem a n off m bs :
  mem_bytes mem a n = Some bs -> (off + m <= n)%nat ->
  mem_bytes mem (a + Z.of_nat off) m = Some (bytes_at off m bs).
Proof.
  rewrite !mem_bytes_lookup. intros [Hl Hf] Hm. split; [apply length_bytes_at; lia|].
  intros i Hi. rewrite lookup_bytes_at, decide_True by done.
  rewrite <- Hf by lia. f_equal. lia.
Qed.

Section reading.
Context `{TG : Target} {M : Mach} (task : Z) (mem : Memory) {MO : MachOk M task mem}.


Lemma task_page_mask a :
  in_bits 64 a ->
  Z.land a (wrap 64 (- sysconf_pagesize)) = page_floor sysconf_pagesize a /\ 0 < sysconf_pagesize.
Proof.
  intros Ha. destruct page_pow2 as (k & Hk & ->). split; [by apply land_page_mask|lia].
Qed.

(** What is read is the memory of the task. *)
Lemma read_task_memory_mem size address count bs :
  in_bits 64 address -> 0 <= count ->
  read_task_memory (TaskDumper_new task) size address count = Ok bs ->
  mem_bytes mem address (Z.to_nat count * size) = Some bs.
Proof.
  intros Ha Hc. unfold read_task_memory. cbn [page_size td_task TaskDumper_new].
  destruct (task_page_mask address Ha) as [-> Hps].
  destruct (mul_u _ _ _) as [len| |]; cbn [mbind res_bind]; [|done..].
  destruct (add_u 64 address len) as [en| |]; cbn [mbind res_bind]; [|done..].
  destruct (add_u 64 en _) as [ro| |]; cbn [mbind res_bind]; [|done..].
  destruct (sub_u 64 (Z.land ro _) _) as [sz| |]; cbn [mbind res_bind]; [|done..].
  destruct (mach_vm_read _ _ _) as [kr|local] eqn:Hr; cbn [mach_call mbind res_bind]; [done|].
  case_match; cbn [mbind res_bind]; [|done].
  pose proof (page_floor_bounds sysconf_pagesize address Hps (proj1 Ha)).
  rewrite sub_u_ok by lia. cbn [mbind res_bind].
  destruct (slice _ _ _) as [bs'|] eqn:Hs; cbn [or_panic]; [|done]. intros [= ->].
  apply slice_some in Hs as (_ & Hl & ->). apply vm_read_ok in Hr.
  pose proof (mem_bytes_length _ _ _ _ Hr) as Hlen.
  replace address with (page_floor sysconf_pagesize address +
    Z.of_nat (Z.to_nat (address - page_floor sysconf_pagesize address))) at 1 by lia.
  eapply eq_trans; [eapply mem_bytes_at; [exact Hr|lia]|]. do 2 f_equal. lia.
Qed.

(** Away from the end of the address space the arithmetic is exact, and the
    pages asked for cover the range. *)
Lemma read_task_memory_run size address count :
  pointer_width = W64 -> 0 <= address -> 0 <= count -> count * Z.of_nat size < 2 ^ 63 ->
  address + count * Z.of_nat size + sysconf_pagesize <= 2 ^ 64 ->
  let first := page_floor sysconf_pagesize address in
  let last := page_ceil sysconf_pagesize (address + count * Z.of_nat size) in
  match mach_vm_read task first (last - first) with
  | inl kr => read_task_memory (TaskDumper_new task) size address count =
                Err (Kernel "mach::mach_vm_read" (kernel_error_from kr))
  | inr _ => exists bs, read_task_memory (TaskDumper_new task) size address count = Ok bs
  end.
Proof.
  intros Hw Ha Hc H63 Hend first last.
  assert (Hub : usize_bits = 64) by (unfold usize_bits; by rewrite Hw).
  assert (Ha64 : in_bits 64 address) by (destruct page_pow2 as (k & ? & Hp); unfold in_bits; lia).
  destruct (task_page_mask address Ha64) as [Hfl Hps].
  assert (He : in_bits 64 (address + count * Z.of_nat size + (sysconf_pagesize - 1)))
    by (unfold in_bits; lia).
  destruct (task_page_mask _ He) as [Hcl _].
  unfold read_task_memory. cbn [page_size td_task TaskDumper_new].
  rewrite Hfl, Hub. unfold mul_u, add_u. rewrite checked_fits by (unfold in_bits; lia). cbn [mbind res_bind].
  rewrite checked_fits by (unfold in_bits; lia). cbn [mbind res_bind].
  rewrite (wrap_small 64 (sysconf_pagesize - 1)) by (unfold in_bits; lia).
  rewrite checked_fits by done. cbn [mbind res_bind]. rewrite Hcl.
  fold first. change (page_floor sysconf_pagesize (_ + (sysconf_pagesize - 1))) with last.
  pose proof (page_floor_bounds sysconf_pagesize address Hps Ha).
  pose proof (page_ceil_bounds sysconf_pagesize (address + count * Z.of_nat size) Hps).
  fold first in H. fold last in H0. rewrite !sub_u_ok by lia. cbn [mbind res_bind].
  destruct (mach_vm_read task first (last - first)) as [kr|local] eqn:Hr;
    cbn [mach_call mbind res_bind]; [done|].
  rewrite (proj2 (Z.ltb_lt _ _)) by lia. cbn [mbind res_bind].
  apply vm_read_ok, mem_bytes_length in Hr.
  eexists. rewrite slice_ok; [reflexivity|lia|nia].
Qed.
End reading.

(** A task whose memory is [mem], with the given regions in address order,
    threads, registers and one answer to [task_info]; pages have 16 bytes. *)
Definition toy_mach (mem : Memory) (regions : list (Z * Z * vm_region_submap_info_64))
    (threads : list Z) (registers info : list byte) : Mach := {|
  sysconf_pagesize := 16;
  mach_task_self := 1;
  mach_thread_self := 2;
  mach_vm_read _ a n :=
    match mem_bytes mem a (Z.to_nat n) with Some bs => inr bs | None => inl 1 end;
  mach_vm_region_recurse _ a :=
    match List.find (fun '(base, size, _) => a <? base + size) regions with
    | Some r => inr r
    | None => inl 1
    end;
  thread_get_state _ _ _ := inr registers;
  task_info_call _ _ _ := inr info;
  thread_info_call _ _ _ := inl 4;
  task_threads _ := inr threads;
  pid_for_task_call _ := inr 42;
  proc_pidinfo_start _ := Some 1700000000;
  sysctl_read _ _ := None;
  sysctl_size _ := None;
  system_time := Some 1700000000;
|}.

Lemma toy_mach_ok mem regions threads registers info task :
  MachOk (toy_mach mem regions threads registers info) task mem.
Proof.
  constructor.
  - exists 4. split; [lia|done].
  - intros a n bs. cbn. destruct (mem_bytes mem a (Z.to_nat n)); [|done]. by intros [= ->].
Qed.

(** C23: reading task memory.  For a range that stays a page below the end of the
    address space, [read_task_memory] asks the kernel for exactly the whole
    pages around the range; when the kernel serves them the result is the
    memory of the task at the address, all of it, and otherwise the error is
    the kernel's. *)
Theorem read_task_memory_correct `{TG : Target} (M : Mach) (task : Z) (mem : Memory)
    (MO : MachOk M task mem) (size : nat) (address count : Z) :
  pointer_width = W64 -> 0 <= address -> 0 <= count -> count * Z.of_nat size < 2 ^ 63 ->
  address + count * Z.of_nat size + sysconf_pagesize <= 2 ^ 64 ->
  let first := page_floor sysconf_pagesize address in
  let last := page_ceil sysconf_pagesize (address + count * Z.of_nat size) in
  match mach_vm_read task first (last - first) with
  | inl kr => read_task_memory (TaskDumper_new task) size address count =
                Err (Kernel "mach::mach_vm_read" (kernel_error_from kr))
  | inr _ => exists bs, read_task_memory (TaskDumper_new task) size address count = Ok bs /\
               mem_bytes mem address (Z.to_nat count * size) = Some bs
  end.
Proof.
  intros Hw Ha Hc H63 Hend first last.
  pose proof (read_task_memory_run task mem size address count Hw Ha Hc H63 Hend) as Hrun.
  cbv zeta in Hrun. fold first last in Hrun.
  destruct (mach_vm_read task first (last - first)) as [kr|local]; [done|].
  destruct Hrun as [bs Hbs]. exists bs. split; [done|].
  apply (read_task_memory_mem task mem); [|done..].
  destruct page_pow2 as (k & ? & Hp). unfold in_bits. lia.
Qed.

(** Three pages of ascending bytes at 4096. *)
Definition sample_memory : Memory := fun a =>
  if (4096 <=? a) && (a <? 4096 + 3 * 16) then Some (byte.of_Z (a mod 256)) else None.

Lemma read_task_memory_correct_witness :
  exists bs, @read_task_memory x64_debug (toy_mach sample_memory [] [] [] [])
    (mkTaskDumper 7 16) 8 4110 3 = Ok bs /\ mem_bytes sample_memory 4110 24 = Some bs.
Proof.
  pose proof (@read_task_memory_correct x64_debug (toy_mach sample_memory [] [] [] []) 7
    sample_memory (toy_mach_ok _ _ _ _ _ 7) 8 4110 3 eq_refl) as Hr.
  cbv zeta in Hr. change (3 * Z.of_nat 8) with 24 in Hr.
  change (@sysconf_pagesize (toy_mach sample_memory [] [] [] [])) with 16 in Hr.
  specialize (Hr ltac:(lia) ltac:(lia) ltac:(lia) ltac:(lia)).
  destruct (mach_vm_read _ _ _) as [kr|local] eqn:Hv; [exfalso; vm_compute in Hv; discriminate|].
  exact Hr.
Defined.

(** a string read from the task is the C string at the address: the bytes
    before the first NUL, decoded, or as many bytes as the cap or the region
    allow when there is none. *)
Theorem read_string_sound `{TG : Target} (M : Mach) (task : Z) (mem : Memory)
    (MO : MachOk M task mem) (addr : Z) (cap : option Z) (s : list Z) :
  in_bits 64 addr -> (forall c, cap = Some c -> 0 <= c) ->
  read_string (TaskDumper_new task) addr cap = Ok (Some s) ->
  exists n bs, mem_bytes mem addr n = Some bs /\ from_utf8 bs = Some s /\ Byte.x00 ∉ bs /\
    (mem (addr + Z.of_nat n) = Some Byte.x00 \/
     exists extent, get_region_size (TaskDumper_new task) addr = Ok extent /\
       Z.of_nat n = Z.min (wrap usize_bits extent) (default 8192 cap)).
Proof.
  intros Ha Hcap. unfold read_string.
  destruct (get_region_size _ _) as [extent| |]; cbn [res_ok mbind res_bind]; [|done..].
  assert (Hub : 0 <= usize_bits) by (unfold usize_bits; destruct pointer_width; lia).
  set (n := Z.min _ _).
  assert (Hn : 0 <= n).
  { pose proof (wrap_in_bits usize_bits extent Hub) as [? _]. subst n.
    destruct cap as [c|]; cbn; [specialize (Hcap c eq_refl)|]; lia. }
  destruct (read_task_memory _ 1 addr n) as [bs| |] eqn:Hr; cbn [mbind res_bind]; [|done..].
  apply (read_task_memory_mem task mem) in Hr; [|done..]. rewrite Nat.mul_1_r in Hr.
  pose proof (mem_bytes_length _ _ _ _ Hr) as Hlen.
  destruct (find_idx is_nul bs) as [i|] eqn:Hi.
  - destruct (find_idx_spec _ _ _ Hi) as (x & Hx & Hnul & Hbefore).
    pose proof (lookup_lt_Some _ _ _ Hx).
    destruct (from_utf8 (take i bs)) as [s'|] eqn:Hu; cbn [ok_or mbind res_bind]; [|done].
    intros [= ->]. exists i, (take i bs). split_and!; [eapply mem_bytes_take; [|done]; lia|done| |].
    + intros (j & Hj)%list_elem_of_lookup. pose proof (lookup_lt_Some _ _ _ Hj) as Hlt.
      rewrite length_take in Hlt. rewrite lookup_take_lt in Hj by lia.
      specialize (Hbefore j _ ltac:(lia) Hj). by vm_compute in Hbefore.
    + left. apply mem_bytes_lookup in Hr as [_ Hr]. rewrite Hr by lia. rewrite Hx.
      unfold is_nul in Hnul. by apply bool_decide_eq_true in Hnul as ->.
  - destruct (from_utf8 bs) as [s'|] eqn:Hu; cbn [ok_or mbind res_bind]; [|done].
    intros [= ->]. exists (Z.to_nat n), bs. split_and!; [done|done| |].
    + intros (j & Hj)%list_elem_of_lookup. eapply find_idx_none in Hi; [|exact Hj].
      by vm_compute in Hi.
    + right. exists extent. split; [done|]. by rewrite Z2Nat.id.
Qed.

(** The path of a linker, in a region of its own. *)
Definition path_memory : Memory := fun a =>
  (bytes_of "/usr/lib/dyld" ++ replicate 19 Byte.x00) !! Z.to_nat (a - 4096).

Lemma read_string_sound_witness :
  exists n bs, mem_bytes path_memory 4096 n = Some bs /\
    from_utf8 bs = Some (str_of "/usr/lib/dyld").
Proof.
  pose (M := toy_mach path_memory [(4096, 32, mkRegionInfo 0 1); (8192, 32, mkRegionInfo 0 1)]
    [] [] []).
  destruct (@read_string_sound x64_debug M 7 path_memory (toy_mach_ok _ _ _ _ _ 7) 4096 (Some 20)
    (str_of "/usr/lib/dyld")) as (n & bs & Hm & Hu & _).
  - vm_compute. split; [discriminate|reflexivity].
  - intros c [= <-]. discriminate.
  - vm_compute. reflexivity.
  - exists n, bs. split; [exact Hm|exact Hu].
Defined.

(** a string near the end of the last region is lost.  When less than 4 KiB
    of the region are left and the kernel knows no region at or above its end,
    [read_string] answers that there is no string, although the bytes up to the
    end of the region could be read: the failure of looking for an adjacent
    region is taken for a failure of the first lookup. *)
Theorem read_string_last_region `{TG : Target} (M : Mach) (self : TaskDumper) (addr : Z)
    (cap : option Z) (region : VMRegionInfo) (kr : Z) :
  get_vm_region self addr = Ok region -> addr <= range_end region < addr + 4096 ->
  mach_vm_region_recurse (td_task self) (range_end region) = inl kr ->
  read_string self addr cap = Ok None.
Proof.
  intros Hreg Hend Hnext. unfold read_string, get_region_size. rewrite Hreg. cbn [mbind res_bind].
  rewrite sub_u_ok by lia. cbn [mbind res_bind]. rewrite (proj2 (Z.ltb_lt _ _)) by lia.
  unfold get_vm_region. by rewrite Hnext.
Qed.

Lemma read_string_last_region_witness :
  let M := toy_mach path_memory [(4096, 32, mkRegionInfo 0 1)] [] [] [] in
  @read_string x64_debug M (mkTaskDumper 7 16) 4096 None = Ok None /\
  @read_task_memory x64_debug M (mkTaskDumper 7 16) 1 4096 13 = Ok (bytes_of "/usr/lib/dyld").
Proof.
  intros M. split; [|vm_compute; reflexivity].
  refine (@read_string_last_region x64_debug M (mkTaskDumper 7 16) 4096 None
    (mkRegion (mkRegionInfo 0 1) 4096 4128) 1 _ _ _); [vm_compute; reflexivity|cbn; lia|reflexivity].
Defined.
