(* ===== verification/MacConfig.v ===== *)
(** * The macOS writer and its threads (src/src/mac/minidump_writer.rs,
      src/src/mac/errors.rs)

    The state of the macOS [MinidumpWriter], the iterator over the threads to
    dump, and the interfaces for what the writer takes from other crates: the
    records only this writer uses ([MacFormat]) and the processor ([MacCpu],
    which the sources choose at compile time). *)
From Stdlib Require Import ZArith Lia String.
From S2P Require Import Prelude Format Layout MemWriter DirSection Driver RustStr Os Mach TaskDumper.

Local Open Scope Z_scope.

(** ** Errors *)

Inductive WriterError :=
  | WE_TaskDumpError (e : TaskDumpError)
  | WE_MemoryWriterError (e : MemoryWriterError)
  | WE_FileWriterError (e : FileWriterError)
  | NoCrashContext.

(** ** minidump-common, crash-context (interface) *)

(** [MINIDUMP_MISC_INFO_2] and [MINIDUMP_BREAKPAD_INFO] *)
Record MDRawMiscInfo := mkMiscInfo {
  size_of_info : Z; flags1 : Z; process_id : Z; process_create_time : Z; process_user_time : Z;
  process_kernel_time : Z; processor_max_mhz : Z; processor_current_mhz : Z;
  processor_mhz_limit : Z; processor_max_idle_state : Z; processor_current_idle_state : Z;
}.

Record BreakpadInfo := mkBreakpadInfo {
  validity : Z; dump_thread_id : Z; requesting_thread_id : Z;
}.

(** [CvInfoPdb] of [write_module], over the type of identifiers. *)
Record CvInfoPdb (GUID : Type) := mkCvInfoPdb { cv_signature : Z; cv_guid : GUID; age : Z }.
Arguments mkCvInfoPdb {GUID} _ _ _.
Arguments cv_signature {GUID} _.
Arguments cv_guid {GUID} _.
Arguments age {GUID} _.

Class MacFormat := {
  GUID : Type;
  guid_from : list byte -> GUID;
  pod_misc_info :: Pod MDRawMiscInfo;
  pod_breakpad_info :: Pod BreakpadInfo;
  pod_cv_pdb :: Pod (CvInfoPdb GUID);
  size_of_MDRawMiscInfo : Z;
  MiscInfoStream : Z;
  BreakpadInfoStream : Z;
  (** [MINIDUMP_MISC1_PROCESS_ID], [PROCESS_TIMES], [PROCESSOR_POWER_INFO] *)
  MISC1_PROCESS_ID : Z;
  MISC1_PROCESS_TIMES : Z;
  MISC1_PROCESSOR_POWER_INFO : Z;
  BreakpadInfoValid_DumpThreadId : Z;
  BreakpadInfoValid_RequestingThreadId : Z;
  CvSignature_Pdb70 : Z;
  PlatformId_MacOs : Z;
}.

Class MacFormatOk (MF : MacFormat) : Prop := {
  ok_misc_info :: PodOk MDRawMiscInfo;
  ok_breakpad_info :: PodOk BreakpadInfo;
  ok_cv_pdb :: PodOk (CvInfoPdb GUID);
}.

(** [crash_context::ExceptionInfo] and [crash_context::CrashContext] *)
Record ExceptionInfo := mkExceptionInfo { kind : Z; code : Z; subcode : option Z }.

Record CrashContext := mkCrashContext {
  cc_task : Z; cc_thread : Z; cc_handler_thread : Z; cc_exception : option ExceptionInfo;
}.

(** What the sources select with [cfg(target_arch)]. *)
Class MacCpu := {
  RawContextCPU : Type;
  context_pod :: Pod RawContextCPU;
  default_cpu : RawContextCPU;
  THREAD_STATE_FLAVOR : Z;
  state_pc : ThreadState -> Z;
  state_sp : ThreadState -> Z;
  fill_cpu_context : ThreadState -> RawContextCPU -> RawContextCPU;
  (** [read_cpu_info]; architecture, level and revision *)
  read_cpu_info : Mach -> list byte -> list byte;
  processor_architecture_of : Z;
  processor_level_revision : Mach -> Z * Z;
}.

Class MacCpuOk (CPU : MacCpu) : Prop := context_pod_ok :: PodOk RawContextCPU.

(** ** MinidumpWriter *)

Record MinidumpWriter := mkWriter {
  crash_context : option CrashContext;
  memory_blocks : list MDMemoryDescriptor;
  task : Z;
  handler_thread : Z;
}.

Definition MinidumpWriter_new {M : Mach} (task handler_thread : option Z) : MinidumpWriter :=
  mkWriter None [] (default mach_task_self task) (default mach_thread_self handler_thread).

Definition with_crash_context (crash_context : CrashContext) : MinidumpWriter :=
  mkWriter (Some crash_context) [] (cc_task crash_context) (cc_handler_thread crash_context).

Definition push_memory_block (m : MDMemoryDescriptor) (w : MinidumpWriter) : MinidumpWriter :=
  mkWriter (crash_context w) (memory_blocks w ++ [m]) (task w) (handler_thread w).

(** A stream writer. *)
Notation Writer E := (ST (MinidumpWriter * Buffer) E).

Definition get_writer {E} : Writer E MinidumpWriter := s ← st_get; mret (fst s).
Definition get_position {E} : Writer E Z := s ← st_get; mret (position (snd s)).
Definition record_block {E} (m : MDMemoryDescriptor) : Writer E unit :=
  st_modify (fun s => (push_memory_block m (fst s), snd s)).

(** A buffer operation, and a query of the task, inside a stream writer. *)
Definition buf {T} (m : ST Buffer MemoryWriterError T) : Writer WriterError T :=
  st_map_err WE_MemoryWriterError (on_buf m).
Definition ask {T} (m : res TaskDumpError T) : Writer WriterError T :=
  st_lift (map_err WE_TaskDumpError m).

(** ** ActiveThreads *)

Definition MACH_PORT_NULL : Z := 0.

Record ActiveThreads := mkActiveThreads {
  at_threads : list Z; at_handler : Z; at_i : nat;
}.

Definition threads {E} `{TG : Target} {M : Mach} (self : MinidumpWriter) (dumper : TaskDumper)
    : res E ActiveThreads :=
  r ← res_ok (read_threads dumper);
  Ok (mkActiveThreads (default [] r) (handler_thread self) 0).

Definition at_len {E} `{TG : Target} (t : ActiveThreads) : res E Z :=
  let len := Z.of_nat (length (at_threads t)) in
  if negb (at_handler t =? MACH_PORT_NULL) then sub_u usize_bits len 1 else Ok len.

(** The [while] loop of [next] visits what is left of the list. *)
Fixpoint at_next_from (rest : list Z) (t : ActiveThreads) : option Z * ActiveThreads :=
  match rest with
  | [] => (None, t)
  | tid :: rest' =>
      let t' := mkActiveThreads (at_threads t) (at_handler t) (S (at_i t)) in
      if negb (tid =? at_handler t) then (Some tid, t') else at_next_from rest' t'
  end.

Definition at_next (t : ActiveThreads) : option Z * ActiveThreads :=
  at_next_from (drop (at_i t) (at_threads t)) t.

(** All items, in order; an item advances the index, so the length is enough. *)
Fixpoint at_items_fuel (fuel : nat) (t : ActiveThreads) : list Z :=
  match fuel with
  | O => []
  | S fuel' => match at_next t with
               | (Some tid, t') => tid :: at_items_fuel fuel' t'
               | (None, _) => []
               end
  end.

Definition at_items (t : ActiveThreads) : list Z := at_items_fuel (length (at_threads t)) t.

(** ** Theory of the threads *)

Lemma at_next_shape h rest : forall pre, exists o t,
  at_next_from rest (mkActiveThreads (pre ++ rest) h (length pre)) = (o, t) /\
  match o with
  | None => filter (fun tid => tid <> h) rest = []
  | Some tid => exists pre' rest', t = mkActiveThreads (pre ++ rest) h (length pre') /\
      pre ++ rest = pre' ++ rest' /\ (length rest' < length rest)%nat /\
      filter (fun tid => tid <> h) rest = tid :: filter (fun tid => tid <> h) rest'
  end.
Proof.
  induction rest as [|x rest IH]; intros pre; cbn [at_next_from at_handler at_threads at_i].
  { by eexists None, _. }
  assert (Hpre : S (length pre) = length (pre ++ [x])) by (rewrite length_app; cbn; lia).
  rewrite filter_cons. destruct (Z.eqb_spec x h) as [->|Hx]; cbn [negb].
  - rewrite decide_False by (by intros []). specialize (IH (pre ++ [h])).
    rewrite <- app_assoc in IH. rewrite Hpre. destruct IH as (o & t & Ht & Ho).
    exists o, t. split; [exact Ht|]. destruct o as [tid|]; [|done].
    destruct Ho as (pre' & rest' & ? & ? & ? & ?). exists pre', rest'. cbn [length]. split_and!; auto.
  - rewrite decide_True by done. do 2 eexists. split; [done|].
    exists (pre ++ [x]), rest. rewrite <- app_assoc, Hpre. cbn [length]. split_and!; auto with lia.
Qed.

Lemma at_items_from fuel h : forall rest pre, (length rest <= fuel)%nat ->
  at_items_fuel fuel (mkActiveThreads (pre ++ rest) h (length pre)) =
    filter (fun tid => tid <> h) rest.
Proof.
  induction fuel as [|fuel IH]; intros rest pre Hl.
  { destruct rest; [done|cbn in Hl; lia]. }
  cbn [at_items_fuel]. unfold at_next. cbn [at_i at_threads]. rewrite drop_app_length.
  destruct (at_next_shape h rest pre) as (o & t & -> & Ho). destruct o as [tid|]; [|done].
  destruct Ho as (pre' & rest' & -> & -> & Hlt & ->). f_equal. apply IH. lia.
Qed.

(** The items are the threads of the task without the handler. *)
Lemma at_items_filter ts h :
  at_items (mkActiveThreads ts h 0) = filter (fun tid => tid <> h) ts.
Proof. apply (at_items_from _ h ts []). cbn. lia. Qed.

Lemma length_filter_ne (ts : list Z) h :
  h ∉ ts -> filter (fun tid => tid <> h) ts = ts.
Proof.
  induction ts as [|x ts IH]; intros Hin; [done|]. apply not_elem_of_cons in Hin as [Hx Hin].
  rewrite filter_cons_True by congruence. by rewrite IH.
Qed.

Lemma length_filter_once (ts : list Z) h :
  NoDup ts -> h ∈ ts -> length (filter (fun tid => tid <> h) ts) = (length ts - 1)%nat.
Proof.
  induction 1 as [|x ts Hx Hnd IH]; intros Hin; [by apply not_elem_of_nil in Hin|].
  destruct (decide (x = h)) as [->|Hxh].
  - rewrite filter_cons_False by (intros Hc; by apply Hc). rewrite length_filter_ne by done. cbn. lia.
  - rewrite filter_cons_True by done. apply elem_of_cons in Hin as [->|Hin]; [done|].
    cbn [length]. rewrite IH by done. destruct ts; [by apply not_elem_of_nil in Hin|]. cbn. lia.
Qed.

(** ** Properties *)

(** the announced number of threads.  It is the number of threads the
    iterator yields when the handler thread is one of the task's threads, or
    unknown; with a handler thread of another task the number is one too small,
    and with no thread at all the subtraction overflows. *)
Theorem active_threads_len `{TG : Target} (E : Type) (ts : list Z) (h : Z) :
  NoDup ts -> ~ (0 ∈ ts) ->
  let t := mkActiveThreads ts h 0 in
  at_items t = filter (fun tid => tid <> h) ts /\
  if decide (h = 0 \/ h ∈ ts) then at_len (E := E) t = Ok (Z.of_nat (length (at_items t)))
  else match ts with
       | [] => at_len (E := E) t = if overflow_checks then Panic else Ok usize_max
       | _ => at_len (E := E) t = Ok (Z.of_nat (length (at_items t)) - 1)
       end.
Proof.
  intros Hnd H0 t. assert (Hi : at_items t = filter (fun tid => tid <> h) ts) by apply at_items_filter.
  split; [done|]. rewrite Hi. unfold at_len, t. cbn [at_threads at_handler].
  unfold MACH_PORT_NULL. destruct (Z.eqb_spec h 0) as [->|Hh]; cbn [negb].
  - rewrite decide_True by auto. by rewrite length_filter_ne.
  - case_decide as Hc.
    + destruct Hc as [|Hin]; [done|]. rewrite length_filter_once by done.
      assert (length ts <> 0%nat) by (destruct ts; [by apply not_elem_of_nil in Hin|done]).
      rewrite sub_u_ok by lia. f_equal. lia.
    + assert (Hin : h ∉ ts) by tauto. rewrite length_filter_ne by done.
      destruct ts as [|x ts]; [|rewrite sub_u_ok by (cbn [length]; lia); done].
      unfold sub_u. cbn. destruct overflow_checks; [done|]. f_equal.
      unfold wrap, usize_max. assert (0 < 2 ^ usize_bits) by (unfold usize_bits; destruct pointer_width; lia).
      rewrite <- (Z.mod_unique (-1) (2 ^ usize_bits) (-1) (2 ^ usize_bits - 1)); lia.
Qed.

Lemma active_threads_len_witness :
  @at_len unit x64_debug (mkActiveThreads [259; 515; 771] 515 0) = Ok 2 /\
  at_items (mkActiveThreads [259; 515; 771] 515 0) = [259; 771] /\
  @at_len unit x64_debug (mkActiveThreads [259; 515; 771] 1027 0) = Ok 2 /\
  @at_len unit x64_debug (mkActiveThreads [] 1027 0) = Panic.
Proof.
  assert (Hnd : NoDup [259; 515; 771] /\ ~ (0 ∈ [259; 515; 771]))
    by (split; [apply (bool_decide_unpack _)|apply (bool_decide_unpack _)]; vm_compute; exact I).
  destruct Hnd as [Hnd H0].
  destruct (@active_threads_len x64_debug unit [259; 515; 771] 515 Hnd H0) as [Hi Hl].
  split; [exact Hl|]. split; [exact Hi|]. split; [vm_compute|]; reflexivity.
Defined.
