(* ===== verification/MacCpus.v ===== *)
(** * The processors of the macOS writer (src/src/mac/streams/thread_list.rs,
      src/src/mac/streams/system_info.rs, src/src/mac/mach.rs)

    What the macOS sources select with [cfg(target_arch)], as the two instances
    of [MacCpu]: the registers of a thread state as a context record, and the
    description of the processor from [sysctl]. *)
From Stdlib Require Import ZArith Lia String.
From S2P Require Import Prelude Format Layout MemWriter DirSection RustStr Os Contexts Mach.
From S2P Require Import TaskDumper MacConfig.

Local Open Scope Z_scope.

(** The constants of minidump-common. *)
Class MacCpuFormat := {
  ContextFlagsCpu_CONTEXT_AMD64 : Z;
  ARCHITECTURE_AMD64 : Z;
  ARCHITECTURE_ARM64_OLD : Z;
}.

Section x86_64.
Context {AF : Amd64Format} {CF : MacCpuFormat}.

Definition x86_fill_cpu_context (thread_state : ThreadState) (out : CONTEXT_AMD64)
    : CONTEXT_AMD64 :=
  let ts := x86_arch_state thread_state in
  mkContext ContextFlagsCpu_CONTEXT_AMD64
    (wrap 16 (s_cs ts)) (c_ds out) (c_es out) (wrap 16 (s_fs ts)) (wrap 16 (s_gs ts)) (c_ss out)
    (wrap 32 (s_rflags ts))
    (dr0 out) (dr1 out) (dr2 out) (dr3 out) (dr6 out) (dr7 out)
    (s_rax ts) (s_rcx ts) (s_rdx ts) (s_rbx ts) (s_rsp ts) (s_rbp ts) (s_rsi ts) (s_rdi ts)
    (s_r8 ts) (s_r9 ts) (s_r10 ts) (s_r11 ts) (s_r12 ts) (s_r13 ts) (s_r14 ts) (s_r15 ts)
    (s_rip ts) (float_save out).

(** [map_feature!] *)
Definition map_feature (set cpuid_bit md_bit md_feats : Z) : Z :=
  if Z.land set (Z.shiftl 1 cpuid_bit) =? 0 then md_feats
  else Z.lor md_feats (Z.shiftl 1 md_bit).

(** The table of the calls: a cpuid bit and its minidump bit. *)
Definition base_features : list (Z * Z) :=
  [(4, 8); (6, 9); (23, 3); (25, 6); (26, 10); (32, 13); (45, 14); (58, 17); (62, 28)].
Definition extended_features : list (Z * Z) := [(27, 32); (31, 7)].
Definition leaf7_features : list (Z * Z) := [(0, 22)].

Definition map_features (set : Z) (table : list (Z * Z)) (md_feats : Z) : Z :=
  fold_left (fun md '(cpuid_bit, md_bit) => map_feature set cpuid_bit md_bit md) table md_feats.

Definition x86_features (features ext_features leaf_features : Z) : Z :=
  let md_feats := Z.shiftl 1 2 in
  let md_feats := map_features features base_features md_feats in
  let md_feats := map_features ext_features extended_features md_feats in
  let md_feats := map_features leaf_features leaf7_features md_feats in
  let md_feats := Z.lor md_feats (Z.shiftl 1 12) in
  Z.lor md_feats (Z.shiftl 1 11).

Definition x86_read_cpu_info (M : Mach) (cpu : list byte) : list byte :=
  let md_feats := x86_features (sysctl_by_name 8 "machdep.cpu.feature_bits")
    (sysctl_by_name 8 "machdep.cpu.extfeature_bits")
    (sysctl_by_name 4 "machdep.cpu.leaf7_feature_bits") in
  splice 0 (le_split 8 md_feats) cpu.

(** Level and revision. *)
Definition x86_level_revision (M : Mach) : Z * Z :=
  let processor_level := int_sysctl_by_name 16 "machdep.cpu.family" in
  let model := int_sysctl_by_name 8 "machdep.cpu.model" in
  let stepping := int_sysctl_by_name 8 "machdep.cpu.stepping" in
  (processor_level, Z.lor (Z.shiftl model 8) stepping).

Definition mac_x86_64 : MacCpu := {|
  RawContextCPU := CONTEXT_AMD64;
  context_pod := pod_context_amd64;
  default_cpu := default_context;
  THREAD_STATE_FLAVOR := 4;
  state_pc := x86_pc;
  state_sp := x86_sp;
  fill_cpu_context := x86_fill_cpu_context;
  read_cpu_info := x86_read_cpu_info;
  processor_architecture_of := ARCHITECTURE_AMD64;
  processor_level_revision := x86_level_revision;
|}.
End x86_64.

Section aarch64.
Context {AF : Arm64Format} {CF : MacCpuFormat}.

Definition arm64_fill_cpu_context (thread_state : ThreadState) (out : CONTEXT_ARM64_OLD)
    : CONTEXT_ARM64_OLD :=
  let ts := arm64_arch_state thread_state in
  let regs := splice 0 (take 29 (a_x ts)) (iregs out) in
  let regs := <[30%nat := a_lr ts]> (<[29%nat := a_fp ts]> regs) in
  mkContextArm64 CONTEXT_ARM64_OLD_FULL regs (a_sp ts) (a_pc ts) (a_cpsr ts) (fpsr out) (fpcr out)
    (float_regs out).

(** Shifts bind tighter than [&]. *)
Definition arm64_level_revision (M : Mach) : Z * Z :=
  let family := sysctl_by_name 4 "hw.cpufamily" in
  (wrap 16 (Z.land family (Z.shiftr 0xffff0000 16)), wrap 16 (Z.land family 0x0000ffff)).

Definition mac_aarch64 : MacCpu := {|
  RawContextCPU := CONTEXT_ARM64_OLD;
  context_pod := pod_context_arm64;
  default_cpu := default_context_arm64;
  THREAD_STATE_FLAVOR := 6;
  state_pc := arm64_pc;
  state_sp := arm64_sp;
  fill_cpu_context := arm64_fill_cpu_context;
  read_cpu_info _ cpu := cpu;
  processor_architecture_of := ARCHITECTURE_ARM64_OLD;
  processor_level_revision := arm64_level_revision;
|}.
End aarch64.

(** ** Layouts for the examples *)

Definition enc_context_arm64 (c : CONTEXT_ARM64_OLD) : list byte :=
  le_split 8 (a64_context_flags c) ++ take 248 (concat (le_split 8 <$> iregs c) ++ le_split 248 0) ++
  le_split 8 (a64_sp c) ++ le_split 8 (a64_pc c) ++ le_split 4 (cpsr c) ++ le_split 4 (fpsr c) ++
  le_split 4 (fpcr c) ++ take 512 (concat (le_split 16 <$> float_regs c) ++ le_split 512 0).

Definition arm64_layout : Arm64Format := {|
  pod_context_arm64 := pod_of 796 enc_context_arm64;
  CONTEXT_ARM64_OLD_FULL := 0x80000006;
|}.

Lemma arm64_layout_ok : Arm64FormatOk arm64_layout.
Proof.
  apply pod_of_ok. intros c. unfold enc_context_arm64.
  rewrite !length_app, !length_take, !length_app, !length_le_split. lia.
Qed.

Definition mac_cpu_layout : MacCpuFormat := {|
  ContextFlagsCpu_CONTEXT_AMD64 := 0x00100000;
  ARCHITECTURE_AMD64 := 9;
  ARCHITECTURE_ARM64_OLD := 0x8003;
|}.

Definition enc_misc_info (m : MDRawMiscInfo) : list byte :=
  concat (le_split 4 <$> [size_of_info m; flags1 m; process_id m; process_create_time m;
    process_user_time m; process_kernel_time m; processor_max_mhz m; processor_current_mhz m;
    processor_mhz_limit m; processor_max_idle_state m; processor_current_idle_state m]).

Definition mac_layout : MacFormat := {|
  GUID := list byte;
  guid_from l := l;
  pod_misc_info := pod_of 44 enc_misc_info;
  pod_breakpad_info := pod_of 12 (fun b => le_split 4 (validity b) ++ le_split 4 (dump_thread_id b) ++
    le_split 4 (requesting_thread_id b));
  pod_cv_pdb := pod_of 24 (fun c => le_split 4 (cv_signature c) ++
    take 16 (cv_guid c ++ le_split 16 0) ++ le_split 4 (age c));
  size_of_MDRawMiscInfo := 44;
  MiscInfoStream := 15;
  BreakpadInfoStream := 0x47670001;
  MISC1_PROCESS_ID := 1;
  MISC1_PROCESS_TIMES := 2;
  MISC1_PROCESSOR_POWER_INFO := 4;
  BreakpadInfoValid_DumpThreadId := 1;
  BreakpadInfoValid_RequestingThreadId := 2;
  CvSignature_Pdb70 := 0x53445352;
  PlatformId_MacOs := 0x8101;
|}.

Lemma mac_layout_ok : MacFormatOk mac_layout.
Proof.
  constructor; apply pod_of_ok; intros v.
  - unfold enc_misc_info. cbn [fmap list_fmap concat]. by rewrite !length_app, !length_le_split.
  - by rewrite !length_app, !length_le_split.
  - rewrite !length_app, !length_take, !length_app, !length_le_split. lia.
Qed.

(** ** Theory *)

Lemma land_bit_zero set k :
  0 <= k -> (Z.land set (Z.shiftl 1 k) =? 0) = negb (Z.testbit set k).
Proof.
  intros Hk. destruct (Z.testbit set k) eqn:Hb.
  - apply Z.eqb_neq. intros Hz. apply (f_equal (fun z => Z.testbit z k)) in Hz.
    rewrite Z.land_spec, Z.shiftl_spec, Hb, Z.sub_diag, Z.bits_0 in Hz by lia. done.
  - apply Z.eqb_eq, Z.bits_inj'. intros i Hi. rewrite Z.land_spec, Z.shiftl_spec, Z.bits_0 by lia.
    destruct (decide (i = k)) as [->|]; [by rewrite Hb|].
    destruct (decide (i < k)); [rewrite (Z.testbit_neg_r 1) by lia; apply andb_false_r|].
    rewrite Z.bit0_odd || idtac. change 1 with (2 ^ 0). rewrite Z.pow2_bits_false by lia.
    apply andb_false_r.
Qed.

Lemma lor_bit md k i :
  0 <= k -> 0 <= i -> Z.testbit (Z.lor md (Z.shiftl 1 k)) i = Z.testbit md i || (k =? i).
Proof.
  intros Hk Hi. rewrite Z.lor_spec, Z.shiftl_1_l, Z.pow2_bits_eqb by lia. done.
Qed.

Lemma map_features_bits set table : forall md i,
  Forall (fun '(c, m) => 0 <= c /\ 0 <= m) table -> 0 <= i ->
  Z.testbit (map_features set table md) i =
    Z.testbit md i || existsb (fun '(c, m) => Z.testbit set c && (m =? i)) table.
Proof.
  induction table as [|[c m] table IH]; intros md i HF Hi; cbn [map_features fold_left existsb].
  { by rewrite orb_false_r. }
  apply Forall_cons in HF as [[Hc Hm] HF].
  change (fold_left _ table ?x) with (map_features set table x). rewrite IH by done.
  rewrite orb_assoc. f_equal. unfold map_feature. rewrite land_bit_zero by done.
  destruct (Z.testbit set c); cbn [negb andb]; [by rewrite lor_bit|by rewrite orb_false_r].
Qed.

(** ** Properties *)

(** the processor features of the macOS system information are exactly those
    of the tables: a feature bit is set when it is one of the three that every
    supported processor has, or when the cpuid bit its table pairs with it is
    set in the word the table belongs to. *)
Theorem x86_features_bits (features ext_features leaf_features i : Z) :
  0 <= i ->
  Z.testbit (x86_features features ext_features leaf_features) i =
    existsb (Z.eqb i) [2; 11; 12] ||
    existsb (fun '(c, m) => Z.testbit features c && (m =? i)) base_features ||
    existsb (fun '(c, m) => Z.testbit ext_features c && (m =? i)) extended_features ||
    existsb (fun '(c, m) => Z.testbit leaf_features c && (m =? i)) leaf7_features.
Proof.
  intros Hi. unfold x86_features. cbv zeta. rewrite !lor_bit by lia.
  rewrite !map_features_bits by (first [lia|repeat constructor; lia]).
  rewrite Z.shiftl_1_l, Z.pow2_bits_eqb by lia. cbn [existsb].
  rewrite (Z.eqb_sym i 2), (Z.eqb_sym i 11), (Z.eqb_sym i 12).
  repeat match goal with |- context [existsb ?p ?l] => generalize (existsb p l); intros end.
  destruct (2 =? i), (11 =? i), (12 =? i); cbn; rewrite ?orb_true_r, ?orb_false_r; try done.
Qed.

Lemma x86_features_bits_witness :
  Z.testbit (x86_features (Z.shiftl 1 26) 0 1) 10 = true /\
  Z.testbit (x86_features (Z.shiftl 1 26) 0 1) 22 = true /\
  Z.testbit (x86_features (Z.shiftl 1 26) 0 1) 6 = false.
Proof.
  split; [rewrite (x86_features_bits (Z.shiftl 1 26) 0 1 10) by lia; reflexivity|].
  split; vm_compute; reflexivity.
Defined.

(** on AArch64 the processor level of the system information is always its
    revision, the low half of the processor family: the shift is applied to the
    mask, so the high half of the family is lost. *)
Theorem arm64_level_is_revision (M : Mach) :
  (arm64_level_revision M).1 = (arm64_level_revision M).2 /\
  (arm64_level_revision M).1 = sysctl_by_name 4 "hw.cpufamily" mod 2 ^ 16.
Proof.
  unfold arm64_level_revision. cbv zeta. cbn [fst snd]. split; [done|].
  change (Z.shiftr 0xffff0000 16) with (Z.ones 16). rewrite Z.land_ones by lia.
  apply wrap_small. split; [apply Z.mod_pos_bound; lia|]. apply Z.mod_pos_bound. lia.
Qed.
