(* ===== verification/MacStreams.v ===== *)
(** * The streams of the macOS writer (src/src/mac/streams/)

    Threads, memory, system and process information, thread names and the
    exception; the module list is in MacModules.v. *)
From Stdlib Require Import ZArith Lia String.
From S2P Require Import Prelude Format Layout MemWriter DirSection Driver RustStr Os Mach TaskDumper.
From S2P Require Import MacConfig.

Local Open Scope Z_scope.

(** mach/vm_statistics.h, mach/vm_prot.h, mach/exception_types.h, mach/task_info.h,
    mach/thread_info.h *)
Definition VM_MEMORY_STACK : Z := 30.
Definition VM_PROT_READ : Z := 1.
Definition EXC_BAD_ACCESS : Z := 1.
Definition EXC_CRASH : Z := 10.
Definition EXC_RESOURCE : Z := 11.
Definition EXC_GUARD : Z := 12.
Definition EXC_CORPSE_NOTIFY : Z := 13.
Definition MACH_TASK_BASIC_INFO : Z := 20.
Definition TASK_THREAD_TIMES_INFO : Z := 3.
Definition THREAD_EXTENDED_INFO : Z := 5.

Section mac_streams.
Context `{TG : Target} {F : Format} {MF : MacFormat} {M : Mach} {CPU : MacCpu}.
(** Bounds the walk over the regions of a stack. *)
Context (fuel : nat).

(** ** thread_list.rs *)

(** [MemoryArrayWriter::alloc_array] for a number of slots the caller computed:
    a number that does not fit an address space overflows in the size of the
    reservation. *)
Definition alloc_slots (T : Type) `{Pod T} (n : Z)
    : ST Buffer MemoryWriterError (MemoryArrayWriter T) := fun b =>
  let size := Z.of_nat (size_with T) in
  if n * size <? 2 ^ (usize_bits - 1) then alloc_array T (Z.to_nat n) b
  else if overflow_checks then (Panic, b)
  else
    let new_len := wrap usize_bits (position b + wrap usize_bits (n * size)) in
    if new_len <? 2 ^ (usize_bits - 1) then
      (Ok (mkMemoryArrayWriter (wrap 32 (position b)) (Z.to_nat n)),
       mkBuffer (vec_resize (Z.to_nat new_len) (inner b)))
    else (Panic, b).

(** The [loop] over abutting regions. *)
Fixpoint stack_regions (n : nat) (dumper : TaskDumper) (region_end stack_size : Z)
    : res TaskDumpError Z :=
  match n with
  | O => Panic
  | S n' =>
      r ← res_ok (get_vm_region dumper region_end);
      match r with
      | None => Ok stack_size
      | Some region =>
          if negb (range_start region =? region_end)
             || negb (user_tag (region_info region) =? VM_MEMORY_STACK)
             || (Z.land (vm_protection (region_info region)) VM_PROT_READ =? 0)
          then Ok stack_size
          else
            extent ← sub_u 64 (range_end region) (range_start region);
            stack_size ← add_u 64 stack_size extent;
            stack_regions n' dumper (range_end region) stack_size
      end
  end.

Definition calculate_stack_size (start_address : Z) (dumper : TaskDumper)
    : res TaskDumpError Z :=
  if start_address =? 0 then Ok 0
  else
    r ← res_ok (get_vm_region dumper start_address);
    match r with
    | None => Ok 0
    | Some region =>
        if start_address <? range_start region then Ok 0
        else
          let root_range_start := range_start region in
          stack_size ← sub_u 64 (range_end region) (range_start region);
          stack_size ← (if user_tag (region_info region) =? VM_MEMORY_STACK
                        then stack_regions fuel dumper (range_end region) stack_size
                        else Ok stack_size);
          stack_end ← add_u 64 root_range_start stack_size;
          size ← sub_u 64 stack_end start_address;
          Ok (wrap usize_bits size)
    end.

(** The stack descriptor of the thread. *)
Definition write_stack_from_start_address (start : Z) (dumper : TaskDumper)
    : Writer WriterError MDMemoryDescriptor :=
  stack_size ← ask (calculate_stack_size start dumper);
  stack_location ← (
    if negb (stack_size =? 0) then
      r ← st_lift (res_ok (read_task_memory dumper 1 start stack_size));
      match r with
      | Some stack_buffer =>
          pos ← get_position;
          buf (write_all stack_buffer);;
          mret (Some (mkLocation (wrap 32 (Z.of_nat (length stack_buffer))) (wrap 32 pos)))
      | None => mret None
      end
    else mret None);
  stack ← match stack_location with
          | Some l => mret (mkMemoryDescriptor start l)
          | None =>
              let borked := if stack_size =? 0 then 0xdeadbeef else 0xdeaddead in
              pos ← get_position;
              buf (write_all (le_split 8 borked));;
              buf (write_all (le_split 8 borked));;
              mret (mkMemoryDescriptor borked (mkLocation 16 (wrap 32 pos)))
          end;
  record_block stack;;
  mret stack.

Definition write_thread (tid : Z) (dumper : TaskDumper) : Writer WriterError MDRawThread :=
  thread_state ← ask (read_thread_state dumper THREAD_STATE_FLAVOR tid);
  stack ← write_stack_from_start_address (state_sp thread_state) dumper;
  let cpu := fill_cpu_context thread_state default_cpu in
  cpu_section ← buf (alloc_with_val cpu);
  mret (mkThread tid 0 0 0 0 stack (mw_location cpu_section)).

Definition write_thread_list (dumper : TaskDumper) : Writer WriterError MDRawDirectory :=
  self ← get_writer;
  threads ← st_lift (threads self dumper);
  len ← st_lift (at_len threads);
  list_header ← buf (alloc_with_val (U32 (wrap 32 len)));
  let dirent := mkDirectory (ThreadListStream stream_types) (mw_location list_header) in
  thread_list ← buf (alloc_slots MDRawThread len);
  dirent ← st_lift (extend_dirent dirent (data_size (maw_location thread_list)));
  st_for_enum 0 (at_items threads) (fun i tid =>
    thread ← write_thread tid dumper;
    buf (set_value_at thread_list thread i));;
  mret dirent.

(** ** memory_list.rs *)

Definition IP_MEM_SIZE : Z := 256.

(** The closure [get_ip_block]. *)
Definition get_ip_block (dumper : TaskDumper) (tid : Z) : res WriterError (option (Z * Z)) :=
  ts ← res_ok (read_thread_state dumper THREAD_STATE_FLAVOR tid);
  match ts with
  | None => Ok None
  | Some thread_state =>
      let ip := state_pc thread_state in
      r ← res_ok (get_vm_region dumper ip);
      match r with
      | None => Ok None
      | Some region =>
          if (ip <? range_start region) || (range_end region <? ip) then Ok None
          else
            before ← sub_u 64 ip (IP_MEM_SIZE / 2);
            after ← add_u 64 ip (IP_MEM_SIZE / 2);
            Ok (Some (Z.max (range_start region) before, Z.min after (range_end region)))
      end
  end.

Definition ip_memory (dumper : TaskDumper) (cc : CrashContext) : Writer WriterError unit :=
  ip_block ← st_lift (get_ip_block dumper (cc_thread cc));
  match ip_block with
  | None => mret tt
  | Some (ip_start, ip_end) =>
      size ← st_lift (sub_u 64 ip_end ip_start);
      stack_buffer ← ask (read_task_memory dumper 1 ip_start (wrap usize_bits size));
      pos ← get_position;
      let ip_location := mkLocation (wrap 32 size) (wrap 32 pos) in
      buf (write_all stack_buffer);;
      record_block (mkMemoryDescriptor ip_start ip_location)
  end.

Definition write_memory_list (dumper : TaskDumper) : Writer WriterError MDRawDirectory :=
  self ← get_writer;
  match crash_context self with
  | Some cc => match cc_exception cc with
               | Some _ => ip_memory dumper cc
               | None => mret tt
               end
  | None => mret tt
  end;;
  self ← get_writer;
  list_header ← buf (alloc_with_val (U32 (wrap 32 (Z.of_nat (length (memory_blocks self))))));
  let dirent := mkDirectory (MemoryListStream stream_types) (mw_location list_header) in
  block_list ← buf (alloc_from_array (memory_blocks self));
  st_lift (extend_dirent dirent (data_size (maw_location block_list))).

(** ** system_info.rs *)

Definition is_dot (c : Z) : bool := c =? 46.

(** [major.minor] with an optional patch level. *)
Definition parse_version (vers : list Z) : option (Z * Z * Z) :=
  match split_on is_dot vers with
  | major :: minor :: rest =>
      major ← parse_uint 32 10 major;
      minor ← parse_uint 32 10 minor;
      let patch := default 0 (match rest with p :: _ => parse_uint 32 10 p | [] => None end) in
      Some (major, minor, patch)
  | _ => None
  end.

Definition os_version : Z * Z * Z :=
  default (0, 0, 0) (parse_version (sysctl_string "kern.osproductversion")).

Definition build_version : list Z := sysctl_string "kern.osversion".

Definition write_system_info (_dumper : TaskDumper) : Writer WriterError MDRawDirectory :=
  info_section ← buf (alloc MDRawSystemInfo);
  let dirent := mkDirectory (SystemInfoStream stream_types) (mw_location info_section) in
  let number_of_processors := int_sysctl_by_name 8 "hw.ncpu" in
  let cpu := read_cpu_info M (replicate 24 Byte.x00) in
  let '(processor_level, processor_revision) := processor_level_revision M in
  let '(major_version, minor_version, build_number) := os_version in
  os_version_loc ← buf (write_string_to_location build_version);
  let info := mkSystemInfo (wrap 16 processor_architecture_of) processor_level processor_revision
    number_of_processors 1 major_version minor_version build_number PlatformId_MacOs
    (rva os_version_loc) cpu in
  buf (set_value info_section info);;
  mret dirent.

(** ** misc_info.rs *)

Record TimeValue := mkTimeValue { tv_seconds : Z; tv_microseconds : Z }.
Definition TimeValue_of (l : list byte) : TimeValue := mkTimeValue (i32_at 0 l) (i32_at 4 l).

(** [std::time::Duration]: [Duration::new] and [+] *)
Record Duration := mkDuration { secs : Z; nanos : Z }.

Definition Duration_new (s n : Z) : res WriterError Duration :=
  if n <? 10 ^ 9 then Ok (mkDuration s n)
  else let s' := s + n / 10 ^ 9 in
       if s' <? 2 ^ 64 then Ok (mkDuration s' (n mod 10 ^ 9)) else Panic.

Definition Duration_add (a b : Duration) : res WriterError Duration :=
  let n := nanos a + nanos b in
  let s := secs a + secs b + n / 10 ^ 9 in
  if s <? 2 ^ 64 then Ok (mkDuration s (n mod 10 ^ 9)) else Panic.

(** [impl From<TimeValue> for Duration] *)
Definition duration_from (tv : TimeValue) : res WriterError Duration :=
  let seconds := wrap 64 (tv_seconds tv) in
  let microseconds := wrap 32 (tv_microseconds tv) in
  '(seconds, microseconds) ← (
    if 1000000 <=? tv_microseconds tv then
      s ← add_u 64 seconds 1; us ← sub_u 32 microseconds 1000000; Ok (s, us)
    else Ok (seconds, microseconds));
  n ← mul_u 32 microseconds 1000;
  Duration_new seconds n.

Record MachTaskBasicInfo := mkTaskBasicInfo {
  virtual_size : Z; resident_size : Z; resident_size_max : Z; bi_user_time : TimeValue;
  bi_system_time : TimeValue; policy : Z; bi_suspend_count : Z;
}.
Definition size_of_MachTaskBasicInfo : nat := 48.
Definition MachTaskBasicInfo_of (l : list byte) : MachTaskBasicInfo :=
  mkTaskBasicInfo (u64_at 0 l) (u64_at 8 l) (u64_at 16 l) (TimeValue_of (drop 24 l))
    (TimeValue_of (drop 32 l)) (i32_at 40 l) (i32_at 44 l).

Record TaskThreadsTimeInfo := mkTaskThreadsTimeInfo {
  tt_user_time : TimeValue; tt_system_time : TimeValue;
}.
Definition size_of_TaskThreadsTimeInfo : nat := 16.
Definition TaskThreadsTimeInfo_of (l : list byte) : TaskThreadsTimeInfo :=
  mkTaskThreadsTimeInfo (TimeValue_of l) (TimeValue_of (drop 8 l)).

(** [info.map(|i| Duration::from(i.time)).unwrap_or_default()] *)
Definition time_of {T} (get : T -> TimeValue) (info : option T) : res WriterError Duration :=
  match info with Some i => duration_from (get i) | None => Ok (mkDuration 0 0) end.

(** [(max / 1000 * 1000) as u32] *)
Definition processor_mhz (frequency : Z) : Z := wrap 32 (frequency / 1000 * 1000).

Definition write_misc_info (dumper : TaskDumper) : Writer WriterError MDRawDirectory :=
  info_section ← buf (alloc MDRawMiscInfo);
  let dirent := mkDirectory MiscInfoStream (mw_location info_section) in
  pid ← ask (pid_for_task dumper);
  let create_time := match proc_pidinfo_start pid with Some t => wrap 32 t | None => 0 end in
  basic_info ← st_lift (res_ok (task_info dumper MACH_TASK_BASIC_INFO
                 size_of_MachTaskBasicInfo MachTaskBasicInfo_of));
  thread_times_info ← st_lift (res_ok (task_info dumper TASK_THREAD_TIMES_INFO
                 size_of_TaskThreadsTimeInfo TaskThreadsTimeInfo_of));
  u1 ← st_lift (time_of bi_user_time basic_info);
  u2 ← st_lift (time_of tt_user_time thread_times_info);
  user_time ← st_lift (Duration_add u1 u2);
  s1 ← st_lift (time_of bi_system_time basic_info);
  s2 ← st_lift (time_of tt_system_time thread_times_info);
  system_time ← st_lift (Duration_add s1 s2);
  let max := processor_mhz (sysctl_by_name 8 "hw.cpufrequency_max") in
  let current := processor_mhz (sysctl_by_name 8 "hw.cpufrequency") in
  let flags := Z.lor (Z.lor MISC1_PROCESS_ID MISC1_PROCESS_TIMES) MISC1_PROCESSOR_POWER_INFO in
  let misc_info := mkMiscInfo (wrap 32 size_of_MDRawMiscInfo) flags (wrap 32 pid) create_time
    (wrap 32 (secs user_time)) (wrap 32 (secs system_time)) max current max 0 0 in
  buf (set_value info_section misc_info);;
  mret dirent.

(** ** breakpad_info.rs *)

Definition write_breakpad_info (_dumper : TaskDumper) : Writer WriterError MDRawDirectory :=
  self ← get_writer;
  bp_section ← buf (alloc_with_val (mkBreakpadInfo
    (Z.lor BreakpadInfoValid_DumpThreadId BreakpadInfoValid_RequestingThreadId)
    (handler_thread self)
    (match crash_context self with Some cc => cc_thread cc | None => 0 end)));
  mret (mkDirectory BreakpadInfoStream (mw_location bp_section)).

(** ** thread_names.rs *)

(** [libc::proc_threadinfo]: the name is its last 64 bytes. *)
Definition size_of_proc_threadinfo : nat := 112.
Definition pth_name (l : list byte) : list byte := bytes_at 48 64 l.

Definition write_thread_name (dumper : TaskDumper) (tid : Z)
    : Writer WriterError MDLocationDescriptor :=
  raw ← ask (thread_info dumper THREAD_EXTENDED_INFO size_of_proc_threadinfo pth_name tid);
  let name := default [] (from_utf8 raw) in
  let tname := match find_idx (fun c => c =? 0) name with
               | Some i => take i name
               | None => name
               end in
  buf (write_string_to_location tname).

Definition write_thread_names (dumper : TaskDumper) : Writer WriterError MDRawDirectory :=
  self ← get_writer;
  threads ← st_lift (threads self dumper);
  len ← st_lift (at_len threads);
  list_header ← buf (alloc_with_val (U32 (wrap 32 len)));
  let dirent := mkDirectory (ThreadNamesStream stream_types) (mw_location list_header) in
  names ← buf (alloc_slots MDRawThreadName len);
  dirent ← st_lift (extend_dirent dirent (data_size (maw_location names)));
  st_for_enum 0 (at_items threads) (fun i tid =>
    r ← st_try (write_thread_name dumper tid);
    name_loc ← match r with
               | inr loc => mret loc
               | inl _ => buf (write_string_to_location [])
               end;
    buf (set_value_at names (mkThreadName tid (rva name_loc)) i));;
  mret dirent.

(** ** exception.rs *)

Definition is_valid_exc_crash (exc_code : Z) : bool :=
  let wrapped := wrap 32 (Z.land (Z.shiftr exc_code 20) 0xf) in
  negb ((wrapped =? EXC_CRASH) || (wrapped =? EXC_RESOURCE) || (wrapped =? EXC_GUARD)
        || (wrapped =? EXC_CORPSE_NOTIFY)).

Record WrappedException := mkWrapped { we_kind : Z; we_code : Z; we_signal : Z }.

Definition recover_exc_crash_wrapped_exception (code : Z) : option WrappedException :=
  if is_valid_exc_crash code then
    Some (mkWrapped (wrap 32 (Z.land (Z.shiftr code 20) 0xf)) (wrap 32 (Z.land code 0xfffff))
            (wrap 8 (Z.land (Z.shiftr code 24) 0xff)))
  else None.

(** The exception record of the stream. *)
Definition exception_record_of (exc : ExceptionInfo) (thread_state : option ThreadState)
    : MDException :=
  let code := wrap 64 (code exc) in
  let wrapped_exc := if wrap 32 (kind exc) =? EXC_CRASH
                     then recover_exc_crash_wrapped_exception code else None in
  let exception_code :=
    if (wrap 32 (kind exc) =? EXC_RESOURCE) || (wrap 32 (kind exc) =? EXC_GUARD)
    then wrap 32 (Z.shiftr code 32)
    else match wrapped_exc with
         | Some wrapped => we_code wrapped
         | None => wrap 32 code
         end in
  let exception_kind := match wrapped_exc with
                        | Some wrapped => we_kind wrapped
                        | None => kind exc
                        end in
  let exception_address :=
    match subcode exc with
    | Some s => if exception_kind =? EXC_BAD_ACCESS then s
                else match thread_state with Some ts => state_pc ts | None => 0 end
    | None => match thread_state with Some ts => state_pc ts | None => 0 end
    end in
  let information := match subcode exc with
                     | Some s => [exception_kind; code; s] ++ replicate 12 0
                     | None => [exception_kind; code] ++ replicate 13 0
                     end in
  mkException exception_kind exception_code exception_address
    (match subcode exc with Some _ => 3 | None => 2 end) information.

Definition write_exception (dumper : TaskDumper) : Writer WriterError MDRawDirectory :=
  self ← get_writer;
  crash_context ← st_lift (ok_or (crash_context self) NoCrashContext);
  thread_state ← st_lift (res_ok (read_thread_state dumper THREAD_STATE_FLAVOR
                                    (cc_thread crash_context)));
  thread_context ← match thread_state with
                   | Some ts =>
                       let cpu := fill_cpu_context ts default_cpu in
                       r ← st_try (buf (alloc_with_val cpu));
                       mret (match r with inr mw => Some (mw_location mw) | inl _ => None end)
                   | None => mret None
                   end;
  let exception_record := match cc_exception crash_context with
                          | Some exc => exception_record_of exc thread_state
                          | None => default_exception
                          end in
  let stream := mkExceptionStream (cc_thread crash_context) exception_record 0
                  (default default_location thread_context) in
  exc_section ← buf (alloc_with_val stream);
  mret (mkDirectory (ExceptionStream stream_types) (mw_location exc_section)).
End mac_streams.
