(* ===== verification/MacModules.v ===== *)
(** * The module list of the macOS writer (src/src/mac/streams/module_list.rs)

    The images of the task are sorted by load address and freed of duplicates;
    each is described by its load commands and becomes a module record, the
    images without a version in front. *)
From Stdlib Require Import ZArith Lia String Sorted.
From S2P Require Import Prelude Format Layout MemWriter DirSection Driver RustStr Os Mach TaskDumper.
From S2P Require Import MacConfig.

Local Open Scope Z_scope.

Record ImageLoadInfo := mkLoadInfo { li_vm_addr : Z; li_vm_size : Z; slide : Z }.

Record ImageDetails := mkDetails {
  uuid : list byte;
  load_info : ImageLoadInfo;
  file_path : option (list Z);
  image_version : option Z;
}.

(** [+] and [-] of [isize]. *)
Definition checked_isize {E} `{Target} (x : Z) : res E Z :=
  if (- 2 ^ (usize_bits - 1) <=? x) && (x <? 2 ^ (usize_bits - 1)) then Ok x
  else if overflow_checks then Panic else Ok (swrap usize_bits x).

(** [<[ImageInfo]>::sort], which is stable: an image goes in front of the first
    one that is not below it. *)
Fixpoint insert_image (x : ImageInfo) (l : list ImageInfo) : list ImageInfo :=
  match l with
  | [] => [x]
  | y :: l' => match image_cmp x y with
               | Gt => y :: insert_image x l'
               | _ => x :: y :: l'
               end
  end.

Definition sort_images (l : list ImageInfo) : list ImageInfo := foldr insert_image [] l.

(** [Vec::dedup]: of equal neighbours the first stays. *)
Fixpoint dedup_from (x : ImageInfo) (l : list ImageInfo) : list ImageInfo :=
  match l with
  | [] => [x]
  | y :: l' => if image_eqb y x then dedup_from x l' else x :: dedup_from y l'
  end.

Definition dedup_images (l : list ImageInfo) : list ImageInfo :=
  match l with [] => [] | x :: l' => dedup_from x l' end.

Section module_list.
Context `{TG : Target} {F : Format} {MF : MacFormat} {M : Mach}.

(** What the loop over the load commands has found. *)
Record Found := mkFound {
  f_load_info : option ImageLoadInfo;
  f_version : option Z;
  f_uuid : option (list byte);
  f_file_path : option (list Z);
}.

Definition is_some {A} (o : option A) : bool := match o with Some _ => true | None => false end.

Definition is_text (seg : SegmentCommand64) : bool :=
  bool_decide (take 7 (segment_name seg) = bytes_of "__TEXT" ++ [Byte.x00]).

(** One command; [dyld] tells [read_dyld] from [read_image], which does not look
    at linker commands. *)
Definition image_command (dyld : bool) (load_address : Z) (lc : LoadCommand) (f : Found)
    : res TaskDumpError Found :=
  match lc with
  | LC_Segment seg =>
      if is_some (f_load_info f) then Ok f
      else if is_text seg then
        slide ← checked_isize (swrap usize_bits load_address - swrap usize_bits (vm_addr seg));
        Ok (mkFound (Some (mkLoadInfo (vm_addr seg) (vm_size seg) slide)) (f_version f) (f_uuid f)
              (f_file_path f))
      else Ok f
  | LC_Dylib d =>
      if is_some (f_version f) then Ok f
      else Ok (mkFound (f_load_info f) (Some (current_version (dylib d))) (f_uuid f)
                 (f_file_path f))
  | LC_Uuid u =>
      if is_some (f_uuid f) then Ok f
      else Ok (mkFound (f_load_info f) (f_version f) (Some (cmd_uuid u)) (f_file_path f))
  | LC_Dylinker d =>
      if dyld then
        if is_some (f_file_path f) then Ok f
        else Ok (mkFound (f_load_info f) (f_version f) (f_uuid f) (Some (dl_name d)))
      else Ok f
  end.

Definition all_found (dyld : bool) (f : Found) : bool :=
  is_some (f_load_info f) && is_some (f_version f) && is_some (f_uuid f) &&
  (negb dyld || is_some (f_file_path f)).

(** The loop; an item costs one of the count, so [S count] is enough fuel. *)
Fixpoint image_commands (dyld : bool) (fuel : nat) (load_address : Z) (it : LoadCommandsIter)
    (f : Found) : res TaskDumpError Found :=
  match fuel with
  | O => Panic
  | S fuel' =>
      '(o, it') ← lc_next it;
      match o with
      | None => Ok f
      | Some lc =>
          f' ← image_command dyld load_address lc f;
          if all_found dyld f' then Ok f' else image_commands dyld fuel' load_address it' f'
      end
  end.

Definition scan_image (dyld : bool) (image : ImageInfo) (dumper : TaskDumper)
    : res TaskDumpError Found :=
  load_commands ← read_load_commands dumper image;
  let it := lc_iter load_commands in
  image_commands dyld (S (it_count it)) (load_address image) it (mkFound None None None None).

Definition required (f : Found) : res TaskDumpError (ImageLoadInfo * list byte) :=
  load_info ← ok_or (f_load_info f) (MissingLoadCommand "LC_SEGMENT_64" Segment);
  uuid ← ok_or (f_uuid f) (MissingLoadCommand "LC_UUID" Uuid);
  Ok (load_info, uuid).

Definition read_image (image : ImageInfo) (dumper : TaskDumper)
    : res TaskDumpError ImageDetails :=
  f ← scan_image false image dumper;
  '(load_info, uuid) ← required f;
  file_path ← (if negb (img_file_path image =? 0) then
                 r ← res_ok (read_string dumper (img_file_path image) None);
                 Ok (default None r)
               else Ok None);
  Ok (mkDetails uuid load_info file_path (f_version f)).

Definition read_dyld (all_images : AllImagesInfo) (dumper : TaskDumper)
    : res TaskDumpError ImageDetails :=
  let image := mkImageInfo (dyld_image_load_address all_images) 0 0 in
  f ← scan_image true image dumper;
  '(load_info, uuid) ← required f;
  Ok (mkDetails uuid load_info (f_file_path f) (f_version f)).

Definition is_slash_char (c : Z) : bool := c =? 47.

(** The name in the debug record: what follows the last slash. *)
Definition module_file_name (file_path : list Z) : list Z :=
  match rfind_idx is_slash_char file_path with
  | Some sep_index => drop (S sep_index) file_path
  | None => match file_path with [] => str_of "<Unknown>" | _ => file_path end
  end.

(** The version in the format of the minidump. *)
Definition module_version (version : option Z) : VS_FIXEDFILEINFO :=
  match version with
  | Some v => mkFixedFileInfo VS_FFI_SIGNATURE VS_FFI_STRUCVERSION (Z.shiftr v 16)
                (Z.lor (wrap 32 (Z.shiftl (Z.land v 0xff00) 8)) (Z.land v 0xff)) 0 0
  | None => default_fixed_file_info
  end.

Definition write_module (image : ImageDetails) : ST Buffer WriterError MDRawModule :=
  let mem {T} (m : ST Buffer MemoryWriterError T) := st_map_err WE_MemoryWriterError m in
  let file_path := default [] (file_path image) in
  module_name ← mem (write_string_to_location file_path);
  base ← st_lift (checked_isize (swrap usize_bits (li_vm_addr (load_info image)) +
                                 slide (load_info image)));
  let name := utf8_encode (module_file_name file_path) in
  cv ← mem (alloc_with_val (mkCvInfoPdb CvSignature_Pdb70 (guid_from (uuid image)) 0));
  write_all name;;
  write_all [Byte.x00];;
  name_size ← st_lift (add_u 32 (wrap 32 (Z.of_nat (length name))) 1);
  cv_size ← st_lift (add_u 32 (data_size (mw_location cv)) name_size);
  mret (mkModule (wrap 64 base) (wrap 32 (li_vm_size (load_info image)))
          (mkLocation cv_size (rva (mw_location cv))) (rva module_name)
          (module_version (image_version image))).

(** The loop over the images. *)
Fixpoint write_images (images : list ImageInfo) (dumper : TaskDumper) (modules : list MDRawModule)
    : ST Buffer WriterError (list MDRawModule) :=
  match images with
  | [] => mret modules
  | image :: images' =>
      r ← st_lift (res_ok (read_image image dumper));
      match r with
      | None => write_images images' dumper modules
      | Some image_details =>
          let is_main_executable := negb (is_some (image_version image_details)) in
          w ← st_try (write_module image_details);
          match w with
          | inl _ => write_images images' dumper modules
          | inr module =>
              write_images images' dumper
                (if is_main_executable then module :: modules else modules ++ [module])
          end
      end
  end.

Definition write_loaded_modules (dumper : TaskDumper)
    : ST Buffer WriterError (list MDRawModule) :=
  '(all_images_info, images) ← st_lift (map_err WE_TaskDumpError (read_images dumper));
  let images := dedup_images (sort_images images) in
  modules ← write_images images dumper [];
  let main_first := match modules with
                    | rm :: _ => negb (ffi_signature (version_info rm) =? VS_FFI_SIGNATURE)
                    | [] => false
                    end in
  if negb main_first then st_lift (Err (WE_TaskDumpError NoExecutableImage))
  else
    r ← st_lift (res_ok (read_dyld all_images_info dumper));
    match r with
    | None => mret modules
    | Some dyld_image =>
        w ← st_try (write_module dyld_image);
        mret (match w with inr module => modules ++ [module] | inl _ => modules end)
    end.

Definition write_module_list (dumper : TaskDumper) : Writer WriterError MDRawDirectory :=
  r ← st_try (on_buf (write_loaded_modules dumper));
  let modules := match r with inr ms => ms | inl _ => [] end in
  list_header ← buf (alloc_with_val (U32 (wrap 32 (Z.of_nat (length modules)))));
  let dirent := mkDirectory (ModuleListStream stream_types) (mw_location list_header) in
  match modules with
  | [] => mret dirent
  | _ =>
      mapping_list ← buf (alloc_from_iter modules);
      st_lift (extend_dirent dirent (data_size (maw_location mapping_list)))
  end.
End module_list.
