(* ===== verification/MacWriter.v ===== *)
(** * Writing a dump on macOS (src/src/mac/minidump_writer.rs)

    [dump] lays out the header and a directory with one slot per stream, runs
    the stream writers in order and mirrors the buffer to the destination after
    each of them. *)
From Stdlib Require Import ZArith Lia String.
From S2P Require Import Prelude Format Layout MemWriter DirSection Driver RustStr Os Mach TaskDumper.
From S2P Require Import MacConfig MacStreams MacModules.

Local Open Scope Z_scope.

Section mac_writer.
Context `{TG : Target} {F : Format} {MF : MacFormat} {M : Mach} {CPU : MacCpu}.
Context {W : Type} `{Destination W}.
Context (fuel : nat).

Notation Dump E := (ST (MinidumpWriter * DirSection W * Buffer) E).

Definition has_exception (self : MinidumpWriter) : bool :=
  match crash_context self with
  | Some cc => match cc_exception cc with Some _ => true | None => false end
  | None => false
  end.

(** The exception stream is last, as it may be left out. *)
Definition writers (exception : bool)
    : list (TaskDumper -> Writer WriterError MDRawDirectory) :=
  [write_thread_list fuel; write_memory_list; write_system_info; write_module_list;
   write_misc_info; write_breakpad_info; write_thread_names] ++
  (if exception then [write_exception] else []).

Definition header_of (num_writers directory_rva time : Z) : MDRawHeader :=
  mkHeader MD_HEADER_SIGNATURE MD_HEADER_VERSION num_writers directory_rva 0 (wrap 32 time) 0.

(** The header, its flush, and the streams with theirs. *)
Definition write_streams (exception : bool) (header_section : MemoryWriter MDRawHeader)
    : Dump WriterError unit :=
  '(self, dir_section, _) ← st_get;
  time ← st_lift (or_panic system_time);
  on_dump_buf WE_MemoryWriterError (set_value header_section
    (header_of (Z.of_nat (length (writers exception))) (dir_position dir_section) time));;
  st_map_err WE_FileWriterError (flush None);;
  let dumper := TaskDumper_new (task self) in
  st_for (writers exception) (fun writer =>
    dirent ← on_writer id (writer dumper);
    st_map_err WE_FileWriterError (flush (Some dirent))).

Definition dump_into : ST (MinidumpWriter * W * Buffer) WriterError (list byte) :=
  '(self, _, _) ← st_get;
  let exception := has_exception self in
  let num_writers := wrap 32 (Z.of_nat (length (writers exception))) in
  header_section ← st_map_err WE_MemoryWriterError (on_buf (alloc MDRawHeader));
  dir_section ← st_map_err WE_FileWriterError
    (st_zoom (fun s => (snd (fst s), snd s)) (fun t s => (fst (fst s), fst t, snd t))
       (DirSection_new num_writers));
  with_dir dir_section (write_streams exception header_section);;
  '(_, _, buffer) ← st_get;
  mret (inner buffer).

(** [dump] on a new buffer. *)
Definition dump : ST (MinidumpWriter * W) WriterError (list byte) := fun '(self, w) =>
  let '(r, (self', w', _)) := dump_into (self, w, with_capacity 0) in
  (r, (self', w')).
End mac_writer.
