(* ===== verification/MacSpec.v ===== *)
(** * The macOS dump on disk

    The stream writers of MacStreams.v and MacModules.v only append to the
    buffer or fill their own slots, and each that returns has placed its stream
    inside it; with that the rules of DumpPlan.v give the contents of the
    destination for every run of [dump] (src/src/mac/minidump_writer.rs). *)
From Stdlib Require Import ZArith Lia String.
From S2P Require Import Prelude Format Layout MemWriter DirSection Driver DumpPlan RustStr Os.
From S2P Require Import Contexts Mach TaskDumper MacConfig MacCpus MacStreams MacModules MacWriter.

Local Open Scope Z_scope.
Local Notation length := List.length.

(** What the number of threads relies on: a build that checks overflow, or a
    task whose threads can be listed, at least one of them. *)
Record threads_known `{TG : Target} {F : Format} {M : Mach} (task : Z) : Prop := {
  known_64 : pointer_width = W64;
  known_sizes : Z.of_nat (size_with MDRawThread) <= 2 ^ 16 /\
    Z.of_nat (size_with MDRawThreadName) <= 2 ^ 16;
  known_list : overflow_checks = true \/
    exists ts, task_threads task = inr ts /\ 0 < Z.of_nat (length ts) < 2 ^ 32;
}.

Lemma frame_bind_lift {St E A B} `{HasBuffer St} n (m : res E A) (f : A -> ST St E B) :
  (forall a, m = Ok a -> frame n (f a)) -> frame n (st_lift m ≫= f).
Proof.
  intros Hf. destruct m as [a|e|].
  - apply (Hf a eq_refl).
  - split; [intros s; reflexivity|done].
  - split; [intros s; reflexivity|done].
Qed.

Section frames.
Context `{TG : Target} {F : Format} {FO : FormatOk F} {MF : MacFormat} {MFO : MacFormatOk MF}.
Context {M : Mach} {CPU : MacCpu} {CO : MacCpuOk CPU}.
Context (fuel : nat).

Lemma frame_get_writer {E} n : frame (E := E) n get_writer.
Proof. unfold get_writer. frame_tac. Qed.

Lemma mac_frame_get_position {E} n : frame (E := E) n get_position.
Proof. unfold get_position. frame_tac. Qed.

Lemma frame_record_block {E} n m : frame (E := E) n (record_block m).
Proof. apply frame_modify. Qed.

Lemma frame_ask {T} n (m : res TaskDumpError T) : frame n (ask m).
Proof. unfold ask. frame_tac. Qed.

Lemma frame_buf {T} n (m : ST Buffer MemoryWriterError T) : frame n m -> frame n (buf m).
Proof. intros. by apply frame_map_err, frame_on_buf. Qed.
Hint Resolve frame_get_writer mac_frame_get_position frame_record_block frame_ask frame_buf : mdw.

Lemma frame_stack start dumper n :
  frame n (write_stack_from_start_address fuel start dumper).
Proof. unfold write_stack_from_start_address. cbv zeta. frame_tac. Qed.
Hint Resolve frame_stack : mdw.

Lemma mac_frame_write_thread tid dumper n : frame n (write_thread fuel tid dumper).
Proof. unfold write_thread. cbv zeta. frame_tac. Qed.
Hint Resolve mac_frame_write_thread : mdw.

Lemma mac_frame_ip_memory dumper cc n : frame n (ip_memory dumper cc).
Proof. unfold ip_memory. cbv zeta. frame_tac. Qed.
Hint Resolve mac_frame_ip_memory : mdw.

Lemma mac_frame_memory_list dumper n : frame n (write_memory_list dumper).
Proof. unfold write_memory_list, buf. cbv zeta. frame_tac. Qed.

Lemma frame_system_info dumper n : frame n (write_system_info dumper).
Proof. unfold write_system_info, buf. cbv zeta. frame_tac. Qed.

Lemma frame_misc_info dumper n : frame n (write_misc_info dumper).
Proof. unfold write_misc_info, buf. cbv zeta. frame_tac. Qed.

Lemma frame_breakpad_info dumper n : frame n (write_breakpad_info dumper).
Proof. unfold write_breakpad_info, buf. cbv zeta. frame_tac. Qed.

Lemma frame_thread_name dumper tid n : frame n (write_thread_name dumper tid).
Proof. unfold write_thread_name. cbv zeta. frame_tac. Qed.
Hint Resolve frame_thread_name : mdw.

Lemma mac_frame_exception dumper n : frame n (write_exception dumper).
Proof. unfold write_exception, buf. cbv zeta. frame_tac. Qed.

Lemma frame_write_module image n : frame n (write_module image).
Proof. unfold write_module. cbv zeta. frame_tac. Qed.
Hint Resolve frame_write_module : mdw.

Lemma frame_write_images images dumper : forall modules n,
  frame n (write_images images dumper modules).
Proof. induction images as [|i images IH]; intros modules n; cbn [write_images]; frame_tac; apply IH. Qed.
Hint Resolve frame_write_images : mdw.

Lemma frame_loaded_modules dumper n : frame n (write_loaded_modules dumper).
Proof. unfold write_loaded_modules. cbv zeta. frame_tac. Qed.
Hint Resolve frame_loaded_modules : mdw.

Lemma frame_module_list dumper n : frame n (write_module_list dumper).
Proof. unfold write_module_list, buf. cbv zeta. frame_tac. Qed.

(** *** The streams with one slot per thread *)

Context (dumper : TaskDumper) (HT : threads_known (td_task dumper)).

Lemma threads_len_small {E} self t len :
  threads (E := E) self dumper = Ok t -> at_len (E := E) t = Ok len ->
  overflow_checks = true \/ 0 <= len < 2 ^ 32.
Proof.
  destruct (known_list _ HT) as [Hc|(ts & Hts & Hl)]; [by left|].
  unfold threads, read_threads. rewrite Hts. intros [= <-]. unfold at_len. cbn [at_threads at_handler default].
  case_match; [rewrite sub_u_ok by lia|]; intros [= <-]; right; lia.
Qed.

Definition slots_small (T : Type) `{Pod T} (len : Z) : Prop :=
  Z.of_nat (size_with T) <= 2 ^ 16 /\ (overflow_checks = true \/ 0 <= len < 2 ^ 32).

Lemma alloc_slots_run (T : Type) `{PodOk T} len b :
  slots_small T len ->
  alloc_slots T len b = (Panic, b) \/ alloc_slots T len b = alloc_array T (Z.to_nat len) b.
Proof.
  intros [Hs Hc]. unfold alloc_slots.
  assert (Hub : usize_bits = 64) by (unfold usize_bits; by rewrite (known_64 _ HT)).
  rewrite Hub. cbv zeta. case_match eqn:Hlt; [by right|]. apply Z.ltb_ge in Hlt.
  destruct Hc as [->|Hl]; [by left|]. exfalso.
  nia.
Qed.

Lemma frame_alloc_slots (T : Type) `{PodOk T} n len :
  slots_small T len -> frame n (alloc_slots T len).
Proof.
  intros Hs. destruct (frame_alloc_array (T := T) n (Z.to_nat len)) as [Hg Hk].
  split; intros b; specialize (Hg b); specialize (Hk b);
    (destruct (alloc_slots_run T len b Hs) as [->| ->]; [cbn; unfold grows in *; auto with lia|done]).
Qed.

Lemma alloc_slots_len (T : Type) `{PodOk T} len b (w : MemoryArrayWriter T) b' :
  slots_small T len -> alloc_slots T len b = (Ok w, b') ->
  buf_len b' = (buf_len b + MemWriter.array_size w * size_with T)%nat.
Proof.
  intros Hs. destruct (alloc_slots_run T len b Hs) as [->| ->]; [done|]. apply alloc_array_len.
Qed.

Lemma frame_bind_slots (T : Type) `{PodOk T} {A} n len
    (f : MemoryArrayWriter T -> Writer WriterError A) :
  slots_small T len ->
  (forall w k, (k <= n)%nat -> (k <= Z.to_nat (maw_position w))%nat -> frame k (f w)) ->
  frame n (buf (alloc_slots T len) ≫= f).
Proof.
  intros Hs Hf. apply (frame_bind_pos maw_position).
  - intros s a s' Hrun. unfold buf in Hrun. apply map_err_ok, on_buf_ok in Hrun as (b' & Hrun & ->).
    destruct (alloc_slots_run T len (get_buf s) Hs) as [Hr|Hr]; rewrite Hr in Hrun; [done|].
    by apply alloc_array_pos in Hrun.
  - apply frame_buf. by apply frame_alloc_slots.
  - exact Hf.
Qed.

Lemma thread_slots_small {E} self t len :
  threads (E := E) self dumper = Ok t -> at_len (E := E) t = Ok len ->
  slots_small MDRawThread len /\ slots_small MDRawThreadName len.
Proof.
  intros Ht Hl. pose proof (threads_len_small _ _ _ Ht Hl). destruct (known_sizes _ HT).
  by split.
Qed.

Lemma mac_frame_thread_list n : frame n (write_thread_list fuel dumper).
Proof.
  unfold write_thread_list. apply frame_bind; [apply frame_get_writer|]. intros self.
  apply frame_bind_lift. intros t Ht. apply frame_bind_lift. intros len Hl.
  destruct (thread_slots_small _ _ _ Ht Hl) as [Hs _].
  apply frame_bind; [unfold buf; frame_tac|]. intros h. cbv zeta.
  apply frame_bind_slots; [apply _|done|]. unfold buf. frame_tac.
Qed.

Lemma mac_frame_thread_names n : frame n (write_thread_names dumper).
Proof.
  unfold write_thread_names. apply frame_bind; [apply frame_get_writer|]. intros self.
  apply frame_bind_lift. intros t Ht. apply frame_bind_lift. intros len Hl.
  destruct (thread_slots_small _ _ _ Ht Hl) as [_ Hs].
  apply frame_bind; [unfold buf; frame_tac|]. intros h. cbv zeta.
  apply frame_bind_slots; [apply _|done|]. unfold buf. frame_tac.
Qed.
End frames.

#[export] Hint Resolve frame_get_writer mac_frame_get_position frame_record_block frame_ask frame_buf
  frame_stack mac_frame_write_thread mac_frame_ip_memory mac_frame_memory_list frame_system_info
  frame_misc_info frame_breakpad_info frame_thread_name mac_frame_exception frame_write_module
  frame_write_images frame_loaded_modules frame_module_list mac_frame_thread_list
  mac_frame_thread_names : mdw.

(** ** Placement *)

Ltac mac_len_facts :=
  repeat first
    [ match goal with HH : buf _ _ = (Ok _, _) |- _ => unfold buf in HH end
    | match goal with
      | HT : threads_known _, Hs : slots_small ?T ?l, HH : alloc_slots ?T ?l _ = (Ok _, _) |- _ =>
          apply (alloc_slots_len _ HT) in HH; [|apply _|exact Hs]
      end
    | alloc_fact
    | growth_fact ltac:(unfold buf; frame_tac) ];
  rewrite ?buf_len_set, ?get_set_buf, ?buf_len_get in *.

Section placements.
Context `{TG : Target} {F : Format} {FO : FormatOk F} {MF : MacFormat} {MFO : MacFormatOk MF}.
Context {M : Mach} {CPU : MacCpu} {CO : MacCpuOk CPU}.
Context (fuel : nat) (dumper : TaskDumper) (HT : threads_known (td_task dumper)).

Ltac open_run :=
  let s := fresh "s" in let a := fresh "a" in let s' := fresh "s'" in
  intros s a s' Hrun Hlt; st_inv.

Lemma mac_memory_list_placed :
  yields (placed (MemoryListStream stream_types)) (write_memory_list dumper).
Proof. unfold write_memory_list. open_run. mac_len_facts. place. Qed.

Lemma breakpad_info_placed : yields (placed BreakpadInfoStream) (write_breakpad_info dumper).
Proof. unfold write_breakpad_info. open_run. mac_len_facts. place. Qed.

Lemma mac_exception_placed : yields (placed (ExceptionStream stream_types)) (write_exception dumper).
Proof. unfold write_exception. open_run. mac_len_facts. place. Qed.

Lemma misc_info_placed : yields (placed MiscInfoStream) (write_misc_info dumper).
Proof. unfold write_misc_info. cbv zeta. open_run. mac_len_facts. place. Qed.

Lemma system_info_placed :
  yields (placed (SystemInfoStream stream_types)) (write_system_info dumper).
Proof.
  unfold write_system_info. cbv zeta. open_run.
  destruct (processor_level_revision M), os_version as [[? ?] ?]. st_inv. mac_len_facts. place.
Qed.

Lemma module_list_placed :
  yields (placed (ModuleListStream stream_types)) (write_module_list dumper).
Proof.
  unfold write_module_list. cbv zeta. open_run.
  match goal with HH : match ?l with [] => _ | _ => _ end _ = _ |- _ => destruct l end;
    st_inv; mac_len_facts; place.
Qed.

Lemma mac_thread_list_placed :
  yields (placed (ThreadListStream stream_types)) (write_thread_list fuel dumper).
Proof.
  unfold write_thread_list. cbv zeta. open_run.
  match goal with H1 : threads _ _ = Ok ?t, H2 : at_len ?t = Ok _ |- _ =>
    destruct (thread_slots_small dumper HT _ _ _ H1 H2) as [Hs _] end.
  mac_len_facts. place.
Qed.

Lemma mac_thread_names_placed :
  yields (placed (ThreadNamesStream stream_types)) (write_thread_names dumper).
Proof.
  unfold write_thread_names. cbv zeta. open_run.
  match goal with H1 : threads _ _ = Ok ?t, H2 : at_len ?t = Ok _ |- _ =>
    destruct (thread_slots_small dumper HT _ _ _ H1 H2) as [_ Hs] end.
  mac_len_facts. place.
Qed.
End placements.

(** ** The run *)

(** The streams in the order of their directory entries. *)
Definition mac_stream_order {F : Format} {MF : MacFormat} (exception : bool) : list Z :=
  [ThreadListStream stream_types; MemoryListStream stream_types; SystemInfoStream stream_types;
   ModuleListStream stream_types; MiscInfoStream; BreakpadInfoStream;
   ThreadNamesStream stream_types] ++
  (if exception then [ExceptionStream stream_types] else []).

Definition mac_plan {F : Format} {MF : MacFormat} (exception : bool) : StreamPlan := {|
  slot_spec := Z;
  plan := mac_stream_order exception;
  slot_ok n ty e := placed ty e n;
  slot_ok_mono n n' ty e Hn He := placed_mono ty e n n' He Hn;
|}.

Section run.
Context `{TG : Target} {F : Format} {FO : FormatOk F} {MF : MacFormat} {MFO : MacFormatOk MF}.
Context {M : Mach} {CPU : MacCpu} {CO : MacCpuOk CPU}.
Context (fuel : nat) (exception : bool).

#[local] Existing Instance mac_plan.

Lemma length_writers : length (writers fuel exception) = length (mac_stream_order exception).
Proof. by destruct exception. Qed.

Lemma writers_hoare pre hdr dumper :
  threads_known (td_task dumper) ->
  hoare (SP := mac_plan exception) pre hdr (Clean (SP := mac_plan exception) pre hdr 0)
    (st_for (writers fuel exception) (fun writer =>
       dirent ← on_writer (C := MinidumpWriter) id (writer dumper);
       st_map_err WE_FileWriterError (flush (Some dirent))))
    (fun _ => Clean (SP := mac_plan exception) pre hdr (length (mac_stream_order exception))).
Proof.
  intros HT.
  apply (hoare_ext (SP := mac_plan exception) pre hdr _ _
    (st_for ((fun w => w dumper) <$> writers fuel exception) (fun m =>
       e ← on_writer id m; st_map_err WE_FileWriterError (flush (Some e)))));
    [intros s; by rewrite (st_for_map (fun w => w dumper))|].
  rewrite <- length_writers, <- (length_fmap (fun w => w dumper) (writers fuel exception)).
  apply (stage_list (SP := mac_plan exception) pre hdr id WE_FileWriterError
    ((fun w => w dumper) <$> writers fuel exception) 0 (mac_stream_order exception)).
  - unfold writers, mac_stream_order. destruct exception; cbn [app fmap list_fmap];
      repeat (constructor; [split; [by auto with mdw|]|]);
      first [by apply mac_thread_list_placed|apply mac_memory_list_placed|apply system_info_placed
            |apply module_list_placed|apply misc_info_placed|apply breakpad_info_placed
            |by apply mac_thread_names_placed|apply mac_exception_placed|constructor].
  - done.
Qed.

Lemma write_streams_run c f w b now :
  system_time = Some now ->
  write_streams (W := File) fuel exception w (c, start_dir (SP := mac_plan exception) f, b) =
  (flush_header WE_MemoryWriterError WE_FileWriterError w
     (header_of (Z.of_nat (length (writers fuel exception)))
        (dir_position (start_dir (SP := mac_plan exception) f)) now);;
   st_for (writers fuel exception) (fun writer =>
     dirent ← on_writer id (writer (TaskDumper_new (task c)));
     st_map_err WE_FileWriterError (flush (Some dirent))))
    (c, start_dir (SP := mac_plan exception) f, b).
Proof.
  intros Hnow. unfold write_streams, flush_header.
  erewrite st_bind_run; [|reflexivity]. cbn beta iota. rewrite Hnow.
  erewrite st_bind_run; [|reflexivity]. symmetry. apply st_bind_assoc.
Qed.
End run.

Definition mac_header {F : Format} (exception : bool) (now : Z) : MDRawHeader :=
  header_of (if exception then 8 else 7) (Z.of_nat (size_with MDRawHeader)) now.

(** The run behind the reservation of the header and the directory. *)
Lemma dump_into_run `{TG : Target} {F : Format} {FO : FormatOk F} {MF : MacFormat}
    {M : Mach} {CPU : MacCpu} fuel c f r c' f' b' :
  dump_into fuel (c, f, with_capacity 0) = (r, (c', f', b')) ->
  exists r0 d0, write_streams fuel (has_exception c) (mkMemoryWriter (wrap 32 0) (size_with MDRawHeader))
      (c, start_dir (SP := mac_plan (has_exception c)) f, start_buffer (SP := mac_plan (has_exception c))) =
      (r0, (c', d0, b')) /\ f' = destination d0 /\
    r = match r0 with Ok _ => Ok (inner b') | Err e => Err e | Panic => Panic end.
Proof.
  set (exc := has_exception c). unfold dump_into.
  erewrite st_bind_run; [|reflexivity]. cbn beta iota. fold exc.
  assert (Hn : wrap 32 (Z.of_nat (length (writers fuel exc))) =
    Z.of_nat (length (@plan (mac_plan exc)))) by by destruct exc.
  rewrite (dump_start (SP := mac_plan exc) WE_MemoryWriterError WE_FileWriterError c f _ _ Hn).
  unfold with_dir, mbind at 1, ST_bind at 1.
  destruct (write_streams _ _ _ _) as [r0 [[c0 d0] b0]]. intros Hrun. exists r0, d0.
  by destruct r0; injection Hrun as <- <- <- <-.
Qed.

(** What [dump] does to its destination, whatever it returns. *)
Lemma mac_dump_spec `{TG : Target} {F : Format} {FO : FormatOk F} {MF : MacFormat}
    {MFO : MacFormatOk MF} {M : Mach} {CPU : MacCpu} {CO : MacCpuOk CPU} fuel c f r c' f' b' :
  (0 <= cursor f <= Z.of_nat (length (contents f))) -> cursor f + 2 ^ 32 <= 2 ^ 64 ->
  threads_known (task c) ->
  dump_into fuel (c, f, with_capacity 0) = (r, (c', f', b')) ->
  Z.of_nat (length (inner b')) < 2 ^ 32 ->
  match system_time with
  | None => r = Panic /\ f' = f
  | Some now => exists es n,
      dump_on_disk (SP := mac_plan (has_exception c)) (before f)
        (mac_header (has_exception c) now) es n (contents f') b' /\
      (forall bytes, r = Ok bytes -> bytes = inner b' /\ n = length (inner b') /\
         (length (mac_stream_order (has_exception c)) <= length es)%nat)
  end.
Proof.
  intros Hcur Hend HT Hrun Hlt. destruct (dump_into_run _ _ _ _ _ _ _ Hrun) as (r0 & d0 & Hs & -> & Hr).
  set (exc := has_exception c) in *. destruct system_time as [now|] eqn:Hnow.
  - rewrite (write_streams_run fuel exc c f _ _ now Hnow) in Hs.
    pose proof (writers_hoare fuel exc (before f) (mac_header exc now)
      (TaskDumper_new (task c)) HT) as Hw.
    rewrite start_dir_position in Hs by (eapply dump_small; [apply Hw|exact Hs|exact Hlt]).
    replace (header_of _ _ _) with (mac_header exc now) in Hs by by destruct exc.
    destruct (dump_run_spec (SP := mac_plan exc) _ _ (mac_header exc now)
      (length (mac_stream_order exc)) _ c f _ _ _ _ Hcur Hend
      (hoare_conseq _ _ _ _ _ _ _ Hw (fun s Hs => Hs)
        (fun _ s Hs => ex_intro _ _ (conj (Nat.le_refl _) Hs))) Hs Hlt) as (es & n & Hd & Hok).
    exists es, n. split; [done|]. intros bytes ->. destruct r0 as [a| |]; [|done..].
    injection Hr as ->. by destruct (Hok a eq_refl).
  - unfold write_streams in Hs. unfold mbind, ST_bind in Hs. cbn in Hs. rewrite Hnow in Hs.
    by injection Hs as <- <- <- <-.
Qed.

(** ** Properties *)

(** A task with two threads, one of them the handler, and an exception. *)
Definition sample_mach : Mach := toy_mach sample_memory [(4096, 48, mkRegionInfo 30 3)] [259; 515]
  (concat (le_split 8 <$> replicate 31 7) ++ le_split 8 4100 ++ le_split 8 4112 ++ le_split 8 0)
  (le_split 48 0).
Definition sample_writer : MinidumpWriter :=
  with_crash_context (mkCrashContext 7 259 515 (Some (mkExceptionInfo 1 2 (Some 64)))).
Definition sample_file : File := mkFile (le_split 3 0x030201) 3.
Definition sample_cpu : MacCpu := @mac_aarch64 arm64_layout mac_cpu_layout.

Lemma sample_cpu_ok : MacCpuOk sample_cpu.
Proof. apply arm64_layout_ok. Qed.

Lemma sample_threads_known : @threads_known x64_debug layout sample_mach 7.
Proof. constructor; [reflexivity|vm_compute; split; discriminate|left; reflexivity]. Qed.

Local Notation sample_run := (@dump_into x64_debug layout mac_layout sample_mach sample_cpu File _ 5
  (sample_writer, sample_file, with_capacity 0)).

(** C8: the macOS dump on disk.  On a destination on which every call succeeds,
    with its cursor inside or at the end of what it holds, in a build that checks
    overflow or for a task whose threads can be listed, at least one of them, and
    for every outcome of the stream writers, with a dump below 4 GiB.  Unless the
    clock stands before the epoch (then nothing is written) the destination ends
    up with the bytes it held before, the complete header and a directory of seven
    slots, eight when there is an exception, holding the entries of the streams
    written so far in their fixed order, each of the right type and locating its
    stream inside the dump, even when a stream writer fails or panics half way; a
    successful run has written every entry and returns exactly the bytes it
    wrote. *)
Theorem mac_dump_on_disk `{TG : Target} (F : Format) (FO : FormatOk F) (MF : MacFormat)
    (MFO : MacFormatOk MF) (M : Mach) (CPU : MacCpu) (CO : MacCpuOk CPU) (fuel : nat)
    (c c' : MinidumpWriter) (f f' : File) (b' : Buffer) (r : res WriterError (list byte)) :
  (0 <= cursor f <= Z.of_nat (length (contents f))) -> cursor f + 2 ^ 32 <= 2 ^ 64 ->
  threads_known (task c) ->
  dump_into fuel (c, f, with_capacity 0) = (r, (c', f', b')) ->
  Z.of_nat (length (inner b')) < 2 ^ 32 ->
  match system_time with
  | None => r = Panic /\ f' = f
  | Some now => exists es n,
      @dump_on_disk F (mac_plan (has_exception c)) (before f)
        (mac_header (has_exception c) now) es n (contents f') b' /\
      (forall bytes, r = Ok bytes ->
         length es = (if has_exception c then 8 else 7)%nat /\ bytes = inner b' /\
         take (length (before f) + length bytes) (contents f') = before f ++ bytes)
  end.
Proof.
  intros Hcur Hend HT Hrun Hlt.
  pose proof (mac_dump_spec fuel _ _ _ _ _ _ Hcur Hend HT Hrun Hlt) as Hspec.
  destruct system_time as [now|]; [|done]. destruct Hspec as (es & n & Hd & Hok).
  exists es, n. split; [done|]. intros bytes Hr. destruct (Hok bytes Hr) as (-> & -> & Hle).
  pose proof Hd as (_ & _ & _ & _ & _ & He). apply Forall2_length in He.
  rewrite length_take in He. cbn [plan mac_plan] in He. split; [|split; [done|]].
  - destruct (has_exception c); cbn [mac_stream_order app length] in He, Hle; lia.
  - by eapply dump_on_disk_prefix.
Qed.

Lemma mac_dump_on_disk_witness :
  exists bytes c' f' b', sample_run = (Ok bytes, (c', f', b')) /\
    take (3 + length bytes) (contents f') = le_split 3 0x030201 ++ bytes /\
    exists es : list MDRawDirectory, length es = 8%nat.
Proof.
  assert (H1 : match sample_run.1 with Ok _ => True | _ => False end) by (vm_compute; exact I).
  destruct sample_run as [[bytes|e|] [[c' f'] b']] eqn:Hrun; [|destruct H1..]. clear H1.
  exists bytes, c', f', b'. split; [reflexivity|].
  assert (Hlt : Z.of_nat (length (inner b')) < 2 ^ 32).
  { replace b' with sample_run.2.2 by by rewrite Hrun. vm_compute. reflexivity. }
  pose proof (@mac_dump_on_disk x64_debug layout layout_ok mac_layout mac_layout_ok sample_mach
    sample_cpu sample_cpu_ok 5 sample_writer c' sample_file f' b' (Ok bytes)
    ltac:(vm_compute; split; discriminate) ltac:(vm_compute; discriminate) sample_threads_known
    Hrun Hlt) as (es & n & _ & Hok).
  destruct (Hok bytes eq_refl) as (Hes & _ & Ht). split; [exact Ht|]. exists es. exact Hes.
Defined.
