(* ===== verification/MacImages.v ===== *)
(** * The order of the modules (src/src/mac/streams/module_list.rs)

    The images are sorted by load address, one per address, and the modules
    follow them: images without a version first, in descending order, then the
    others in ascending order, then the dynamic linker. *)
From Stdlib Require Import ZArith Lia String Sorted.
From S2P Require Import Prelude Format Layout MemWriter DirSection Driver DumpPlan RustStr Os.
From S2P Require Import Contexts Mach TaskDumper MacConfig MacCpus MacStreams MacModules.

Local Open Scope Z_scope.
Local Notation length := List.length.

(** ** Sorting and removing duplicates *)

Definition below (x y : ImageInfo) : Prop := load_address x <= load_address y.
Definition strictly_below (x y : ImageInfo) : Prop := load_address x < load_address y.

(** The first image of the list at an address. *)
Definition first_at (a : Z) (l : list ImageInfo) : option ImageInfo :=
  List.find (fun x => load_address x =? a) l.

Lemma insert_image_elem x y l : x ∈ insert_image y l <-> x = y \/ x ∈ l.
Proof.
  induction l as [|z l IH]; cbn [insert_image]; [by rewrite list_elem_of_singleton, elem_of_nil; tauto|].
  case_match; rewrite !elem_of_cons, ?IH; tauto.
Qed.

Lemma insert_image_sorted x l : StronglySorted below l -> StronglySorted below (insert_image x l).
Proof.
  induction 1 as [|y l Hs IH Hy]; cbn [insert_image]; [by repeat constructor|].
  unfold image_cmp. destruct (Z.compare_spec (load_address x) (load_address y)) as [He|Hlt|Hgt].
  - constructor; [by constructor|]. constructor; [unfold below; lia|].
    eapply Forall_impl; [exact Hy|]. unfold below. intros; lia.
  - constructor; [by constructor|]. constructor; [unfold below; lia|].
    eapply Forall_impl; [exact Hy|]. unfold below. intros; lia.
  - constructor; [done|]. apply Forall_forall. intros z Hz.
    apply insert_image_elem in Hz as [->|Hz]; [unfold below; lia|].
    rewrite Forall_forall in Hy. by apply Hy.
Qed.

Lemma sort_images_sorted l : StronglySorted below (sort_images l).
Proof. induction l; cbn; [constructor|by apply insert_image_sorted]. Qed.

(** Inserting is stable: it comes before its equals. *)
Lemma insert_image_first a x l :
  first_at a (insert_image x l) = if load_address x =? a then Some x else first_at a l.
Proof.
  induction l as [|y l IH]; cbn [insert_image first_at List.find]; [done|].
  unfold image_cmp. destruct (Z.compare_spec (load_address x) (load_address y)) as [He|Hlt|Hgt];
    cbn [List.find]; try done.
  fold (first_at a (insert_image x l)) (first_at a l). rewrite IH.
  destruct (Z.eqb_spec (load_address x) a), (Z.eqb_spec (load_address y) a); try done. lia.
Qed.

Lemma sort_images_first a l : first_at a (sort_images l) = first_at a l.
Proof.
  induction l as [|x l IH]; [done|]. cbn [sort_images foldr]. rewrite insert_image_first.
  unfold sort_images in IH. rewrite IH. done.
Qed.

Lemma dedup_from_spec l : forall x,
  StronglySorted below (x :: l) ->
  StronglySorted strictly_below (dedup_from x l) /\
  (forall a, first_at a (dedup_from x l) = first_at a (x :: l)) /\
  Forall (below x) (dedup_from x l).
Proof.
  induction l as [|y l IH]; intros x Hs; cbn [dedup_from].
  { split_and!; [by repeat constructor|done|]. constructor; [unfold below; lia|constructor]. }
  inversion Hs as [|? ? Hs' Hx]; subst. inversion Hx as [|? ? Hxy Hxl]; subst.
  inversion Hs' as [|? ? Hsl Hyl]; subst. unfold image_eqb.
  destruct (Z.eqb_spec (load_address y) (load_address x)) as [He|Hne].
  - destruct (IH x) as (H1 & H2 & H3); [by constructor|]. split_and!; [done| |done].
    intros a. rewrite H2. cbn [first_at List.find].
    destruct (Z.eqb_spec (load_address x) a); [done|].
    destruct (Z.eqb_spec (load_address y) a); [lia|done].
  - destruct (IH y) as (H1 & H2 & H3); [by constructor|]. unfold below in Hxy. split_and!.
    + constructor; [done|]. eapply Forall_impl; [exact H3|]. unfold below, strictly_below. intros; lia.
    + intros a. cbn [first_at List.find]. fold (first_at a (dedup_from y l)). by rewrite H2.
    + constructor; [unfold below; lia|]. eapply Forall_impl; [exact H3|]. unfold below. intros; lia.
Qed.

Lemma find_first_at (l : list ImageInfo) x :
  StronglySorted strictly_below l -> x ∈ l -> first_at (load_address x) l = Some x.
Proof.
  induction 1 as [|y l Hs IH Hy]; intros Hx; [by apply not_elem_of_nil in Hx|].
  cbn [first_at List.find]. apply elem_of_cons in Hx as [->|Hx]; [by rewrite Z.eqb_refl|].
  rewrite Forall_forall in Hy. specialize (Hy x Hx).
  unfold strictly_below in Hy. rewrite (proj2 (Z.eqb_neq _ _)) by lia. by apply IH.
Qed.

(** the images that become modules.  After sorting and removing duplicates
    the load addresses are strictly increasing, and at each address there is
    exactly the first image the task lists there: no address is lost, and of
    several entries for one address the first one counts. *)
Theorem images_sorted_unique (l : list ImageInfo) :
  StronglySorted strictly_below (dedup_images (sort_images l)) /\
  forall x, x ∈ dedup_images (sort_images l) <-> first_at (load_address x) l = Some x.
Proof.
  assert (Hs : StronglySorted strictly_below (dedup_images (sort_images l)) /\
    forall a, first_at a (dedup_images (sort_images l)) = first_at a l).
  { pose proof (sort_images_sorted l) as Hs. pose proof (fun a => sort_images_first a l) as Hf.
    destruct (sort_images l) as [|y l']; cbn [dedup_images]; [split; [constructor|done]|].
    destruct (dedup_from_spec l' y Hs) as (H1 & H2 & _). split; [done|].
    intros a. by rewrite H2. }
  destruct Hs as [Hs Hf]. split; [done|]. intros x. rewrite <- Hf. split.
  - by apply find_first_at.
  - unfold first_at. intros Hx. apply List.find_some in Hx as [Hx _]. by apply list_elem_of_In.
Qed.

(** ** From images to modules *)

Lemma checked_isize_wrap {E} `{TG : Target} x y :
  pointer_width = W64 -> checked_isize (E := E) x = Ok y -> wrap 64 y = wrap 64 x.
Proof.
  intros Hw. assert (Hub : usize_bits = 64) by (unfold usize_bits; by rewrite Hw).
  unfold checked_isize. rewrite Hub. case_match; [by intros [= ->]|].
  destruct overflow_checks; [done|]. intros [= <-]. by rewrite wrap_swrap by lia.
Qed.

Lemma wrap_add_swrap v s : wrap 64 (swrap 64 v + s) = wrap 64 (v + s).
Proof.
  unfold wrap. rewrite <- (Z.add_mod_idemp_l (swrap 64 v)), <- (Z.add_mod_idemp_l v) by lia.
  change (swrap 64 v mod 2 ^ 64) with (wrap 64 (swrap 64 v)). by rewrite wrap_swrap by lia.
Qed.

Lemma wrap_add_r a b : wrap 64 (a + wrap 64 b) = wrap 64 (a + b).
Proof. unfold wrap. by rewrite Z.add_mod_idemp_r by lia. Qed.

Section images.
Context `{TG : Target} {F : Format} {FO : FormatOk F} {MF : MacFormat} {MFO : MacFormatOk MF}.
Context {M : Mach} (H64 : pointer_width = W64).

(** The slide takes the preferred address to the load address. *)
Definition slide_ok (address : Z) (i : ImageLoadInfo) : Prop :=
  wrap 64 (li_vm_addr i + slide i) = wrap 64 address.

Definition found_ok (address : Z) (f : Found) : Prop :=
  forall i, f_load_info f = Some i -> slide_ok address i.

Lemma image_command_ok dyld address lc f f' :
  found_ok address f -> image_command dyld address lc f = Ok f' -> found_ok address f'.
Proof.
  intros Hf. assert (Hub : usize_bits = 64) by (unfold usize_bits; by rewrite H64).
  destruct lc; cbn [image_command]; repeat case_match; try by intros [= <-].
  destruct (checked_isize _) as [sl| |] eqn:Hc; cbn [mbind res_bind]; [|done..].
  intros [= <-] i [= <-]. unfold slide_ok. cbn [li_vm_addr slide].
  apply (checked_isize_wrap _ _ H64) in Hc. rewrite Hub in Hc.
  rewrite <- wrap_add_r, Hc, wrap_add_r, <- wrap_add_swrap.
  replace (_ + _) with (swrap 64 address + 0) by lia. rewrite wrap_add_swrap. f_equal. lia.
Qed.

Lemma image_commands_ok dyld address fuel : forall it f f',
  found_ok address f -> image_commands dyld fuel address it f = Ok f' -> found_ok address f'.
Proof.
  induction fuel as [|fuel IH]; intros it f f' Hf; cbn [image_commands]; [done|].
  destruct (lc_next it) as [[o it']| |]; cbn [mbind res_bind]; [|done..].
  destruct o as [lc|]; [|by intros [= <-]].
  destruct (image_command _ _ _ _) as [f1| |] eqn:Hc; cbn [mbind res_bind]; [|done..].
  apply image_command_ok in Hc; [|done]. case_match; [by intros [= <-]|by apply IH].
Qed.

Lemma scan_image_ok dyld image dumper f :
  scan_image dyld image dumper = Ok f -> found_ok (load_address image) f.
Proof.
  unfold scan_image. destruct (read_load_commands _ _); cbn [mbind res_bind]; [|done..].
  apply image_commands_ok. by intros i.
Qed.

Lemma required_ok f li u : required f = Ok (li, u) -> f_load_info f = Some li.
Proof.
  unfold required. destruct (f_load_info f); cbn; [|done]. destruct (f_uuid f); cbn; [|done].
  by intros [= <- <-].
Qed.

Lemma read_image_slide image dumper d :
  read_image image dumper = Ok d -> slide_ok (load_address image) (load_info d).
Proof.
  unfold read_image. destruct (scan_image _ _ _) as [f| |] eqn:Hs; cbn [mbind res_bind]; [|done..].
  apply scan_image_ok in Hs.
  destruct (required f) as [[li u]| |] eqn:Hr; cbn [mbind res_bind]; [|done..].
  apply required_ok in Hr. case_match; cbn [mbind res_bind].
  - destruct (read_string _ _ _); cbn [res_ok mbind res_bind]; [| |done]; intros [= <-]; by apply Hs.
  - intros [= <-]. by apply Hs.
Qed.

Lemma write_module_fields d b m b' :
  write_module d b = (Ok m, b') ->
  base_of_image m = wrap 64 (li_vm_addr (load_info d) + slide (load_info d)) /\
  size_of_image m = wrap 32 (li_vm_size (load_info d)) /\
  version_info m = module_version (image_version d).
Proof.
  assert (Hub : usize_bits = 64) by (unfold usize_bits; by rewrite H64).
  unfold write_module. cbv zeta. intros Hrun. st_inv.
  match goal with HH : checked_isize _ = Ok ?y |- _ => 
    apply (checked_isize_wrap _ _ H64) in HH; rewrite Hub in HH; rename HH into Hb end.
  cbn [base_of_image size_of_image version_info]. rewrite Hb, wrap_add_swrap. done.
Qed.

(** What the loop has made of an image. *)
Definition module_for (image : ImageInfo) (plain : bool) (m : MDRawModule) : Prop :=
  base_of_image m = load_address image /\
  if plain then version_info m = default_fixed_file_info
  else ffi_signature (version_info m) = VS_FFI_SIGNATURE.

Definition modules_for (images : list ImageInfo) (plain : bool) (ms : list MDRawModule) : Prop :=
  exists used, used `sublist_of` images /\ Forall2 (fun i m => module_for i plain m) used ms.

Lemma modules_for_skip images i plain ms :
  modules_for images plain ms -> modules_for (i :: images) plain ms.
Proof. intros (u & Hu & HF). exists u. split; [by constructor|done]. Qed.

Lemma modules_for_take images i plain m ms :
  module_for i plain m -> modules_for images plain ms -> modules_for (i :: images) plain (m :: ms).
Proof. intros Hm (u & Hu & HF). exists (i :: u). split; by constructor. Qed.

Lemma write_images_order dumper images : forall modules b ms b',
  Forall (fun i => in_bits 64 (load_address i)) images ->
  write_images images dumper modules b = (Ok ms, b') ->
  exists plain versioned, ms = rev plain ++ modules ++ versioned /\
    modules_for images true plain /\ modules_for images false versioned.
Proof.
  assert (Hnil : forall images p, modules_for images p []).
  { intros. exists []. split; [apply sublist_nil_l|constructor]. }
  induction images as [|i images IH]; intros modules b ms b' Hb; cbn [write_images].
  { intros [= <- <-]. exists [], []. cbn. rewrite app_nil_r. done. }
  apply Forall_cons in Hb as [Hi Hb].
  destruct (read_image i dumper) as [d| |] eqn:Hr; cbn [res_ok]; [|..|done].
  2: { intros Hrun. apply IH in Hrun as (p & v & -> & Hp & Hv); [|done].
       exists p, v. split_and!; [done|by apply modules_for_skip..]. }
  apply read_image_slide in Hr. unfold slide_ok in Hr. rewrite (wrap_small _ (load_address i)) in Hr by done.
  unfold st_lift at 1. unfold mbind at 1, ST_bind at 1. unfold mbind, ST_bind at 1, st_try.
  destruct (write_module d b) as [[m|e|] b1] eqn:Hw; [|..|done].
  2: { intros Hrun. apply IH in Hrun as (p & v & -> & Hp & Hv); [|done].
       exists p, v. split_and!; [done|by apply modules_for_skip..]. }
  apply write_module_fields in Hw as (Hbase & _ & Hver). rewrite Hr in Hbase.
  intros Hrun. apply IH in Hrun as (p & v & -> & Hp & Hv); [|done].
  destruct (image_version d) as [ver|]; cbn [is_some negb].
  - exists p, (m :: v). split_and!; [by rewrite <- app_assoc|by apply modules_for_skip|].
    apply modules_for_take; [|done]. split; [done|]. by rewrite Hver.
  - exists (m :: p), v. split_and!; [cbn [rev]; by rewrite <- app_assoc| |by apply modules_for_skip].
    by apply modules_for_take.
Qed.

Lemma modules_for_sorted images plain ms :
  StronglySorted strictly_below images -> modules_for images plain ms ->
  StronglySorted Z.lt (base_of_image <$> ms).
Proof.
  intros Hs (u & Hu & HF).
  assert (Hsu : StronglySorted strictly_below u).
  { clear HF. induction Hu as [|x u l Hu IH|x u l Hu IH]; inversion Hs; subst; [constructor| |by apply IH].
    constructor; [by apply IH|]. apply Forall_forall. intros y Hy.
    match goal with HH : Forall _ l |- _ => rewrite Forall_forall in HH; apply HH end.
    by eapply elem_of_sublist. }
  clear Hu Hs. induction HF as [|i m u ms [Hb _] HF IH]; [constructor|].
  inversion Hsu as [|? ? Hs Hi]; subst. csimpl. constructor; [by apply IH|].
  clear IH Hsu Hs. induction HF as [|j m' u ms [Hb' _] HF IH]; csimpl; [constructor|].
  inversion Hi; subst. constructor; [|by apply IH]. unfold strictly_below in *. lia.
Qed.
End images.

Lemma u64_at_bits i l : in_bits 64 (u64_at i l).
Proof.
  unfold u64_at. pose proof (le_combine_bound (bytes_at i 8 l)) as Hb. unfold in_bits.
  assert (length (bytes_at i 8 l) <= 8)%nat by (unfold bytes_at; rewrite length_take; lia).
  assert (2 ^ (8 * Z.of_nat (length (bytes_at i 8 l))) <= 2 ^ 64) by (apply Z.pow_le_mono_r; lia).
  lia.
Qed.

Lemma read_images_bits `{TG : Target} {M : Mach} dumper info images x :
  read_images dumper = Ok (info, images) -> x ∈ images -> in_bits 64 (load_address x).
Proof.
  unfold read_images. destruct (task_info _ _ _ _); cbn [mbind res_bind]; [|done..].
  destruct (read_task_memory _ 1 _ _); cbn [mbind res_bind]; [|done..].
  destruct (cast _ _ _); cbn [mbind res_bind]; [|done..].
  destruct (read_task_memory _ _ _ _); cbn [mbind res_bind]; [|done..].
  intros [= _ <-] Hx. unfold elements in Hx. apply list_elem_of_fmap in Hx as (i & -> & _).
  apply u64_at_bits.
Qed.

(** ** A task with images

    An executable at 4096 and a library at 4352, both listed twice, their load
    commands behind their headers; the list of images is at 4608, the record
    that points to it at 4736. *)
Definition sample_header (cs : list RawCommand) : list byte :=
  le_split 4 MH_MAGIC_64 ++ le_split 12 0 ++ le_split 4 (Z.of_nat (length cs)) ++
  le_split 4 (Z.of_nat (length (encode_commands cs))) ++ le_split 8 0 ++ encode_commands cs.

Definition sample_dylib : RawCommand :=
  mkRawCommand 0xd (le_split 8 24 ++ le_split 4 0x00020304 ++ le_split 4 0).

Definition pad (n : nat) (l : list byte) : list byte := l ++ replicate (n - length l) Byte.x00.

Definition image_bytes : list byte :=
  pad 256 (sample_header [sample_segment; sample_uuid]) ++
  pad 256 (sample_header [sample_segment; sample_dylib; sample_uuid]) ++
  pad 128 (concat ((fun a => le_split 24 a) <$> [4352; 4096; 4352; 4096])) ++
  pad 48 (le_split 4 1 ++ le_split 4 4 ++ le_split 8 4608 ++ le_split 24 0).

Definition image_memory : Memory := fun a =>
  if a <? 4096 then None else image_bytes !! Z.to_nat (a - 4096).

Definition image_mach : Mach := toy_mach image_memory [] [] [] (le_split 8 4736 ++ le_split 12 0).

Local Notation modules_run := (@write_loaded_modules x64_debug layout mac_layout image_mach
  (mkTaskDumper 7 16) (mkBuffer [])).

(** C24: the order of the module list.  The modules the macOS writer lists are
    those of distinct images, each at the load address of its image: first the
    images without a version in descending order of address, at least one, then
    the images with a version in ascending order, then at most one for the
    dynamic linker.  Not only the main executable comes first: every image
    without a library id does, and the last of them in memory leads. *)
Theorem modules_order `{TG : Target} (F : Format) (FO : FormatOk F) (MF : MacFormat)
    (MFO : MacFormatOk MF) (M : Mach) (dumper : TaskDumper) (b b' : Buffer)
    (modules : list MDRawModule) :
  pointer_width = W64 ->
  write_loaded_modules dumper b = (Ok modules, b') ->
  exists info images plain versioned dyld,
    read_images dumper = Ok (info, images) /\ modules = rev plain ++ versioned ++ dyld /\
    plain <> [] /\ (length dyld <= 1)%nat /\
    modules_for (dedup_images (sort_images images)) true plain /\
    modules_for (dedup_images (sort_images images)) false versioned /\
    StronglySorted Z.lt (base_of_image <$> plain) /\
    StronglySorted Z.lt (base_of_image <$> versioned).
Proof.
  intros H64. unfold write_loaded_modules.
  destruct (read_images dumper) as [[info images]| |] eqn:Hi; cbn [map_err]; [|done..].
  erewrite st_bind_run; [|reflexivity]. cbn beta iota zeta. intros Hrun.
  apply st_bind_ok in Hrun as (ms & b1 & Hw & Hrun).
  destruct (images_sorted_unique images) as [Hs Hin].
  assert (Hb : Forall (fun i => in_bits 64 (load_address i)) (dedup_images (sort_images images))).
  { apply Forall_forall. intros x Hx%Hin. apply List.find_some in Hx as [Hx _].
    apply list_elem_of_In in Hx. by eapply read_images_bits. }
  apply write_images_order in Hw as (plain & versioned & -> & Hp & Hv); [|done..].
  assert (Hfirst : plain <> [] /\ (modules = rev plain ++ [] ++ versioned \/
      exists m, modules = (rev plain ++ [] ++ versioned) ++ [m])).
  { split.
    - intros ->. cbn [rev app] in Hrun. destruct versioned as [|m versioned]; [done|].
      destruct Hv as (u & _ & HF). inversion HF as [|? ? ? ? [_ Hsig]]; subst.
      cbn in Hsig. rewrite Hsig, Z.eqb_refl in Hrun. done.
    - case_match; [done|]. destruct (read_dyld info dumper) as [d| |]; cbn [res_ok] in Hrun; [|..|done].
      + erewrite st_bind_run in Hrun by reflexivity. apply st_bind_ok in Hrun as (w & b2 & _ & Hrun).
        injection Hrun as <- _. destruct w; [by left|right; by eexists].
      + erewrite st_bind_run in Hrun by reflexivity. injection Hrun as <- _. by left. }
  destruct Hfirst as [Hne Hm]. cbn [app] in Hm.
  assert (Hsp : StronglySorted Z.lt (base_of_image <$> plain)) by by eapply modules_for_sorted.
  assert (Hsv : StronglySorted Z.lt (base_of_image <$> versioned)) by by eapply modules_for_sorted.
  destruct Hm as [->|[m ->]].
  - exists info, images, plain, versioned, []. rewrite app_nil_r. split_and!; try done. cbn. lia.
  - exists info, images, plain, versioned, [m]. rewrite <- app_assoc. by split_and!.
Qed.

Lemma modules_order_witness :
  exists modules b', modules_run = (Ok modules, b') /\
    base_of_image <$> modules = [4096; 4352] /\
    exists plain versioned dyld, modules = rev plain ++ versioned ++ dyld /\ plain <> [].
Proof.
  assert (H1 : match modules_run.1 with Ok ms => base_of_image <$> ms = [4096; 4352] | _ => False end)
    by (vm_compute; reflexivity).
  destruct modules_run as [[ms|e|] b'] eqn:Hrun; [|destruct H1..].
  exists ms, b'. split; [reflexivity|]. split; [exact H1|].
  destruct (@modules_order x64_debug layout layout_ok mac_layout mac_layout_ok image_mach
    (mkTaskDumper 7 16) (mkBuffer []) b' ms eq_refl Hrun)
    as (info & images & plain & versioned & dyld & _ & Hm & Hne & _).
  exists plain, versioned, dyld. split; [exact Hm|exact Hne].
Defined.
