(* ===== verification/MacContents.v ===== *)
(** * What the macOS streams say

    The exception record, the size of a stack, the record of a module, the
    window around the instruction pointer and the process times of the macOS
    writer (src/src/mac/streams/). *)
From Stdlib Require Import ZArith Lia String.
From S2P Require Import Prelude Format Layout MemWriter DirSection Driver DumpPlan RustStr Os.
From S2P Require Import Contexts Mach TaskDumper MacConfig MacCpus MacStreams MacModules MacSpec.

Local Open Scope Z_scope.
Local Notation length := List.length.

(** ** The exception *)

(** How the kernel packs an exception into the code of an [EXC_CRASH]. *)
Definition exc_crash_code (kind code signal : Z) : Z :=
  signal * 2 ^ 24 + kind * 2 ^ 20 + code.

Definition cannot_be_wrapped (kind : Z) : bool :=
  existsb (Z.eqb kind) [EXC_CRASH; EXC_RESOURCE; EXC_GUARD; EXC_CORPSE_NOTIFY].

Section exc_code.
Context (kind code signal : Z).
Context (Hk : in_bits 4 kind) (Hc : in_bits 20 code) (Hs : in_bits 8 signal).

Lemma exc_code_kind : wrap 32 (Z.land (Z.shiftr (exc_crash_code kind code signal) 20) 0xf) = kind.
Proof.
  unfold in_bits, exc_crash_code in *. change 0xf with (Z.ones 4).
  rewrite Z.land_ones, Z.shiftr_div_pow2 by lia.
  replace (signal * 2 ^ 24 + kind * 2 ^ 20 + code) with ((signal * 2 ^ 4 + kind) * 2 ^ 20 + code)
    by lia.
  rewrite Z.div_add_l, (Z.div_small code), Z.add_0_r by lia.
  rewrite Z.add_comm, Z.mod_add, Z.mod_small by lia. apply wrap_small. unfold in_bits. lia.
Qed.

Lemma exc_code_code : wrap 32 (Z.land (exc_crash_code kind code signal) 0xfffff) = code.
Proof.
  unfold in_bits, exc_crash_code in *. change 0xfffff with (Z.ones 20). rewrite Z.land_ones by lia.
  replace (signal * 2 ^ 24 + kind * 2 ^ 20 + code) with (code + (signal * 2 ^ 4 + kind) * 2 ^ 20)
    by lia.
  rewrite Z.mod_add, Z.mod_small by lia. apply wrap_small. unfold in_bits. lia.
Qed.

Lemma exc_code_signal :
  wrap 8 (Z.land (Z.shiftr (exc_crash_code kind code signal) 24) 0xff) = signal.
Proof.
  unfold in_bits, exc_crash_code in *. change 0xff with (Z.ones 8).
  rewrite Z.land_ones, Z.shiftr_div_pow2 by lia.
  replace (signal * 2 ^ 24 + kind * 2 ^ 20 + code) with (signal * 2 ^ 24 + (kind * 2 ^ 20 + code))
    by lia.
  rewrite Z.div_add_l, (Z.div_small (_ + _)), Z.add_0_r by lia.
  rewrite Z.mod_small by lia. apply wrap_small. unfold in_bits. lia.
Qed.

Lemma exc_code_recovered :
  recover_exc_crash_wrapped_exception (exc_crash_code kind code signal) =
  if cannot_be_wrapped kind then None else Some (mkWrapped kind code signal).
Proof.
  unfold recover_exc_crash_wrapped_exception, is_valid_exc_crash, cannot_be_wrapped.
  cbv zeta. rewrite exc_code_kind, exc_code_code, exc_code_signal. cbn [existsb].
  rewrite orb_false_r, !orb_assoc.
  by destruct (kind =? EXC_CRASH), (kind =? EXC_RESOURCE), (kind =? EXC_GUARD),
    (kind =? EXC_CORPSE_NOTIFY).
Qed.

Lemma exc_code_bits : in_bits 64 (exc_crash_code kind code signal).
Proof. unfold in_bits, exc_crash_code in *. lia. Qed.
End exc_code.

(** C34: an [EXC_CRASH] is recorded as the exception it wraps.  Whatever kind,
    code and signal the kernel packed, the record names the inner exception and
    its code, with the fault address for a bad access and the instruction
    pointer otherwise, and keeps the packed code as a parameter; the four kinds
    that cannot be wrapped are left as the kernel reported them. *)
Theorem exception_unwrapped (CPU : MacCpu) (inner_kind inner_code signal : Z) (sub : option Z)
    (ts : option ThreadState) :
  in_bits 4 inner_kind -> in_bits 20 inner_code -> in_bits 8 signal ->
  let packed := exc_crash_code inner_kind inner_code signal in
  let r := exception_record_of (mkExceptionInfo EXC_CRASH packed sub) ts in
  let pc := match ts with Some t => state_pc t | None => 0 end in
  let '(k, c) := if cannot_be_wrapped inner_kind then (EXC_CRASH, wrap 32 packed)
                 else (inner_kind, inner_code) in
  exception_code r = k /\ exception_flags r = c /\
  exception_address r = match sub with
                        | Some a => if k =? EXC_BAD_ACCESS then a else pc
                        | None => pc
                        end /\
  take (Z.to_nat (number_parameters r)) (exception_information r) =
    [k; packed] ++ match sub with Some a => [a] | None => [] end.
Proof.
  intros Hk Hc Hs packed r pc.
  assert (Hr : recover_exc_crash_wrapped_exception packed =
    if cannot_be_wrapped inner_kind then None else Some (mkWrapped inner_kind inner_code signal))
    by by apply exc_code_recovered.
  assert (Hw : wrap 64 packed = packed) by by apply wrap_small, exc_code_bits.
  subst r. unfold exception_record_of. cbn [MacConfig.code kind subcode]. rewrite Hw.
  change (wrap 32 EXC_CRASH =? EXC_CRASH) with true. cbn beta iota zeta. rewrite Hr.
  change (wrap 32 EXC_CRASH =? EXC_RESOURCE) with false.
  change (wrap 32 EXC_CRASH =? EXC_GUARD) with false. cbn [orb].
  destruct (cannot_be_wrapped inner_kind); cbn [we_kind we_code]; by destruct sub.
Qed.

Lemma exception_unwrapped_witness :
  let r := @exception_record_of sample_cpu
             (mkExceptionInfo EXC_CRASH (exc_crash_code 1 2 11) (Some 64)) None in
  exception_code r = EXC_BAD_ACCESS /\ exception_address r = 64.
Proof.
  assert (H : in_bits 4 1 /\ in_bits 20 2 /\ in_bits 8 11)
    by (vm_compute; split_and!; (discriminate || reflexivity)).
  destruct H as (H1 & H2 & H3).
  destruct (exception_unwrapped sample_cpu 1 2 11 (Some 64) None H1 H2 H3) as (Hk & _ & Ha & _).
  split; [exact Hk|exact Ha].
Defined.

(** ** The size of a stack *)

(** The documented answers of the region call: regions have a size and do not
    reach past the address space. *)
Class RegionsOk (M : Mach) (task : Z) : Prop := region_bounds : forall a base size info,
  mach_vm_region_recurse task a = inr (base, size, info) ->
  0 <= base /\ 0 < size /\ base + size < 2 ^ 64.

(** The end of the readable stack region that starts at [e], if there is one. *)
Definition next_stack_region {M : Mach} (task e : Z) : option Z :=
  match mach_vm_region_recurse task e with
  | inr (base, size, info) =>
      if (base =? e) && (user_tag info =? VM_MEMORY_STACK)
         && negb (Z.land (vm_protection info) VM_PROT_READ =? 0)
      then Some (base + size) else None
  | inl _ => None
  end.

(** [stack_top e t]: the stack regions that abut each other from [e] on end at
    [t]. *)
Inductive stack_top {M : Mach} (task : Z) : Z -> Z -> Prop :=
  | top_end e : next_stack_region task e = None -> stack_top task e e
  | top_more e e' t : next_stack_region task e = Some e' -> stack_top task e' t ->
      stack_top task e t.

Section stack.
Context `{TG : Target} {M : Mach} (dumper : TaskDumper) {RO : RegionsOk M (td_task dumper)}.

Lemma get_vm_region_run a :
  get_vm_region dumper a =
  match mach_vm_region_recurse (td_task dumper) a with
  | inl kr => Err (Kernel "mach::mach_vm_region_recurse" (kernel_error_from kr))
  | inr (base, size, info) => Ok (mkRegion info base (base + size))
  end.
Proof.
  unfold get_vm_region. destruct (mach_vm_region_recurse _ a) as [kr|[[base size] info]] eqn:Hr;
    cbn [mach_call mbind res_bind]; [done|].
  apply region_bounds in Hr. unfold add_u. by rewrite checked_fits by (unfold in_bits; lia).
Qed.

Lemma stack_regions_step n e size :
  stack_regions (S n) dumper e size =
  match next_stack_region (td_task dumper) e with
  | None => Ok size
  | Some e' => size ← add_u 64 size (e' - e); stack_regions n dumper e' size
  end.
Proof.
  cbn [stack_regions]. rewrite get_vm_region_run. unfold next_stack_region.
  destruct (mach_vm_region_recurse _ e) as [kr|[[base sz] info]] eqn:Hr;
    cbn [res_ok mbind res_bind]; [done|]. apply region_bounds in Hr.
  cbn [range_start range_end region_info].
  destruct (Z.eqb_spec base e) as [->|]; cbn [andb orb negb]; [|done].
  destruct (user_tag info =? VM_MEMORY_STACK); cbn [andb orb negb]; [|done].
  destruct (Z.land _ _ =? 0); cbn [andb orb negb]; [done|].
  rewrite sub_u_ok by lia. done.
Qed.

Lemma next_stack_region_above e e' :
  next_stack_region (td_task dumper) e = Some e' -> e < e' < 2 ^ 64.
Proof.
  unfold next_stack_region. destruct (mach_vm_region_recurse _ e) as [|[[base sz] info]] eqn:Hr; [done|].
  apply region_bounds in Hr. destruct (Z.eqb_spec base e) as [->|]; cbn [andb]; [|done].
  case_match; [|done]. intros [= <-]. lia.
Qed.

(** The walk ends, at the top of the stack. *)
Lemma stack_regions_top (e : Z) :
  0 <= e < 2 ^ 64 ->
  exists t n0, stack_top (td_task dumper) e t /\ e <= t < 2 ^ 64 /\
    forall n size, (n0 <= n)%nat -> 0 <= size -> size + (t - e) < 2 ^ 64 ->
      stack_regions n dumper e size = Ok (size + (t - e)).
Proof.
  intros He. remember (Z.to_nat (2 ^ 64 - e)) as m eqn:Hm. revert e He Hm.
  induction m as [m IH] using lt_wf_ind. intros e He ->.
  destruct (next_stack_region (td_task dumper) e) as [e'|] eqn:Hn.
  - pose proof (next_stack_region_above _ _ Hn) as He'.
    destruct (IH (Z.to_nat (2 ^ 64 - e')) ltac:(lia) e' ltac:(lia) eq_refl)
      as (t & n0 & Ht & Hb & Hrun).
    exists t, (S n0). split; [by eapply top_more|]. split; [lia|].
    intros [|n] size Hle Hs Hlt; [lia|]. rewrite stack_regions_step, Hn. unfold add_u.
    rewrite checked_fits by (unfold in_bits; lia). cbn [mbind res_bind].
    rewrite Hrun by lia. f_equal. lia.
  - exists e, 1%nat. split; [by apply top_end|]. split; [lia|].
    intros [|n] size Hle Hs Hlt; [lia|]. rewrite stack_regions_step, Hn. f_equal. lia.
Qed.
End stack.

(** C33: the size of a stack.  The walk over the regions always ends, and the
    size computed for a stack pointer reaches from it to the end of the region
    it lies in or, for a stack region, to the end of the readable stack regions
    that abut it; a pointer that is zero or in no region has no stack. *)
Theorem stack_size_reaches_top `{TG : Target} (M : Mach) (dumper : TaskDumper)
    (RO : RegionsOk M (td_task dumper)) (sp : Z) :
  pointer_width = W64 -> 0 <= sp ->
  exists n0, forall fuel, (n0 <= fuel)%nat ->
  match mach_vm_region_recurse (td_task dumper) sp with
  | inr (base, size, info) =>
      if (sp =? 0) || (sp <? base) then calculate_stack_size fuel sp dumper = Ok 0
      else base <= sp < base + size ->
        if user_tag info =? VM_MEMORY_STACK then
          exists t, stack_top (td_task dumper) (base + size) t /\
            calculate_stack_size fuel sp dumper = Ok (t - sp)
        else calculate_stack_size fuel sp dumper = Ok (base + size - sp)
  | inl _ => calculate_stack_size fuel sp dumper = Ok 0
  end.
Proof.
  intros Hw Hsp. assert (Hub : usize_bits = 64) by (unfold usize_bits; by rewrite Hw).
  unfold calculate_stack_size. rewrite (get_vm_region_run dumper sp).
  destruct (mach_vm_region_recurse (td_task dumper) sp) as [kr|[[base size] info]] eqn:Hr.
  { exists 0%nat. intros. by case_match. }
  apply region_bounds in Hr as Hb. cbn [res_ok mbind res_bind range_start range_end region_info].
  destruct (stack_regions_top dumper (base + size)) as (t & n0 & Ht & Htb & Hrun); [lia|].
  exists n0. intros fuel Hf. destruct (sp =? 0); cbn [orb]; [done|].
  case_match; [done|]. intros Hin. rewrite (sub_u_ok 64 (base + size) base) by lia.
  cbn [mbind res_bind]. unfold add_u. case_match.
  - exists t. split; [done|]. rewrite Hrun by lia. cbn [mbind res_bind].
    rewrite checked_fits by (unfold in_bits; lia). cbn [mbind res_bind].
    rewrite sub_u_ok by lia. cbn [mbind res_bind]. rewrite Hub, wrap_small by (unfold in_bits; lia).
    f_equal. lia.
  - cbn [mbind res_bind]. rewrite checked_fits by (unfold in_bits; lia). cbn [mbind res_bind].
    rewrite sub_u_ok by lia. cbn [mbind res_bind]. rewrite Hub, wrap_small by (unfold in_bits; lia).
    f_equal. lia.
Qed.

(** A stack in two parts, and a guard page above. *)
Definition stack_mach : Mach :=
  toy_mach sample_memory [(4096, 32, mkRegionInfo 30 3); (4128, 16, mkRegionInfo 30 1);
    (4144, 16, mkRegionInfo 30 0)] [] [] [].

Lemma stack_size_reaches_top_witness :
  exists n0, @calculate_stack_size x64_debug stack_mach (S n0) 4100 (mkTaskDumper 7 16) = Ok 44.
Proof.
  assert (RO : RegionsOk stack_mach 7).
  { intros a base size info Hr. unfold stack_mach, toy_mach in Hr. cbn in Hr.
    repeat case_match; simplify_eq; lia. }
  destruct (@stack_size_reaches_top x64_debug stack_mach (mkTaskDumper 7 16) RO 4100 eq_refl
    ltac:(lia)) as [n0 Hs].
  specialize (Hs (S n0) (Nat.le_succ_diag_r n0)). cbn in Hs.
  destruct Hs as (t & Ht & Hrun); [lia|]. exists n0.
  replace 44 with (t - 4100); [exact Hrun|].
  inversion Ht as [? Hn|? ? ? Hn Ht']; subst; vm_compute in Hn; [done|].
  injection Hn as <-. inversion Ht' as [? Hn|? ? ? Hn Ht'']; subst; vm_compute in Hn; [done|done].
Defined.

(** ** Module records *)

Definition cv_of {MF : MacFormat} (d : ImageDetails) : CvInfoPdb GUID :=
  mkCvInfoPdb CvSignature_Pdb70 (guid_from (uuid d)) 0.

(** What [write_module] appends. *)
Definition module_bytes {MF : MacFormat} (d : ImageDetails) : list byte :=
  string_bytes (default [] (file_path d)) ++ encode (cv_of d) ++
  utf8_encode (module_file_name (default [] (file_path d))) ++ [Byte.x00].

Lemma write_module_run `{TG : Target} {F : Format} {FO : FormatOk F} {MF : MacFormat}
    {MFO : MacFormatOk MF} (d : ImageDetails) (b : Buffer) (base : Z) :
  checked_isize (E := WriterError) (swrap usize_bits (li_vm_addr (load_info d)) + slide (load_info d)) =
    Ok base ->
  Z.of_nat (length (inner b) + length (module_bytes d)) < 2 ^ 32 ->
  let path := default [] (file_path d) in
  write_module d b =
    (Ok (mkModule (wrap 64 base) (wrap 32 (li_vm_size (load_info d)))
           (mkLocation (Z.of_nat (length (module_bytes d) - length (string_bytes path)))
              (Z.of_nat (length (inner b) + length (string_bytes path))))
           (position b) (module_version (image_version d))),
     mkBuffer (inner b ++ module_bytes d)).
Proof.
  intros Hbase Hfit path. unfold module_bytes in Hfit |- *. fold path in Hfit |- *.
  set (name := utf8_encode (module_file_name path)) in *.
  rewrite !length_app, encode_length in Hfit. cbn [length] in Hfit.
  unfold write_module. cbv zeta. fold path. fold name.
  erewrite st_bind_run; [|apply map_err_ok, write_string_run; lia].
  rewrite Hbase. erewrite st_bind_run; [|reflexivity].
  erewrite st_bind_run; [|apply map_err_ok, alloc_with_val_run].
  erewrite st_bind_run; [|reflexivity]. erewrite st_bind_run; [|reflexivity].
  unfold add_u, mw_location, position. cbn [inner data_size rva mw_position].
  rewrite !(wrap_small 32 (Z.of_nat _)) by (unfold in_bits; rewrite ?length_app; lia).
  rewrite checked_fits by (unfold in_bits; lia). erewrite st_bind_run; [|reflexivity].
  rewrite checked_fits by (unfold in_bits; lia). erewrite st_bind_run; [|reflexivity].
  unfold mret, ST_ret. rewrite !length_app, encode_length. cbn [length].
  rewrite <- !app_assoc. repeat f_equal; lia.
Qed.

(** the record of a module.  When the dump has room, [write_module] succeeds
    and only appends; the record gives the load address and size of the image,
    its name reads back as the path of the image, and its debug record is the
    identifier followed by the file name, what follows the last slash of the
    path, and a NUL. *)
Theorem module_record_correct `{TG : Target} (F : Format) (FO : FormatOk F) (MF : MacFormat)
    (MFO : MacFormatOk MF) (d : ImageDetails) (b : Buffer) (base : Z) :
  checked_isize (E := WriterError)
    (swrap usize_bits (li_vm_addr (load_info d)) + slide (load_info d)) = Ok base ->
  Z.of_nat (length (inner b) + length (module_bytes d)) < 2 ^ 32 ->
  Forall is_char (default [] (file_path d)) ->
  exists m b', write_module d b = (Ok m, b') /\
    take (length (inner b)) (inner b') = inner b /\
    base_of_image m = wrap 64 base /\ size_of_image m = wrap 32 (li_vm_size (load_info d)) /\
    MemWriter.read_string (inner b') (module_name_rva m) = Some (default [] (file_path d)) /\
    bytes_at (Z.to_nat (rva (cv_record m))) (Z.to_nat (data_size (cv_record m))) (inner b') =
      encode (cv_of d) ++ utf8_encode (module_file_name (default [] (file_path d))) ++ [Byte.x00].
Proof.
  intros Hbase Hfit Hc. pose proof (write_module_run d b base Hbase Hfit) as Hrun. cbv zeta in Hrun.
  do 2 eexists. split; [exact Hrun|]. cbn [inner base_of_image size_of_image module_name_rva cv_record
    rva data_size]. unfold module_bytes in *. set (path := default [] (file_path d)) in *.
  set (tail := encode (cv_of d) ++ _ ++ _) in *.
  split; [by rewrite take_app_length|]. split; [done|]. split; [done|].
  rewrite length_app in Hfit. split.
  - unfold position. apply read_string_at; [done|lia|]. by apply bytes_at_mid.
  - rewrite Nat2Z.id, length_app, Nat2Z.id. rewrite app_assoc, bytes_at_app_r by (rewrite length_app; lia).
    rewrite length_app, Nat.sub_diag. apply bytes_at_all. lia.
Qed.

Definition sample_details : ImageDetails :=
  mkDetails (bytes_of "0123456789abcdef") (mkLoadInfo 4096 8192 65536)
    (Some (str_of "/usr/lib/libz.dylib")) (Some 0x00020304).

Lemma module_record_correct_witness :
  exists m b', @write_module x64_debug layout mac_layout sample_details (mkBuffer (le_split 3 1)) =
      (Ok m, b') /\ base_of_image m = 69632 /\
    MemWriter.read_string (inner b') (module_name_rva m) = Some (str_of "/usr/lib/libz.dylib").
Proof.
  destruct (@module_record_correct x64_debug layout layout_ok mac_layout mac_layout_ok sample_details
    (mkBuffer (le_split 3 1)) 69632) as (m & b' & Hrun & _ & Hb & _ & Hs & _).
  - vm_compute. reflexivity.
  - vm_compute. reflexivity.
  - apply (Forall_forall _ _). intros c Hc. left.
    assert (Hb : Forall (fun z => 0 <= z < 55296) (str_of "/usr/lib/libz.dylib"))
      by (apply (bool_decide_unpack _); vm_compute; exact I).
    by apply (proj1 (Forall_forall _ _) Hb).
  - exists m, b'. split; [exact Hrun|]. split; [exact Hb|exact Hs].
Defined.

(** ** Stacks in the dump *)

Lemma buf_write_all_run l c b : buf (write_all l) (c, b) = (Ok tt, (c, mkBuffer (inner b ++ l))).
Proof. reflexivity. Qed.

Lemma get_position_run {E} (c : MinidumpWriter) b :
  get_position (E := E) (c, b) = (Ok (position b), (c, b)).
Proof. reflexivity. Qed.

(** Bytes appended at the position a descriptor names. *)
Lemma appended_at (b l : list byte) n :
  n = Z.of_nat (length l) -> Z.of_nat (length (b ++ l)) < 2 ^ 32 ->
  bytes_at (Z.to_nat (wrap 32 (Z.of_nat (length b)))) (Z.to_nat n) (b ++ l) = l.
Proof.
  intros -> Hlt. rewrite length_app in Hlt.
  rewrite wrap_small, !Nat2Z.id by (unfold in_bits; lia).
  rewrite <- (app_nil_r (b ++ l)), <- app_assoc. by apply bytes_at_mid.
Qed.

Lemma calculate_stack_size_nonneg `{TG : Target} {M : Mach} fuel start dumper size :
  calculate_stack_size fuel start dumper = Ok size -> 0 <= size.
Proof.
  assert (Hub : 0 <= usize_bits) by (unfold usize_bits; destruct pointer_width; lia).
  unfold calculate_stack_size. case_match; [by intros [= <-]|].
  destruct (res_ok _) as [[region|]| |]; cbn [mbind res_bind]; [|by intros [= <-]|done..].
  case_match; [by intros [= <-]|].
  destruct (sub_u 64 (range_end region) _); cbn [mbind res_bind]; [|done..].
  destruct (if _ =? _ then _ else _); cbn [mbind res_bind]; [|done..].
  destruct (add_u _ _ _); cbn [mbind res_bind]; [|done..].
  destruct (sub_u _ _ _); cbn [mbind res_bind]; [|done..].
  intros [= <-]. by apply wrap_in_bits.
Qed.

(** What is written for a stack: the copy, or a marker twice. *)
Definition stack_written `{TG : Target} {M : Mach} (start : Z) (dumper : TaskDumper) (address : Z)
    (l : list byte) : Prop :=
  address = start /\ (exists size, 0 <= size /\ read_task_memory dumper 1 start size = Ok l) \/
  address ∈ [0xdeadbeef; 0xdeaddead] /\ l = le_split 8 address ++ le_split 8 address.

Lemma write_stack_shape `{TG : Target} {M : Mach} fuel start dumper c b stack c' b' :
  write_stack_from_start_address fuel start dumper (c, b) = (Ok stack, (c', b')) ->
  exists l, c' = push_memory_block stack c /\ inner b' = inner b ++ l /\
    memory stack = mkLocation (wrap 32 (Z.of_nat (length l))) (wrap 32 (position b)) /\
    stack_written start dumper (start_of_memory_range stack) l.
Proof.
  intros Hrun. unfold write_stack_from_start_address in Hrun.
  apply st_bind_ok in Hrun as (size & [c1 b1] & Hsz & Hrun).
  unfold ask, st_lift in Hsz. injection Hsz as Hsz <- <-.
  destruct (calculate_stack_size fuel start dumper) as [sz| |] eqn:Hcs; [|done..].
  injection Hsz as ->. apply calculate_stack_size_nonneg in Hcs.
  apply st_bind_ok in Hrun as (loc & s2 & Hloc & Hrun).
  apply st_bind_ok in Hrun as (stk & [c3 b3] & Hstk & Hrun).
  apply st_bind_ok in Hrun as ([] & s4 & Hrec & Hret).
  injection Hrec as <-. injection Hret as -> <- <-. cbn [fst snd].
  set (marker := if size =? 0 then 0xdeadbeef else 0xdeaddead) in *.
  destruct loc as [l|].
  - destruct (negb (size =? 0)); [|done].
    apply st_bind_ok in Hloc as (r & s5 & Hr & Hloc). unfold st_lift in Hr.
    injection Hr as Hr <-. destruct r as [bs|]; [|done].
    erewrite st_bind_run in Hloc by apply get_position_run.
    erewrite st_bind_run in Hloc by apply buf_write_all_run. injection Hloc as <- <-.
    injection Hstk as <- <- <-. exists bs. split_and!; try done. left. split; [done|].
    destruct (read_task_memory _ _ _ _) as [bs'| |] eqn:Hm; [|done..]. injection Hr as ->.
    by exists size.
  - assert (Hs2 : s2 = (c, b)).
    { destruct (negb (size =? 0)); [|by injection Hloc as <-].
      apply st_bind_ok in Hloc as (r & s5 & Hr & Hloc). unfold st_lift in Hr.
      injection Hr as _ <-. destruct r; [|by injection Hloc as <-].
      erewrite st_bind_run in Hloc by apply get_position_run.
      by erewrite st_bind_run in Hloc by apply buf_write_all_run. }
    subst s2. erewrite st_bind_run in Hstk by apply get_position_run.
    erewrite st_bind_run in Hstk by apply buf_write_all_run.
    erewrite st_bind_run in Hstk by apply buf_write_all_run.
    injection Hstk as <- <- <-. cbn [inner]. exists (le_split 8 marker ++ le_split 8 marker).
    rewrite <- app_assoc, length_app, !length_le_split. split_and!; try done. right. split; [|done].
    unfold marker. cbn [start_of_memory_range]. destruct (size =? 0); set_solver.
Qed.

(** the stack of a thread in the dump.  Whatever the stack pointer, the
    bytes of the descriptor that is returned and recorded are at the end of the
    buffer, everything before is kept, and they are either the memory of the
    task at the stack pointer or, when there is no stack or it cannot be read,
    sixteen bytes of one of the two markers, with the marker as the address. *)
Theorem mac_stack_copied `{TG : Target} (F : Format) (FO : FormatOk F) (M : Mach) (task : Z)
    (mem : Memory) (MO : MachOk M task mem) (fuel : nat) (start : Z) (c c' : MinidumpWriter)
    (b b' : Buffer) (stack : MDMemoryDescriptor) :
  in_bits 64 start ->
  write_stack_from_start_address fuel start (TaskDumper_new task) (c, b) = (Ok stack, (c', b')) ->
  Z.of_nat (length (inner b')) < 2 ^ 32 ->
  let copy := bytes_at (Z.to_nat (rva (memory stack))) (Z.to_nat (data_size (memory stack)))
                (inner b') in
  memory_blocks c' = memory_blocks c ++ [stack] /\ inner b' = inner b ++ copy /\
  (start_of_memory_range stack = start /\
     mem_bytes mem start (Z.to_nat (data_size (memory stack))) = Some copy \/
   exists marker, marker ∈ [0xdeadbeef; 0xdeaddead] /\ start_of_memory_range stack = marker /\
     copy = le_split 8 marker ++ le_split 8 marker).
Proof.
  intros Hst Hrun Hlt copy. apply write_stack_shape in Hrun as (l & -> & Hb & Hm & Hw).
  assert (Hl : Z.of_nat (length l) < 2 ^ 32) by (rewrite Hb, length_app in Hlt; lia).
  assert (Hds : data_size (memory stack) = Z.of_nat (length l))
    by (rewrite Hm; apply wrap_small; unfold in_bits; lia).
  assert (Hcopy : copy = l).
  { subst copy. rewrite Hds, Hm, Hb in *. cbn [rva]. unfold position. by apply appended_at. }
  rewrite Hcopy, Hds, Nat2Z.id. split_and!; [done|done|].
  destruct Hw as [[Ha (size & Hsz & Hr)]|[Hin Hl']]; [left|right; by eexists].
  split; [done|]. apply (read_task_memory_mem task mem) in Hr; [|done..].
  pose proof (mem_bytes_length _ _ _ _ Hr) as Hlen. by rewrite <- Hlen in Hr.
Qed.

Local Notation stack_run := (@write_stack_from_start_address x64_debug stack_mach 5 4100
  (mkTaskDumper 7 16) (sample_writer, mkBuffer (le_split 3 1))).

Lemma mac_stack_copied_witness :
  exists stack c' b', stack_run = (Ok stack, (c', b')) /\ data_size (memory stack) = 44 /\
    (start_of_memory_range stack = 4100 \/ exists m, start_of_memory_range stack = m).
Proof.
  assert (H1 : match stack_run with
    | (Ok stack, (c', b')) => data_size (memory stack) = 44 /\ Z.of_nat (length (inner b')) = 47
    | _ => False end) by (vm_compute; split; reflexivity).
  destruct stack_run as [[stack|e|] [c' b']] eqn:Hrun; [|destruct H1..].
  destruct H1 as [H1 H2]. exists stack, c', b'. split; [reflexivity|]. split; [exact H1|].
  destruct (@mac_stack_copied x64_debug layout layout_ok stack_mach 7 sample_memory
    (toy_mach_ok _ _ _ _ _ 7) 5 4100 sample_writer c' (mkBuffer (le_split 3 1)) b' stack
    ltac:(vm_compute; split; [discriminate|reflexivity]) Hrun ltac:(rewrite H2; reflexivity))
    as (_ & _ & [[Ha _]|(m & _ & Hm & _)]); [left; exact Ha|right; exists m; exact Hm].
Defined.

(** ** The window around the instruction pointer *)

(** the memory around the crashing instruction.  A window is only taken when
    the instruction pointer lies in the region the kernel reports for it; it then
    contains the pointer, stays in that region and has at most 256 bytes.  For a
    pointer below 128 the lower bound underflows: a checked build panics. *)
Theorem ip_window_bounds `{TG : Target} (M : Mach) (CPU : MacCpu) (dumper : TaskDumper)
    (tid : Z) (ts : ThreadState) (region : VMRegionInfo) :
  read_thread_state dumper THREAD_STATE_FLAVOR tid = Ok ts ->
  get_vm_region dumper (state_pc ts) = Ok region ->
  range_start region <= state_pc ts <= range_end region -> range_end region < 2 ^ 64 - 128 ->
  if decide (128 <= state_pc ts) then
    exists first last, get_ip_block dumper tid = Ok (Some (first, last)) /\
      range_start region <= first <= state_pc ts /\ state_pc ts <= last <= range_end region /\
      last - first <= IP_MEM_SIZE
  else overflow_checks = true -> get_ip_block dumper tid = Panic.
Proof.
  intros Hts Hreg Hb Hb'. unfold get_ip_block. rewrite Hts. cbn [res_ok mbind res_bind]. rewrite Hreg.
  cbn [res_ok mbind res_bind]. rewrite (proj2 (Z.ltb_ge _ _)), (proj2 (Z.ltb_ge _ _)) by lia.
  cbn [orb]. change (IP_MEM_SIZE / 2) with 128. unfold add_u, IP_MEM_SIZE. case_decide as Hip.
  - rewrite sub_u_ok by lia. cbn [mbind res_bind]. rewrite checked_fits by (unfold in_bits; lia).
    cbn [mbind res_bind]. do 2 eexists. split; [reflexivity|]. lia.
  - intros Hoc. unfold sub_u. rewrite (proj2 (Z.leb_gt _ _)) by lia. by rewrite Hoc.
Qed.

Lemma ip_window_bounds_witness :
  exists first last, @get_ip_block x64_debug sample_mach sample_cpu (mkTaskDumper 7 16) 259 =
    Ok (Some (first, last)) /\ last - first <= 256.
Proof.
  destruct (read_thread_state (M := sample_mach) (mkTaskDumper 7 16) 6 259) as [ts| |] eqn:Hts;
    [|vm_compute in Hts; discriminate..].
  assert (Hpc : @state_pc sample_cpu ts = 4112).
  { replace ts with (match read_thread_state (M := sample_mach) (mkTaskDumper 7 16) 6 259 with
      | Ok t => t | _ => default_thread_state end) by by rewrite Hts. vm_compute. reflexivity. }
  pose proof (@ip_window_bounds x64_debug sample_mach sample_cpu (mkTaskDumper 7 16) 259 ts
    (mkRegion (mkRegionInfo 30 3) 4096 4144) Hts) as Hw. rewrite Hpc in Hw.
  specialize (Hw ltac:(vm_compute; reflexivity) ltac:(cbn; lia) ltac:(cbn; lia)).
  rewrite decide_True in Hw by lia. destruct Hw as (first & last & Hr & _ & _ & Hl).
  exists first, last. split; [exact Hr|exact Hl].
Defined.

(** ** Process times *)

(** process times.  A kernel time of up to about 5.29 million microseconds
    becomes exactly that duration; from there on the multiplication to
    nanoseconds overflows 32 bits, and a checked build panics, although the
    conversion means to guard against microseconds out of range. *)
Theorem duration_exact `{TG : Target} (s us : Z) :
  0 <= s < 2 ^ 31 -> 0 <= us < 2 ^ 31 ->
  if us <? 5294968 then
    exists d, duration_from (mkTimeValue s us) = Ok d /\ 0 <= nanos d < 10 ^ 9 /\
      secs d * 10 ^ 9 + nanos d = (s * 10 ^ 6 + us) * 1000
  else overflow_checks = true -> duration_from (mkTimeValue s us) = Panic.
Proof.
  intros Hs Hus. unfold duration_from. cbn [tv_seconds tv_microseconds]. cbv zeta.
  rewrite !wrap_small by (unfold in_bits; lia).
  assert (Hnew : forall s' u, 0 <= s' <= 2 ^ 31 -> 0 <= u -> u * 1000 < 2 ^ 32 ->
    exists d, Duration_new s' (u * 1000) = Ok d /\ 0 <= nanos d < 10 ^ 9 /\
      secs d * 10 ^ 9 + nanos d = s' * 10 ^ 9 + u * 1000).
  { intros s' u Hs' Hu Hlt. unfold Duration_new. destruct (Z.ltb_spec (u * 1000) (10 ^ 9)).
    - eexists. split; [done|]. cbn. lia.
    - pose proof (Z.div_mod (u * 1000) (10 ^ 9)). pose proof (Z.mod_pos_bound (u * 1000) (10 ^ 9)).
      assert (u * 1000 / 10 ^ 9 < 2 ^ 32) by (apply Z.div_lt_upper_bound; lia).
      assert (0 <= u * 1000 / 10 ^ 9) by (apply Z.div_pos; lia).
      rewrite (proj2 (Z.ltb_lt _ _)) by lia. eexists. split; [done|]. cbn [secs nanos]. lia. }
  unfold add_u, mul_u. destruct (Z.ltb_spec us 5294968), (Z.leb_spec 1000000 us); try lia.
  - rewrite checked_fits by (unfold in_bits; lia). cbn [mbind res_bind].
    rewrite sub_u_ok by lia. cbn [mbind res_bind]. rewrite checked_fits by (unfold in_bits; lia).
    cbn [mbind res_bind]. destruct (Hnew (s + 1) (us - 1000000)) as (d & -> & Hn & Hd); [lia..|].
    exists d. split_and!; [done|lia..].
  - cbn [mbind res_bind]. rewrite checked_fits by (unfold in_bits; lia). cbn [mbind res_bind].
    destruct (Hnew s us) as (d & -> & Hn & Hd); [lia..|]. exists d. split_and!; [done|lia..].
  - intros Hoc. rewrite checked_fits by (unfold in_bits; lia). cbn [mbind res_bind].
    rewrite sub_u_ok by lia. cbn [mbind res_bind]. unfold checked.
    rewrite (proj2 (Z.ltb_ge _ _)) by lia. by rewrite andb_false_r, Hoc.
Qed.

Lemma duration_exact_witness :
  exists d, @duration_from x64_debug (mkTimeValue 3 2500000) = Ok d /\ secs d = 5.
Proof.
  assert (H : 0 <= 3 < 2 ^ 31 /\ 0 <= 2500000 < 2 ^ 31) by lia. destruct H as [H1 H2].
  destruct (@duration_exact x64_debug 3 2500000 H1 H2) as (d & Hd & Hn & He).
  exists d. split; [exact Hd|lia].
Defined.

(** ** A task without threads *)

(** Reserving [usize::MAX] slots in a release build: the buffer loses the size of
    one slot. *)
Lemma alloc_slots_wraps `{TG : Target} {T} `{PT : PodOk T} (b : Buffer) :
  pointer_width = W64 -> overflow_checks = false ->
  (0 < size_with T <= length (inner b))%nat -> Z.of_nat (length (inner b)) < 2 ^ 33 ->
  exists w, data_size (maw_location w) = wrap 32 (- Z.of_nat (size_with T)) /\
    alloc_slots T (2 ^ 64 - 1) b =
      (Ok w, mkBuffer (take (length (inner b) - size_with T) (inner b))).
Proof.
  intros Hw Hoc Hsz Hlt. assert (Hub : usize_bits = 64) by (unfold usize_bits; by rewrite Hw).
  eexists. split; cycle 1.
  - unfold alloc_slots. rewrite Hub, Hoc. cbv zeta.
    rewrite (proj2 (Z.ltb_ge _ _)) by nia. unfold position.
    replace (wrap 64 (_ + _)) with (Z.of_nat (length (inner b) - size_with T)).
    + rewrite (proj2 (Z.ltb_lt _ _)) by lia. rewrite Nat2Z.id. unfold vec_resize.
      replace (_ - length (inner b))%nat with 0%nat by lia. cbn [replicate].
      rewrite app_nil_r. reflexivity.
    + unfold wrap. rewrite Z.add_mod_idemp_r by lia.
      apply (Z.mod_unique _ _ (Z.of_nat (size_with T))); lia.
  - unfold maw_location. cbn [data_size MemWriter.array_size]. unfold wrap.
    rewrite Nat2Z.inj_mul, Z2Nat.id by lia.
    replace ((2 ^ 64 - 1) * Z.of_nat (size_with T)) with
      (- Z.of_nat (size_with T) + (2 ^ 32 * Z.of_nat (size_with T)) * 2 ^ 32) by lia.
    by rewrite Z.mod_add by lia.
Qed.

(** when the threads of the task cannot be listed, or there are none, and
    the handler thread is known, the announced number of threads underflows.  A
    checked build panics; a release build computes a reservation that wraps
    around: the thread list stream returns an entry for an array that does not
    exist, and leaves the buffer shorter than it was, without its last bytes. *)
Theorem thread_list_without_threads `{TG : Target} (F : Format) (FO : FormatOk F) (M : Mach)
    (CPU : MacCpu) (fuel : nat) (dumper : TaskDumper) (c : MinidumpWriter) (b : Buffer) :
  pointer_width = W64 -> handler_thread c <> 0 ->
  (forall ts, task_threads (td_task dumper) = inr ts -> ts = []) ->
  let size := size_with MDRawThread in
  (4 < size <= length (inner b))%nat -> Z.of_nat (length (inner b)) < 2 ^ 32 ->
  if overflow_checks then (write_thread_list fuel dumper (c, b)).1 = Panic
  else exists dirent, write_thread_list fuel dumper (c, b) =
    (Ok dirent, (c, mkBuffer (take (length (inner b) - (size - 4)) (inner b)))).
Proof.
  intros Hw Hh Hts size Hsz Hlt. assert (Hub : usize_bits = 64) by (unfold usize_bits; by rewrite Hw).
  unfold write_thread_list. erewrite st_bind_run; [|reflexivity].
  set (t := mkActiveThreads [] (handler_thread c) 0).
  assert (Ht : threads (E := WriterError) c dumper = Ok t).
  { unfold threads, read_threads. destruct (task_threads _) as [kr|ts] eqn:E; cbn; [done|].
    by rewrite (Hts ts eq_refl). }
  cbn [fst]. rewrite Ht. erewrite st_bind_run; [|reflexivity].
  unfold at_len. cbn [at_threads at_handler t length]. unfold MACH_PORT_NULL.
  rewrite (proj2 (Z.eqb_neq _ _)) by done. cbn [negb]. unfold sub_u. cbn [Z.leb].
  change (1 <=? Z.of_nat 0) with false. destruct overflow_checks eqn:Hoc; [done|].
  erewrite st_bind_run; [|reflexivity]. rewrite Hub. change (wrap 64 (Z.of_nat 0 - 1)) with (2 ^ 64 - 1).
  erewrite st_bind_run; [|apply map_err_ok, on_buf_run, alloc_with_val_run].
  unfold buf at 1. cbn [set_buf pair_has_buffer fst get_buf snd].
  destruct (alloc_slots_wraps (T := MDRawThread)
    (mkBuffer (inner b ++ encode (U32 (wrap 32 (2 ^ 64 - 1)))))) as (w & Hds & Hrun);
    [done|done|cbn [inner]; rewrite length_app, encode_length, size_u32; subst size; lia..|].
  cbn [inner] in Hrun. rewrite length_app, encode_length, size_u32, take_app_le in Hrun by lia.
  replace (length (inner b) + 4 - size_with MDRawThread)%nat
    with (length (inner b) - (size - 4))%nat in Hrun by lia.
  erewrite st_bind_run; [|apply map_err_ok, on_buf_run; exact Hrun].
  unfold extend_dirent, mw_location. cbn [location data_size stream_type rva]. rewrite size_u32, Hds.
  assert (Hd : wrap 32 (- Z.of_nat size) = 2 ^ 32 - Z.of_nat size)
    by (symmetry; apply (Z.mod_unique _ _ (-1)); lia).
  fold size. rewrite Hd. change (wrap 32 (Z.of_nat 4)) with 4. unfold add_u.
  rewrite checked_fits by (unfold in_bits; lia). erewrite st_bind_run; [|reflexivity].
  eexists. reflexivity.
Qed.

Lemma thread_list_without_threads_witness :
  exists dirent, @write_thread_list x64_release layout (toy_mach sample_memory [] [] [] []) sample_cpu 5
    (mkTaskDumper 7 16) (sample_writer, mkBuffer (replicate 100 Byte.x01)) =
  (Ok dirent, (sample_writer, mkBuffer (replicate 56 Byte.x01))).
Proof.
  exact (@thread_list_without_threads x64_release layout layout_ok (toy_mach sample_memory [] [] [] [])
    sample_cpu 5 (mkTaskDumper 7 16) sample_writer (mkBuffer (replicate 100 Byte.x01)) eq_refl
    ltac:(discriminate) ltac:(intros ts [= <-]; reflexivity) ltac:(vm_compute; lia)
    ltac:(vm_compute; reflexivity)).
Defined.
