(* ===== verification/MacStreamSpec.v ===== *)
(** * What the macOS streams contain, and when they are written

    For every stream writer of src/src/mac/streams/ the contents of the stream it
    leaves in the buffer, and the conditions on the task under which it returns:
    one judgement for both (DumpStages.v). *)
From Stdlib Require Import ZArith Lia String.
From S2P Require Import Prelude Format Layout MemWriter DirSection Driver DumpPlan Slots Ensures DumpStages.
From S2P Require Import RustStr Text Os Contexts Mach TaskDumper MacConfig MacCpus MacStreams MacModules MacSpec.
From S2P Require Import MacContents.

Local Open Scope Z_scope.
Local Notation length := List.length.

(** A writer that has recorded further memory blocks, and is otherwise the same. *)
Definition adds (c c' : MinidumpWriter) : Prop :=
  exists ds, c' = mkWriter (crash_context c) (memory_blocks c ++ ds) (task c) (handler_thread c).

#[export] Instance adds_preorder : PreOrder adds.
Proof.
  split.
  - intros []. exists []. cbn. by rewrite app_nil_r.
  - intros c c1 c2 [ds ->] [ds' ->]. exists (ds ++ ds'). cbn. by rewrite app_assoc.
Qed.

Lemma adds_push c d : adds c (push_memory_block d c).
Proof. by exists [d]. Qed.

Lemma adds_blocks c c' : adds c c' -> memory_blocks c ⊆ memory_blocks c'.
Proof. intros [ds ->]. cbn. by apply list_subseteq_app_l. Qed.

Lemma adds_fields c c' :
  adds c c' -> crash_context c' = crash_context c /\ task c' = task c /\
  handler_thread c' = handler_thread c.
Proof. by intros [ds ->]. Qed.

(** ** Stacks *)

Definition marker_block (marker : Z) : list byte := le_split 8 marker ++ le_split 8 marker.

Section stacks.
Context `{TG : Target} {F : Format} {FO : FormatOk F} {M : Mach} (fuel : nat).

(** The address and the bytes recorded for the stack at [sp]: the memory up to
    the top of the stack, or a marker when there is none or it cannot be read. *)
Definition stack_copy (sp : Z) (dumper : TaskDumper) : res TaskDumpError (Z * list byte) :=
  size ← calculate_stack_size fuel sp dumper;
  if size =? 0 then Ok (0xdeadbeef, marker_block 0xdeadbeef)
  else
    r ← res_ok (read_task_memory dumper 1 sp size);
    Ok (match r with
        | Some bs => (sp, bs)
        | None => (0xdeaddead, marker_block 0xdeaddead)
        end).

Lemma write_stack_run sp dumper c b a bs :
  stack_copy sp dumper = Ok (a, bs) ->
  let d := mkMemoryDescriptor a (mkLocation (wrap 32 (Z.of_nat (length bs))) (wrap 32 (position b))) in
  write_stack_from_start_address fuel sp dumper (c, b) =
    (Ok d, (push_memory_block d c, mkBuffer (inner b ++ bs))).
Proof.
  unfold stack_copy, write_stack_from_start_address. intros Hc.
  destruct (calculate_stack_size _ _ _) as [size| |]; cbn [mbind res_bind] in Hc; [|done..].
  erewrite st_bind_run; [|reflexivity]. destruct (size =? 0); cbn [negb].
  - injection Hc as <- <-. erewrite st_bind_run; [|reflexivity].
    erewrite st_bind_run; [|reflexivity]. cbn. by rewrite <- app_assoc.
  - destruct (read_task_memory _ _ _ _) as [l|e|]; cbn [res_ok mbind res_bind] in Hc |- *; [..|done].
    + injection Hc as <- <-. erewrite st_bind_run; [|reflexivity]. reflexivity.
    + injection Hc as <- <-. erewrite st_bind_run; [|reflexivity].
      erewrite st_bind_run; [|reflexivity]. cbn. by rewrite <- app_assoc.
Qed.

Lemma write_stack_copies sp dumper s d s' :
  write_stack_from_start_address fuel sp dumper s = (Ok d, s') ->
  exists x, stack_copy sp dumper = Ok x.
Proof.
  unfold stack_copy, write_stack_from_start_address. intros Hrun.
  apply st_bind_ok in Hrun as (size & s1 & Hsz & Hrun). injection Hsz as Hsz <-.
  destruct (calculate_stack_size _ _ _) as [sz| |]; [injection Hsz as ->|done..].
  cbn [mbind res_bind]. destruct (size =? 0); [by eexists|]. cbn [negb] in Hrun.
  apply st_bind_ok in Hrun as (loc & s2 & Hloc & _). apply st_bind_ok in Hloc as (r & s3 & Hr & _).
  injection Hr as Hr _. destruct (read_task_memory _ _ _ _); [by eexists..|done].
Qed.
End stacks.

(** ** The thread list *)

Section threads.
Context `{TG : Target} {F : Format} {FO : FormatOk F} {MF : MacFormat} {MFO : MacFormatOk MF}.
Context {M : Mach} {CPU : MacCpu} {CO : MacCpuOk CPU}.
Context (fuel : nat) (total : bool) (dumper : TaskDumper).

(** The registers of a thread as the dump has them. *)
Definition registers_of (ts : ThreadState) : list byte := encode (fill_cpu_context ts default_cpu).

(** The record [v] of the thread [tid] in the bytes [l]: its registers and its
    stack stand where it says, and the stack is one of the memory blocks. *)
Definition mac_thread_record (lo : nat) (l : list byte) (blocks : list MDMemoryDescriptor) (tid : Z)
    (v : MDRawThread) : Prop :=
  exists ts a bs,
    read_thread_state dumper THREAD_STATE_FLAVOR tid = Ok ts /\
    stack_copy fuel (state_sp ts) dumper = Ok (a, bs) /\
    thread_id v = tid /\
    data_size (thread_context v) = Z.of_nat (size_with RawContextCPU) /\
    stands lo l (rva (thread_context v)) (registers_of ts) /\
    start_of_memory_range (stack v) = a /\
    data_size (memory (stack v)) = Z.of_nat (length bs) /\
    stands lo l (rva (memory (stack v))) bs /\ stack v ∈ blocks.

Lemma mac_thread_record_kept lo hi lo' l l' blocks blocks' tid v :
  kept_outside lo hi l l' -> (hi <= lo')%nat -> blocks ⊆ blocks' ->
  mac_thread_record lo' l blocks tid v -> mac_thread_record lo' l' blocks' tid v.
Proof.
  intros Hk Hhi Hb (ts & a & bs & ? & ? & ? & ? & Hc & ? & ? & Hs & Hin). exists ts, a, bs.
  split_and!; [done..|by eapply stands_kept|done|done|by eapply stands_kept|by apply Hb].
Qed.

Lemma mac_thread_record_weaken lo lo' l blocks tid v :
  (lo' <= lo)%nat -> mac_thread_record lo l blocks tid v -> mac_thread_record lo' l blocks tid v.
Proof.
  intros Hlo (ts & a & bs & ? & ? & ? & ? & Hc & ? & ? & Hs & Hin). exists ts, a, bs.
  split_and!; [done..|by eapply stands_weaken|done|done|by eapply stands_weaken|done].
Qed.

(** A thread that can be described: it has registers, and the reads of its stack
    do not overflow. *)
Definition thread_readable (tid : Z) : Prop :=
  exists ts x, read_thread_state dumper THREAD_STATE_FLAVOR tid = Ok ts /\
    stack_copy fuel (state_sp ts) dumper = Ok x.

Lemma write_thread_judge tid c b :
  (total = true -> thread_readable tid) ->
  judge total (write_thread fuel tid dumper) (c, b) (fun v s =>
    adds c s.1 /\ extended (inner b) (inner s.2) /\
    mac_thread_record (length (inner b)) (inner s.2) (memory_blocks s.1) tid v).
Proof.
  intros Hr. unfold write_thread.
  apply judge_bind; [intros; apply (frame_grows 0); unfold buf; frame_tac|].
  apply judge_lift.
  2: { intros _ Ht. destruct (Hr Ht) as (ts & x & -> & _). by eexists. }
  intros ts _ Hts. destruct (read_thread_state _ _ _) as [ts'| |] eqn:Hstate; [injection Hts as ->|done..].
  apply judge_bind; [intros; apply (frame_grows 0); unfold buf; frame_tac|].
  assert (Hcopy : judge total (write_stack_from_start_address fuel (state_sp ts) dumper) (c, b)
    (fun d s => exists a bs, stack_copy fuel (state_sp ts) dumper = Ok (a, bs) /\
      d = mkMemoryDescriptor a (mkLocation (wrap 32 (Z.of_nat (length bs))) (wrap 32 (position b))) /\
      s = (push_memory_block d c, mkBuffer (inner b ++ bs)))).
  { apply (judge_when _ (stack_copy fuel (state_sp ts) dumper)).
    - intros [a bs] Hc. eapply judge_run; [by apply write_stack_run|]. by exists a, bs.
    - intros d s'. apply write_stack_copies.
    - intros Ht. destruct (Hr Ht) as (ts' & x & Hts' & Hx). exists x. congruence. }
  eapply judge_conseq; [exact Hcopy|]. intros d s _ (a & bs & Hc & Hd & ->).
  apply judge_bind; [intros; apply st_rel_ret; apply _|]. unfold buf.
  eapply judge_run; [apply map_err_ok, on_buf_run, alloc_with_val_run|].
  eapply judge_run_small; [reflexivity|]. intros Hs. unfold small, buf_len in Hs.
  cbn [get_buf set_buf pair_has_buffer fst snd inner] in *.
  rewrite !length_app, encode_length in Hs.
  split; [apply adds_push|]. split; [rewrite <- app_assoc; apply extended_app|].
  assert (Hsz : wrap 32 (Z.of_nat (length bs)) = Z.of_nat (length bs))
    by (apply wrap_small; unfold in_bits; lia).
  assert (Hpos : wrap 32 (position b) = Z.of_nat (length (inner b)))
    by (apply wrap_small; unfold in_bits, position; lia).
  exists ts, a, bs. unfold mw_location. cbn [thread_id thread_context stack memory data_size rva mw_position].
  rewrite Hd, Hsz, Hpos. cbn [start_of_memory_range memory data_size rva]. unfold position. cbn [inner].
  rewrite !wrap_small by (unfold in_bits; rewrite ?length_app; lia).
  split_and!; try done.
  - apply stands_end. rewrite length_app. lia.
  - rewrite <- app_assoc. by apply stands_mid.
  - cbn. apply elem_of_app. right. by apply list_elem_of_singleton.
Qed.

(** The threads of the task: they can be listed, and the handler thread is one of
    them or unknown. *)
Record task_listed (c : MinidumpWriter) (ts : list Z) : Prop := {
  tl_64 : pointer_width = W64;
  tl_sizes : Z.of_nat (size_with MDRawThread) <= 2 ^ 16 /\
    Z.of_nat (size_with MDRawThreadName) <= 2 ^ 16;
  tl_threads : task_threads (td_task dumper) = inr ts;
  tl_count : 0 < Z.of_nat (length ts) < 2 ^ 32;
  tl_nodup : NoDup ts;
  tl_null : ~ (0 ∈ ts);
  tl_handler : handler_thread c = 0 \/ handler_thread c ∈ ts;
}.

(** The threads that are dumped: all but the handler. *)
Definition dumped (c : MinidumpWriter) (ts : list Z) : list Z :=
  filter (fun tid => tid <> handler_thread c) ts.

Lemma task_listed_known c ts : task_listed c ts -> threads_known (td_task dumper).
Proof. intros [H64 Hs Ht Hc _ _ _]. constructor; [done..|]. right. by exists ts. Qed.

Lemma threads_dumped {E} c ts :
  task_listed c ts -> exists t, threads (E := E) c dumper = Ok t /\
    at_items t = dumped c ts /\ at_len (E := E) t = Ok (Z.of_nat (length (dumped c ts))).
Proof.
  intros [H64 _ Ht Hc Hnd H0 Hh]. exists (mkActiveThreads ts (handler_thread c) 0). split.
  { unfold threads, read_threads. by rewrite Ht. }
  destruct (active_threads_len E ts (handler_thread c) Hnd H0) as [Hi Hl].
  split; [done|]. rewrite decide_True in Hl by done. by rewrite Hl, Hi.
Qed.

Lemma dumped_small c ts : task_listed c ts -> Z.of_nat (length (dumped c ts)) < 2 ^ 32.
Proof.
  intros Hl. pose proof (tl_count _ _ Hl). unfold dumped.
  pose proof (length_filter (fun tid => tid <> handler_thread c) ts). lia.
Qed.

(** A stream with a count and one slot for each of the items. *)
Section slot_stream.
Context {T : Type} `{PT : PodOk T} (ty : Z) (items : list Z).
Context (body : MemoryArrayWriter T -> nat -> Z -> Writer WriterError unit).
Context (I : MinidumpWriter -> Prop) (R : nat -> list byte -> MinidumpWriter -> Z -> T -> Prop).

Definition slot_stream (len : Z) : Writer WriterError MDRawDirectory :=
  list_header ← buf (alloc_with_val (U32 (wrap 32 len)));
  let dirent := mkDirectory ty (mw_location list_header) in
  array ← buf (alloc_slots T len);
  dirent ← st_lift (extend_dirent dirent (data_size (maw_location array)));
  st_for_enum 0 items (body array);;
  mret dirent.

(** A record stays right while the array is filled and more is appended. *)
Hypothesis Hkept : forall lo hi lo' l l' c c' x v,
  kept_outside lo hi l l' -> (hi <= lo')%nat -> adds c c' -> R lo' l c x v -> R lo' l' c' x v.
Hypothesis Hweaken : forall lo lo' l c x v, (lo' <= lo)%nat -> R lo l c x v -> R lo' l c x v.
Hypothesis Hgrows : forall w i x, st_rel grows (body w i x).
Hypothesis Hbody : forall w p i x c b,
  maw_position w = Z.of_nat p -> (p + size_with T * length items <= length (inner b))%nat ->
  items !! i = Some x -> I c ->
  judge total (body w i x) (c, b) (fun _ s => I s.1 /\ adds c s.1 /\
    exists v, slot_set p i v (inner b) (inner s.2) /\ R (length (inner b)) (inner s.2) s.1 x v).

Lemma slot_stream_judge c b :
  pointer_width = W64 -> Z.of_nat (size_with T) <= 2 ^ 16 -> Z.of_nat (length items) < 2 ^ 32 -> I c ->
  judge total (slot_stream (Z.of_nat (length items))) (c, b) (fun e s => I s.1 /\ adds c s.1 /\
    exists vs, list_at (length (inner b)) (inner s.2) ty e vs /\
      Forall2 (R (length (inner b)) (inner s.2) s.1) items vs).
Proof.
  intros H64 Hsz Hn HI. unfold slot_stream.
  assert (Hub : usize_bits = 64) by (unfold usize_bits; by rewrite H64).
  assert (Halloc : forall b, alloc_slots T (Z.of_nat (length items)) b = alloc_array T (length items) b).
  { intros b0. unfold alloc_slots. rewrite Hub. cbv zeta.
    rewrite (proj2 (Z.ltb_lt _ _)) by nia. by rewrite Nat2Z.id. }
  eapply judge_bind_run; [apply map_err_ok, on_buf_run, alloc_with_val_run|]. cbv zeta.
  eapply judge_bind_run; [apply map_err_ok, on_buf_run; rewrite Halloc; apply alloc_array_run|].
  cbn [get_buf set_buf pair_has_buffer fst snd inner].
  set (h := mkMemoryWriter _ _). set (w := mkMemoryArrayWriter _ _). set (b2 := mkBuffer _).
  apply judge_bind.
  { intros d. apply st_rel_bind; [apply _|by apply st_rel_for_enum; [apply _|]|].
    intros. apply st_rel_ret. apply _. }
  assert (Hstart : small (c, b2) ->
    extend_dirent (E := WriterError) (mkDirectory ty (mw_location h)) (data_size (maw_location w)) =
      Ok (mkDirectory ty (mkLocation (Z.of_nat (4 + size_with T * length items))
        (Z.of_nat (length (inner b))))) /\
    maw_position w = Z.of_nat (length (inner b) + 4) /\
    inner b2 = inner b ++ le_split 4 (Z.of_nat (length items)) ++
      replicate (length items * size_with T) Byte.x00).
  { intros Hs. unfold small, buf_len in Hs. cbn [get_buf pair_has_buffer snd b2 inner] in Hs.
    rewrite !length_app, encode_length, length_replicate, size_u32 in Hs.
    assert (He : exists e, extend_dirent (E := WriterError) (mkDirectory ty (mw_location h))
      (data_size (maw_location w)) = Ok e).
    { unfold extend_dirent, mw_location, maw_location, h, w, position.
      cbn [location data_size rva mw_position maw_position MemWriter.array_size stream_type inner].
      rewrite !size_u32, !(wrap_small 32 (Z.of_nat _)), add_u_ok by (unfold in_bits; lia). by eexists. }
    destruct He as [e He]. rewrite He.
    destruct (list_stream_start ty (length items) b h _ w b2 e (alloc_with_val_run _ _)
      (alloc_array_run _ _) He) as (-> & ? & ?); [|done].
    cbn [b2 inner]. rewrite !length_app, encode_length, length_replicate, size_u32. lia. }
  apply judge_lift; [|intros Hs _; destruct (Hstart Hs) as [-> _]; by eexists].
  intros e Hs He. destruct (Hstart Hs) as (He' & Hw & Hb2). rewrite He' in He. injection He as <-.
  clear He' Hstart. set (p := (length (inner b) + 4)%nat) in *.
  apply judge_bind; [intros; apply st_rel_ret; apply _|].
  apply (judge_fill total (body w) p items
    (fun s => I s.1 /\ adds c s.1 /\ (p + size_with T * length items <= length (inner s.2))%nat)
    (fun i x v s => R (p + size_with T * length items)%nat (inner s.2) s.1 x v));
    [apply Hgrows|..].
  - intros i x [c1 b1] Hx (HI1 & Ha1 & Hend) _. eapply judge_conseq; [by apply (Hbody w p i x c1 b1)|].
    intros [] [c2 b2'] _ (HI2 & Ha2 & v & Hv & Hr). cbn [fst snd] in *.
    split; [split; [done|split; [by etransitivity|destruct Hv as [[Hl _] _]; lia]]|].
    exists v. split; [exact Hv|]. by eapply Hweaken, Hr.
  - intros i x v j y [c1 b1] [c2 b2'] _ _ Hy (HI1 & Ha1 & Hend) Hr Hk Hrun Hs2. cbn [fst snd] in *.
    destruct (judge_ok _ _ _ _ _ _ (Hbody w p j y c1 b1 Hw Hend Hy HI1) Hrun Hs2) as (_ & Ha & _).
    by eapply Hkept.
  - cbn [fst snd]. split; [done|]. split; [reflexivity|].
    rewrite Hb2, !length_app, length_le_split, length_replicate. lia.
  - unfold buf_len. cbn [get_buf pair_has_buffer snd].
    rewrite Hb2, !length_app, length_le_split, length_replicate. lia.
  - intros [c' b'] vs Hs' (HI' & Ha' & _) Hst Hlen Hk HR. cbn [fst snd] in *.
    eapply judge_run; [reflexivity|]. split; [done|]. split; [done|]. exists vs. split.
    + rewrite <- Hlen in *. eapply list_stream_filled; [exact Hb2|exact Hk|exact Hst].
    + apply Forall2_same_length_lookup_2; [done|]. intros i x v Hx Hv.
      destruct (HR i x Hx) as (v' & Hv' & Hr). rewrite Hv in Hv'. injection Hv' as <-.
      eapply Hweaken; [|exact Hr]. lia.
Qed.
End slot_stream.

(** A record that is stored after the parts it names have been appended. *)
Lemma store_record {T} `{PT : PodOk T} (w : MemoryArrayWriter T) p i n v c b b1 :
  maw_position w = Z.of_nat p -> (p + size_with T * n <= length (inner b))%nat -> (i < n)%nat ->
  extended (inner b) (inner b1) ->
  exists b2, buf (set_value_at w v i) (c, b1) = (Ok tt, (c, b2)) /\
    slot_set p i v (inner b) (inner b2) /\
    kept_outside (p + size_with T * i) (p + size_with T * i + size_with T) (inner b1) (inner b2) /\
    (p + size_with T * i + size_with T <= length (inner b))%nat.
Proof.
  intros Hw Hend Hi Hx. assert (Hle : (p + size_with T * i + size_with T <= length (inner b))%nat) by nia.
  pose proof (proj1 Hx) as Hl.
  assert (Hrun : exists b2, set_value_at w v i b1 = (Ok tt, b2)).
  { eexists. apply set_value_at_run. rewrite Hw. lia. }
  destruct Hrun as [b2 Hrun]. exists b2. split.
  { unfold buf, st_map_err, on_buf, st_zoom. cbn. by rewrite Hrun. }
  destruct (set_value_at_slot w p i v (inner b) b1 b2 Hw Hle Hx Hrun) as [Hs Hk]. by split_and!.
Qed.

Lemma thread_list_judge c b ts :
  task_listed c ts -> (total = true -> Forall thread_readable (dumped c ts)) ->
  judge total (write_thread_list fuel dumper) (c, b) (fun e s => adds c s.1 /\
    exists vs, list_at (length (inner b)) (inner s.2) (ThreadListStream stream_types) e vs /\
      Forall2 (mac_thread_record (length (inner b)) (inner s.2) (memory_blocks s.1)) (dumped c ts) vs).
Proof.
  intros Hl Hr. destruct (threads_dumped (E := WriterError) c ts Hl) as (t & Ht & Hi & Hn).
  unfold write_thread_list. eapply judge_bind_run; [reflexivity|]. cbn [fst].
  rewrite Ht. eapply judge_bind_run; [reflexivity|]. rewrite Hn. eapply judge_bind_run; [reflexivity|].
  rewrite Hi. eapply judge_conseq; [eapply (slot_stream_judge (ThreadListStream stream_types) (dumped c ts)
    (fun w i tid => thread ← write_thread fuel tid dumper; buf (set_value_at w thread i)) (fun _ => True)
    (fun lo l c1 tid v => mac_thread_record lo l (memory_blocks c1) tid v))|].
  - intros lo hi lo' l l' c1 c2 x v Hk Hhi Ha. by apply (mac_thread_record_kept lo hi), adds_blocks.
  - intros lo lo' l c1 x v Hlo. by apply mac_thread_record_weaken.
  - intros w i x. apply (frame_grows 0). unfold buf. frame_tac.
  - intros w p i x c1 b1 Hw Hend Hx _.
    apply judge_bind; [intros; apply (frame_grows 0); unfold buf; frame_tac|].
    eapply judge_conseq; [apply write_thread_judge|].
    { intros Htot. specialize (Hr Htot). rewrite Forall_forall in Hr. apply Hr.
      by eapply list_elem_of_lookup_2. }
    intros v [c2 b2] _ (Ha & Hx2 & Hrec). cbn [fst snd] in *.
    destruct (store_record w p i _ v c2 b1 b2 Hw Hend (lookup_lt_Some _ _ _ Hx) Hx2)
      as (b3 & Hrun & Hslot & Hk & Hle).
    eapply judge_run; [exact Hrun|]. split; [done|]. split; [done|]. exists v. split; [done|].
    eapply mac_thread_record_kept; [exact Hk|done|done|exact Hrec].
  - apply (tl_64 _ _ Hl).
  - apply (tl_sizes _ _ Hl).
  - by apply dumped_small.
  - done.
  - intros e [c' b'] _ (_ & Ha & Hvs). by split.
Qed.

(** ** The thread names *)

(** The name of a thread up to its NUL; a thread whose name cannot be had gets an
    empty one. *)
Definition mac_thread_name (tid : Z) : res TaskDumpError (list Z) :=
  raw ← res_ok (thread_info dumper THREAD_EXTENDED_INFO size_of_proc_threadinfo pth_name tid);
  Ok (match raw with
      | None => []
      | Some raw =>
          let name := default [] (from_utf8 raw) in
          match find_idx (fun c => c =? 0) name with Some i => take i name | None => name end
      end).

(** The record of a thread name, and the name where it says. *)
Definition mac_name_record (lo : nat) (l : list byte) (tid : Z) (v : MDRawThreadName) : Prop :=
  exists name, mac_thread_name tid = Ok name /\ tn_thread_id v = tid /\
    stands lo l (thread_name_rva v) (string_bytes name).

Lemma pth_name_short l : short_text (default [] (from_utf8 (pth_name l))).
Proof.
  destruct (from_utf8 _) as [s|] eqn:Hs; [|vm_compute; reflexivity].
  apply from_utf8_decoded in Hs. apply (decoded_short _ _ Hs).
  unfold pth_name, bytes_at. rewrite length_take. lia.
Qed.

Lemma short_text_take i text : short_text text -> short_text (take i text).
Proof.
  unfold short_text, encode_utf16. intros Hs.
  assert (Ha : encode_utf16 text = encode_utf16 (take i text) ++ encode_utf16 (drop i text)).
  { unfold encode_utf16. by rewrite <- bind_app, take_drop. }
  unfold encode_utf16 in Ha. rewrite Ha, length_app in Hs. lia.
Qed.

Lemma mac_thread_name_short tid name : mac_thread_name tid = Ok name -> short_text name.
Proof.
  unfold mac_thread_name, thread_info. destruct (mach_call _ _) as [info| |]; cbn [mbind res_bind res_ok].
  - unfold cast. case_decide; cbn [mbind res_bind res_ok]; [|done].
    case_match; intros [= <-]; [apply short_text_take|]; apply pth_name_short.
  - intros [= <-]. vm_compute. reflexivity.
  - done.
Qed.

(** A string that is appended. *)
Lemma buf_string_ensures text c b :
  short_text text -> ensures (buf (write_string_to_location text)) (c, b) (fun loc s =>
    loc = mkLocation (Z.of_nat (length (string_bytes text))) (position b) /\
    s = (c, mkBuffer (inner b ++ string_bytes text))).
Proof. intros Ht. by apply ensures_map_err, ensures_on_buf, ensures_string. Qed.

(** The string of a thread name is written either way. *)
Lemma thread_name_judge tid c b name :
  mac_thread_name tid = Ok name ->
  judge (E := WriterError) total (st_try (write_thread_name dumper tid)) (c, b) (fun r s =>
    match r with
    | inr loc => rva loc = position b /\ s = (c, mkBuffer (inner b ++ string_bytes name))
    | inl _ => name = [] /\ s = (c, b)
    end).
Proof.
  intros Hn. pose proof (mac_thread_name_short _ _ Hn) as Hshort. unfold mac_thread_name in Hn.
  unfold write_thread_name. destruct (thread_info _ _ _ _ _) as [raw|e|] eqn:Hi;
    cbn [res_ok mbind res_bind] in Hn; [..|done].
  - apply judge_try. intros r s' Hrun Hs.
    erewrite st_bind_run in Hrun by reflexivity. cbv zeta in Hrun, Hn. injection Hn as Hn.
    rewrite Hn in Hrun. pose proof (buf_string_ensures name c b Hshort) as He.
    unfold ensures in He. rewrite Hrun in He. by destruct (He Hs) as (loc & s & [= -> ->] & -> & ->).
  - injection Hn as <-. by eapply judge_run; [reflexivity|].
Qed.

Lemma thread_names_judge c b ts :
  task_listed c ts -> (total = true -> Forall (fun tid => exists name, mac_thread_name tid = Ok name) (dumped c ts)) ->
  judge total (write_thread_names dumper) (c, b) (fun e s => s.1 = c /\
    exists vs, list_at (length (inner b)) (inner s.2) (ThreadNamesStream stream_types) e vs /\
      Forall2 (mac_name_record (length (inner b)) (inner s.2)) (dumped c ts) vs).
Proof.
  intros Hl Hr. destruct (threads_dumped (E := WriterError) c ts Hl) as (t & Ht & Hi & Hn).
  unfold write_thread_names. eapply judge_bind_run; [reflexivity|]. cbn [fst].
  rewrite Ht. eapply judge_bind_run; [reflexivity|]. rewrite Hn. eapply judge_bind_run; [reflexivity|].
  rewrite Hi. eapply judge_conseq; [eapply (slot_stream_judge (ThreadNamesStream stream_types) (dumped c ts)
    (fun w i tid => r ← st_try (write_thread_name dumper tid);
       name_loc ← match r with inr loc => mret loc | inl _ => buf (write_string_to_location []) end;
       buf (set_value_at w (mkThreadName tid (rva name_loc)) i)) (fun c1 => c1 = c)
    (fun lo l c1 tid v => mac_name_record lo l tid v))|].
  - intros lo hi lo' l l' c1 c2 x v Hk Hhi _ (name & ? & ? & Hs). exists name.
    split_and!; [done..|by eapply stands_kept].
  - intros lo lo' l c1 x v Hlo (name & ? & ? & Hs). exists name. split_and!; [done..|by eapply stands_weaken].
  - intros w i x. apply (frame_grows 0). unfold buf. frame_tac.
  - intros w p i x c1 b1 Hw Hend Hx ->. apply (judge_when _ (mac_thread_name x)).
    2: { intros [] s' Hrun. apply st_bind_ok in Hrun as (r & s1 & Hrun & _).
         unfold st_try, write_thread_name, mbind at 1, ST_bind, ask, st_lift in Hrun.
         unfold mac_thread_name. destruct (thread_info _ _ _ _ _); [by eexists..|done]. }
    2: { intros Htot. specialize (Hr Htot). rewrite Forall_forall in Hr. apply Hr.
         by eapply list_elem_of_lookup_2. }
    intros name Hname. apply judge_bind; [intros; apply (frame_grows 0); unfold buf; frame_tac|].
    eapply judge_conseq; [by apply thread_name_judge|]. intros r s _ Hrs.
    apply judge_bind; [intros; apply (frame_grows 0); unfold buf; frame_tac|].
    assert (Hloc : judge (E := WriterError) total
      (match r with inr loc => mret loc | inl _ => buf (write_string_to_location []) end) s
      (fun loc s => rva loc = position b1 /\ s = (c, mkBuffer (inner b1 ++ string_bytes name)))).
    { destruct r as [e|loc].
      - destruct Hrs as [-> ->]. eapply judge_conseq; [apply judge_ensures, buf_string_ensures; vm_compute; reflexivity|].
        by intros loc s' _ [-> ->].
      - by eapply judge_run; [reflexivity|]. }
    eapply judge_conseq; [exact Hloc|]. intros loc s' _ [Hrva ->].
    destruct (store_record w p i _ (mkThreadName x (rva loc)) c b1 (mkBuffer (inner b1 ++ string_bytes name))
      Hw Hend (lookup_lt_Some _ _ _ Hx) (extended_app _ _)) as (b3 & Hrun & Hslot & Hk & Hle).
    eapply judge_run; [exact Hrun|]. split; [done|]. split; [reflexivity|].
    exists (mkThreadName x (rva loc)). split; [done|]. exists name. split_and!; [done..|].
    cbn [thread_name_rva]. rewrite Hrva. eapply stands_kept; [exact Hk|exact Hle|]. by apply stands_end.
  - apply (tl_64 _ _ Hl).
  - apply (tl_sizes _ _ Hl).
  - by apply dumped_small.
  - done.
  - intros e [c' b'] _ (Hc & _ & Hvs). by split.
Qed.
End threads.

(** ** The other streams *)

Lemma read_task_memory_length `{TG : Target} {M : Mach} dumper size a n bs :
  read_task_memory dumper size a n = Ok bs -> length bs = (Z.to_nat n * size)%nat.
Proof.
  unfold read_task_memory.
  destruct (mul_u _ _ _) as [len| |]; cbn [mbind res_bind]; [|done..].
  destruct (add_u 64 a len) as [en| |]; cbn [mbind res_bind]; [|done..].
  destruct (add_u 64 en _) as [ro| |]; cbn [mbind res_bind]; [|done..].
  destruct (sub_u 64 (Z.land ro _) _) as [sz| |]; cbn [mbind res_bind]; [|done..].
  destruct (mach_vm_read _ _ _) as [kr|local]; cbn [mach_call mbind res_bind]; [done|].
  case_match; cbn [mbind res_bind]; [|done].
  destruct (sub_u 64 a _) as [off| |]; cbn [mbind res_bind]; [|done..].
  destruct (slice _ _ _) as [l|] eqn:Hs; cbn [or_panic]; [|done]. intros [= <-].
  apply slice_some in Hs as (_ & Hl & ->). unfold bytes_at. rewrite length_take, length_drop. lia.
Qed.

Section small_streams.
Context `{TG : Target} {F : Format} {FO : FormatOk F} {MF : MacFormat} {MFO : MacFormatOk MF}.
Context {M : Mach} {CPU : MacCpu} {CO : MacCpuOk CPU}.
Context (total : bool) (dumper : TaskDumper).

(** The window around the crashing instruction: its address and its bytes. *)
Definition ip_copy (c : MinidumpWriter) : res WriterError (option (Z * list byte)) :=
  match crash_context c with
  | Some cc =>
      match cc_exception cc with
      | Some _ =>
          window ← get_ip_block dumper (cc_thread cc);
          match window with
          | None => Ok None
          | Some (first, last) =>
              size ← sub_u 64 last first;
              bs ← map_err WE_TaskDumpError (read_task_memory dumper 1 first (wrap usize_bits size));
              Ok (Some (first, bs))
          end
      | None => Ok None
      end
  | None => Ok None
  end.

(** The writer [c'] has the window as its last block, if there is one. *)
Definition window_recorded (lo : nat) (l : list byte) (c c' : MinidumpWriter)
    (window : option (Z * list byte)) : Prop :=
  match window with
  | None => c' = c
  | Some (a, bs) => exists r, stands lo l r bs /\
      c' = push_memory_block (mkMemoryDescriptor a (mkLocation (Z.of_nat (length bs)) r)) c
  end.

Lemma window_recorded_adds lo l c c' window : window_recorded lo l c c' window -> adds c c'.
Proof. destruct window as [[a bs]|]; cbn; [intros (r & _ & ->); apply adds_push|by intros ->]. Qed.

Lemma window_recorded_moved hi lo l l' c c' window :
  kept_outside 0 hi l l' -> (hi <= lo)%nat -> window_recorded lo l c c' window ->
  window_recorded hi l' c c' window.
Proof.
  intros Hk Hlo. destruct window as [[a bs]|]; cbn; [|done]. intros (r & Hs & ->). exists r.
  split; [by eapply stands_moved|done].
Qed.

Definition window_step : Writer WriterError unit :=
  self ← get_writer;
  match crash_context self with
  | Some cc => match cc_exception cc with
               | Some _ => ip_memory dumper cc
               | None => mret tt
               end
  | None => mret tt
  end.

Lemma window_judge c b :
  pointer_width = W64 -> (total = true -> exists w, ip_copy c = Ok w) ->
  judge total window_step (c, b) (fun _ s => exists w, ip_copy c = Ok w /\
    extended (inner b) (inner s.2) /\ window_recorded (length (inner b)) (inner s.2) c s.1 w).
Proof.
  intros H64 Hw. assert (Hub : usize_bits = 64) by (unfold usize_bits; by rewrite H64).
  unfold window_step. eapply judge_bind_run; [reflexivity|]. cbn [fst]. unfold ip_copy in *.
  assert (Hnone : judge (E := WriterError) total (mret tt) (c, b) (fun _ s => exists w,
    Ok (E := WriterError) None = Ok w /\ extended (inner b) (inner s.2) /\
    window_recorded (length (inner b)) (inner s.2) c s.1 w)).
  { eapply judge_run; [reflexivity|]. exists None. split_and!; [done|apply kept_outside_refl|done]. }
  destruct (crash_context c) as [cc|]; [|exact Hnone]. destruct (cc_exception cc); [|exact Hnone].
  unfold ip_memory. apply judge_bind; [intros; apply (frame_grows 0); unfold buf; frame_tac|].
  apply judge_lift.
  2: { intros _ Ht. destruct (Hw Ht) as [w Hw']. by destruct (get_ip_block _ _); [eexists|..]. }
  intros blk _ Hblk. rewrite Hblk in *. cbn [mbind res_bind] in *.
  destruct blk as [[first last]|]; [|exact Hnone].
  apply judge_bind; [intros; apply (frame_grows 0); unfold buf; frame_tac|].
  apply judge_lift.
  2: { intros _ Ht. destruct (Hw Ht) as [w Hw']. by destruct (sub_u _ _ _); [eexists|..]. }
  intros size _ Hsize.
  apply judge_bind; [intros; apply (frame_grows 0); unfold buf; frame_tac|].
  unfold ask. apply judge_lift.
  2: { intros _ Ht. destruct (Hw Ht) as [w Hw']. rewrite Hsize in Hw'. cbn [mbind res_bind] in Hw'.
       by destruct (read_task_memory _ _ _ _); [eexists|..]. }
  intros bs _ Hbs. eapply judge_bind_run; [reflexivity|]. eapply judge_bind_run; [apply buf_write_all_run|].
  eapply judge_run_small; [reflexivity|]. intros Hs.
  unfold small, buf_len in Hs. cbn [get_buf pair_has_buffer snd inner fst] in *. rewrite length_app in Hs.
  rewrite Hsize. cbn [mbind res_bind]. rewrite Hbs. cbn [mbind res_bind].
  exists (Some (first, bs)). split; [done|]. split; [apply extended_app|]. cbn.
  destruct (read_task_memory _ _ _ _) as [bs'| |] eqn:Hr; [injection Hbs as ->|done..].
  apply read_task_memory_length in Hr. rewrite Nat.mul_1_r, Hub in Hr.
  exists (Z.of_nat (length (inner b))). split; [by apply stands_end|]. unfold position.
  assert (Hsz : wrap 32 size = Z.of_nat (length bs)).
  { pose proof (wrap_in_bits 64 size ltac:(lia)) as [? _]. rewrite Hr, Z2Nat.id by lia.
    rewrite <- (wrap_small 32 (wrap 64 size)) by (unfold in_bits; lia). unfold wrap.
    rewrite <- (Znumtheory.Zmod_div_mod (2 ^ 32) (2 ^ 64)); [done|lia|lia|]. by exists (2 ^ 32). }
  by rewrite Hsz, !wrap_small by (unfold in_bits; lia).
Qed.

Lemma mac_memory_list_judge c b :
  pointer_width = W64 -> (total = true -> exists w, ip_copy c = Ok w) ->
  judge total (write_memory_list dumper) (c, b) (fun e s => exists w, ip_copy c = Ok w /\
    window_recorded (length (inner b)) (inner s.2) c s.1 w /\
    list_at (length (inner b)) (inner s.2) (MemoryListStream stream_types) e (memory_blocks s.1)).
Proof.
  intros H64 Hw.
  eapply (judge_ext _ _ (window_step ;; (self ← get_writer;
      list_header ← buf (alloc_with_val (U32 (wrap 32 (Z.of_nat (length (memory_blocks self))))));
      let dirent := mkDirectory (MemoryListStream stream_types) (mw_location list_header) in
      block_list ← buf (alloc_from_array (memory_blocks self));
      st_lift (extend_dirent dirent (data_size (maw_location block_list))))));
    [unfold write_memory_list, window_step; by rewrite !st_bind_assoc|].
  apply judge_bind; [intros; apply (frame_grows 0); unfold buf; frame_tac|].
  eapply judge_conseq; [by apply window_judge|]. intros [] [c1 b1] _ (w & Hc & Hx & Hrec). cbn [fst snd] in *.
  eapply judge_bind_run; [reflexivity|]. cbn [fst].
  eapply judge_bind_run; [apply map_err_ok, on_buf_run, alloc_with_val_run|].
  cbn [get_buf set_buf pair_has_buffer fst snd]. cbv zeta.
  eapply judge_conseq; [apply judge_ensures, array_entry_ensures|]. intros e s _ [-> Hst].
  cbn [fst snd inner] in *. exists w. split; [done|].
  assert (Hx2 : extended (inner b1) (inner b1 ++
    encode (U32 (wrap 32 (Z.of_nat (length (memory_blocks c1))))) ++ encode_all (memory_blocks c1)))
    by apply extended_app.
  split.
  - destruct w as [[a bs]|]; cbn in Hrec |- *; [|done]. destruct Hrec as (r & Hr & ->). exists r.
    split; [|done]. eapply stands_kept; [exact Hx2|lia|exact Hr].
  - apply stream_is_list. rewrite <- encode_count. eapply stream_is_weaken; [|exact Hst].
    by destruct Hx.
Qed.

(** A record that was reserved at the end of [b] and is filled in later. *)
Lemma set_reserved {T} `{PT : PodOk T} (v : T) c b tl :
  Z.of_nat (length (inner b)) < 2 ^ 32 ->
  buf (set_value (mkMemoryWriter (wrap 32 (position b)) (size_with T)) v)
    (c, mkBuffer ((inner b ++ replicate (size_with T) Byte.x00) ++ tl)) =
  (Ok tt, (c, mkBuffer (inner b ++ encode v ++ tl))).
Proof.
  intros Hs. assert (Hpos : wrap 32 (position b) = Z.of_nat (length (inner b)))
    by (apply wrap_small; unfold in_bits, position; lia).
  unfold buf, st_map_err, on_buf, st_zoom. cbn [get_buf set_buf pair_has_buffer fst snd].
  rewrite set_value_run; rewrite Hpos; cbn [mw_position inner]; rewrite Nat2Z.id; [|rewrite !length_app; lia].
  do 3 f_equal. rewrite <- app_assoc. unfold splice. rewrite take_app_length, encode_length.
  rewrite drop_app_ge, Nat.add_comm, Nat.add_sub by lia.
  by rewrite drop_app_length' by (by rewrite length_replicate).
Qed.

(** The entry of a record that stands at the end of [b]. *)
Lemma record_entry {T} `{PT : PodOk T} ty (v : T) b tl :
  Z.of_nat (length (inner b) + size_with T) < 2 ^ 32 ->
  stream_is (length (inner b)) (inner b ++ encode v ++ tl) ty
    (mkDirectory ty (mw_location (mkMemoryWriter (wrap 32 (position b)) (size_with T) : MemoryWriter T)))
    (encode v).
Proof.
  intros Hs. unfold mw_location, position. cbn [mw_position].
  rewrite !wrap_small by (unfold in_bits; lia). split; [done|]. cbn. rewrite encode_length.
  split; [done|]. by apply stands_mid.
Qed.

Lemma stands_behind {T} `{PT : PodOk T} (v : T) lo l tl :
  (lo <= length l)%nat -> stands lo (l ++ encode v ++ tl) (Z.of_nat (length l + size_with T)) tl.
Proof.
  intros Hlo. rewrite app_assoc. replace (length l + size_with T)%nat with (length (l ++ encode v))
    by (by rewrite length_app, encode_length). apply stands_end. rewrite length_app. lia.
Qed.

(** *** System information *)

(** The record, with the description of the system at [r]. *)
Definition mac_system_info (r : Z) : MDRawSystemInfo :=
  let '(level, revision) := processor_level_revision M in
  let '(major, minor, build) := os_version in
  mkSystemInfo (wrap 16 processor_architecture_of) level revision (int_sysctl_by_name 8 "hw.ncpu") 1
    major minor build PlatformId_MacOs r (read_cpu_info M (replicate 24 Byte.x00)).

Definition mac_system_info_at (lo : nat) (l : list byte) (e : MDRawDirectory) : Prop :=
  exists r, stream_is lo l (SystemInfoStream stream_types) e (encode (mac_system_info r)) /\
    stands lo l r (string_bytes build_version).

Lemma mac_system_info_moved hi lo l l' e :
  kept_outside 0 hi l l' -> (hi <= lo)%nat -> mac_system_info_at lo l e -> mac_system_info_at hi l' e.
Proof.
  intros Hk Hlo (r & Hi & Hs). exists r. split; [by eapply stream_is_moved|by eapply stands_moved].
Qed.

Lemma system_info_judge c b :
  (total = true -> short_text build_version) ->
  judge total (write_system_info dumper) (c, b) (fun e s => s.1 = c /\
    mac_system_info_at (length (inner b)) (inner s.2) e).
Proof.
  intros Hshort. unfold write_system_info. unfold mac_system_info_at, mac_system_info.
  destruct (processor_level_revision M) as [level revision], os_version as [[major minor] build].
  eapply judge_bind_run; [apply map_err_ok, on_buf_run, alloc_run|].
  cbn [get_buf set_buf pair_has_buffer fst snd]. cbv zeta. set (b1 := mkBuffer _).
  apply judge_bind; [intros; apply st_rel_bind; [apply _| |intros; apply st_rel_ret; apply _];
    apply (frame_grows 0), frame_buf, frame_set_value; lia|].
  assert (Hstr : judge total (buf (write_string_to_location build_version)) (c, b1) (fun loc s =>
    loc = mkLocation (Z.of_nat (length (string_bytes build_version))) (position b1) /\
    s = (c, mkBuffer (inner b1 ++ string_bytes build_version)))).
  { eapply (judge_of _ _ _ _ (fun _ _ => True)).
    - intros loc [c' b'] Hrun Hs. apply map_err_ok, on_buf_ok in Hrun as (b2 & Hrun & Heq).
      injection Heq as -> ->. cbn [get_buf pair_has_buffer snd] in Hrun.
      by apply write_string_ok in Hrun as (_ & -> & ->).
    - intros Ht. eapply ensures_conseq; [by apply buf_string_ensures, Hshort|done]. }
  eapply judge_conseq; [exact Hstr|]. intros loc s Hs [-> ->].
  unfold small, buf_len in Hs. cbn [get_buf pair_has_buffer snd inner b1] in Hs.
  rewrite !length_app, length_replicate in Hs.
  eapply judge_bind_run; [apply set_reserved; lia|]. eapply judge_run; [reflexivity|]. cbn [fst snd inner].
  split; [done|]. exists (position b1). cbn [rva]. split; [by apply record_entry; lia|].
  unfold position. cbn [b1 inner]. rewrite length_app, length_replicate. by apply stands_behind.
Qed.

(** *** Process information *)

(** The time the task has used, of its threads that ended and of the others. *)
Definition cpu_time (basic : MachTaskBasicInfo -> TimeValue) (live : TaskThreadsTimeInfo -> TimeValue)
    : res WriterError Duration :=
  basic_info ← res_ok (task_info dumper MACH_TASK_BASIC_INFO size_of_MachTaskBasicInfo MachTaskBasicInfo_of);
  live_info ← res_ok (task_info dumper TASK_THREAD_TIMES_INFO size_of_TaskThreadsTimeInfo
                        TaskThreadsTimeInfo_of);
  t1 ← time_of basic basic_info;
  t2 ← time_of live live_info;
  Duration_add t1 t2.

Definition mac_misc_info (pid : Z) (user system : Duration) : MDRawMiscInfo :=
  let max := processor_mhz (sysctl_by_name 8 "hw.cpufrequency_max") in
  mkMiscInfo (wrap 32 size_of_MDRawMiscInfo)
    (Z.lor (Z.lor MISC1_PROCESS_ID MISC1_PROCESS_TIMES) MISC1_PROCESSOR_POWER_INFO) (wrap 32 pid)
    (match proc_pidinfo_start pid with Some t => wrap 32 t | None => 0 end)
    (wrap 32 (secs user)) (wrap 32 (secs system)) max
    (processor_mhz (sysctl_by_name 8 "hw.cpufrequency")) max 0 0.

(** The task has a process, and its times fit. *)
Definition times_known : Prop :=
  exists pid user system, pid_for_task dumper = Ok pid /\ cpu_time bi_user_time tt_user_time = Ok user /\
    cpu_time bi_system_time tt_system_time = Ok system.

Definition mac_misc_info_at (lo : nat) (l : list byte) (e : MDRawDirectory) : Prop :=
  exists pid user system, pid_for_task dumper = Ok pid /\ cpu_time bi_user_time tt_user_time = Ok user /\
    cpu_time bi_system_time tt_system_time = Ok system /\
    stream_is lo l MiscInfoStream e (encode (mac_misc_info pid user system)).

Lemma mac_misc_info_moved hi lo l l' e :
  kept_outside 0 hi l l' -> (hi <= lo)%nat -> mac_misc_info_at lo l e -> mac_misc_info_at hi l' e.
Proof.
  intros Hk Hlo (pid & u & s & ? & ? & ? & Hs). exists pid, u, s. split_and!; [done..|].
  by eapply stream_is_moved.
Qed.

(** The answers the record is made of. *)
Definition misc_queries : res WriterError (Z * Duration * Duration) :=
  pid ← map_err WE_TaskDumpError (pid_for_task dumper);
  user ← cpu_time bi_user_time tt_user_time;
  system ← cpu_time bi_system_time tt_system_time;
  Ok (pid, user, system).

Lemma misc_info_judge c b :
  (total = true -> times_known) ->
  judge total (write_misc_info dumper) (c, b) (fun e s => s.1 = c /\
    mac_misc_info_at (length (inner b)) (inner s.2) e).
Proof.
  intros Hk. apply (judge_when _ misc_queries).
  - unfold misc_queries, cpu_time. intros [[pid user] system] Hq.
    apply res_bind_ok in Hq as (pid' & Hpid & Hq). apply res_bind_ok in Hq as (u & Hu & Hq).
    apply res_bind_ok in Hq as (s & Hs & Hq). injection Hq as -> -> ->.
    assert (Hpid' : pid_for_task dumper = Ok pid) by (destruct (pid_for_task dumper); by simplify_eq/=).
    pose proof Hu as Hu0. pose proof Hs as Hs0.
    apply res_bind_ok in Hu as (basic & Hb & Hu). apply res_bind_ok in Hu as (live & Hl & Hu).
    apply res_bind_ok in Hu as (u1 & Hu1 & Hu). apply res_bind_ok in Hu as (u2 & Hu2 & Hu).
    rewrite Hb in Hs. cbn [mbind res_bind] in Hs. rewrite Hl in Hs. cbn [mbind res_bind] in Hs.
    apply res_bind_ok in Hs as (s1 & Hs1 & Hs). apply res_bind_ok in Hs as (s2 & Hs2 & Hs).
    unfold write_misc_info, ask.
    eapply judge_bind_run; [apply map_err_ok, on_buf_run, alloc_run|].
    cbn [get_buf set_buf pair_has_buffer fst snd]. cbv zeta.
    rewrite Hpid, Hb, Hl.
    do 3 (eapply judge_bind_run; [reflexivity|]).
    rewrite Hu1, Hu2. do 2 (eapply judge_bind_run; [reflexivity|]).
    rewrite Hu. eapply judge_bind_run; [reflexivity|].
    rewrite Hs1, Hs2. do 2 (eapply judge_bind_run; [reflexivity|]).
    rewrite Hs. eapply judge_bind_run; [reflexivity|].
    intros Hsm. rewrite <- (app_nil_r (inner b ++ replicate _ _)) in *.
    assert (Hlen : Z.of_nat (length (inner b) + size_with MDRawMiscInfo) < 2 ^ 32).
    { match type of Hsm with small (?m ?x).2 =>
        pose proof (run_grows m x (m x).1 (m x).2 ltac:(apply frame_bind;
          [apply frame_buf, frame_set_value; lia|intros; apply frame_ret]) (surjective_pairing _)) as Hg end.
      unfold small in Hsm. unfold buf_len in Hg at 1. cbn [get_buf pair_has_buffer snd inner] in Hg.
      rewrite !length_app, length_replicate in Hg. lia. }
    rewrite (st_bind_run _ _ _ _ _ (set_reserved _ c b [] ltac:(lia))). cbn [fst snd mret ST_ret].
    split; [done|]. exists pid, user, system. split_and!; [done..|]. apply record_entry. lia.
  - intros e s' Hrun. unfold write_misc_info, ask in Hrun. cbv zeta in Hrun.
    unfold misc_queries, cpu_time. st_inv.
    repeat match goal with HH : st_lift _ _ = (Ok _, _) |- _ => injection HH as HH; subst end.
    repeat match goal with HH : ?q = Ok _ |- context [?q] => rewrite HH; cbn [mbind res_bind] end.
    by eexists.
  - intros Ht. destruct (Hk Ht) as (pid & u & s & Hp & Hu & Hs). exists (pid, u, s).
    unfold misc_queries. by rewrite Hp, Hu, Hs.
Qed.

(** *** The threads involved *)

(** The handler thread, and the thread of the crash context if there is one. *)
Definition mac_breakpad_info (c : MinidumpWriter) : BreakpadInfo :=
  mkBreakpadInfo (Z.lor BreakpadInfoValid_DumpThreadId BreakpadInfoValid_RequestingThreadId)
    (handler_thread c) (match crash_context c with Some cc => cc_thread cc | None => 0 end).

Lemma breakpad_info_ensures c b :
  ensures (write_breakpad_info dumper) (c, b) (fun e s => s.1 = c /\
    stream_is (length (inner b)) (inner s.2) BreakpadInfoStream e (encode (mac_breakpad_info c))).
Proof.
  unfold write_breakpad_info. eapply ensures_bind; [intros; apply (frame_grows 0); unfold buf; frame_tac|].
  eapply ensures_run; [reflexivity|]. cbn [fst].
  eapply ensures_run_small; [unfold buf; erewrite st_bind_run; [|apply map_err_ok, on_buf_run, alloc_with_val_run];
    reflexivity|].
  intros Hs. unfold small, buf_len in Hs. cbn [get_buf set_buf pair_has_buffer fst snd inner] in *.
  rewrite length_app, encode_length in Hs. split; [done|].
  rewrite <- (app_nil_r (inner b ++ _)), <- app_assoc. apply record_entry. lia.
Qed.

(** *** The exception *)

(** The registers of the crashing thread, when they can be read, stand at the
    location. *)
Definition crash_registers (lo : nat) (l : list byte) (ts : option ThreadState)
    (loc : MDLocationDescriptor) : Prop :=
  match ts with
  | Some ts => data_size loc = Z.of_nat (size_with RawContextCPU) /\ stands lo l (rva loc) (registers_of ts)
  | None => loc = default_location
  end.

Definition mac_exception_of (cc : CrashContext) (ts : option ThreadState) : MDException :=
  match cc_exception cc with
  | Some exc => exception_record_of exc ts
  | None => default_exception
  end.

Definition mac_exception_at (cc : CrashContext) (lo : nat) (l : list byte) (e : MDRawDirectory) : Prop :=
  exists ts loc, res_ok (E' := WriterError) (read_thread_state dumper THREAD_STATE_FLAVOR (cc_thread cc)) = Ok ts /\
    crash_registers lo l ts loc /\
    stream_is lo l (ExceptionStream stream_types) e
      (encode (mkExceptionStream (cc_thread cc) (mac_exception_of cc ts) 0 loc)).

Lemma mac_exception_moved cc hi lo l l' e :
  kept_outside 0 hi l l' -> (hi <= lo)%nat -> mac_exception_at cc lo l e -> mac_exception_at cc hi l' e.
Proof.
  intros Hk Hlo (ts & loc & Hts & Hr & Hs). exists ts, loc. split; [done|].
  split; [|by eapply stream_is_moved]. destruct ts; [|done]. destruct Hr as [? Hr]. split; [done|].
  by eapply stands_moved.
Qed.

Lemma mac_exception_judge c cc b :
  crash_context c = Some cc ->
  (total = true -> read_thread_state dumper THREAD_STATE_FLAVOR (cc_thread cc) <> Panic) ->
  judge total (write_exception dumper) (c, b) (fun e s => s.1 = c /\
    mac_exception_at cc (length (inner b)) (inner s.2) e).
Proof.
  intros Hcc Hp. unfold write_exception. eapply judge_bind_run; [reflexivity|]. cbn [fst].
  rewrite Hcc. eapply judge_bind_run; [reflexivity|].
  apply judge_bind; [intros; apply (frame_grows 0); unfold buf; frame_tac|].
  apply judge_lift.
  2: { intros _ Ht. specialize (Hp Ht). destruct (read_thread_state _ _ _); [by eexists..|done]. }
  intros ts _ Hts. apply judge_bind; [intros; apply (frame_grows 0); unfold buf; frame_tac|].
  assert (Hctx : judge (E := WriterError) total
    (match ts with
     | Some ts => let cpu := fill_cpu_context ts default_cpu in
                  r ← st_try (buf (alloc_with_val cpu));
                  mret (match r with inr mw => Some (mw_location mw) | inl _ => None end)
     | None => mret None
     end) (c, b) (fun o s => s.1 = c /\ extended (inner b) (inner s.2) /\
       crash_registers (length (inner b)) (inner s.2) ts (default default_location o))).
  { destruct ts as [ts|]; [|eapply judge_run; [reflexivity|]; split_and!; [done|apply kept_outside_refl|done]].
    cbv zeta. eapply judge_bind_run; [unfold st_try, buf, st_map_err, on_buf, st_zoom;
      rewrite alloc_with_val_run; reflexivity|].
    eapply judge_run_small; [reflexivity|]. intros Hs. unfold small, buf_len in Hs.
    cbn [get_buf set_buf pair_has_buffer fst snd inner default] in *. rewrite length_app, encode_length in Hs.
    split; [done|]. split; [apply extended_app|]. unfold mw_location, position. cbn [mw_position].
    rewrite !wrap_small by (unfold in_bits; lia). split; [done|]. by apply stands_end. }
  eapply judge_conseq; [exact Hctx|]. intros o [c1 b1] _ (Hc1 & Hx & Hr). cbn [fst snd] in *. subst c1. cbv zeta.
  eapply judge_bind_run; [apply map_err_ok, on_buf_run, alloc_with_val_run|].
  eapply judge_run_small; [reflexivity|]. intros Hs. unfold small, buf_len in Hs.
  cbn [get_buf set_buf pair_has_buffer fst snd inner] in *. rewrite length_app, encode_length in Hs.
  split; [done|]. exists ts, (default default_location o). split; [done|]. split.
  - destruct ts; [|done]. destruct Hr as [? Hr]. split; [done|].
    eapply stands_kept; [apply (extended_app (inner b1))|lia|exact Hr].
  - rewrite <- (app_nil_r (inner b1 ++ _)), <- app_assoc. eapply stream_is_weaken; [apply (proj1 Hx)|].
    apply record_entry. lia.
Qed.
End small_streams.
