(* ===== verification/MacModuleSpec.v ===== *)
(** * What the macOS module list contains, and when it is written

    The images [write_module_list] lists (src/src/mac/streams/module_list.rs), as
    a function of the task, and their records in the dump. *)
From Stdlib Require Import ZArith Lia String.
From S2P Require Import Prelude Format Layout MemWriter DirSection Driver DumpPlan Slots Ensures DumpStages.
From S2P Require Import RustStr Text Os Contexts Mach TaskDumper MacConfig MacCpus MacStreams MacModules MacSpec.
From S2P Require Import MacImages MacContents MacStreamSpec.

Local Open Scope Z_scope.
Local Notation length := List.length.

Section modules.
Context `{TG : Target} {F : Format} {FO : FormatOk F} {MF : MacFormat} {MFO : MacFormatOk MF}.
Context {M : Mach} (total : bool) (dumper : TaskDumper).

Notation path d := (default [] (file_path d)).

Definition base_of (d : ImageDetails) : res WriterError Z :=
  checked_isize (swrap usize_bits (li_vm_addr (load_info d)) + slide (load_info d)).

(** The debug record: the identifier, the file name and a NUL. *)
Definition debug_record (d : ImageDetails) : list byte :=
  encode (cv_of d) ++ utf8_encode (module_file_name (path d)) ++ [Byte.x00].

(** The record [m] describes the image [d] in the bytes [l]. *)
Definition mac_module_at (lo : nat) (l : list byte) (d : ImageDetails) (m : MDRawModule) : Prop :=
  exists base, base_of d = Ok base /\ base_of_image m = wrap 64 base /\
    size_of_image m = wrap 32 (li_vm_size (load_info d)) /\
    version_info m = module_version (image_version d) /\
    stands lo l (module_name_rva m) (string_bytes (path d)) /\
    data_size (cv_record m) = Z.of_nat (length (debug_record d)) /\
    stands lo l (rva (cv_record m)) (debug_record d).

Lemma mac_module_kept lo hi lo' l l' d m :
  kept_outside lo hi l l' -> (hi <= lo')%nat -> mac_module_at lo' l d m -> mac_module_at lo' l' d m.
Proof.
  intros Hk Hhi (base & ? & ? & ? & ? & Hn & ? & Hc). exists base.
  split_and!; [done..|by eapply stands_kept|done|by eapply stands_kept].
Qed.

Lemma mac_module_moved hi lo l l' d m :
  kept_outside 0 hi l l' -> (hi <= lo)%nat -> mac_module_at lo l d m -> mac_module_at hi l' d m.
Proof.
  intros Hk Hlo (base & ? & ? & ? & ? & Hn & ? & Hc). exists base.
  split_and!; [done..|by eapply stands_moved|done|by eapply stands_moved].
Qed.

Lemma checked_isize_ok {E} x : checked_isize (E := E) x = Panic \/ exists y, checked_isize (E := E) x = Ok y.
Proof. unfold checked_isize. repeat case_match; eauto. Qed.

(** A record is written, unless the path of the image is too long for the format
    or its address overflows. *)
Lemma write_module_outcome d b r b' :
  write_module d b = (r, b') -> small b' ->
  match r with
  | Ok m => short_text (path d) /\ extended (inner b) (inner b') /\
      mac_module_at (length (inner b)) (inner b') d m
  | Err _ => ~ short_text (path d) /\ b' = b
  | Panic => short_text (path d) /\ base_of d = Panic
  end.
Proof.
  intros Hrun Hs. destruct (decide (short_text (path d))) as [Hshort|Hlong]; cycle 1.
  { unfold write_module in Hrun. cbv zeta in Hrun. unfold short_text in Hlong.
    assert (Hstr : write_string_to_location (path d) b = (Err MW_TryFromIntError, b)).
    { unfold write_string_to_location. cbv zeta. unfold try_u32. rewrite (proj2 (Z.ltb_ge _ _)) by lia. done. }
    unfold mbind at 1, ST_bind at 1, st_map_err at 1 in Hrun. rewrite Hstr in Hrun. by injection Hrun as <- <-. }
  pose proof Hrun as Hrun0. unfold write_module in Hrun. cbv zeta in Hrun.
  assert (Hstr : write_string_to_location (path d) b =
    (Ok (mkLocation (Z.of_nat (length (string_bytes (path d)))) (position b)),
     mkBuffer (inner b ++ string_bytes (path d)))).
  { destruct (write_string_to_location (path d) b) as [rs b1] eqn:Hstr.
    pose proof (ensures_string (path d) b (fun loc s =>
      loc = mkLocation (Z.of_nat (length (string_bytes (path d)))) (position b) /\
      s = mkBuffer (inner b ++ string_bytes (path d))) (conj eq_refl eq_refl) Hshort) as He.
    unfold ensures in He. rewrite Hstr in He. cbn [snd] in He.
    destruct He as (loc & s & [= -> ->] & -> & ->); [|done].
    unfold mbind at 1, ST_bind at 1, st_map_err at 1 in Hrun. rewrite Hstr in Hrun.
    destruct rs as [loc|e|].
    - apply run_grows in Hrun; [|frame_tac]. unfold small in *. lia.
    - injection Hrun as _ <-. exact Hs.
    - injection Hrun as _ <-. exact Hs. }
  erewrite st_bind_run in Hrun; [|apply map_err_ok; exact Hstr]. unfold base_of, mac_module_at.
  destruct (checked_isize_ok (E := WriterError)
    (swrap usize_bits (li_vm_addr (load_info d)) + slide (load_info d))) as [Hb|[base Hb]].
  { rewrite Hb in Hrun. injection Hrun as <- _. done. }
  rewrite Hb in Hrun. erewrite st_bind_run in Hrun by reflexivity.
  erewrite st_bind_run in Hrun; [|apply map_err_ok, alloc_with_val_run].
  erewrite st_bind_run in Hrun by reflexivity. erewrite st_bind_run in Hrun by reflexivity.
  apply run_grows in Hrun; [|frame_tac]. unfold buf_len in Hrun. cbn [get_buf buffer_has_buffer id inner] in Hrun.
  unfold small, buf_len in Hs. cbn [get_buf buffer_has_buffer id] in Hs.
  assert (Hfit : Z.of_nat (length (inner b) + length (module_bytes d)) < 2 ^ 32).
  { unfold module_bytes. rewrite !length_app, !encode_length in Hrun |- *.
    rewrite length_app in Hrun. lia. }
  rewrite (write_module_run d b base Hb Hfit) in Hrun0. injection Hrun0 as <- <-. cbn [inner].
  split; [done|]. split; [apply extended_app|]. exists base.
  cbn [base_of_image size_of_image version_info module_name_rva cv_record rva data_size].
  unfold position, module_bytes.
  split_and!; try done.
  - by apply stands_mid.
  - unfold debug_record. rewrite !length_app. lia.
  - fold (debug_record d). rewrite app_assoc.
    match goal with |- stands _ _ (Z.of_nat ?n) _ => replace n with (length (inner b ++ string_bytes (path d)))
      by (rewrite length_app; reflexivity) end. apply stands_end. rewrite length_app. lia.
Qed.

(** *** The images that are listed *)

(** What is known of an image, unless it is left out. *)
Definition pick (r : res TaskDumpError ImageDetails) : option ImageDetails :=
  match r with
  | Ok d => if decide (short_text (path d)) then Some d else None
  | _ => None
  end.

(** An image without a version goes to the front. *)
Definition put (ds : list ImageDetails) (d : ImageDetails) : list ImageDetails :=
  if is_some (image_version d) then ds ++ [d] else d :: ds.

Definition arrange (ds : list ImageDetails) : list ImageDetails :=
  rev (filter (fun d => is_some (image_version d) = false) ds) ++
  filter (fun d => is_some (image_version d) = true) ds.

Lemma foldl_put ds : forall acc, foldl put acc ds =
  rev (filter (fun d => is_some (image_version d) = false) ds) ++ acc ++
  filter (fun d => is_some (image_version d) = true) ds.
Proof.
  induction ds as [|d ds IH]; intros acc; cbn [foldl]; [cbn; by rewrite app_nil_r|].
  rewrite IH, !filter_cons. unfold put. destruct (is_some (image_version d)) eqn:Hv.
  - rewrite decide_False, decide_True by done. by rewrite <- app_assoc.
  - rewrite decide_True, decide_False by done. cbn [rev]. by rewrite <- !app_assoc.
Qed.

Definition leads (d : ImageDetails) : bool :=
  negb (ffi_signature (module_version (image_version d)) =? VS_FFI_SIGNATURE).

(** The images of the module list, in its order: none when the images cannot be
    found or the first one is not an executable. *)
Definition listed_images : list ImageDetails :=
  match read_images dumper with
  | Ok (info, images) =>
      let ds := arrange (omap (fun i => pick (read_image i dumper)) (dedup_images (sort_images images))) in
      match ds with
      | d :: _ => if leads d then ds ++ option_list (pick (read_dyld info dumper)) else []
      | [] => []
      end
  | _ => []
  end.

(** Reading an image does not panic, and its address does not overflow. *)
Definition image_ok (r : res TaskDumpError ImageDetails) : Prop :=
  r <> Panic /\ forall d, pick r = Some d -> base_of d <> Panic.

Record images_ok : Prop := {
  io_images : read_images dumper <> Panic;
  io_each : forall info images i, read_images dumper = Ok (info, images) -> i ∈ images ->
    image_ok (read_image i dumper);
  io_dyld : forall info images, read_images dumper = Ok (info, images) -> image_ok (read_dyld info dumper);
}.

(** A record that may be left out, behind a run that continues with [k]. *)
Lemma try_module_outcome {T} d (k : WriterError + MDRawModule -> ST Buffer WriterError T) b r b' :
  (forall w, st_rel grows (k w)) ->
  (w ← st_try (write_module d); k w) b = (r, b') -> small b' ->
  (r = Panic /\ short_text (path d) /\ base_of d = Panic) \/
  (exists e, ~ short_text (path d) /\ k (inl e) b = (r, b')) \/
  (exists m b1, short_text (path d) /\ extended (inner b) (inner b1) /\
     mac_module_at (length (inner b)) (inner b1) d m /\ k (inr m) b1 = (r, b') /\
     (length (inner b1) <= length (inner b'))%nat).
Proof.
  intros Hg Hrun Hs. unfold mbind, ST_bind, st_try in Hrun.
  destruct (write_module d b) as [rw b1] eqn:Hw.
  assert (Hle : (length (inner b1) <= length (inner b'))%nat).
  { destruct rw as [m|e|].
    - specialize (Hg (inr m) b1). rewrite Hrun in Hg. exact Hg.
    - specialize (Hg (inl e) b1). rewrite Hrun in Hg. exact Hg.
    - by injection Hrun as _ <-. }
  pose proof (write_module_outcome d b rw b1 Hw ltac:(unfold small, buf_len in *; cbn in *; lia)) as Ho.
  destruct rw as [m|e|].
  - right; right. destruct Ho as (? & ? & ?). by exists m, b1.
  - right; left. destruct Ho as [? ->]. by exists e.
  - left. by injection Hrun as <- _.
Qed.

Lemma write_images_outcome lo images : forall acc modules b r b',
  write_images images dumper modules b = (r, b') -> small b' -> (lo <= length (inner b))%nat ->
  Forall2 (mac_module_at lo (inner b)) acc modules ->
  match r with
  | Ok ms => extended (inner b) (inner b') /\
      Forall2 (mac_module_at lo (inner b'))
        (foldl put acc (omap (fun i => pick (read_image i dumper)) images)) ms
  | Err _ => False
  | Panic => exists i, i ∈ images /\ ~ image_ok (read_image i dumper)
  end.
Proof.
  induction images as [|image images IH]; intros acc modules b r b'; cbn [write_images].
  { intros [= <- <-] _ _ HF. split; [apply kept_outside_refl|done]. }
  intros Hrun Hs Hlo HF.
  assert (Hskip : forall acc' modules' b0, pick (read_image image dumper) = None /\ acc' = acc \/
      (exists d, pick (read_image image dumper) = Some d /\ acc' = put acc d) ->
    extended (inner b) (inner b0) -> Forall2 (mac_module_at lo (inner b0)) acc' modules' ->
    write_images images dumper modules' b0 = (r, b') ->
    match r with
    | Ok ms => extended (inner b) (inner b') /\
        Forall2 (mac_module_at lo (inner b'))
          (foldl put acc (omap (fun i => pick (read_image i dumper)) (image :: images))) ms
    | Err _ => False
    | Panic => exists i, i ∈ image :: images /\ ~ image_ok (read_image i dumper)
    end).
  { intros acc' modules' b0 Hpick Hx HF' Hrun'. pose proof (proj1 Hx).
    specialize (IH acc' modules' b0 r b' Hrun' Hs ltac:(lia) HF'). destruct r as [ms| |]; [|done|].
    - destruct IH as [Hx' HF2]. split; [by eapply kept_outside_trans|]. cbn [omap list_omap].
      destruct Hpick as [[-> ->]|(d & -> & ->)]; done.
    - destruct IH as (i & Hi & Hok). exists i. split; [by right|done]. }
  destruct (read_image image dumper) as [d|e|] eqn:Hr.
  - erewrite st_bind_run in Hrun by reflexivity. cbv beta iota zeta in Hrun.
    apply try_module_outcome in Hrun; [|intros []; apply (frame_grows 0), frame_write_images|done].
    destruct Hrun
      as [(-> & Hsh & Hb)|[(e & Hsh & Hrun')|(m & b1 & Hsh & Hx & Hm & Hrun' & _)]].
    + exists image. split; [left|]. rewrite Hr. intros [_ Hd]. apply (Hd d); [|done].
      cbn. by rewrite decide_True.
    + eapply (Hskip acc modules b); [left|apply kept_outside_refl|done|exact Hrun'].
      split; [cbn; by rewrite decide_False|done].
    + eapply (Hskip (put acc d) _ b1); [right|done| |exact Hrun'].
      * exists d. split; [cbn; by rewrite decide_True|done].
      * assert (HF1 : Forall2 (mac_module_at lo (inner b1)) acc modules).
        { eapply Forall2_impl; [exact HF|]. intros d' m' Hm'.
          eapply (mac_module_kept 0 0); [|lia|exact Hm']. by apply extended_weaken. }
        assert (Hm1 : mac_module_at lo (inner b1) d m).
        { destruct Hm as (base & ? & ? & ? & ? & Hn & ? & Hc). exists base.
          split_and!; [done..|by eapply stands_weaken|done|by eapply stands_weaken]. }
        unfold put. destruct (is_some (image_version d)); cbn [negb].
        -- apply Forall2_app; [done|by constructor].
        -- by constructor.
  - erewrite st_bind_run in Hrun by reflexivity.
    eapply (Hskip acc modules b); [by left|apply kept_outside_refl|done|exact Hrun].
  - injection Hrun as <- _. exists image. split; [left|]. rewrite Hr. by intros [? _].
Qed.

Lemma listed_elem i images : i ∈ dedup_images (sort_images images) -> i ∈ images.
Proof.
  intros Hi. apply (proj2 (images_sorted_unique images)) in Hi.
  apply List.find_some in Hi as [Hi _]. by apply list_elem_of_In.
Qed.

Lemma loaded_modules_outcome b r b' :
  write_loaded_modules dumper b = (r, b') -> small b' ->
  match r with
  | Ok ms => Forall2 (mac_module_at (length (inner b)) (inner b')) listed_images ms
  | Err _ => listed_images = []
  | Panic => ~ images_ok
  end.
Proof.
  intros Hrun Hs. unfold write_loaded_modules in Hrun. unfold listed_images.
  destruct (read_images dumper) as [[info images]|e|] eqn:Hri.
  2: { by injection Hrun as <- _. }
  2: { injection Hrun as <- _. by intros [? _ _]. }
  erewrite st_bind_run in Hrun by reflexivity. cbv beta iota zeta in Hrun.
  set (picked := omap _ _). set (imgs := dedup_images _) in *.
  unfold mbind at 1, ST_bind at 1 in Hrun.
  destruct (write_images imgs dumper [] b) as [rw b1] eqn:Hw.
  assert (Hs1 : small b1).
  { unfold small, buf_len in *. cbn in *. destruct rw as [ms|e|].
    - apply run_grows in Hrun; [|frame_tac]. unfold buf_len in Hrun. cbn in Hrun. lia.
    - by injection Hrun as _ <-.
    - by injection Hrun as _ <-. }
  pose proof (write_images_outcome (length (inner b)) imgs [] [] b rw b1 Hw Hs1 ltac:(lia) ltac:(constructor)) as Ho.
  fold picked in Ho. rewrite foldl_put in Ho. cbn [app] in Ho. fold (arrange picked) in Ho.
  destruct rw as [ms|e|]; [|done|].
  2: { injection Hrun as <- _. destruct Ho as (i & Hi & Hn). intros Hok. apply Hn.
       apply (io_each Hok info images); [done|]. by apply listed_elem. }
  destruct Ho as [Hx HF]. pose proof (proj1 Hx) as Hlen.
  destruct HF as [|d m ds ms Hm HF]; cbn [negb] in Hrun.
  { by injection Hrun as <- _. }
  assert (Hv : version_info m = module_version (image_version d))
    by (by destruct Hm as (base & _ & _ & _ & Hv & _)).
  rewrite Hv in Hrun. fold (leads d) in Hrun. destruct (leads d); cbn [negb] in Hrun.
  2: { by injection Hrun as <- _. }
  assert (HF' : forall l, extended (inner b1) l ->
    Forall2 (mac_module_at (length (inner b)) l) (d :: ds) (m :: ms)).
  { intros l Hl. eapply Forall2_impl; [by constructor|]. intros d' m' Hm'.
    eapply (mac_module_kept 0 0); [|lia|exact Hm']. by apply extended_weaken. }
  destruct (read_dyld info dumper) as [dy|e|] eqn:Hdy.
  - erewrite st_bind_run in Hrun by reflexivity. cbv beta iota in Hrun.
    apply try_module_outcome in Hrun; [|intros []; apply st_rel_ret; apply _|done].
    destruct Hrun as [(-> & Hsh & Hb)|[(e & Hsh & Hrun)|(m' & b2 & Hsh & Hx' & Hm' & Hrun & _)]].
    + intros Hok. destruct (io_dyld Hok info images Hri) as [_ Hd]. rewrite Hdy in Hd.
      apply (Hd dy); [|done]. cbn. by rewrite decide_True.
    + injection Hrun as <- <-. cbn [pick]. rewrite decide_False by done. rewrite app_nil_r.
      apply HF', kept_outside_refl.
    + injection Hrun as <- <-. cbn [pick]. rewrite decide_True by done.
      change (Forall2 (mac_module_at (length (inner b)) (inner b2)) ((d :: ds) ++ [dy]) ((m :: ms) ++ [m'])).
      apply Forall2_app; [by apply HF'|].
      constructor; [|constructor]. destruct Hm' as (base & ? & ? & ? & ? & Hn & ? & Hc). exists base.
      split_and!; [done..|by eapply stands_weaken|done|by eapply stands_weaken].
  - erewrite st_bind_run in Hrun by reflexivity. injection Hrun as <- <-. cbn [pick option_list].
    rewrite app_nil_r. apply HF', kept_outside_refl.
  - injection Hrun as <- _. intros Hok. destruct (io_dyld Hok info images Hri) as [Hd _]. by rewrite Hdy in Hd.
Qed.

Lemma mac_module_list_judge c b :
  (total = true -> images_ok) ->
  judge total (write_module_list dumper) (c, b) (fun e s => s.1 = c /\
    exists ms, list_at (length (inner b)) (inner s.2) (ModuleListStream stream_types) e ms /\
      Forall2 (mac_module_at (length (inner b)) (inner s.2)) listed_images ms).
Proof.
  intros Hok. unfold write_module_list.
  apply judge_bind; [intros; apply (frame_grows 0); unfold buf; frame_tac|].
  assert (Hload : judge (E := WriterError) total (st_try (on_buf (write_loaded_modules dumper))) (c, b)
    (fun r s => s.1 = c /\ extended (inner b) (inner s.2) /\
      Forall2 (mac_module_at (length (inner b)) (inner s.2)) listed_images
        (match r with inr ms => ms | inl _ => [] end))).
  { apply judge_try. intros r [c' b'] Hrun Hs. unfold on_buf, st_zoom in Hrun.
    cbn [get_buf set_buf pair_has_buffer fst snd] in Hrun.
    destruct (write_loaded_modules dumper b) as [r0 b1] eqn:Hw. injection Hrun as -> <- <-.
    assert (Hx : extended (inner b) (inner b1)).
    { exact (extended_frame (write_loaded_modules dumper) b r b1 (frame_loaded_modules dumper) Hw Hs). }
    pose proof (loaded_modules_outcome b r b1 Hw Hs) as Ho. cbn [fst snd].
    destruct r as [ms|e|]; [done| |].
    - rewrite Ho. split_and!; [done..|constructor].
    - destruct total; [|done]. by destruct (Ho (Hok eq_refl)). }
  eapply judge_conseq; [exact Hload|]. intros r [c1 b1] _ (Hc1 & Hx & HF). cbn [fst snd] in *. subst c1.
  cbv zeta. set (ms := match r with inr ms => ms | inl _ => [] end) in *. clearbody ms.
  eapply judge_bind_run; [apply map_err_ok, on_buf_run, alloc_with_val_run|].
  cbn [get_buf set_buf pair_has_buffer fst snd].
  assert (Hmoved : forall l, extended (inner b1) l ->
    Forall2 (mac_module_at (length (inner b)) l) listed_images ms).
  { intros l Hl. eapply Forall2_impl; [exact HF|]. intros d' m' Hm'.
    eapply (mac_module_kept 0 0); [|lia|exact Hm']. by apply extended_weaken. }
  destruct ms as [|m ms].
  - eapply judge_run_small; [reflexivity|]. intros Hs. unfold small, buf_len in Hs.
    cbn [get_buf pair_has_buffer fst snd inner] in *. rewrite length_app, encode_length in Hs.
    split; [done|]. exists []. split; [|by apply Hmoved, extended_app].
    apply (stream_is_list (T := MDRawModule)). cbn [length encode_all fmap list_fmap concat].
    rewrite app_nil_r, <- encode_count. eapply stream_is_weaken; [apply (proj1 Hx)|].
    rewrite <- (app_nil_r (inner b1 ++ _)), <- app_assoc. apply record_entry. lia.
  - rewrite alloc_from_iter_eq.
    eapply judge_conseq; [apply judge_ensures, array_entry_ensures|]. intros e s _ [-> Hst].
    cbn [fst snd inner] in *. split; [done|]. exists (m :: ms). split; [|by apply Hmoved, extended_app].
    apply stream_is_list. rewrite <- encode_count. eapply stream_is_weaken; [|exact Hst]. apply (proj1 Hx).
Qed.
End modules.
