(* ===== verification/MacDump.v ===== *)
(** * What a macOS dump contains

    The streams of [dump] (src/src/mac/minidump_writer.rs) together: what each of
    them says about the task stands in the finished dump, where the directory
    locates it; and the conditions on the task under which the dump succeeds. *)
From Stdlib Require Import ZArith Lia String.
From S2P Require Import Prelude Format Layout MemWriter DirSection Driver DumpPlan Slots Ensures DumpStages.
From S2P Require Import RustStr Text Os Contexts Mach TaskDumper MacConfig MacCpus MacStreams MacModules.
From S2P Require Import MacWriter MacSpec MacImages MacContents MacStreamSpec MacModuleSpec.

Local Open Scope Z_scope.
Local Notation length := List.length.

Section contents.
Context `{TG : Target} {F : Format} {FO : FormatOk F} {MF : MacFormat} {MFO : MacFormatOk MF}.
Context {M : Mach} {CPU : MacCpu} {CO : MacCpuOk CPU}.
Context (fuel : nat).

(** Where the streams start in a dump with the given directory. *)
Definition mac_dir_end (exception : bool) : nat :=
  (size_with MDRawHeader + length (mac_stream_order exception) * size_with MDRawDirectory)%nat.

(** The dump with the bytes [l] and the directory [es] describes the task with
    the threads [ts]: [c] is the writer before the dump, [c'] after it. *)
Record mac_describes (c c' : MinidumpWriter) (ts : list Z) (es : list MDRawDirectory) (l : list byte)
    : Prop := {
  mc_config : adds c c';
  mc_threads : entry es 0 (fun e => exists vs,
    list_at (mac_dir_end (has_exception c)) l (ThreadListStream stream_types) e vs /\
    Forall2 (mac_thread_record fuel (TaskDumper_new (task c)) (mac_dir_end (has_exception c)) l
      (memory_blocks c')) (dumped c ts) vs);
  mc_memory : entry es 1 (fun e =>
    list_at (mac_dir_end (has_exception c)) l (MemoryListStream stream_types) e (memory_blocks c'));
  mc_window : exists w c1, ip_copy (TaskDumper_new (task c)) c = Ok w /\ adds c c1 /\
    window_recorded (mac_dir_end (has_exception c)) l c1 c' w;
  mc_system : entry es 2 (mac_system_info_at (mac_dir_end (has_exception c)) l);
  mc_modules : entry es 3 (fun e => exists ms,
    list_at (mac_dir_end (has_exception c)) l (ModuleListStream stream_types) e ms /\
    Forall2 (mac_module_at (mac_dir_end (has_exception c)) l) (listed_images (TaskDumper_new (task c))) ms);
  mc_misc : entry es 4 (mac_misc_info_at (TaskDumper_new (task c)) (mac_dir_end (has_exception c)) l);
  mc_breakpad : entry es 5 (fun e => stream_is (mac_dir_end (has_exception c)) l BreakpadInfoStream e
    (encode (mac_breakpad_info c)));
  mc_names : entry es 6 (fun e => exists vs,
    list_at (mac_dir_end (has_exception c)) l (ThreadNamesStream stream_types) e vs /\
    Forall2 (mac_name_record (TaskDumper_new (task c)) (mac_dir_end (has_exception c)) l) (dumped c ts) vs);
  mc_exception : forall cc, has_exception c = true -> crash_context c = Some cc ->
    entry es 7 (mac_exception_at (TaskDumper_new (task c)) cc (mac_dir_end (has_exception c)) l);
}.

(** What the task must be like for the dump to succeed. *)
Record mac_orderly (c : MinidumpWriter) (ts : list Z) : Prop := {
  mo_threads : Forall (thread_readable fuel (TaskDumper_new (task c))) (dumped c ts);
  mo_window : exists w, ip_copy (TaskDumper_new (task c)) c = Ok w;
  mo_system : short_text build_version;
  mo_images : images_ok (TaskDumper_new (task c));
  mo_misc : times_known (TaskDumper_new (task c));
  mo_names : Forall (fun tid => exists name, mac_thread_name (TaskDumper_new (task c)) tid = Ok name)
    (dumped c ts);
  mo_exception : forall cc, crash_context c = Some cc ->
    read_thread_state (TaskDumper_new (task c)) THREAD_STATE_FLAVOR (cc_thread cc) <> Panic;
}.
End contents.

Section run.
Context `{TG : Target} {F : Format} {FO : FormatOk F} {MF : MacFormat} {MFO : MacFormatOk MF}.
Context {M : Mach} {CPU : MacCpu} {CO : MacCpuOk CPU}.
Context (fuel : nat) (pre : list byte) (hdr : MDRawHeader) (total : bool) (exception : bool).
Context (dumper : TaskDumper).
Notation At := (At (SP := mac_plan exception) (C := MinidumpWriter) pre hdr).
Notation lo := (mac_dir_end exception).

(** The loop of the driver. *)
Definition stages (ws : list (TaskDumper -> Writer WriterError MDRawDirectory))
    : ST (MinidumpWriter * DirSection File * Buffer) WriterError unit :=
  st_for ws (fun writer =>
    dirent ← on_writer id (writer dumper);
    st_map_err WE_FileWriterError (flush (Some dirent))).

Lemma grows_stages ws : Forall (fun w => frame 0 (w dumper)) ws -> st_rel grows (stages ws).
Proof.
  induction 1 as [|w ws Hw _ IH]; unfold stages; cbn [st_for]; [apply st_rel_ret; apply _|].
  apply st_rel_bind; [apply _| |by intros []].
  apply st_rel_bind; [apply _|by apply grows_on_writer, (frame_grows 0)|].
  intros e. apply st_rel_map_err, grows_flush.
Qed.

(** One turn of the loop. *)
Lemma judge_turn es ls ty w ws c d b P Q :
  At es ls (c, d, b) -> mac_stream_order exception !! length es = Some ty ->
  (forall n, frame n (w dumper)) -> yields (placed ty) (w dumper) ->
  Forall (fun w => frame 0 (w dumper)) ws -> judge total (w dumper) (c, b) P ->
  (forall e c' b' d' b'', small b' -> P e (c', b') -> At (es ++ [e]) (inner b' :: ls) (c', d', b'') ->
    judge total (stages ws) (c', d', b'') Q) ->
  judge total (stages (w :: ws)) (c, d, b) Q.
Proof.
  intros Hat Ho Hf Hy Hws Hm Hrest. unfold stages. cbn [st_for].
  eapply judge_ext; [apply st_bind_assoc|].
  eapply (judge_stage (SP := mac_plan exception) pre hdr total id WE_FileWriterError es ls ty (w dumper)
    c d b P (stages ws)); [done..|by apply grows_stages|done|done].
Qed.

Lemma at_lo es ls s : At es ls s -> (lo <= length (inner s.2))%nat.
Proof. intros Hat. exact (at_length _ _ _ _ _ Hat). Qed.

End run.

(** The frames of the writers still to come, and the buffer a stage left. *)
Ltac turn_frames :=
  repeat (apply Forall_cons_2; [by eauto using task_listed_known with mdw|]); apply Forall_nil_2.

Ltac survivor Hsv S := apply Forall_cons in Hsv as [[_ S] Hsv].

Section turns.
Context `{TG : Target} {F : Format} {FO : FormatOk F} {MF : MacFormat} {MFO : MacFormatOk MF}.
Context {M : Mach} {CPU : MacCpu} {CO : MacCpuOk CPU}.
Context (fuel : nat) (pre : list byte) (hdr : MDRawHeader) (total : bool) (dumper : TaskDumper).
Notation At exception := (At (SP := mac_plan exception) (C := MinidumpWriter) pre hdr).

(** The exception stream, when there is one. *)
Lemma last_turn exception es ls c d b cc :
  At exception es ls (c, d, b) -> length es = 7%nat -> (exception = true -> crash_context c = Some cc) ->
  (total = true -> exception = true ->
    read_thread_state dumper THREAD_STATE_FLAVOR (cc_thread cc) <> Panic) ->
  judge total (stages dumper (if exception then [write_exception] else [])) (c, d, b) (fun _ s => s.1.1 = c /\
    exists tl ls', At exception (es ++ tl) (ls' ++ ls) s /\ length (es ++ tl) = length (mac_stream_order exception) /\
      (exception = true -> exists e, tl = [e] /\ mac_exception_at dumper cc (mac_dir_end exception) (inner s.2) e)).
Proof.
  intros Hat Hlen Hcc Hp. pose proof (at_lo _ _ _ _ _ _ Hat) as Hlo. cbn [snd] in Hlo.
  destruct exception.
  - eapply (judge_turn pre hdr total true dumper es ls (ExceptionStream stream_types)
      _ [] c d b _ _ Hat); [by rewrite Hlen|by auto with mdw|apply mac_exception_placed|constructor
      |apply mac_exception_judge; [by apply Hcc|intros Ht; by apply Hp]|].
    intros e c' b' d' b'' _ [Hc He] Hat'. cbn [fst snd] in *. subst c'.
    eapply judge_run; [reflexivity|]. split; [done|]. exists [e], [inner b']. split; [done|].
    split; [rewrite length_app, Hlen; reflexivity|]. intros _. exists e. split; [done|].
    pose proof (at_survive _ _ _ _ _ Hat') as Hsv. apply Forall_cons in Hsv as [[_ S] _].
    eapply mac_exception_moved; [exact S|exact Hlo|exact He].
  - eapply judge_run; [reflexivity|]. split; [done|]. exists [], []. rewrite app_nil_r.
    split; [done|]. split; [by rewrite Hlen|done].
Qed.

Context (exception : bool).
Notation lo := (mac_dir_end exception).

Lemma plan_ty k ty : (k < 7)%nat -> mac_stream_order false !! k = Some ty -> mac_stream_order exception !! k = Some ty.
Proof. intros Hk. by destruct exception; do 7 (destruct k as [|k]; [done|]); lia. Qed.

Lemma frames_of (ws : list (TaskDumper -> Writer WriterError MDRawDirectory)) :
  Forall (fun w => frame 0 (w dumper)) ws ->
  Forall (fun w => frame 0 (w dumper)) (ws ++ if exception then [write_exception] else []).
Proof.
  intros Hws. apply Forall_app. split; [done|]. destruct exception; [|constructor].
  constructor; [by auto with mdw|constructor].
Qed.

(** The streams from the process information on. *)
Lemma late_turns e0 e1 e2 e3 ls c d b cc ts :
  At exception [e0; e1; e2; e3] ls (c, d, b) -> (exception = true -> crash_context c = Some cc) ->
  task_listed dumper c ts -> (total = true -> times_known dumper) ->
  (total = true -> Forall (fun tid => exists name, mac_thread_name dumper tid = Ok name) (dumped c ts)) ->
  (total = true -> exception = true ->
    read_thread_state dumper THREAD_STATE_FLAVOR (cc_thread cc) <> Panic) ->
  judge total (stages dumper ([write_misc_info; write_breakpad_info; write_thread_names] ++
      if exception then [write_exception] else [])) (c, d, b) (fun _ s => s.1.1 = c /\
    exists e4 e5 e6 tl ls', At exception ([e0; e1; e2; e3; e4; e5; e6] ++ tl) (ls' ++ ls) s /\
      length ([e0; e1; e2; e3; e4; e5; e6] ++ tl) = length (mac_stream_order exception) /\
      mac_misc_info_at dumper lo (inner s.2) e4 /\
      stream_is lo (inner s.2) BreakpadInfoStream e5 (encode (mac_breakpad_info c)) /\
      (exists vs, list_at lo (inner s.2) (ThreadNamesStream stream_types) e6 vs /\
        Forall2 (mac_name_record dumper lo (inner s.2)) (dumped c ts) vs) /\
      (exception = true -> exists e, tl = [e] /\ mac_exception_at dumper cc (mac_dir_end exception) (inner s.2) e)).
Proof.
  intros Hat Hcc Hl Hmi Hna Hex. pose proof (at_lo _ _ _ _ _ _ Hat) as L3. cbn [app].
  eapply (judge_turn pre hdr total exception dumper _ _ MiscInfoStream); [exact Hat|by apply plan_ty; [cbn; lia|]
    |by auto with mdw|apply misc_info_placed
    |apply (frames_of [write_breakpad_info; write_thread_names]); turn_frames
    |by apply misc_info_judge|].
  intros e4 c4 b4 d4 b4' _ [Hc4 F4] H4. cbn [fst snd app] in *. subst c4. clear Hat.
  pose proof (at_lo _ _ _ _ _ _ H4) as L4.
  eapply (judge_turn pre hdr total exception dumper _ _ BreakpadInfoStream); [exact H4|by apply plan_ty; [cbn; lia|]
    |by auto with mdw|apply breakpad_info_placed
    |apply (frames_of [write_thread_names]); turn_frames
    |apply judge_ensures, breakpad_info_ensures|].
  intros e5 c5 b5 d5 b5' _ [Hc5 F5] H5. cbn [fst snd app] in *. subst c5. clear H4.
  pose proof (at_lo _ _ _ _ _ _ H5) as L5.
  eapply (judge_turn pre hdr total exception dumper _ _ (ThreadNamesStream stream_types)); [exact H5|by apply plan_ty; [cbn; lia|]
    |by eauto using task_listed_known with mdw|by eapply mac_thread_names_placed, task_listed_known
    |by apply (frames_of [])|by apply thread_names_judge|].
  intros e6 c6 b6 d6 b6' _ [Hc6 (vs & F6 & N6)] H6. cbn [fst snd app] in *. subst c6. clear H5.
  eapply judge_conseq; [by apply (last_turn exception _ _ c d6 b6' cc H6)|].
  intros [] s _ (Hcs & tl & ls' & Hfin & Hlen & F7). split; [done|].
  exists e4, e5, e6, tl. eexists (ls' ++ [_; _; _]). rewrite <- app_assoc.
  pose proof (at_survive _ _ _ _ _ Hfin) as Hsv. apply Forall_app in Hsv as [_ Hsv].
  survivor Hsv S6. survivor Hsv S5. survivor Hsv S4.
  split_and!; [exact Hfin|exact Hlen|eapply mac_misc_info_moved; [exact S4|exact L3|exact F4]
    |eapply stream_is_moved; [exact S5|exact L4|exact F5]| |exact F7].
  exists vs. split; [eapply list_at_moved; [exact S6|exact L5|exact F6]|]. eapply Forall2_impl; [exact N6|].
  intros tid v (name & ? & ? & Hst). exists name. split_and!; [done..|].
  eapply stands_moved; [exact S6|exact L5|exact Hst].
Qed.

(** What is asked of a writer depends on the parts of it that stay. *)
Lemma adds_same c c' ts :
  adds c c' -> dumped c' ts = dumped c ts /\ mac_breakpad_info c' = mac_breakpad_info c /\
  ip_copy dumper c' = ip_copy dumper c /\ (task_listed dumper c ts -> task_listed dumper c' ts).
Proof. intros [ds ->]. split_and!; [done..|]. intros [? ? ? ? ? ? ?]. by constructor. Qed.

Lemma thread_records_moved hi lo l l' blocks blocks' tids vs :
  kept_outside 0 hi l l' -> (hi <= lo)%nat -> blocks ⊆ blocks' ->
  Forall2 (mac_thread_record fuel dumper lo l blocks) tids vs ->
  Forall2 (mac_thread_record fuel dumper hi l' blocks') tids vs.
Proof.
  intros Hk Hlo Hb HF. eapply Forall2_impl; [exact HF|]. intros tid v Hv.
  eapply mac_thread_record_kept; [exact Hk|done|exact Hb|]. by eapply mac_thread_record_weaken.
Qed.
End turns.

Section whole.
Context `{TG : Target} {F : Format} {FO : FormatOk F} {MF : MacFormat} {MFO : MacFormatOk MF}.
Context {M : Mach} {CPU : MacCpu} {CO : MacCpuOk CPU}.
Context (fuel : nat) (pre : list byte) (hdr : MDRawHeader) (total : bool).
Context (c : MinidumpWriter) (ts : list Z).
Notation dumper := (TaskDumper_new (task c)).
Notation exc := (has_exception c).
Notation At := (At (SP := mac_plan exc) (C := MinidumpWriter) pre hdr).
Notation lo := (mac_dir_end exc).

(** The streams from the system information on, for the writer [c2] after the
    memory list. *)
Lemma middle_turns e0 e1 ls c2 d b :
  At [e0; e1] ls (c2, d, b) -> adds c c2 -> task_listed dumper c ts ->
  (total = true -> mac_orderly fuel c ts) ->
  judge total (stages dumper ([write_system_info; write_module_list; write_misc_info; write_breakpad_info;
      write_thread_names] ++ if exc then [write_exception] else [])) (c2, d, b) (fun _ s => s.1.1 = c2 /\
    exists tl ls', At (e0 :: e1 :: tl) (ls' ++ ls) s /\
      length (e0 :: e1 :: tl) = length (mac_stream_order exc) /\
      forall es, es = e0 :: e1 :: tl ->
      entry es 2 (mac_system_info_at lo (inner s.2)) /\
      entry es 3 (fun e => exists ms, list_at lo (inner s.2) (ModuleListStream stream_types) e ms /\
        Forall2 (mac_module_at lo (inner s.2)) (listed_images dumper) ms) /\
      entry es 4 (mac_misc_info_at dumper lo (inner s.2)) /\
      entry es 5 (fun e => stream_is lo (inner s.2) BreakpadInfoStream e (encode (mac_breakpad_info c))) /\
      entry es 6 (fun e => exists vs, list_at lo (inner s.2) (ThreadNamesStream stream_types) e vs /\
        Forall2 (mac_name_record dumper lo (inner s.2)) (dumped c ts) vs) /\
      forall cc, exc = true -> crash_context c = Some cc ->
        entry es 7 (mac_exception_at dumper cc lo (inner s.2))).
Proof.
  intros Hat Ha2 Hl Hor. pose proof (at_lo _ _ _ _ _ _ Hat) as L2.
  pose proof (task_listed_known _ _ _ Hl) as Hkn. cbn [app].
  destruct (adds_same dumper c c2 ts Ha2) as (Hd2 & Hb2 & _ & Hl2). specialize (Hl2 Hl).
  destruct (adds_fields c c2 Ha2) as (Hcc2 & _).
  eapply (judge_turn pre hdr total exc dumper _ _ (SystemInfoStream stream_types)); [exact Hat
    |by apply plan_ty; [cbn; lia|]|by auto with mdw|apply system_info_placed
    |apply (frames_of _ _ [write_module_list; write_misc_info; write_breakpad_info; write_thread_names]);
       turn_frames
    |apply system_info_judge; intros Ht; apply (mo_system _ _ _ (Hor Ht))|].
  intros e2 c3 b3 d3 b3' _ [Hc3 F2] H2. cbn [fst snd app] in *. subst c3. clear Hat.
  pose proof (at_lo _ _ _ _ _ _ H2) as L3.
  eapply (judge_turn pre hdr total exc dumper _ _ (ModuleListStream stream_types)); [exact H2
    |by apply plan_ty; [cbn; lia|]|by auto with mdw|apply module_list_placed
    |apply (frames_of _ _ [write_misc_info; write_breakpad_info; write_thread_names]); turn_frames
    |apply mac_module_list_judge; intros Ht; apply (mo_images _ _ _ (Hor Ht))|].
  intros e3 c4 b4 d4 b4' _ [Hc4 (ms & F3 & M3)] H3. cbn [fst snd app] in *. subst c4. clear H2.
  set (cc := default (mkCrashContext 0 0 0 None) (crash_context c)).
  assert (Hcc : exc = true -> crash_context c = Some cc)
    by (unfold cc, has_exception; by destruct (crash_context c)).
  eapply judge_conseq; [apply (late_turns pre hdr total dumper exc e0 e1 e2 e3 _ c2 d4 b4' cc ts H3)|];
    [intros He; rewrite Hcc2; by apply Hcc|exact Hl2|intros Ht; apply (mo_misc _ _ _ (Hor Ht))
    |intros Ht; rewrite Hd2; apply (mo_names _ _ _ (Hor Ht))
    |intros Ht He; apply (mo_exception _ _ _ (Hor Ht)); by apply Hcc|].
  intros [] s _ (Hcs & e4 & e5 & e6 & tl & ls' & Hfin & Hlen & F4 & F5 & F6 & F7). split; [done|].
  exists ([e2; e3; e4; e5; e6] ++ tl). eexists (ls' ++ [_; _]). rewrite <- app_assoc.
  split; [exact Hfin|]. split; [exact Hlen|]. intros es ->.
  pose proof (at_survive _ _ _ _ _ Hfin) as Hsv. apply Forall_app in Hsv as [_ Hsv].
  survivor Hsv S3. survivor Hsv S2. rewrite Hd2, Hb2 in *.
  split_and!; [exists e2|exists e3|by exists e4|by exists e5|by exists e6|].
  - split; [done|]. eapply mac_system_info_moved; [exact S2|exact L2|exact F2].
  - split; [done|]. exists ms. split; [eapply list_at_moved; [exact S3|exact L3|exact F3]|].
    eapply Forall2_impl; [exact M3|]. intros dd mm Hm. eapply mac_module_moved; [exact S3|exact L3|exact Hm].
  - intros cc' He Hcc'. destruct (F7 He) as (e7 & -> & F7'). exists e7. split; [done|].
    rewrite (Hcc He) in Hcc'. by injection Hcc' as <-.
Qed.

Lemma all_turns d b :
  At [] [] (c, d, b) -> task_listed dumper c ts -> (total = true -> mac_orderly fuel c ts) ->
  judge total (stages dumper (writers fuel exc)) (c, d, b) (fun _ s => exists es ls,
    length es = length (mac_stream_order exc) /\ At es ls s /\
    mac_describes fuel c s.1.1 ts es (inner s.2)).
Proof.
  intros Hat Hl Hor. pose proof (at_lo _ _ _ _ _ _ Hat) as L0. pose proof (task_listed_known _ _ _ Hl) as Hkn.
  unfold writers. cbn [app].
  eapply (judge_turn pre hdr total exc dumper _ _ (ThreadListStream stream_types)); [exact Hat
    |by apply plan_ty; [cbn; lia|]|by auto with mdw|by apply mac_thread_list_placed
    |apply (frames_of _ _ [write_memory_list; write_system_info; write_module_list; write_misc_info;
       write_breakpad_info; write_thread_names]); turn_frames
    |apply thread_list_judge; [exact Hl|intros Ht; apply (mo_threads _ _ _ (Hor Ht))]|].
  intros e0 c1 b1 d1 b1' _ [Ha1 (vs & F0 & T0)] H0. cbn [fst snd app] in *. clear Hat.
  pose proof (at_lo _ _ _ _ _ _ H0) as L1. destruct (adds_same dumper c c1 ts Ha1) as (_ & _ & Hip1 & _).
  eapply (judge_turn pre hdr total exc dumper _ _ (MemoryListStream stream_types)); [exact H0
    |by apply plan_ty; [cbn; lia|]|by auto with mdw|apply mac_memory_list_placed
    |apply (frames_of _ _ [write_system_info; write_module_list; write_misc_info;
       write_breakpad_info; write_thread_names]); turn_frames
    |apply mac_memory_list_judge; [exact (tl_64 _ _ _ Hl)|intros Ht; rewrite Hip1; apply (mo_window _ _ _ (Hor Ht))]|].
  intros e1 c2 b2 d2 b2' _ (w & Hw & W1 & F1) H1. cbn [fst snd app] in *. clear H0.
  pose proof (window_recorded_adds _ _ _ _ _ W1) as Ha12.
  assert (Ha2 : adds c c2) by (by etransitivity).
  eapply judge_conseq; [by apply (middle_turns e0 e1 _ c2 d2 b2' H1)|].
  intros [] s _ (Hcs & tl & ls' & Hfin & Hlen & Hrest).
  exists (e0 :: e1 :: tl). eexists. split; [exact Hlen|]. split; [exact Hfin|].
  destruct (Hrest _ eq_refl) as (? & ? & ? & ? & ? & ?).
  pose proof (at_survive _ _ _ _ _ Hfin) as Hsv. apply Forall_app in Hsv as [_ Hsv].
  survivor Hsv S1. survivor Hsv S0. rewrite Hcs. constructor; try done.
  - exists e0. split; [done|]. exists vs. split; [eapply list_at_moved; [exact S0|exact L0|exact F0]|].
    eapply thread_records_moved; [exact S0|exact L0|exact (adds_blocks _ _ Ha12)|exact T0].
  - exists e1. split; [done|]. eapply list_at_moved; [exact S1|exact L1|exact F1].
  - exists w, c1. rewrite <- Hip1. split; [done|]. split; [done|].
    eapply window_recorded_moved; [exact S1|exact L1|exact W1].
Qed.
End whole.

(** The whole run, from an empty buffer. *)
Lemma mac_dump_judged `{TG : Target} {F : Format} {FO : FormatOk F} {MF : MacFormat} {MFO : MacFormatOk MF}
    {M : Mach} {CPU : MacCpu} {CO : MacCpuOk CPU} fuel total c ts f r c' f' b' now :
  (0 <= cursor f <= Z.of_nat (length (contents f))) -> cursor f + 2 ^ 32 <= 2 ^ 64 ->
  system_time = Some now -> task_listed (TaskDumper_new (task c)) c ts ->
  (total = true -> mac_orderly fuel c ts) ->
  dump_into fuel (c, f, with_capacity 0) = (r, (c', f', b')) -> Z.of_nat (length (inner b')) < 2 ^ 32 ->
  match r with
  | Ok bytes => bytes = inner b' /\ exists es, length es = length (mac_stream_order (has_exception c)) /\
      dump_on_disk (SP := mac_plan (has_exception c)) (before f) (mac_header (has_exception c) now) es
        (length (inner b')) (contents f') b' /\
      mac_describes fuel c c' ts es (inner b')
  | _ => total = false
  end.
Proof.
  intros Hcur Hend Hnow Hl Hor Hrun Hlt.
  destruct (dump_into_run _ _ _ _ _ _ _ Hrun) as (r0 & d0 & Hs & -> & ->).
  set (exc := has_exception c) in *. rewrite (write_streams_run fuel exc c f _ _ now Hnow) in Hs.
  pose proof (proj1 (writers_hoare fuel exc (before f) (mac_header exc now)
    (TaskDumper_new (task c)) (task_listed_known _ _ _ Hl))) as Hg.
  rewrite start_dir_position in Hs by (eapply (dump_small (SP := mac_plan exc)); [exact Hg|exact Hs|exact Hlt]).
  replace (header_of _ _ _) with (mac_header exc now) in Hs by by destruct exc.
  pose proof (judged_run (SP := mac_plan exc) WE_MemoryWriterError WE_FileWriterError (mac_header exc now) total f c
    (stages (TaskDumper_new (task c)) (writers fuel exc)) (fun es s =>
      length es = length (mac_stream_order exc) /\ mac_describes fuel c s.1.1 ts es (inner s.2))
    r0 c' d0 b' Hcur Hend Hg) as Hj.
  ospecialize (Hj _ Hs Hlt); [|destruct r0; naive_solver].
  intros d b Hat _. eapply judge_conseq; [by apply all_turns|naive_solver].
Qed.

(** ** Properties *)

(** C7: what a successful macOS dump says.  For a task whose threads can be listed,
    at least one of them, where the handler thread is unknown or one of them, when
    [dump] returns, it returns the bytes that stand on the destination, and the
    directory locates in them: a record for every thread but the handler with its
    registers and its stack, the list of all memory blocks (the stacks and the
    code around the crash among them), the description of the system, the list of
    images, the process id and times, the dumping and the blamed thread, a name
    for every thread, and the exception if there is one.  The list of images has
    a record for every image that can be described if one without a version leads
    them, and is empty otherwise. *)
Theorem mac_dump_describes `{TG : Target} (F : Format) (FO : FormatOk F) (MF : MacFormat)
    (MFO : MacFormatOk MF) (M : Mach) (CPU : MacCpu) (CO : MacCpuOk CPU) (fuel : nat)
    (c c' : MinidumpWriter) (ts : list Z) (f f' : File) (bytes : list byte) (b' : Buffer) (now : Z) :
  (0 <= cursor f <= Z.of_nat (length (contents f))) -> cursor f + 2 ^ 32 <= 2 ^ 64 ->
  system_time = Some now -> task_listed (TaskDumper_new (task c)) c ts ->
  dump_into fuel (c, f, with_capacity 0) = (Ok bytes, (c', f', b')) ->
  Z.of_nat (length (inner b')) < 2 ^ 32 ->
  bytes = inner b' /\ exists es, length es = length (mac_stream_order (has_exception c)) /\
    dump_on_disk (SP := mac_plan (has_exception c)) (before f) (mac_header (has_exception c) now) es
      (length bytes) (contents f') b' /\
    mac_describes fuel c c' ts es bytes.
Proof.
  intros Hcur Hend Hnow Hl Hrun Hs.
  destruct (mac_dump_judged fuel false c ts f _ c' f' b' now Hcur Hend Hnow Hl
    (fun Ht => match Bool.diff_false_true Ht with end) Hrun Hs) as (-> & es & Hes). split; [done|]. by exists es.
Qed.

(** C9: when a macOS dump succeeds.  For a task whose threads can be listed, at
    least one of them, where the handler thread is unknown or one of them; each
    dumped thread with registers, a name that can be asked for and a stack whose
    addresses do not overflow; the registers of the crashed thread, the code
    around the crash and the process id and times readable without a panic; and
    images, the dynamic linker among them, whose load commands can be read
    without a panic and whose addresses do not overflow: [dump] returns without an
    error or a panic in every build, as long as the dump stays below 4 GiB.
    Images whose reading fails with an error are left out and do not make it
    fail.  The destination, on which every call succeeds, then holds what it held
    before followed by the bytes that are returned. *)
Theorem mac_dump_succeeds `{TG : Target} (F : Format) (FO : FormatOk F) (MF : MacFormat)
    (MFO : MacFormatOk MF) (M : Mach) (CPU : MacCpu) (CO : MacCpuOk CPU) (fuel : nat)
    (c : MinidumpWriter) (ts : list Z) (f : File) (now : Z) :
  (0 <= cursor f <= Z.of_nat (length (contents f))) -> cursor f + 2 ^ 32 <= 2 ^ 64 ->
  system_time = Some now -> task_listed (TaskDumper_new (task c)) c ts -> mac_orderly fuel c ts ->
  Z.of_nat (length (inner (dump_into fuel (c, f, with_capacity 0)).2.2)) < 2 ^ 32 ->
  exists bytes c' f', dump fuel (c, f) = (Ok bytes, (c', f')) /\
    take (length (before f) + length bytes) (contents f') = before f ++ bytes.
Proof.
  intros Hcur Hend Hnow Hl Hor Hs. unfold dump.
  destruct (dump_into fuel (c, f, with_capacity 0)) as [r [[c' f'] b']] eqn:Hrun. cbn [snd] in Hs.
  pose proof (mac_dump_judged fuel true c ts f r c' f' b' now Hcur Hend Hnow Hl (fun _ => Hor) Hrun Hs) as Hj.
  destruct r as [bytes|e|]; [|done..]. destruct Hj as (-> & es & _ & Hd & _).
  exists (inner b'), c', f'. split; [done|]. by eapply dump_on_disk_prefix.
Qed.

(** C10: the streams of a macOS dump refer to each other.  In every successful dump
    of a task whose threads can be listed, where the handler thread is unknown or
    one of them, the record of a thread points to its registers, and its stack is
    also in the memory list, at the same place; when the thread is the one that
    crashed, the exception stream names it and points to a copy of the same
    registers; and the code around the crash is in the memory list, with its
    address and bytes. *)
Theorem mac_dump_streams_agree `{TG : Target} (F : Format) (FO : FormatOk F) (MF : MacFormat)
    (MFO : MacFormatOk MF) (M : Mach) (CPU : MacCpu) (CO : MacCpuOk CPU) (fuel : nat)
    (c c' : MinidumpWriter) (ts : list Z) (f f' : File) (bytes : list byte) (b' : Buffer) (now : Z)
    (i : nat) (tid : Z) :
  (0 <= cursor f <= Z.of_nat (length (contents f))) -> cursor f + 2 ^ 32 <= 2 ^ 64 ->
  system_time = Some now -> task_listed (TaskDumper_new (task c)) c ts ->
  dump_into fuel (c, f, with_capacity 0) = (Ok bytes, (c', f', b')) ->
  Z.of_nat (length (inner b')) < 2 ^ 32 -> dumped c ts !! i = Some tid ->
  exists es e0 e1 v registers, dump_on_disk (SP := mac_plan (has_exception c)) (before f)
      (mac_header (has_exception c) now) es (length bytes) (contents f') b' /\
    es !! 0%nat = Some e0 /\ es !! 1%nat = Some e1 /\
    stands 0 bytes (rva (location e0) + 4 + Z.of_nat (size_with MDRawThread * i)) (encode v) /\
    thread_id v = tid /\ stands 0 bytes (rva (thread_context v)) registers /\
    data_size (thread_context v) = Z.of_nat (length registers) /\
    (exists j, stands 0 bytes (rva (location e1) + 4 + Z.of_nat (size_with MDMemoryDescriptor * j))
      (encode (stack v))) /\
    (forall cc, crash_context c = Some cc -> has_exception c = true -> cc_thread cc = tid ->
      exists e7 x, es !! 7%nat = Some e7 /\ stands 0 bytes (rva (location e7)) (encode x) /\
        es_thread_id x = tid /\ stands 0 bytes (rva (es_thread_context x)) registers) /\
    (forall a code, ip_copy (TaskDumper_new (task c)) c = Ok (Some (a, code)) ->
      exists j d, stands 0 bytes (rva (location e1) + 4 + Z.of_nat (size_with MDMemoryDescriptor * j))
          (encode d) /\ start_of_memory_range d = a /\ data_size (memory d) = Z.of_nat (length code) /\
        stands 0 bytes (rva (memory d)) code).
Proof.
  intros Hcur Hend Hnow Hl Hrun Hs Ht.
  destruct (mac_dump_judged fuel false c ts f _ c' f' b' now Hcur Hend Hnow Hl
    (fun Ht => match Bool.diff_false_true Ht with end) Hrun Hs) as (-> & es & _ & Hd & Hm).
  destruct Hm as [_ (e0 & He0 & vs & Hv & Hrec) (e1 & He1 & Hmem) (w & c1 & Hw & _ & Hwin) _ _ _ _ _ Hx].
  destruct (Forall2_lookup_l _ _ _ _ _ Hrec Ht) as (v & Hvi & Hr).
  destruct Hr as (state & a & bs & Hstate & _ & Hid & Hsz & Hregs & _ & _ & _ & Hin).
  assert (Hw0 : forall r l, stands (mac_dir_end (has_exception c)) (inner b') r l -> stands 0 (inner b') r l)
    by (intros r l; apply stands_weaken, Nat.le_0_l).
  exists es, e0, e1, v, (registers_of state). split_and!; try done; try (by apply Hw0).
  - apply Hw0. by eapply list_at_slot.
  - by unfold registers_of; rewrite encode_length.
  - apply list_elem_of_lookup in Hin as [j Hj]. exists j. apply Hw0. by eapply list_at_slot.
  - intros cc Hcc Hex <-. destruct (Hx cc Hex Hcc) as (e7 & He7 & st & loc & Hst & Hcr & Hxs).
    rewrite Hstate in Hst. injection Hst as <-. destruct Hcr as [_ Hcr].
    eexists e7, _. split; [done|]. split; [apply Hw0, Hxs|]. split; [done|by apply Hw0].
  - intros a' code Hip. rewrite Hw in Hip. injection Hip as ->. destruct Hwin as (r & Hst & ->).
    exists (length (memory_blocks c1)), (mkMemoryDescriptor a' (mkLocation (Z.of_nat (length code)) r)).
    split; [|split; [reflexivity|split; [reflexivity|by apply Hw0]]].
    apply Hw0. eapply list_at_slot; [exact Hmem|]. cbn [push_memory_block memory_blocks].
    by rewrite lookup_app_r, Nat.sub_diag by done.
Qed.

(** The task of MacSpec.v, with the images of MacImages.v in its memory. *)
Definition imaged_mach : Mach := toy_mach image_memory [(4096, 48, mkRegionInfo 30 3)] [259; 515]
  (concat (le_split 8 <$> replicate 31 7) ++ le_split 8 4100 ++ le_split 8 4112 ++ le_split 8 0)
  (le_split 8 4736 ++ le_split 40 0).

Local Notation imaged_run := (@dump_into x64_debug layout mac_layout imaged_mach sample_cpu File _ 5
  (sample_writer, sample_file, with_capacity 0)).

Lemma imaged_listed :
  @task_listed x64_debug layout imaged_mach (@TaskDumper_new imaged_mach 7) sample_writer [259; 515].
Proof.
  constructor; [reflexivity|vm_compute; split; discriminate|reflexivity|vm_compute; split; reflexivity
    |by apply (bool_decide_unpack _); vm_compute|by apply (bool_decide_unpack _); vm_compute
    |right; by apply (bool_decide_unpack _); vm_compute].
Qed.

Lemma imaged_images_ok : @images_ok x64_debug imaged_mach (@TaskDumper_new imaged_mach 7).
Proof.
  assert (Hok : forall r : res TaskDumpError ImageDetails, match r with
    | Ok d => match @base_of x64_debug d with Panic => False | _ => True end
    | Err _ => True | Panic => False end -> @image_ok x64_debug r).
  { intros [d|e|] Hr; [|by split..]. split; [done|]. intros d'. unfold pick. destruct (decide _); [|done].
    intros [= <-] Hb. by rewrite Hb in Hr. }
  constructor; [vm_compute; discriminate|intros info images i|intros info images];
    intros Hi; vm_compute in Hi; injection Hi as <- <-; [|apply Hok; vm_compute; exact I].
  rewrite !elem_of_cons, elem_of_nil.
  intros [->|[->|[->|[->|[]]]]]; apply Hok; vm_compute; exact I.
Qed.

Lemma imaged_orderly :
  @mac_orderly x64_debug imaged_mach sample_cpu 5 sample_writer [259; 515].
Proof.
  constructor.
  - constructor; [|constructor]. unfold thread_readable.
    pose (run := ts ← @read_thread_state imaged_mach (@TaskDumper_new imaged_mach 7)
      (@THREAD_STATE_FLAVOR sample_cpu) 259;
      @stack_copy x64_debug imaged_mach 5 (@state_sp sample_cpu ts) (@TaskDumper_new imaged_mach 7)).
    assert (Hrun : match run with Ok _ => True | _ => False end) by (vm_compute; exact I).
    destruct run as [x|e|] eqn:Hr; [|done..]. apply res_bind_ok in Hr as (ts & Hts & Hx). by exists ts, x.
  - eexists. vm_compute. reflexivity.
  - vm_compute. reflexivity.
  - exact imaged_images_ok.
  - eexists _, _, _. split_and!; vm_compute; reflexivity.
  - constructor; [|constructor]. eexists. vm_compute. reflexivity.
  - intros cc [= <-]. vm_compute. discriminate.
Qed.

Lemma sample_cursor :
  (0 <= cursor sample_file <= Z.of_nat (length (contents sample_file))) /\ cursor sample_file + 2 ^ 32 <= 2 ^ 64.
Proof. split; [split|]; vm_compute; discriminate. Qed.

Lemma imaged_returns :
  imaged_run = (Ok (inner imaged_run.2.2), (imaged_run.2.1.1, imaged_run.2.1.2, imaged_run.2.2)) /\
  Z.of_nat (length (inner imaged_run.2.2)) < 2 ^ 32.
Proof.
  split; [|vm_compute; reflexivity].
  assert (H1 : imaged_run.1 = Ok (inner imaged_run.2.2)) by (vm_compute; reflexivity).
  rewrite <- H1. by destruct imaged_run as [? [[? ?] ?]].
Qed.

Lemma mac_dump_describes_witness :
  length (@listed_images x64_debug layout imaged_mach (@TaskDumper_new imaged_mach 7)) = 2%nat /\
  exists es, length es = 8%nat /\ @mac_describes x64_debug layout mac_layout imaged_mach sample_cpu 5
    sample_writer imaged_run.2.1.1 [259; 515] es (inner imaged_run.2.2).
Proof.
  split; [vm_compute; reflexivity|].
  destruct (@mac_dump_describes x64_debug layout layout_ok mac_layout mac_layout_ok imaged_mach sample_cpu
    sample_cpu_ok 5 sample_writer imaged_run.2.1.1 [259; 515] sample_file imaged_run.2.1.2
    (inner imaged_run.2.2) imaged_run.2.2 1700000000 (proj1 sample_cursor) (proj2 sample_cursor) eq_refl
    imaged_listed (proj1 imaged_returns) (proj2 imaged_returns)) as (_ & es & Hes & _ & Hd).
  exists es. split; [exact Hes|exact Hd].
Defined.

Lemma mac_dump_succeeds_witness :
  exists bytes c' f', @MacWriter.dump x64_debug layout mac_layout imaged_mach sample_cpu File _ 5
      (sample_writer, sample_file) = (Ok bytes, (c', f')) /\
    take (3 + length bytes) (contents f') = le_split 3 0x030201 ++ bytes.
Proof.
  destruct (@mac_dump_succeeds x64_debug layout layout_ok mac_layout mac_layout_ok imaged_mach sample_cpu
    sample_cpu_ok 5 sample_writer [259; 515] sample_file 1700000000 (proj1 sample_cursor)
    (proj2 sample_cursor) eq_refl imaged_listed imaged_orderly (proj2 imaged_returns))
    as (bytes & c' & f' & Hrun & Ht).
  exists bytes, c', f'. split; [exact Hrun|exact Ht].
Defined.

(** The thread that is dumped is the one that crashed. *)
Lemma mac_dump_streams_agree_witness :
  exists (v : MDRawThread) (x : MDRawExceptionStream) registers, thread_id v = 259 /\ es_thread_id x = 259 /\
    stands 0 (inner imaged_run.2.2) (rva (thread_context v)) registers /\
    stands 0 (inner imaged_run.2.2) (rva (es_thread_context x)) registers.
Proof.
  destruct (@mac_dump_streams_agree x64_debug layout layout_ok mac_layout mac_layout_ok imaged_mach sample_cpu
    sample_cpu_ok 5 sample_writer imaged_run.2.1.1 [259; 515] sample_file imaged_run.2.1.2
    (inner imaged_run.2.2) imaged_run.2.2 1700000000 0 259 (proj1 sample_cursor) (proj2 sample_cursor) eq_refl
    imaged_listed (proj1 imaged_returns) (proj2 imaged_returns) eq_refl)
    as (es & e0 & e1 & v & registers & _ & _ & _ & _ & Hid & Hr & _ & _ & Hx & _).
  destruct (Hx _ eq_refl eq_refl eq_refl) as (e7 & x & _ & _ & Hidx & Hrx).
  exists v, x, registers. split_and!; [exact Hid|exact Hidx|exact Hr|exact Hrx].
Defined.
