(* ===== verification/WindowsWriter.v ===== *)
(** * The Windows writer (src/src/windows/minidump_writer.rs,
      src/src/windows/errors.rs, src/src/windows/ffi.rs)

    On Windows the system writes the dump ([MiniDumpWriteDump]); the writer
    captures the context of a thread, opens the process and closes what it
    opened.  Shown is that every handle it opens is closed whatever fails, that a
    thread it suspends is resumed unless resuming it fails, and what the system is
    asked to dump. *)
From Stdlib Require Import ZArith Lia String.
From stdpp Require Import gmap.
From S2P Require Import Prelude RustStr Layout Errors.

Local Open Scope Z_scope.

Inductive Error :=
  | Error_Io (e : IoError)
  | Error_Scroll
  | Error_ThreadOpen (e : IoError)
  | Error_ThreadSuspend (e : IoError)
  | Error_ThreadContext (e : IoError).

(** ** ffi *)

Definition u32_MAX : Z := 2 ^ 32 - 1.
Definition HANDLE := Z.
Definition FALSE : Z := 0.
Definition STATUS_NONCONTINUABLE_EXCEPTION : Z := -1073741787.
Definition PROCESS_ALL_ACCESS : Z := 2097151.
Definition THREAD_SUSPEND_RESUME : Z := 2.
Definition THREAD_GET_CONTEXT : Z := 8.
Definition THREAD_QUERY_INFORMATION : Z := 64.

(** The flags of [MinidumpType], in the order of their bits; a value of the type
    is a union of flags. *)
Inductive MinidumpFlag :=
  | WithDataSegs | WithFullMemory | WithHandleData | FilterMemory | ScanMemory
  | WithUnloadedModules | WithIndirectlyReferencedMemory | FilterModulePaths
  | WithProcessThreadData | WithPrivateReadWriteMemory | WithoutOptionalData
  | WithFullMemoryInfo | WithThreadInfo | WithCodeSegs | WithoutAuxiliaryState
  | WithFullAuxiliaryState | WithPrivateWriteCopyMemory | IgnoreInaccessibleMemory
  | WithTokenInformation | WithModuleHeaders | FilterTriage | WithAvxXStateContext
  | WithIptTrace | ScanInaccessiblePartialPages | FilterWriteCombinedMemory.

Definition minidump_flags : list MinidumpFlag :=
  [WithDataSegs; WithFullMemory; WithHandleData; FilterMemory; ScanMemory; WithUnloadedModules;
   WithIndirectlyReferencedMemory; FilterModulePaths; WithProcessThreadData;
   WithPrivateReadWriteMemory; WithoutOptionalData; WithFullMemoryInfo; WithThreadInfo;
   WithCodeSegs; WithoutAuxiliaryState; WithFullAuxiliaryState; WithPrivateWriteCopyMemory;
   IgnoreInaccessibleMemory; WithTokenInformation; WithModuleHeaders; FilterTriage;
   WithAvxXStateContext; WithIptTrace; ScanInaccessiblePartialPages; FilterWriteCombinedMemory].

#[export] Instance MinidumpFlag_eq_dec : EqDecision MinidumpFlag.
Proof. solve_decision. Defined.

Definition flag_bits (f : MinidumpFlag) : Z :=
  match list_find (eq f) minidump_flags with Some (i, _) => Z.shiftl 1 (Z.of_nat i) | None => 0 end.

Definition MinidumpType := Z.
Definition Normal : MinidumpType := 0.

Example filter_write_combined_bits : flag_bits FilterWriteCombinedMemory = Z.shiftl 1 24.
Proof. reflexivity. Qed.

(** [EXCEPTION_POINTERS] on the stack of the writer, or an address the caller
    gave, in the memory of the process that crashed. *)
Inductive EXCEPTION_POINTERS (CONTEXT : Type) :=
  | OwnPointers (ExceptionCode : Z) (ContextRecord : CONTEXT)
  | CallerPointers (address : Z).
Arguments OwnPointers {CONTEXT} _ _.
Arguments CallerPointers {CONTEXT} _.

Record MINIDUMP_EXCEPTION_INFORMATION (CONTEXT : Type) := mkExceptionInformation {
  ThreadId : Z;
  ExceptionPointers : EXCEPTION_POINTERS CONTEXT;
  ClientPointers : Z;
}.
Arguments mkExceptionInformation {CONTEXT} _ _ _.
Arguments ThreadId {CONTEXT} _.
Arguments ExceptionPointers {CONTEXT} _.
Arguments ClientPointers {CONTEXT} _.

(** A user stream with the bytes of its buffer. *)
Record MINIDUMP_USER_STREAM := mkUserStream {
  us_Type : Z;
  BufferSize : Z;
  us_Buffer : list byte;
}.

(** The arguments of [MiniDumpWriteDump]; no callback is ever given. *)
Record DumpRequest (CONTEXT : Type) := mkRequest {
  rq_process : HANDLE;
  rq_process_id : Z;
  rq_file : HANDLE;
  rq_dump_type : MinidumpType;
  rq_exception : option (MINIDUMP_EXCEPTION_INFORMATION CONTEXT);
  rq_user_streams : list MINIDUMP_USER_STREAM;
}.
Arguments mkRequest {CONTEXT} _ _ _ _ _ _.
Arguments rq_process {CONTEXT} _.
Arguments rq_process_id {CONTEXT} _.
Arguments rq_file {CONTEXT} _.
Arguments rq_dump_type {CONTEXT} _.
Arguments rq_exception {CONTEXT} _.
Arguments rq_user_streams {CONTEXT} _.

(** The system calls over a state of the system, and constants of
    minidump-common.  [GetThreadContext] gives no context when it fails. *)
Class Windows (K : Type) := {
  CONTEXT : Type;
  GetCurrentThreadId : Z;
  GetCurrentProcess : HANDLE;
  current_process_id : Z;
  capture_context : K -> CONTEXT;
  OpenThread : Z -> Z -> Z -> K -> HANDLE * K;
  SuspendThread : HANDLE -> K -> Z * K;
  GetThreadContext : HANDLE -> K -> option CONTEXT * K;
  ResumeThread : HANDLE -> K -> Z * K;
  CloseHandle : HANDLE -> K -> K;
  OpenProcess : Z -> Z -> Z -> K -> HANDLE * K;
  MiniDumpWriteDump : DumpRequest CONTEXT -> K -> Z * K;
  last_os_error : K -> IoError;
  BreakpadInfoStream : Z;
  BreakpadInfoValid_DumpThreadId : Z;
  BreakpadInfoValid_RequestingThreadId : Z;
}.

(** ** The writer *)

Section windows.
Context {K : Type} {W : Windows K}.

Notation M := (ST K Error).

Definition call {A} (f : K -> A * K) : M A := fun k => let '(a, k') := f k in (Ok a, k').
Definition fail_last {A} (f : IoError -> Error) : M A := fun k => (Err (f (last_os_error k)), k).

(** The handle is closed when it goes out of scope. *)
Definition with_handle {A} (h : HANDLE) (m : M A) : M A := fun k =>
  let '(r, k') := m k in (r, CloseHandle h k').

Record CrashContext := mkCrashContext {
  exception_pointers : option (EXCEPTION_POINTERS CONTEXT);
  cc_process_id : Z;
  cc_thread_id : Z;
  cc_exception_code : Z;
}.

Record MinidumpWriter := mkWriter {
  exc_info : option (MINIDUMP_EXCEPTION_INFORMATION CONTEXT);
  crashing_process : HANDLE;
  w_pid : Z;
  w_tid : Z;
  exception_code : Z;
  is_external_process : bool;
}.

(** The context of a thread of this process. *)
Definition thread_context (tid : Z) : M CONTEXT :=
  if tid =? GetCurrentThreadId then k ← st_get; mret (capture_context k)
  else
    thread_handle ← call (OpenThread (Z.lor (Z.lor THREAD_GET_CONTEXT THREAD_QUERY_INFORMATION)
                                        THREAD_SUSPEND_RESUME) FALSE tid);
    if thread_handle =? 0 then fail_last Error_ThreadOpen
    else with_handle thread_handle (
      previous ← call (SuspendThread thread_handle);
      if previous =? u32_MAX then fail_last Error_ThreadSuspend
      else
        ec ← call (GetThreadContext thread_handle);
        match ec with
        | None => call (ResumeThread thread_handle);; fail_last Error_ThreadContext
        | Some ec => call (ResumeThread thread_handle);; mret ec
        end).

Definition fill_breakpad_stream (self : MinidumpWriter) : option (list byte) :=
  if is_external_process self then None
  else Some (le_split 4 (Z.lor BreakpadInfoValid_DumpThreadId BreakpadInfoValid_RequestingThreadId) ++
             le_split 4 (w_tid self) ++ le_split 4 GetCurrentThreadId).

(** The writer is dropped at the end, which closes the process. *)
Definition dump (self : MinidumpWriter) (minidump_type : option MinidumpType) (destination : HANDLE)
    : M unit :=
  with_handle (crashing_process self) (
    let user_streams :=
      match fill_breakpad_stream self with
      | Some bp_info =>
          [mkUserStream BreakpadInfoStream (wrap 32 (Z.of_nat (List.length bp_info))) bp_info]
      | None => []
      end in
    ret ← call (MiniDumpWriteDump (mkRequest (crashing_process self) (w_pid self) destination
                  (default Normal minidump_type) (exc_info self) user_streams));
    if ret =? 0 then fail_last Error_Io else mret tt).

(** The process to dump, and whether it is another one. *)
Definition open_process (pid : Z) : M (HANDLE * bool) :=
  if negb (pid =? current_process_id) then
    proc ← call (OpenProcess PROCESS_ALL_ACCESS FALSE pid);
    if proc =? 0 then fail_last Error_Io else mret (proc, true)
  else mret (GetCurrentProcess, false).

(** The writer for a crash context.  The pointers of another process have to be
    read from its memory. *)
Definition writer_of (crash_context : CrashContext) (crashing_process : HANDLE)
    (is_external_process : bool) : MinidumpWriter :=
  mkWriter ((fun p => mkExceptionInformation (cc_thread_id crash_context) p
                        (Z.b2z is_external_process)) <$> exception_pointers crash_context)
    crashing_process (cc_process_id crash_context) (cc_thread_id crash_context)
    (cc_exception_code crash_context) is_external_process.

Definition dump_crash_context (crash_context : CrashContext) (minidump_type : option MinidumpType)
    (destination : HANDLE) : M unit :=
  opened ← open_process (cc_process_id crash_context);
  let '(crashing_process, is_external_process) := opened in
  dump (writer_of crash_context crashing_process is_external_process) minidump_type destination.

Definition dump_local_context (exception_code thread_id : option Z)
    (minidump_type : option MinidumpType) (destination : HANDLE) : M unit :=
  let exception_code := default STATUS_NONCONTINUABLE_EXCEPTION exception_code in
  exception_context ← (match thread_id with
                       | Some tid => thread_context tid
                       | None => k ← st_get; mret (capture_context k)
                       end);
  dump_crash_context
    (mkCrashContext (Some (OwnPointers exception_code exception_context)) current_process_id
       (default GetCurrentThreadId thread_id) exception_code) minidump_type destination.
End windows.

(** ** The contract of the system *)

(** What a handle refers to. *)
Inductive Object := OThread (tid : Z) | OProcess (pid : Z).

(** [handles k] are the open handles, [suspensions k] the suspend count of each
    thread, [requested k] the dumps asked for so far, [thread_registers k] the
    registers of each thread.  Opening returns 0 or a new handle; suspending and
    resuming return the previous count, or the largest word when they fail, and
    then change nothing; the context of a suspended thread, if it is returned,
    holds its registers; closing the pseudo handle of this process has no
    effect. *)
Class WindowsOk (K : Type) (W : Windows K) := {
  handles : K -> gmap HANDLE Object;
  suspensions : K -> Z -> nat;
  requested : K -> list (DumpRequest CONTEXT);
  thread_registers : K -> Z -> CONTEXT;
  capture_law : forall k, capture_context k = thread_registers k GetCurrentThreadId;
  pseudo_law : forall k, handles k !! GetCurrentProcess = None;
  open_thread_law : forall a i tid k h k', OpenThread a i tid k = (h, k') ->
    suspensions k' = suspensions k /\ requested k' = requested k /\
    (h = 0 /\ handles k' = handles k \/
     h <> 0 /\ handles k !! h = None /\ handles k' = <[h := OThread tid]> (handles k));
  open_process_law : forall a i pid k h k', OpenProcess a i pid k = (h, k') ->
    suspensions k' = suspensions k /\ requested k' = requested k /\
    (h = 0 /\ handles k' = handles k \/
     h <> 0 /\ handles k !! h = None /\ handles k' = <[h := OProcess pid]> (handles k));
  suspend_law : forall h tid k r k', handles k !! h = Some (OThread tid) ->
    SuspendThread h k = (r, k') ->
    handles k' = handles k /\ requested k' = requested k /\
    forall t, suspensions k' t =
      (suspensions k t + if decide (r <> u32_MAX /\ t = tid) then 1 else 0)%nat;
  context_law : forall h k r k', GetThreadContext h k = (r, k') ->
    handles k' = handles k /\ requested k' = requested k /\ suspensions k' = suspensions k /\
    forall tid c, handles k !! h = Some (OThread tid) -> (0 < suspensions k tid)%nat -> r = Some c ->
      c = thread_registers k tid;
  resume_law : forall h tid k r k', handles k !! h = Some (OThread tid) ->
    ResumeThread h k = (r, k') ->
    handles k' = handles k /\ requested k' = requested k /\
    forall t, suspensions k' t =
      (suspensions k t - if decide (r <> u32_MAX /\ t = tid) then 1 else 0)%nat;
  close_law : forall h k, handles (CloseHandle h k) = delete h (handles k) /\
    suspensions (CloseHandle h k) = suspensions k /\ requested (CloseHandle h k) = requested k;
  dump_law : forall rq k r k', MiniDumpWriteDump rq k = (r, k') ->
    handles k' = handles k /\ suspensions k' = suspensions k /\ requested k' = requested k ++ [rq];
}.

Section theory.
Context {K : Type} {W : Windows K} {WO : WindowsOk K W}.

(** Nothing opened and nothing suspended is left behind. *)
Definition clean (k k' : K) : Prop :=
  handles k' = handles k /\ forall t, suspensions k' t = suspensions k t.

(** Resuming a suspended thread does not fail. *)
Definition resume_complies : Prop := forall h tid (k : K),
  handles k !! h = Some (OThread tid) -> (0 < suspensions k tid)%nat ->
  (ResumeThread h k).1 <> u32_MAX.

(** At most the thread [tid], and only once, stays suspended, and it does not
    unless resuming it failed. *)
Definition clean_but (tid : Z) (k k' : K) : Prop :=
  handles k' = handles k /\
  (forall t, suspensions k' t = suspensions k t \/
     t = tid /\ suspensions k' t = S (suspensions k t)) /\
  (resume_complies -> forall t, suspensions k' t = suspensions k t).

Lemma clean_trans k1 k2 k3 : clean k1 k2 -> clean k2 k3 -> clean k1 k3.
Proof. intros [H1 H2] [H3 H4]. split; [congruence|]. intros t. by rewrite H4, H2. Qed.

Lemma clean_weaken tid k k' : clean k k' -> clean_but tid k k'.
Proof. intros [Hh Hs]. split_and!; [done|by left|done]. Qed.

Lemma clean_but_trans tid k1 k2 k3 : clean_but tid k1 k2 -> clean k2 k3 -> clean_but tid k1 k3.
Proof.
  intros (H1 & H2 & H3) [H4 H5]. split_and!; [congruence| |]; setoid_rewrite H5; done.
Qed.

(** The thread [t] has been opened by [h] and suspended. *)
Definition suspended_by (t : Z) (k k1 k2 : K) (h : HANDLE) (previous : Z) : Prop :=
  OpenThread (Z.lor (Z.lor THREAD_GET_CONTEXT THREAD_QUERY_INFORMATION) THREAD_SUSPEND_RESUME) FALSE t k
    = (h, k1) /\ h <> 0 /\ SuspendThread h k1 = (previous, k2).

(** [c] holds the registers of [t]: those it has now, when it is the caller, and
    otherwise those it has once it is suspended. *)
Definition captured (t : Z) (k : K) (c : CONTEXT) : Prop :=
  t = GetCurrentThreadId /\ c = thread_registers k t \/
  t <> GetCurrentThreadId /\ exists h previous k1 k2, suspended_by t k k1 k2 h previous /\
    previous <> u32_MAX /\ (0 < suspensions k2 t)%nat /\ c = thread_registers k2 t.

(** The other thread [t] cannot be opened, or suspended, or its context read. *)
Definition capture_failed (t : Z) (k : K) (e : Error) : Prop :=
  t <> GetCurrentThreadId /\
  ((exists k1, (OpenThread (Z.lor (Z.lor THREAD_GET_CONTEXT THREAD_QUERY_INFORMATION)
                            THREAD_SUSPEND_RESUME) FALSE t k) = (0, k1) /\
      e = Error_ThreadOpen (last_os_error k1)) \/
   exists h previous k1 k2, suspended_by t k k1 k2 h previous /\
     ((previous = u32_MAX /\ e = Error_ThreadSuspend (last_os_error k2)) \/
      (previous <> u32_MAX /\ (GetThreadContext h k2).1 = None /\
       exists io, e = Error_ThreadContext io))).

(** Closing a handle just opened undoes the opening. *)
Lemma close_opened k k1 k2 h o :
  handles k !! h = None -> handles k1 = <[h := o]> (handles k) -> handles k2 = handles k1 ->
  handles (CloseHandle h k2) = handles k.
Proof.
  intros Hn H1 H2. destruct (close_law h k2) as (-> & _). rewrite H2, H1. by apply delete_insert_id.
Qed.

(** What resuming and closing leave behind. *)
Lemma resumed_closed k k1 k2 k3 k4 tid h previous q :
  suspended_by tid k k1 k2 h previous -> previous <> u32_MAX ->
  handles k1 !! h = Some (OThread tid) -> handles (CloseHandle h k4) = handles k ->
  suspensions k1 = suspensions k -> handles k3 = handles k1 -> suspensions k3 = suspensions k2 ->
  (forall t, suspensions k2 t = (suspensions k1 t + if decide (previous <> u32_MAX /\ t = tid) then 1 else 0)%nat) ->
  ResumeThread h k3 = (q, k4) ->
  (forall t, suspensions k4 t = (suspensions k3 t - if decide (q <> u32_MAX /\ t = tid) then 1 else 0)%nat) ->
  clean_but tid k (CloseHandle h k4).
Proof.
  intros _ Hp Hl Hh Hs1 Hh3 Hs3 Hs2 E4 Hs4. destruct (close_law h k4) as (_ & Hsc & _).
  split_and!; [done| |].
  - intros t. rewrite Hsc, Hs4, Hs3, Hs2, Hs1.
    destruct (decide (t = tid)) as [->|Ht]; repeat case_decide; try lia; try naive_solver lia.
  - intros Hc t. assert (Hq : q <> u32_MAX).
    { pose proof (Hc h tid k3) as Hc'. rewrite E4 in Hc'. apply Hc'; [congruence|].
      rewrite Hs3, Hs2, decide_True by done. lia. }
    rewrite Hsc, Hs4, Hs3, Hs2, Hs1.
    destruct (decide (t = tid)) as [->|Ht]; repeat case_decide; try lia; naive_solver lia.
Qed.

Lemma thread_context_clean tid k : let '(r, k') := thread_context tid k in
  clean_but tid k k' /\ (tid = GetCurrentThreadId -> clean k k') /\ requested k' = requested k /\
  match r with
  | Ok c => captured tid k c
  | Err e => capture_failed tid k e
  | Panic => False
  end.
Proof.
  unfold thread_context. destruct (Z.eqb_spec tid GetCurrentThreadId) as [->|Hcur].
  { split_and!; [by apply clean_weaken|done|done|]. left. by rewrite <- capture_law. }
  unfold call, fail_last, with_handle, mbind, ST_bind, captured, capture_failed.
  destruct (OpenThread _ _ _ _) as [h k1] eqn:E1.
  pose proof (open_thread_law _ _ _ _ _ _ E1) as (Hs1 & Hr1 & [[-> Hh1]|(Hne & Hn & Hh1)]).
  { cbn. split_and!; [apply clean_weaken; split; [done|by rewrite Hs1]|done|done|done|]. eauto. }
  rewrite (proj2 (Z.eqb_neq h 0) Hne).
  assert (Hlook : handles k1 !! h = Some (OThread tid)) by (rewrite Hh1; apply lookup_insert_eq).
  destruct (SuspendThread h k1) as [p k2] eqn:E2.
  assert (Hby : suspended_by tid k k1 k2 h p) by done.
  apply (suspend_law h tid) in E2 as (Hh2 & Hr2 & Hs2); [|done].
  destruct (Z.eqb_spec p u32_MAX) as [->|Hp].
  { destruct (close_law h k2) as (_ & Hsc & Hrc).
    split_and!; [apply clean_weaken|done|congruence|done|right; by eauto 10].
    split; [by apply (close_opened k k1 k2 h (OThread tid))|].
    intros t. rewrite Hsc, Hs2, Hs1, decide_False by (intros [? ?]; done). lia. }
  destruct (GetThreadContext h k2) as [c k3] eqn:E3.
  pose proof (context_law _ _ _ _ E3) as (Hh3 & Hr3 & Hs3 & Hc3).
  destruct (ResumeThread h k3) as [q k4] eqn:E4.
  destruct (resume_law h tid k3 q k4) as (Hh4 & Hr4 & Hs4); [congruence|done|].
  assert (Hpos : (0 < suspensions k2 tid)%nat) by (rewrite Hs2, decide_True by done; lia).
  assert (Hend : clean_but tid k (CloseHandle h k4)).
  { apply (resumed_closed k k1 k2 k3 k4 tid h p q); try done; [|congruence].
    apply (close_opened k k1 k4 h (OThread tid)); congruence. }
  destruct (close_law h k4) as (_ & _ & Hrc).
  destruct c as [c|]; cbn [mret ST_ret]; rewrite E4; split_and!; try done; try congruence; right.
  - split; [done|]. exists h, p, k1, k2. split_and!; [done..|]. apply Hc3; [congruence|done|done].
  - exists h, p, k1, k2. split; [done|]. right. rewrite E3. eauto.
Qed.

(** The streams of the writer for a thread of this process. *)
Definition breakpad_streams (tid : Z) : list MINIDUMP_USER_STREAM :=
  [mkUserStream BreakpadInfoStream 12
     (le_split 4 (Z.lor BreakpadInfoValid_DumpThreadId BreakpadInfoValid_RequestingThreadId) ++
      le_split 4 tid ++ le_split 4 GetCurrentThreadId)].

(** [dump] closes the process whatever the system answers. *)
Lemma dump_run self ty dest k : let '(r, k') := dump self ty dest k in
  handles k' = delete (crashing_process self) (handles k) /\ suspensions k' = suspensions k /\
  (r = Ok tt \/ exists io, r = Err (Error_Io io)) /\
  requested k' = requested k ++
    [mkRequest (crashing_process self) (w_pid self) dest (default Normal ty) (exc_info self)
       (if is_external_process self then [] else breakpad_streams (w_tid self))].
Proof.
  unfold dump, with_handle, call, fail_last, mbind, ST_bind. cbv zeta.
  assert (Hst : match fill_breakpad_stream self with
    | Some bp_info => [mkUserStream BreakpadInfoStream (wrap 32 (Z.of_nat (List.length bp_info))) bp_info]
    | None => [] end = if is_external_process self then [] else breakpad_streams (w_tid self)).
  { unfold fill_breakpad_stream, breakpad_streams. destruct (is_external_process self); [done|].
    by rewrite !length_app, !length_le_split. }
  rewrite Hst. destruct (MiniDumpWriteDump _ k) as [r k1] eqn:E1.
  apply dump_law in E1 as (Hh & Hs & Hr).
  destruct (close_law (crashing_process self) k1) as (Hhc & Hsc & Hrc).
  destruct (r =? 0); cbn [mret ST_ret]; rewrite Hhc, Hsc, Hrc, Hh, Hs, Hr; split_and!; eauto.
Qed.

(** The request for a crash context, given the handle of its process. *)
Definition request_of (cc : CrashContext) (ty : option MinidumpType) (dest h : HANDLE)
    (external : bool) : DumpRequest CONTEXT :=
  mkRequest h (cc_process_id cc) dest (default Normal ty)
    ((fun p => mkExceptionInformation (cc_thread_id cc) p (Z.b2z external)) <$> exception_pointers cc)
    (if external then [] else breakpad_streams (cc_thread_id cc)).

Lemma dump_crash_context_run cc ty dest k : let '(r, k') := dump_crash_context cc ty dest k in
  clean k k' /\ (r = Ok tt \/ exists io, r = Err (Error_Io io)) /\
  if cc_process_id cc =? current_process_id
  then requested k' = requested k ++ [request_of cc ty dest GetCurrentProcess false]
  else let '(h, _) := OpenProcess PROCESS_ALL_ACCESS FALSE (cc_process_id cc) k in
       if h =? 0 then requested k' = requested k /\ exists e, r = Err (Error_Io e)
       else requested k' = requested k ++ [request_of cc ty dest h true].
Proof.
  unfold dump_crash_context, open_process, call, fail_last, mbind, ST_bind.
  destruct (Z.eqb_spec (cc_process_id cc) current_process_id) as [Hpid|Hpid]; cbn [negb].
  - cbn [mret ST_ret]. pose proof (dump_run (writer_of cc GetCurrentProcess false) ty dest k) as Hd.
    destruct (dump _ ty dest k) as [r k']. destruct Hd as (Hh & Hs & Hr & Hq).
    split_and!; [|done..]. split; [|intros t; by rewrite Hs].
    rewrite Hh. cbn [crashing_process writer_of]. by apply delete_id, pseudo_law.
  - destruct (OpenProcess _ _ _ k) as [h k1] eqn:E1.
    apply open_process_law in E1 as (Hs1 & Hr1 & [[-> Hh1]|(Hne & Hn & Hh1)]).
    { cbn. unfold clean. rewrite Hs1. by split_and!; eauto. }
    rewrite (proj2 (Z.eqb_neq h 0) Hne). cbn [mret ST_ret].
    pose proof (dump_run (writer_of cc h true) ty dest k1) as Hd.
    destruct (dump _ ty dest k1) as [r k']. destruct Hd as (Hh & Hs & Hr & Hq).
    rewrite Hr1 in Hq. split_and!; [|done..]. split; [|intros t; by rewrite Hs, Hs1].
    rewrite Hh, Hh1. cbn [crashing_process writer_of]. by apply delete_insert_id.
Qed.
End theory.

(** ** Properties *)

(** C22: a dump of this process.  Whatever thread is named and whichever call
    fails, every handle opened is closed again, and no thread but a named other
    one stays suspended, that one once and only if resuming it failed.  Either
    the named other thread could not be opened, suspended or its context read;
    then the error says which, and the system is asked for nothing.  Or the
    system is asked for exactly one dump, of this process, with the exception
    code, the registers of the named thread (of the caller, if none is named)
    taken while it was suspended, pointers of this process and the identifiers of
    both threads; then the call succeeds or fails with the error of the system. *)
Theorem windows_local_dump (K : Type) (W : Windows K) (WO : WindowsOk K W) (code tid : option Z)
    (ty : option MinidumpType) (dest : HANDLE) (k : K) :
  let '(r, k') := dump_local_context code tid ty dest k in
  let t := default GetCurrentThreadId tid in
  clean_but t k k' /\ (t = GetCurrentThreadId -> clean k k') /\
  ((exists e, r = Err e /\ capture_failed t k e /\ requested k' = requested k) \/
   (exists c, captured t k c /\ (r = Ok tt \/ exists io, r = Err (Error_Io io)) /\
      requested k' = requested k ++
        [mkRequest GetCurrentProcess current_process_id dest (default Normal ty)
           (Some (mkExceptionInformation t
              (OwnPointers (default STATUS_NONCONTINUABLE_EXCEPTION code) c) 0))
           (breakpad_streams t)])).
Proof.
  unfold dump_local_context. cbv zeta. set (t := default GetCurrentThreadId tid).
  set (m := match tid with Some t => thread_context t | None => _ end).
  assert (Hm : let '(r, k') := m k in
    clean_but t k k' /\ (t = GetCurrentThreadId -> clean k k') /\ requested k' = requested k /\
    match r with Ok c => captured t k c | Err e => capture_failed t k e | Panic => False end).
  { subst m t. destruct tid; [apply thread_context_clean|]. cbn.
    split_and!; [by apply clean_weaken|done|done|]. left. by rewrite <- capture_law. }
  unfold mbind, ST_bind. destruct (m k) as [[c|e|] k1];
    destruct Hm as (Hc & Hc0 & Hq & Hr); [|by split_and!; eauto 10|done].
  pose proof (dump_crash_context_run (mkCrashContext
    (Some (OwnPointers (default STATUS_NONCONTINUABLE_EXCEPTION code) c)) current_process_id
    t (default STATUS_NONCONTINUABLE_EXCEPTION code)) ty dest k1) as Hd.
  destruct (dump_crash_context _ ty dest k1) as [r k']. cbn [cc_process_id] in Hd.
  rewrite Z.eqb_refl, Hq in Hd. destruct Hd as (Hc' & Hr' & Hq').
  split_and!; [by eapply clean_but_trans|by intros Ht; eapply clean_trans; [apply Hc0|]|].
  right. by exists c.
Qed.

(** a dump of another process.  The process is opened, the system is asked for
    one dump of it with the pointers marked as those of the other process and
    without the identifiers of the threads of this one, and the handle is closed
    whether the dump succeeds or not; when the process cannot be opened nothing
    is asked. *)
Theorem windows_external_dump (K : Type) (W : Windows K) (WO : WindowsOk K W) (cc : CrashContext)
    (ty : option MinidumpType) (dest : HANDLE) (k : K) :
  cc_process_id cc <> current_process_id ->
  let '(r, k') := dump_crash_context cc ty dest k in
  clean k k' /\
  match OpenProcess PROCESS_ALL_ACCESS FALSE (cc_process_id cc) k with
  | (0, _) => requested k' = requested k /\ exists e, r = Err (Error_Io e)
  | (h, _) => requested k' = requested k ++
      [mkRequest h (cc_process_id cc) dest (default Normal ty)
         ((fun p => mkExceptionInformation (cc_thread_id cc) p 1) <$> exception_pointers cc) []]
  end.
Proof.
  intros Hne. pose proof (dump_crash_context_run cc ty dest k) as Hd.
  destruct (dump_crash_context cc ty dest k) as [r k']. destruct Hd as (Hc & _ & Hd).
  rewrite (proj2 (Z.eqb_neq _ _) Hne) in Hd. split; [done|].
  destruct (OpenProcess _ _ _ k) as [h k1]. by destruct h.
Qed.

(** ** A concrete system *)

Record ToyState := mkToy {
  toy_handles : gmap HANDLE Object;
  toy_counts : gmap Z nat;
  toy_requests : list (DumpRequest Z);
}.

(** A new handle for an object; the registers of a thread hold its identifier
    plus 1000. *)
Definition toy_open (o : Object) (k : ToyState) : HANDLE * ToyState :=
  let h := fresh (dom (toy_handles k) ∪ {[0; -1]}) in
  (h, mkToy (<[h := o]> (toy_handles k)) (toy_counts k) (toy_requests k)).

Definition toy_count (k : ToyState) (t : Z) : nat := default 0%nat (toy_counts k !! t).

Definition toy_adjust (f : nat -> nat) (h : HANDLE) (k : ToyState) : Z * ToyState :=
  match toy_handles k !! h with
  | Some (OThread t) => (Z.of_nat (toy_count k t) mod u32_MAX,
      mkToy (toy_handles k) (<[t := f (toy_count k t)]> (toy_counts k)) (toy_requests k))
  | _ => (u32_MAX, k)
  end.

Definition toy_windows : Windows ToyState := {|
  CONTEXT := Z;
  GetCurrentThreadId := 7;
  GetCurrentProcess := -1;
  current_process_id := 42;
  capture_context _ := 1007;
  OpenThread _ _ tid k := if tid =? 0 then (0, k) else toy_open (OThread tid) k;
  SuspendThread := toy_adjust S;
  GetThreadContext h k :=
    (match toy_handles k !! h with
     | Some (OThread t) => if (toy_count k t =? 0)%nat then None else Some (1000 + t)
     | _ => None
     end, k);
  ResumeThread := toy_adjust pred;
  CloseHandle h k := mkToy (delete h (toy_handles k)) (toy_counts k) (toy_requests k);
  OpenProcess _ _ pid k := if pid =? 0 then (0, k) else toy_open (OProcess pid) k;
  MiniDumpWriteDump rq k := (1, mkToy (toy_handles k) (toy_counts k) (toy_requests k ++ [rq]));
  last_os_error _ := OsError 5;
  BreakpadInfoStream := 0x47670001;
  BreakpadInfoValid_DumpThreadId := 1;
  BreakpadInfoValid_RequestingThreadId := 2;
|}.

Lemma toy_open_fresh o k h k' : toy_open o k = (h, k') ->
  h <> 0 /\ h <> -1 /\ toy_handles k !! h = None /\ toy_handles k' = <[h := o]> (toy_handles k) /\
  toy_counts k' = toy_counts k /\ toy_requests k' = toy_requests k.
Proof.
  intros [= <- <-]. cbn. set (h := fresh _).
  assert (Hf : h ∉ dom (toy_handles k) ∪ {[0; -1]}) by apply is_fresh.
  split_and!; try done; [set_solver|set_solver|]. apply not_elem_of_dom. set_solver.
Qed.

Lemma toy_adjust_run f h tid k r k' : toy_handles k !! h = Some (OThread tid) ->
  toy_adjust f h k = (r, k') ->
  r <> u32_MAX /\ toy_handles k' = toy_handles k /\ toy_requests k' = toy_requests k /\
  forall t, toy_count k' t = if decide (t = tid) then f (toy_count k t) else toy_count k t.
Proof.
  unfold toy_adjust. intros ->. intros [= <- <-]. cbn. split_and!; [|done..|].
  - pose proof (Z.mod_pos_bound (Z.of_nat (toy_count k tid)) u32_MAX ltac:(done)). lia.
  - intros t. unfold toy_count at 1. cbn. case_decide as Ht.
    + subst t. by rewrite lookup_insert_eq.
    + by rewrite lookup_insert_ne.
Qed.

(** The handles other than the pseudo handle. *)
Definition toy_open_handles (k : ToyState) : gmap HANDLE Object := delete (-1) (toy_handles k).

Lemma toy_open_law o k h k' : toy_open o k = (h, k') ->
  toy_count k' = toy_count k /\ toy_requests k' = toy_requests k /\
  (h = 0 /\ toy_open_handles k' = toy_open_handles k \/
   h <> 0 /\ toy_open_handles k !! h = None /\
   toy_open_handles k' = <[h := o]> (toy_open_handles k)).
Proof.
  intros (H0 & H1 & Hn & Hh & Hc & Hr)%toy_open_fresh. unfold toy_count, toy_open_handles.
  rewrite Hc, Hh. split_and!; [done..|]. right. split_and!; [done| |].
  - by rewrite lookup_delete_ne.
  - by rewrite delete_insert_ne.
Qed.

Definition toy_windows_ok : WindowsOk ToyState toy_windows.
Proof.
  refine (@Build_WindowsOk ToyState toy_windows toy_open_handles toy_count toy_requests
    (fun _ t => 1000 + t) _ _ _ _ _ _ _ _ _).
  - done.
  - intros k. apply lookup_delete_eq.
  - intros a i tid k h k'. cbn. destruct (tid =? 0); [|apply toy_open_law].
    intros [= <- <-]. by split_and!; [..|left].
  - intros a i pid k h k'. cbn. destruct (pid =? 0); [|apply toy_open_law].
    intros [= <- <-]. by split_and!; [..|left].
  - intros h tid k r k' Hk Hr. unfold toy_open_handles in Hk.
    apply lookup_delete_Some in Hk as [_ Hl]. cbn in Hr.
    destruct (toy_adjust_run _ _ _ _ _ _ Hl Hr) as (Hne & Hh & Hq & Hc). unfold toy_open_handles.
    rewrite Hh. split_and!; [done..|]. intros t. rewrite Hc. repeat case_decide; naive_solver lia.
  - intros h k r k' [= <- <-]. split_and!; [done..|]. intros tid c Hk _. unfold toy_open_handles in Hk.
    apply lookup_delete_Some in Hk as [_ ->]. case_match; [done|]. by intros [= <-].
  - intros h tid k r k' Hk Hr. unfold toy_open_handles in Hk.
    apply lookup_delete_Some in Hk as [_ Hl]. cbn in Hr.
    destruct (toy_adjust_run _ _ _ _ _ _ Hl Hr) as (Hne & Hh & Hq & Hc). unfold toy_open_handles.
    rewrite Hh. split_and!; [done..|]. intros t. rewrite Hc. repeat case_decide; naive_solver lia.
  - intros h k. split_and!; [|done..]. unfold toy_open_handles. cbn. by rewrite delete_delete.
  - intros rq k r k' [= <- <-]. done.
Defined.

(** Another thread of the process: it is resumed and its context is in the request. *)
Lemma windows_local_dump_witness :
  let '(r, k') := @dump_local_context ToyState toy_windows None (Some 9) None 20
    (mkToy ∅ ∅ []) in
  r = Ok tt /\ toy_handles k' = ∅ /\ toy_count k' 9 = 0%nat /\
  (rq_exception <$> toy_requests k') =
    [Some (mkExceptionInformation 9 (OwnPointers STATUS_NONCONTINUABLE_EXCEPTION 1009) 0)].
Proof.
  pose proof (@windows_local_dump ToyState toy_windows toy_windows_ok None (Some 9) None 20
    (mkToy ∅ ∅ [])) as Hd.
  assert (Hrun : let '(r, k') := @dump_local_context ToyState toy_windows None (Some 9) None 20
    (mkToy ∅ ∅ []) in r = Ok tt /\ toy_handles k' = ∅ /\ toy_count k' 9 = 0%nat)
    by (vm_compute; split_and!; reflexivity).
  destruct (@dump_local_context ToyState toy_windows None (Some 9) None 20 (mkToy ∅ ∅ [])) as [r k'].
  destruct Hrun as (Hr & Hh & Hn). split; [exact Hr|]. split; [exact Hh|]. split; [exact Hn|].
  destruct Hd as (_ & _ & [(e & He & _)|(c & Hc & _ & Hq)]); [rewrite Hr in He; discriminate He|].
  assert (Hreg : c = 1009) by (destruct Hc as [[Ht _]|(_ & h & p & k1 & k2 & _ & _ & _ & Hc)];
    [discriminate Ht|exact Hc]).
  cbn in Hq. rewrite Hq, Hreg. reflexivity.
Defined.

Lemma windows_external_dump_witness :
  let '(r, k') := @dump_crash_context ToyState toy_windows
    (mkCrashContext (Some (CallerPointers 4096)) 43 9 5) None 20 (mkToy ∅ ∅ []) in
  @clean ToyState toy_windows toy_windows_ok (mkToy ∅ ∅ []) k'.
Proof.
  pose proof (@windows_external_dump ToyState toy_windows toy_windows_ok
    (mkCrashContext (Some (CallerPointers 4096)) 43 9 5) None 20 (mkToy ∅ ∅ [])
    ltac:(discriminate)) as Hd.
  destruct (@dump_crash_context ToyState toy_windows _ None 20 (mkToy ∅ ∅ [])) as [r k'].
  exact (proj1 Hd).
Defined.
